(* ===== verification/_CoqProject ===== *)
-Q . S2P
Prelude.v
Text.v
Isa.v
Memory.v
Registers.v
Interrupt.v
Devices.v
Bus.v
Float.v
Profiler.v
Interconnect.v
Target.v
Host.v
Mmu.v
Translate.v
Emulator.v
EmulatorWf.v
Interface.v
Execute.v
Dma.v
Traps.v
Effects.v
Paging.v
Frame.v
Safety.v
Fast.v
Arch.v
Replay.v
Protect.v
Virtual.v
Console.v
Symbolic.v
Capi.v
Cache.v
Decoder.v
Translation.v
Microarch.v
Frontend.v
Tlm.v
Snapshot.v
Cluster.v
Interleave.v
Handshake.v
Demo.v
Programs.v
Showcase.v
Main.v
