(* ===== verification/Prelude.v ===== *)
(** * Novium emulator: verification library (root file)

    Novium (src/) is a C++20 emulator of a small accelerator: a 32-bit guest
    instruction set with vector and tile instructions, a scratchpad, a main
    memory reached by DMA, memory-mapped peripherals, traps and an MMU, around
    which stand timing models, guest front ends, a C interface and tooling.
    This library translates the whole of src/src and src/include/aiasm into
    Rocq functions and proves what makes the parts correct.

    ** The program and the files that model it

    - Data and storage.  [Isa]: config.h, isa.h (encodings, cycle weights,
      disassembler).  [Memory]: memory.h (the two byte memories). [Registers]:
      registers.h, csr.h, csr.cpp.  [Float]: the C++ float and double
      arithmetic the program uses.  [Text]: printf and string functions.
    - Machine parts.  [Interrupt]: interrupt.h, interrupt.cpp.  [Devices]:
      devices.h (timer and UART).  [Bus]: bus.h.  [Profiler]: profiler.h,
      pmc.h, pmc.cpp.  [Interconnect]: interconnect.h, interconnect.cpp.
      [Target]: target.h.  [Host]: host.h (SIMD kernels).  [Mmu]: mmu.h,
      mmu.cpp.  [Translate]: translate.h (block cache), debugger.h.
    - The machine.  [Emulator]: emulator.h, emulator.cpp.  Its record holds
      every field a member function can change; each handler [op_*], [fetch],
      [execute], [step], [run], [run_fast], the loaders, [reset] and the
      serialization functions is one definition of the same name.
      [Interface]: what a client can call, on the machine and on the parts
      it hands out by reference (CSRs, MMU, fabrics, interrupt controller,
      memories, devices, caches), each part with the class [Component] of
      calls that keep its invariant.  [EmulatorWf], [Execute], [Dma],
      [Traps], [Effects], [Paging], [Frame], [Safety] and [Fast] hold the
      theorems on it.  [Arch] is the instruction set as
      a specification, without fabrics, profiler, peripherals or host kernels,
      and [step] and [run] refine it, and [run_fast] by [Replay]; [Protect] is
      memory protection in user mode; [Virtual] is the instruction set again,
      on the virtual memories of a program that runs with paging on; [Console]
      adds the UART and shows what a program prints; [Symbolic] executes guest
      code on [Arch] with unknown data and [Programs] proves the program of
      main.cpp.
    - Around the machine.  [Capi]: aism.h and the extern C functions.
      [Cluster]: cluster.h, cluster.cpp (several emulators, one shared
      memory); [Interleave] and [Handshake] hold the theorems on cores that
      use the shared memory.  [Cache]: cache.h, cache.cpp.  [Microarch]:
      timing.h, deterministic.h, pipeline, parallel.  [Decoder]: decoder.h,
      decoder.cpp; [Translation]: translated guest programs, run.  [Frontend]:
      frontend.h, frontend.cpp.  [Tlm]: tlm.h, tlm.cpp. [Snapshot]:
      checkpoint, trace, fpga.  [Demo]: coremark.h, coremark.cpp and the first
      sections of main.cpp.  [Showcase]: its later sections, on the sources of
      src/examples.  [Main]: main itself, both modes, with the text it prints
      and its exit status.

    The emulator calls the bus for scalar loads, stores and unpaged fetches;
    the bus calls the devices or the scratchpad; DMA copies between the
    memories directly.  [step] checks interrupts, fetches, executes through
    the dispatch table, records in the profiler and, every thousand cycles,
    ticks devices and fabrics.  [run] repeats [step]; [run_fast] executes
    decoded blocks of the block cache.  The C interface wraps these calls; the
    cluster interleaves them; CoreMark, the front ends and main drive them.

    ** How it is modelled

    - A w-bit integer is a [Z] and every conversion and wrap-around is written
      ([u8] .. [u64], [s16], [s32] below).  A float is its bit pattern.
    - Code with effects is a computation [M S A] on an explicit state: it
      returns, throws an [EmulatorError], or runs into undefined behaviour
      ([ub]: an index outside a register array, a raw copy outside a buffer, a
      null pointer, a division by zero).  The state reached is kept with every
      outcome, because an exception leaves earlier writes in place.
    - Memories are a size and a finite map of the bytes written; the pointers
      the code shares (the MMU's memory, a bus handler's emulator, a cluster's
      memory) are one field that every user reads and writes.
    - Fuel bounds only the loops that may not end: [run], [run_fast] and the
      loops built on them answer [false] when it runs out, and the theorems on
      them say what fuel is enough ([K] rounds for a cluster whose cores halt
      within [K] quanta, as many rounds as a client's measure for
      [run_progress], the number of steps for [run_refines_isa] and
      [run_fast_refines_run], 60 for the demonstration program).  The tick
      loop's fuel is the number of whole periods accumulated, which
      [tick_peripherals_exact] shows to be all the iterations the code makes;
      decoding is bounded by the code's own limit of 32 instructions; the page
      walk by its three levels.
    - Parameters: which NaN an operation returns and whether the compiler
      contracts a multiply-add (class [FloatOps], with an instance), the SIMD
      branch compiled in ([HostPath]), the contents of files, the object
      representation of a register file, measured time.

    ** What is proved

    - Invariants: [reachable_wf] (the emulator, over the calls of [Interface]),
      [cluster_reachable_wf], [fabric_conservation], [hierarchy_flow],
      [pipeline_accounting].
    - Refinement and equivalence: [step_refines_isa] and [run_refines_isa]
      (the machine implements the instruction set of [Arch]),
      [paged_implements_isa] (with paging on it implements it on the virtual
      memories, for any layout that the page table realises),
      [run_fast_refines_run] and [run_fast_implements_isa] (the block cache),
      [walk_spec], [tlb_transparent], [cache_refines_lru], [cluster_isolated],
      [cluster_interleaves] (a cluster is a sequentially consistent
      interleaving of its cores), [checkpoint_history].
    - Programs: [demo_program_correct] (the program of main.cpp, for every
      input), [run_prints] (the text any program sends through the UART,
      printed line by line), [riscv_programs_run] and [arm64_programs_run] (a
      translated straight-line guest program, loaded and run, does what the
      guest does), [message_passing] (two cores of a cluster, by the interface
      [Progress]).
    - Exact effects: [dma_exact], [store_load]; the same with paging on, page
      faults included: [paged_access], [paged_dma], [paged_fetch];
      [interrupt_delivery], [matmul_product], [guest_asm_listing],
      [main_prints] (every line main prints).
    - Errors, safety and bounds: [execute_safe] (which words run into
      undefined behaviour, paging on or off), [user_isolation] (what a user
      program can change in memory), [abi_calls] (every function of the C
      interface against its specification, with no exception let out),
      [dma_bounds_wrap].
    - Round trips: [decode_encode], [trap_mret], [save_restore].
    - Termination, liveness and typing: [tick_peripherals_exact],
      [warp_no_starvation], [frontend_runnable] (every load of a source text,
      with the ones that throw or are undefined).
    Theorems outside these groups ([alu_exact], [branch_exact], [write_read],
    [interrupt_priority], [illegal_instruction], [tlm_memory],
    [run_fast_differs], [riscv_simulation], [vec_add_host_exact],
    [execute_frame], [cluster_shared], [tlb_skips_user_check],
    [protection_holes], [run_fast_ignores_paging]; device streams, profiler
    totals, the disassembler, the deterministic clock, the reset, the decoder
    of blocks, CoreMark's totals, the other half of the C interface) stand in
    the files of their components.

    ** Not modelled

    The wall clock (a measured time is an argument) and the line main prints
    on stderr; the mutexes (the program has one thread); the order in which
    the printed lines of several cores mix; the calls that connect a part of
    the emulator to another object ([attach_ram], [set_csr], [attach_csr], a
    client's [add_device]); the file CMakeCXXCompilerId.cpp, which CMake generates; declarations,
    include guards and version.h.

    ** Extensions

    Every source file is modelled.  What could be taken further: translation
    with a TLB that disagrees with the page table; [run_fast] with paging on
    (it decodes its blocks at untranslated addresses, so it can follow [run]
    only where code is mapped to itself); the timer as a program sees it, next
    to the UART of [Console]; [run_fast] on a cluster whose cores use the
    window, and interleavings of cores that touch their peripherals.  A
    simulation theorem for PTX would say little: the translator ignores the
    operands. *)

From Stdlib Require Export ZArith Lia Btauto.
From coqutil Require Export Datatypes.RecordSetters.
From stdpp Require Export base gmap strings numbers option list.
Export OCamlLikeNotations.

#[export] Set Default Proof Using "Type".
#[global] Open Scope Z_scope.
#[global] Open Scope list_scope.

#[global] Arguments constant {E} _ _ /.
#[global] Arguments apply_update {R E} !_ /.

(** ** Machine integers

    A w-bit unsigned integer is a [Z]; the C++ conversions to [uint8_t],
    [uint16_t], [uint32_t] and [uint64_t] are reductions modulo [2 ^ w], the
    conversions to the signed types of C++20 are two's complement. *)

Definition u8 (z : Z) : Z := z mod 2 ^ 8.
Definition u16 (z : Z) : Z := z mod 2 ^ 16.
Definition u32 (z : Z) : Z := z mod 2 ^ 32.
Definition u64 (z : Z) : Z := z mod 2 ^ 64.

Definition to_signed (w z : Z) : Z :=
  if z mod 2 ^ w <? 2 ^ (w - 1) then z mod 2 ^ w else z mod 2 ^ w - 2 ^ w.
Definition s16 (z : Z) : Z := to_signed 16 z.
Definition s32 (z : Z) : Z := to_signed 32 z.

(** [z] fits in [w] bits. *)
Definition fits (w z : Z) : Prop := 0 <= z < 2 ^ w.

#[export] Instance fits_dec w z : Decision (fits w z).
Proof. unfold fits. apply _. Defined.

Lemma u32_fits z : fits 32 (u32 z).
Proof. unfold fits, u32. apply Z.mod_pos_bound. lia. Qed.
Lemma u64_fits z : fits 64 (u64 z).
Proof. unfold fits, u64. apply Z.mod_pos_bound. lia. Qed.
Lemma u8_fits z : fits 8 (u8 z).
Proof. unfold fits, u8. apply Z.mod_pos_bound. lia. Qed.
Lemma u16_fits z : fits 16 (u16 z).
Proof. unfold fits, u16. apply Z.mod_pos_bound. lia. Qed.

Lemma u32_small z : fits 32 z -> u32 z = z.
Proof. apply Z.mod_small. Qed.
Lemma u64_small z : fits 64 z -> u64 z = z.
Proof. apply Z.mod_small. Qed.
Lemma u32_u32 z : u32 (u32 z) = u32 z.
Proof. apply u32_small, u32_fits. Qed.

Lemma u32_add_l a b : u32 (u32 a + b) = u32 (a + b).
Proof. apply Zplus_mod_idemp_l. Qed.
Lemma u32_add_r a b : u32 (a + u32 b) = u32 (a + b).
Proof. apply Zplus_mod_idemp_r. Qed.
Lemma u64_add_l a b : u64 (u64 a + b) = u64 (a + b).
Proof. apply Zplus_mod_idemp_l. Qed.
Lemma u64_add_r a b : u64 (a + u64 b) = u64 (a + b).
Proof. apply Zplus_mod_idemp_r. Qed.
Lemma u64_sub_r a b : u64 (a - u64 b) = u64 (a - b).
Proof. apply Zminus_mod_idemp_r. Qed.

Lemma fits_mono v w z : 0 <= v <= w -> fits v z -> fits w z.
Proof.
  unfold fits. intros Hvw [? ?]. split; [done|].
  eapply Z.lt_le_trans; [done|]. apply Z.pow_le_mono_r; lia.
Qed.

Lemma s16_range z : - 2 ^ 15 <= s16 z < 2 ^ 15.
Proof.
  unfold s16, to_signed. pose proof (Z.mod_pos_bound z (2 ^ 16)).
  destruct (Z.ltb_spec (z mod 2 ^ 16) (2 ^ (16 - 1))); lia.
Qed.

Lemma u32_s32 z : u32 (s32 z) = u32 z.
Proof.
  unfold u32, s32, to_signed. case_match; [by rewrite Z.mod_mod by lia|].
  replace (z mod 2 ^ 32 - 2 ^ 32) with (z mod 2 ^ 32 + (-1) * 2 ^ 32) by lia.
  rewrite Z.mod_add by lia. by rewrite Z.mod_mod by lia.
Qed.

(** ** Bits of integers *)

Lemma tb_land a b i : Z.testbit (Z.land a b) i = Z.testbit a i && Z.testbit b i.
Proof.
  destruct (Z.ltb_spec i 0); [by rewrite !Z.testbit_neg_r by lia|].
  by apply Z.land_spec.
Qed.
Lemma tb_lor a b i : Z.testbit (Z.lor a b) i = Z.testbit a i || Z.testbit b i.
Proof.
  destruct (Z.ltb_spec i 0); [by rewrite !Z.testbit_neg_r by lia|].
  by apply Z.lor_spec.
Qed.
Lemma tb_ldiff a b i :
  Z.testbit (Z.ldiff a b) i = Z.testbit a i && negb (Z.testbit b i).
Proof.
  destruct (Z.ltb_spec i 0); [by rewrite !Z.testbit_neg_r by lia|].
  by apply Z.ldiff_spec.
Qed.
Lemma tb_shl a n i :
  Z.testbit (Z.shiftl a n) i = (0 <=? i) && Z.testbit a (i - n).
Proof.
  destruct (Z.leb_spec 0 i); [by rewrite Z.shiftl_spec|].
  by rewrite Z.testbit_neg_r by lia.
Qed.
Lemma tb_shr a n i :
  Z.testbit (Z.shiftr a n) i = (0 <=? i) && Z.testbit a (i + n).
Proof.
  destruct (Z.leb_spec 0 i); [by rewrite Z.shiftr_spec|].
  by rewrite Z.testbit_neg_r by lia.
Qed.
Lemma tb_mod a n i :
  0 <= n -> Z.testbit (a mod 2 ^ n) i = (i <? n) && Z.testbit a i.
Proof.
  intros Hn. destruct (Z.ltb_spec i n) as [Hi|Hi].
  - by rewrite Z.mod_pow2_bits_low.
  - by rewrite Z.mod_pow2_bits_high by lia.
Qed.
Lemma tb_ones n i :
  0 <= n -> Z.testbit (Z.ones n) i = (0 <=? i) && (i <? n).
Proof.
  intros Hn. destruct (Z.leb_spec 0 i) as [Hi|Hi]; cbn.
  - destruct (Z.ltb_spec i n); [by rewrite Z.ones_spec_low|].
    by rewrite Z.ones_spec_high by lia.
  - by rewrite Z.testbit_neg_r by lia.
Qed.
Lemma tb_high x n i : fits n x -> n <= i -> Z.testbit x i = false.
Proof.
  intros Hx Hi. destruct (Z.ltb_spec i 0); [by rewrite Z.testbit_neg_r by lia|].
  destruct (Z.leb_spec 0 n).
  - rewrite <- (Z.mod_small x (2 ^ n)) by done. rewrite tb_mod by done.
    by destruct (Z.ltb_spec i n); [lia|].
  - unfold fits in Hx. rewrite Z.pow_neg_r in Hx by lia. lia.
Qed.

Create HintDb tb.
#[export] Hint Rewrite tb_land tb_lor tb_ldiff tb_shl tb_shr Z.bits_0 : tb.
#[export] Hint Rewrite tb_mod tb_ones using lia : tb.

(** Masks written as literals in the source are [Z.ones]. *)
Ltac masks :=
  repeat match goal with
  | |- context [Z.land ?x (Zpos ?m)] =>
      let n := eval cbv in (Z.log2_up (Zpos m + 1)) in
      let m' := eval cbv in (Z.ones n) in
      constr_eq m' (Zpos m); change (Z.land x (Zpos m)) with (Z.land x (Z.ones n))
  end.

Ltac bits_step :=
  match goal with
  | |- context [?a <? ?b] => destruct (Z.ltb_spec a b); try (exfalso; lia)
  | |- context [?a <=? ?b] => destruct (Z.leb_spec a b); try (exfalso; lia)
  | |- context [Z.testbit ?x ?k] => rewrite (Z.testbit_neg_r x k) by lia
  | H : fits ?n ?x |- context [Z.testbit ?x ?k] => rewrite (tb_high x n k H) by lia
  | |- context [Z.testbit ?x ?k] =>
      match goal with
      | |- context [Z.testbit x ?k'] =>
          tryif constr_eq k k' then fail else replace k' with k by lia
      end
  end; cbn [andb orb negb];
  rewrite ?andb_false_r, ?orb_false_r, ?andb_true_r, ?orb_true_r.

(** Equality of integers by comparing their bits. *)
Ltac bits :=
  unfold u8, u16, u32, u64; masks;
  apply Z.bits_inj'; intros ?i ?Hi;
  autorewrite with tb; repeat bits_step; try reflexivity; try btauto.

Lemma land_ones_mod x n : 0 <= n -> Z.land x (Z.ones n) = x mod 2 ^ n.
Proof. apply Z.land_ones. Qed.

Lemma land_fits x m n : 0 <= n -> 0 <= m < 2 ^ n -> fits n (Z.land x m).
Proof.
  intros Hn Hm. assert (Z.land x m = Z.land x m mod 2 ^ n) as ->.
  { apply Z.bits_inj'. intros i Hi. rewrite tb_mod, tb_land by lia.
    destruct (Z.ltb_spec i n); [done|]. cbn.
    rewrite (tb_high m n i) by (unfold fits; lia). btauto. }
  unfold fits. apply Z.mod_pos_bound. lia.
Qed.

Lemma fits_bits n x : 0 <= n -> (forall i, n <= i -> Z.testbit x i = false) ->
  0 <= x -> fits n x.
Proof.
  intros Hn Hb Hx. assert (x = x mod 2 ^ n) as ->.
  { apply Z.bits_inj'. intros i Hi. rewrite tb_mod by lia.
    destruct (Z.ltb_spec i n); [done|]. by rewrite Hb by lia. }
  apply Z.mod_pos_bound. lia.
Qed.

Lemma lor_fits n x y : 0 <= n -> fits n x -> fits n y -> fits n (Z.lor x y).
Proof.
  intros Hn Hx Hy. apply fits_bits; [done| |].
  - intros i Hi. rewrite tb_lor.
    by rewrite (tb_high x n), (tb_high y n) by done.
  - destruct Hx, Hy. by apply Z.lor_nonneg.
Qed.

Lemma ldiff_fits n x y : 0 <= n -> fits n x -> fits n (Z.ldiff x y).
Proof.
  intros Hn Hx. apply fits_bits; [done| |].
  - intros i Hi. rewrite tb_ldiff. by rewrite (tb_high x n) by done.
  - destruct Hx. apply Z.ldiff_nonneg. by left.
Qed.

Lemma land_fits_l n x y : 0 <= n -> fits n x -> fits n (Z.land x y).
Proof.
  intros Hn Hx. apply fits_bits; [done| |].
  - intros i Hi. rewrite tb_land. by rewrite (tb_high x n) by done.
  - destruct Hx. apply Z.land_nonneg. by left.
Qed.

Lemma land_fits_r n x y : 0 <= n -> fits n y -> fits n (Z.land x y).
Proof. rewrite Z.land_comm. apply land_fits_l. Qed.

(** *** Packed bit fields

    A field below [k] bits placed under a value shifted by [k] is an addition;
    so a word assembled with [|] and [<<] is a mixed-radix number, and its
    fields are quotients and remainders. *)
Lemma lor_pack a b k : 0 <= k -> fits k b -> Z.lor (a * 2 ^ k) b = a * 2 ^ k + b.
Proof.
  intros Hk Hb. symmetry. apply Z.add_nocarry_lor. apply Z.bits_inj'.
  intros i Hi. rewrite <- Z.shiftl_mul_pow2 by done.
  rewrite tb_land, tb_shl, Z.bits_0.
  destruct (Z.leb_spec 0 i); [|lia]. destruct (Z.ltb_spec i k).
  - by rewrite (Z.testbit_neg_r a) by lia.
  - by rewrite (tb_high b k), andb_false_r by done.
Qed.

Lemma lor_pack_shift a b k n :
  0 <= k -> 0 <= n -> fits k b ->
  Z.lor (a * 2 ^ (n + k)) (b * 2 ^ n) = (a * 2 ^ k + b) * 2 ^ n.
Proof.
  intros Hk Hn Hb. rewrite <- (lor_pack a b k) by done.
  rewrite <- !Z.shiftl_mul_pow2, Z.shiftl_lor by lia.
  rewrite Z.shiftl_shiftl by lia. by rewrite (Z.add_comm k n).
Qed.

Lemma land_mask_mod x m n : 0 <= n -> m = Z.ones n -> Z.land x m = x mod 2 ^ n.
Proof. intros Hn ->. by apply Z.land_ones. Qed.

Create HintDb novium.
#[export] Hint Resolve u8_fits u16_fits u32_fits u64_fits : novium.
#[export] Hint Resolve lor_fits ldiff_fits land_fits_l : novium.
#[export] Hint Extern 1 (fits _ (Zpos _)) => (unfold fits; lia) : novium.
#[export] Hint Extern 1 (fits _ 0) => (unfold fits; lia) : novium.
#[export] Hint Extern 1 (0 <= _) => lia : novium.

(** ** Little-endian bytes

    [std::memcpy] between an integer and a byte buffer, on the little-endian
    hosts the build supports (x86_64, aarch64).  A byte is an integer below
    256. *)

Fixpoint le_bytes (n : nat) (z : Z) : list Z :=
  match n with
  | O => []
  | S n => z mod 256 :: le_bytes n (z / 256)
  end.

Fixpoint le_val (l : list Z) : Z :=
  match l with
  | [] => 0
  | b :: l => b + 256 * le_val l
  end.

Definition is_byte (b : Z) : Prop := 0 <= b < 256.

Lemma le_bytes_length n z : length (le_bytes n z) = n.
Proof. revert z. induction n; intros; cbn; auto. Qed.

Lemma le_bytes_bytes n z : Forall is_byte (le_bytes n z).
Proof.
  revert z. induction n; intros z; cbn; constructor; [|done].
  apply Z.mod_pos_bound. lia.
Qed.

Lemma le_val_bytes n z : le_val (le_bytes n z) = z mod 256 ^ Z.of_nat n.
Proof.
  revert z. induction n as [|n IH]; intros z.
  - cbn. by rewrite Z.mod_1_r.
  - cbn [le_bytes le_val]. rewrite IH, Nat2Z.inj_succ, Z.pow_succ_r by lia.
    rewrite Z.rem_mul_r by lia. done.
Qed.

Lemma le_bytes_val l : Forall is_byte l -> le_bytes (length l) (le_val l) = l.
Proof.
  induction 1 as [|b l Hb _ IH]; [done|]. cbn [length le_bytes le_val].
  unfold is_byte in Hb. f_equal.
  - rewrite (Z.mul_comm 256), Z.mod_add, Z.mod_small by lia. done.
  - rewrite (Z.mul_comm 256), Z.div_add, Z.div_small by lia. done.
Qed.

Lemma le_val_range l :
  Forall is_byte l -> 0 <= le_val l < 256 ^ Z.of_nat (length l).
Proof.
  induction 1 as [|b l Hb _ IH]; [cbn; lia|]. cbn [length le_val].
  unfold is_byte in Hb. rewrite Nat2Z.inj_succ, Z.pow_succ_r by lia. lia.
Qed.

(** ** Outcomes of C++ code

    A call returns, throws an [EmulatorError], or runs into behaviour the
    language leaves undefined (an out-of-range [std::array] index, a [memcpy]
    outside its buffer, a null dereference, a division by zero).  The three
    are kept apart, so that "throws" and "is undefined" are statements. *)

Inductive EmulatorError : Type :=
  | SramOutOfBounds (addr size : Z)
  | MainRamOutOfBounds
  | ProgramTooLarge (size : Z)
  | UnknownOpcode (op : Z)
  | InvalidTileSize (n : Z)
  | DmaLoadScratchpadBounds
  | DmaLoadMainRamBounds
  | DmaStoreMainRamBounds
  | DmaStoreScratchpadBounds.

Inductive ub : Type :=
  | GprIndex (idx : Z)          (* std::array<uint32_t, 16> indexed past its end *)
  | VrIndex (idx : Z)           (* std::array<..., 8> indexed past its end *)
  | BufferOverrun (addr n : Z)  (* memcpy or element access outside a buffer *)
  | NullDeref                   (* a null pointer dereferenced *)
  | DivideByZero.

Inductive outcome (A : Type) : Type :=
  | Ok (a : A)
  | Throw (e : EmulatorError)
  | Undefined (u : ub).
Arguments Ok {A} _.
Arguments Throw {A} _.
Arguments Undefined {A} _.

Lemma Ok_inj {A} (a b : A) : Ok a = Ok b -> a = b.
Proof. congruence. Qed.

#[export] Instance EmulatorError_eq_dec : EqDecision EmulatorError.
Proof. solve_decision. Defined.
#[export] Instance ub_eq_dec : EqDecision ub.
Proof. solve_decision. Defined.

(** Stateful code: the state reached is kept with every outcome, because an
    exception leaves the writes made before it in place. *)
Definition M (S A : Type) : Type := S -> outcome A * S.

Definition ret {S A} (a : A) : M S A := fun s => (Ok a, s).
Definition throw {S A} (e : EmulatorError) : M S A := fun s => (Throw e, s).
Definition undef {S A} (u : ub) : M S A := fun s => (Undefined u, s).
Definition bind {S A B} (m : M S A) (k : A -> M S B) : M S B := fun s =>
  match m s with
  | (Ok a, s') => k a s'
  | (Throw e, s') => (Throw e, s')
  | (Undefined u, s') => (Undefined u, s')
  end.
Definition get {S} : M S S := fun s => (Ok s, s).
Definition gets {S A} (f : S -> A) : M S A := fun s => (Ok (f s), s).
Definition modify {S} (f : S -> S) : M S unit := fun s => (Ok tt, f s).
Definition lift {S A} (o : outcome A) : M S A := fun s => (o, s).
(** [opt u o]: the value of [o], or the undefined behaviour [u]. *)
Definition opt {S A} (u : ub) (o : option A) : M S A := fun s =>
  match o with Some a => (Ok a, s) | None => (Undefined u, s) end.
(** Run code on a part of the state. *)
Definition zoom {S T A} (pi : S -> T) (put : T -> S -> S) (m : M T A) : M S A :=
  fun s => let '(r, t) := m (pi s) in (r, put t s).

Declare Scope novium_scope.
Delimit Scope novium_scope with novium.
Notation "'let!' x ':=' m 'in' k" := (bind m (fun x => k))
  (at level 200, x name, m at level 200, k at level 200,
   format "'let!'  x  ':='  m  'in' '//' k") : novium_scope.
Notation "'let!' ' p ':=' m 'in' k" := (bind m (fun p => k))
  (at level 200, p strict pattern, m at level 200, k at level 200) : novium_scope.
Notation "'do!' m 'in' k" := (bind m (fun _ => k))
  (at level 200, m at level 200, k at level 200,
   format "'do!'  m  'in' '//' k") : novium_scope.
#[global] Open Scope novium_scope.

(** [m] returns normally from [s] with [a] and state [s']. *)
Definition returns {S A} (m : M S A) (s : S) (a : A) (s' : S) : Prop :=
  m s = (Ok a, s').

Lemma bind_ok {S A B} (m : M S A) (k : A -> M S B) s a s' :
  m s = (Ok a, s') -> bind m k s = k a s'.
Proof. unfold bind. by intros ->. Qed.
Lemma bind_inv {S A B} (m : M S A) (k : A -> M S B) s b s' :
  bind m k s = (Ok b, s') ->
  exists a s1, m s = (Ok a, s1) /\ k a s1 = (Ok b, s').
Proof. unfold bind. destruct (m s) as [[]]; naive_solver. Qed.
Lemma zoom_inv {S T A} (pi : S -> T) put (m : M T A) s a s' :
  zoom pi put m s = (Ok a, s') -> exists t, m (pi s) = (Ok a, t) /\ s' = put t s.
Proof. unfold zoom. destruct (m (pi s)) as [r t]. intros [= -> <-]. by exists t. Qed.

(** A predicate on states kept by every outcome of a computation. *)
Definition preserves {S A} (P : S -> Prop) (m : M S A) : Prop :=
  forall s, P s -> P (m s).2.

Section Preserves.
Context {S : Type} (P : S -> Prop).
Lemma preserves_ret {A} (a : A) : preserves P (ret a).
Proof. by intros ?. Qed.
Lemma preserves_throw {A} e : preserves P (throw (A := A) e).
Proof. by intros ?. Qed.
Lemma preserves_undef {A} u : preserves P (undef (A := A) u).
Proof. by intros ?. Qed.
Lemma preserves_get : preserves P get.
Proof. by intros ?. Qed.
Lemma preserves_gets {A} (f : S -> A) : preserves P (gets f).
Proof. by intros ?. Qed.
Lemma preserves_lift {A} (o : outcome A) : preserves P (lift o).
Proof. by intros ?. Qed.
Lemma preserves_opt {A} u (o : option A) : preserves P (opt u o).
Proof. intros s Hs. by destruct o. Qed.
Lemma preserves_modify f : (forall s, P s -> P (f s)) -> preserves P (modify f).
Proof. intros Hf s. apply Hf. Qed.
Lemma preserves_bind {A B} (m : M S A) (k : A -> M S B) :
  preserves P m -> (forall a, preserves P (k a)) -> preserves P (bind m k).
Proof.
  intros Hm Hk s Hs. unfold bind. specialize (Hm s Hs).
  destruct (m s) as [[] ?]; [by apply Hk|done|done].
Qed.
End Preserves.
#[export] Hint Resolve preserves_ret preserves_throw preserves_undef
  preserves_get preserves_gets preserves_lift preserves_opt : novium.

(** Walk through a computation whose parts keep the predicate. *)
Ltac preserve_step :=
  lazymatch goal with
  | |- preserves _ (bind _ _) => apply preserves_bind; [|intros ?]
  | |- preserves _ (modify _) => apply preserves_modify; intros
  | |- preserves _ (match _ with _ => _ end) => case_match
  | |- preserves _ _ => solve [auto with novium]
  end.
Ltac preserve := repeat preserve_step.

(** An invariant kept by every outcome, and a postcondition of the value of a
    normal one. *)
Definition keeps {S A} (P : S -> Prop) (m : M S A) (Q : A -> Prop) : Prop :=
  forall s, P s -> P (m s).2 /\ (forall a, (m s).1 = Ok a -> Q a).

Lemma get_run {S A} (k : S -> M S A) s : bind get k s = k s s.
Proof. done. Qed.
Lemma bind_assoc {S A B C} (m : M S A) (k : A -> M S B) (k' : B -> M S C) s :
  bind (bind m k) k' s = bind m (fun a => bind (k a) k') s.
Proof. unfold bind. by destruct (m s) as [[]]. Qed.

Section Keeps.
Context {S : Type} (P : S -> Prop).
Lemma keeps_ret {A} (a : A) (Q : A -> Prop) : Q a -> keeps P (ret a) Q.
Proof. intros HQ s Hs. split; [done|]. cbn. by intros ? [= <-]. Qed.
Lemma keeps_throw {A} e (Q : A -> Prop) : keeps P (throw e) Q.
Proof. by intros s Hs. Qed.
Lemma keeps_undef {A} u (Q : A -> Prop) : keeps P (undef u) Q.
Proof. by intros s Hs. Qed.
Lemma keeps_get : keeps P get P.
Proof. intros s Hs. split; [done|]. cbn. by intros ? [= <-]. Qed.
Lemma keeps_gets {A} (f : S -> A) (Q : A -> Prop) :
  (forall s, P s -> Q (f s)) -> keeps P (gets f) Q.
Proof. intros Hf s Hs. split; [done|]. cbn. intros ? [= <-]. auto. Qed.
Lemma keeps_lift {A} (o : outcome A) (Q : A -> Prop) :
  (forall a, o = Ok a -> Q a) -> keeps P (lift o) Q.
Proof. by intros HQ s Hs. Qed.
Lemma keeps_opt {A} u (o : option A) (Q : A -> Prop) :
  (forall a, o = Some a -> Q a) -> keeps P (opt u o) Q.
Proof. intros HQ s Hs. destruct o; cbn; split; try done. intros ? [= <-]. auto. Qed.
Lemma keeps_modify f : (forall s, P s -> P (f s)) -> keeps P (modify f) (fun _ => True).
Proof. intros Hf s Hs. split; [by apply Hf|done]. Qed.
Lemma keeps_bind {A B} (m : M S A) (k : A -> M S B) Q R :
  keeps P m Q -> (forall a, Q a -> keeps P (k a) R) -> keeps P (bind m k) R.
Proof.
  intros Hm Hk s Hs. unfold bind. destruct (Hm s Hs) as [H1 H2].
  destruct (m s) as [[a| |] s']; cbn in *; [|done|done]. apply Hk; auto.
Qed.
Lemma keeps_weaken {A} (m : M S A) (Q R : A -> Prop) :
  (forall a, Q a -> R a) -> keeps P m Q -> keeps P m R.
Proof. intros HQ Hm s Hs. destruct (Hm s Hs). split; auto. Qed.
Lemma keeps_true {A} (m : M S A) : preserves P m -> keeps P m (fun _ => True).
Proof. intros Hm s Hs. split; [by apply Hm|done]. Qed.
Lemma keeps_preserves {A} (m : M S A) Q : keeps P m Q -> preserves P m.
Proof. intros Hm s Hs. by apply Hm. Qed.
Lemma keeps_zoom {T A} (pi : S -> T) put (m : M T A) (P' : T -> Prop) Q :
  (forall s, P s -> P' (pi s)) -> (forall s t, P s -> P' t -> P (put t s)) ->
  keeps P' m Q -> keeps P (zoom pi put m) Q.
Proof.
  intros H1 H2 Hm s Hs. unfold zoom. destruct (Hm (pi s) (H1 s Hs)) as [H3 H4].
  destruct (m (pi s)) as [r t]; cbn in *. auto.
Qed.
End Keeps.

(** A loop over a list whose body may run into undefined behaviour ([None]). *)
Fixpoint foldM {A B} (f : A -> B -> option A) (l : list B) (a : A) : option A :=
  match l with
  | [] => Some a
  | b :: l => match f a b with Some a' => foldM f l a' | None => None end
  end.

Lemma foldM_total {A B} (f : A -> B -> option A) (g : A -> B -> A) (P : A -> Prop) l a :
  P a -> (forall a b, P a -> b ∈ l -> f a b = Some (g a b) /\ P (g a b)) ->
  foldM f l a = Some (fold_left g l a) /\ P (fold_left g l a).
Proof.
  revert a. induction l as [|b l IH]; intros a Ha Hf; [done|]. cbn.
  destruct (Hf a b Ha) as [-> ?]; [set_solver|]. apply IH; [done|]. set_solver.
Qed.

Lemma foldM_inv {A B} (f : A -> B -> option A) (P : A -> Prop) l a :
  P a -> (forall a b, P a -> b ∈ l -> exists a', f a b = Some a' /\ P a') ->
  exists a', foldM f l a = Some a' /\ P a'.
Proof.
  revert a. induction l as [|b l IH]; intros a Ha Hf; [by exists a|]. cbn.
  destruct (Hf a b Ha) as (a' & -> & Ha'); [set_solver|]. apply IH; [done|]. set_solver.
Qed.

(** ** Lists as C++ arrays

    [a.at i] for an index that is an integer: [None] is an access past the
    end, which the source never checks. *)
Definition zget {A} (l : list A) (i : Z) : option A :=
  if i <? 0 then None else l !! Z.to_nat i.
Definition zset {A} (l : list A) (i : Z) (x : A) : list A :=
  <[Z.to_nat i := x]> l.
Definition zlen {A} (l : list A) : Z := Z.of_nat (length l).

Lemma zlen_nonneg {A} (l : list A) : 0 <= zlen l.
Proof. unfold zlen. lia. Qed.
Lemma zlen_cons {A} (x : A) l : zlen (x :: l) = 1 + zlen l.
Proof. unfold zlen. cbn [length]. lia. Qed.

Lemma zget_lt {A} (l : list A) i : 0 <= i < zlen l -> is_Some (zget l i).
Proof.
  unfold zget, zlen. intros. destruct (Z.ltb_spec i 0); [lia|].
  apply lookup_lt_is_Some_2. lia.
Qed.
Lemma zget_Some {A} (l : list A) i x : zget l i = Some x -> 0 <= i < zlen l.
Proof.
  unfold zget, zlen. destruct (Z.ltb_spec i 0); [done|].
  intros Hl%lookup_lt_Some. lia.
Qed.
Lemma zget_None {A} (l : list A) i : zlen l <= i -> zget l i = None.
Proof.
  unfold zget, zlen. intros. destruct (Z.ltb_spec i 0); [done|].
  apply lookup_ge_None_2. lia.
Qed.
Lemma zlen_zset {A} (l : list A) i x : zlen (zset l i x) = zlen l.
Proof. unfold zlen, zset. by rewrite length_insert. Qed.
Lemma zget_zset_eq {A} (l : list A) i x :
  0 <= i < zlen l -> zget (zset l i x) i = Some x.
Proof.
  unfold zget, zset, zlen. intros. destruct (Z.ltb_spec i 0); [lia|].
  apply list_lookup_insert_eq. lia.
Qed.
Lemma zget_zset_ne {A} (l : list A) i j x :
  0 <= i -> i <> j -> zget (zset l i x) j = zget l j.
Proof.
  unfold zget, zset. intros. destruct (Z.ltb_spec j 0); [done|].
  apply list_lookup_insert_ne. lia.
Qed.
Lemma Forall_zset {A} (P : A -> Prop) l i x :
  Forall P l -> P x -> Forall P (zset l i x).
Proof. intros. by apply Forall_insert. Qed.
Lemma Forall_zget {A} (P : A -> Prop) l i x :
  Forall P l -> zget l i = Some x -> P x.
Proof.
  unfold zget. destruct (i <? 0); [done|]. intros. by eapply Forall_lookup_1.
Qed.
#[export] Hint Resolve Forall_zset : novium.

(** A loop that stores into distinct indices: each holds the value stored
    there, the others are unchanged. *)
Lemma fold_zset_spec {A B} (idx : B -> Z) (val : B -> A) ps (l : list A) :
  NoDup (map idx ps) -> Forall (fun p => 0 <= idx p < zlen l) ps ->
  let l' := fold_left (fun l p => zset l (idx p) (val p)) ps l in
  zlen l' = zlen l /\ (forall p, p ∈ ps -> zget l' (idx p) = Some (val p)) /\
  (forall k, k ∉ map idx ps -> zget l' k = zget l k).
Proof.
  revert l. induction ps as [|p ps IH]; intros l Hnd Hr; cbn.
  { split; [done|]. split; [set_solver|done]. }
  cbn in Hnd. apply NoDup_cons in Hnd as [Hp Hnd]. inversion Hr as [|?? Hp0 Hr']; subst.
  destruct (IH (zset l (idx p) (val p)) Hnd) as (H1 & H2 & H3).
  { by rewrite zlen_zset. }
  rewrite zlen_zset in H1. split; [done|]. split.
  - intros q [->|Hq]%elem_of_cons; [|by apply H2].
    rewrite H3 by done. by apply zget_zset_eq.
  - intros k Hk. rewrite H3 by set_solver. apply zget_zset_ne; [lia|set_solver].
Qed.

Lemma zset_zset {A} (l : list A) i x y : zset (zset l i x) i y = zset l i y.
Proof. apply list_insert_insert_eq. Qed.
Lemma zset_zget {A} (l : list A) i x : zget l i = Some x -> zset l i x = l.
Proof.
  unfold zget, zset. case_match; [done|]. apply list_insert_id.
Qed.
