(* ===== verification/Text.v ===== *)
(** * Text: the printf conversions, string searches and scans the source uses

    [std::snprintf] with %d, %u, %llu, %08X, %zu, %s and the [std::string]
    operations (find, rfind at 0, substr, tolower) as functions on Rocq
    strings. *)

From S2P Require Import Prelude.
From Stdlib Require Import Ascii String.
#[local] Open Scope string_scope.
#[local] Open Scope Z_scope.

Definition digit (d : Z) : ascii :=
  ascii_of_nat (Z.to_nat (if d <? 10 then 48 + d else 55 + d)).

Fixpoint digits_go (fuel : nat) (base n : Z) (acc : string) : string :=
  match fuel with
  | O => acc
  | S fuel =>
      let acc := String (digit (n mod base)) acc in
      if n / base =? 0 then acc else digits_go fuel base (n / base) acc
  end.

(** One digit per bit is more digits than any base needs. *)
Definition digits (base n : Z) : string :=
  digits_go (S (Z.to_nat (Z.log2 n))) base n "".

(** %u / %llu / %zu *)
Definition udec (n : Z) : string := digits 10 n.
(** %d *)
Definition dec (z : Z) : string :=
  if z <? 0 then String "-"%char (udec (- z)) else udec z.

Fixpoint repeat_char (c : ascii) (n : nat) : string :=
  match n with O => "" | S n => String c (repeat_char c n) end.
(** %6s, %2zu: padding on the left to a width. *)
Definition pad_left (c : ascii) (w : nat) (s : string) : string :=
  repeat_char c (w - String.length s) ++ s.

Fixpoint spaces (n : nat) : string :=
  match n with O => "" | S n => String " "%char (spaces n) end.

(** %-32s *)
Definition pad_right (w : nat) (s : string) : string :=
  s ++ spaces (w - String.length s).

(** Zero padding to a width: %08X, %02X *)
Definition zero_pad : nat -> string -> string := pad_left "0"%char.
Definition hex08 (n : Z) : string := zero_pad 8 (digits 16 n).
Definition hex02 (n : Z) : string := zero_pad 2 (digits 16 n).

(** std::tolower on the C locale, and %llx *)
Definition tolower (c : ascii) : ascii :=
  let n := nat_of_ascii c in
  if (65 <=? n)%nat && (n <=? 90)%nat then ascii_of_nat (n + 32) else c.
Fixpoint lower (s : string) : string :=
  match s with EmptyString => "" | String c s => String (tolower c) (lower s) end.
Definition hex (n : Z) : string := lower (digits 16 n).

(** A [char] written to a string. *)
Definition char_of (z : Z) : ascii := ascii_of_nat (Z.to_nat (u8 z)).
Definition byte_of (c : ascii) : Z := Z.of_nat (nat_of_ascii c).

(** %s stops at the first NUL. *)
Fixpoint c_str (s : string) : string :=
  match s with
  | EmptyString => ""
  | String c s => if (c =? "000")%char then "" else String c (c_str s)
  end.

Example padded : (pad_left " "%char 6 "0.8", zero_pad 8 "2A", pad_right 4 "x") = ("   0.8", "0000002A", "x   ").
Proof. reflexivity. Qed.

(** [std::snprintf(buf, n, ...)]: at most [n - 1] characters are kept. *)
Definition snprintf (n : nat) (s : string) : string := substring 0 (n - 1) s.

Lemma string_app_cons x (a b : string) : (String x a ++ b) = String x (a ++ b).
Proof. done. Qed.
Lemma string_app_assoc (a b c : string) : a ++ (b ++ c) = (a ++ b) ++ c.
Proof. induction a as [|x a IH]; [done|]. rewrite !string_app_cons. congruence. Qed.
Lemma string_app_length (a b : string) :
  String.length (a ++ b) = (String.length a + String.length b)%nat.
Proof. induction a as [|x a IH]; [done|]. rewrite string_app_cons. cbn. congruence. Qed.
Lemma string_app_nil (a : string) : a ++ "" = a.
Proof. induction a as [|x a IH]; [done|]. rewrite string_app_cons. congruence. Qed.

(** ** Reading the digits back *)

Definition digit_val (c : ascii) : option Z :=
  let n := byte_of c in
  if (48 <=? n) && (n <=? 57) then Some (n - 48) else None.

(** The longest decimal prefix: its value so far and what is left. *)
Fixpoint scan_digits (s : string) (acc : Z) : Z * string :=
  match s with
  | EmptyString => (acc, "")
  | String c s' =>
      match digit_val c with
      | Some d => scan_digits s' (10 * acc + d)
      | None => (acc, s)
      end
  end.

Lemma digit_val_digit d : 0 <= d < 10 -> digit_val (digit d) = Some d.
Proof.
  intros Hd. unfold digit_val, digit, byte_of.
  destruct (Z.ltb_spec d 10); [|lia].
  rewrite nat_ascii_embedding by lia. rewrite Z2Nat.id by lia.
  destruct (Z.leb_spec 48 (48 + d)); [|lia].
  destruct (Z.leb_spec (48 + d) 57); [|lia]. cbn. f_equal. lia.
Qed.

(** Scanning past the digits of [n] multiplies the accumulator by a power of
    ten and adds [n]. *)
Lemma scan_digits_go fuel n acc tail :
  0 <= n < 2 ^ Z.of_nat fuel ->
  exists k, 0 <= k /\
    scan_digits (digits_go fuel 10 n tail) acc = scan_digits tail (10 ^ k * acc + n).
Proof.
  revert n acc tail. induction fuel as [|fuel IH]; intros n acc tail Hn.
  { cbn in Hn. exists 0. replace n with 0 by lia. cbn -[Z.mul].
    split; [lia|]. f_equal. lia. }
  assert (Hstep : forall m, scan_digits (String (digit (n mod 10)) tail) m
                    = scan_digits tail (10 * m + n mod 10)).
  { intros m. cbn [scan_digits]. rewrite digit_val_digit; [done|].
    apply Z.mod_pos_bound. lia. }
  rewrite Nat2Z.inj_succ, Z.pow_succ_r in Hn by lia.
  pose proof (Z.div_mod n 10 ltac:(lia)) as Hdm.
  cbn [digits_go]. destruct (Z.eqb_spec (n / 10) 0) as [H0|H0].
  - exists 1. split; [lia|]. rewrite Hstep. f_equal. lia.
  - destruct (IH (n / 10) acc (String (digit (n mod 10)) tail)) as (k & Hk & ->).
    { split; [apply Z.div_pos; lia|apply Z.div_lt_upper_bound; lia]. }
    exists (Z.succ k). split; [lia|]. rewrite Hstep. f_equal.
    rewrite Z.pow_succ_r by lia. lia.
Qed.

Lemma digits_go_app fuel base n a b :
  digits_go fuel base n (a ++ b) = digits_go fuel base n a ++ b.
Proof.
  revert n a. induction fuel as [|fuel IH]; intros n a; cbn [digits_go]; [done|].
  case_match; [done|]. by rewrite <- IH.
Qed.

Lemma scan_udec n rest :
  0 <= n -> scan_digits (udec n ++ rest) 0 = scan_digits rest n.
Proof.
  intros Hn. unfold udec, digits. rewrite <- digits_go_app. change ("" ++ rest) with rest.
  destruct (scan_digits_go (S (Z.to_nat (Z.log2 n))) n 0 rest) as (k & _ & ->).
  - split; [done|]. rewrite Nat2Z.inj_succ, Z2Nat.id by apply Z.log2_nonneg.
    destruct (Z.eqb_spec n 0) as [->|]; [done|]. apply Z.log2_spec. lia.
  - f_equal. lia.
Qed.
