(* ===== verification/Isa.v ===== *)
(** * Instruction set: config.h and isa.h

    The constants of include/aiasm/config.h, the opcodes, the field accessors
    and encoders of include/aiasm/isa.h, the cycle weights and the
    disassembler. *)

From S2P Require Import Prelude Text.
From Stdlib Require Import Ascii String.
#[local] Open Scope Z_scope.

(** ** config.h *)
Module Config.
Definition SCRATCHPAD_SIZE : Z := 64 * 1024 * 1024.
Definition MAIN_RAM_SIZE : Z := 64 * 1024 * 1024.
Definition TEXT_BASE : Z := 0.
Definition TEXT_SIZE : Z := 8 * 1024 * 1024.
Definition DATA_BASE : Z := TEXT_BASE + TEXT_SIZE.
Definition DATA_SIZE : Z := 8 * 1024 * 1024.
Definition TENSOR_BASE : Z := DATA_BASE + DATA_SIZE.
Definition TENSOR_SIZE : Z := SCRATCHPAD_SIZE - TEXT_SIZE - DATA_SIZE.
Definition MMIO_BASE : Z := 0x03F00000.
Definition MMIO_SIZE : Z := 0x00100000.
Definition MMIO_END : Z := MMIO_BASE + MMIO_SIZE.
Definition TIMER_BASE : Z := 0.
Definition TIMER_COUNT : Z := TIMER_BASE + 0x00.
Definition TIMER_LIMIT : Z := TIMER_BASE + 0x04.
Definition TIMER_CTRL : Z := TIMER_BASE + 0x08.
Definition TIMER_IRQ : Z := TIMER_BASE + 0x0C.
Definition UART_BASE : Z := 0x1000.
Definition UART_TX : Z := 0x00.
Definition UART_RX : Z := 0x04.
Definition UART_STATUS : Z := 0x08.
Definition TILE_SIZE : Z := 4.
Definition VEC_WIDTH : Z := TILE_SIZE * TILE_SIZE.
Definition VR_BYTE_SIZE : Z := VEC_WIDTH * 4.
Definition DMA_LINE_SIZE : Z := 64.
Definition NUM_GPR : Z := 16.
Definition NUM_VR : Z := 8.
Definition NUM_OPCODES : Z := 64.
Definition OPCODE_SHIFT : Z := 26.
Definition OPCODE_MASK : Z := 0x3F.
Definition RD_SHIFT : Z := 21.
Definition RD_MASK : Z := 0x1F.
Definition RA_SHIFT : Z := 16.
Definition RA_MASK : Z := 0x1F.
Definition RB_SHIFT : Z := 11.
Definition RB_MASK : Z := 0x1F.
Definition FUNC_MASK : Z := 0x7FF.
Definition IMM_MASK : Z := 0xFFFF.
Definition TARGET_MASK : Z := 0x3FFFFFF.
Definition CYCLES_PER_TICK : Z := 1000.
End Config.
Export Config.

(** ** Opcodes *)
Inductive Opcode : Type :=
  | NOP | HALT | JMP | BEQ | BNE
  | ADD | SUB | MUL | LOAD | STORE | MOV | MOVI | LOAD_VR | STORE_VR
  | VEC_ADD | MATMUL_TILE | DMA_LOAD | DMA_STORE.

#[export] Instance Opcode_eq_dec : EqDecision Opcode.
Proof. solve_decision. Defined.

Definition code (op : Opcode) : Z :=
  match op with
  | NOP => 0x00 | HALT => 0x01 | JMP => 0x02 | BEQ => 0x03 | BNE => 0x04
  | ADD => 0x05 | SUB => 0x06 | MUL => 0x07 | LOAD => 0x08 | STORE => 0x09
  | MOV => 0x0A | MOVI => 0x0B | LOAD_VR => 0x0C | STORE_VR => 0x0D
  | VEC_ADD => 0x10 | MATMUL_TILE => 0x11 | DMA_LOAD => 0x12 | DMA_STORE => 0x13
  end.

Definition all_opcodes : list Opcode :=
  [NOP; HALT; JMP; BEQ; BNE; ADD; SUB; MUL; LOAD; STORE; MOV; MOVI; LOAD_VR;
   STORE_VR; VEC_ADD; MATMUL_TILE; DMA_LOAD; DMA_STORE].

(** The enumerator an [Opcode] value names, if it names one: the C++ enum
    class may hold any 6-bit value. *)
Definition opcode_of (z : Z) : option Opcode :=
  List.find (fun op => code op =? z) all_opcodes.

(** [OpcodeMask{1} << code]; the codes are below 32. *)
Definition opcode_bit (op : Opcode) : Z := u32 (Z.shiftl 1 (code op)).

(** The masks tell the opcodes apart, so a set of opcodes is a word. *)
Lemma opcode_bit_test op op' : Z.testbit (opcode_bit op) (code op') = bool_decide (op = op').
Proof. by destruct op, op'; vm_compute. Qed.

Lemma opcode_of_code op : opcode_of (code op) = Some op.
Proof. by destruct op. Qed.
Lemma opcode_of_Some z op : opcode_of z = Some op -> z = code op.
Proof. intros [_ ?%Z.eqb_eq]%List.find_some. done. Qed.
Lemma code_range op : 0 <= code op < 64.
Proof. by destruct op. Qed.
#[export] Hint Resolve code_range : novium.

(** ** Instruction words *)
#[local] Set Primitive Projections.
Record Instruction : Type := mkInstruction { raw : Z }.
#[local] Unset Primitive Projections.

Module Instruction.
Definition opcode (i : Instruction) : Z := Z.land (Z.shiftr i.(raw) OPCODE_SHIFT) OPCODE_MASK.
Definition rd (i : Instruction) : Z := Z.land (Z.shiftr i.(raw) RD_SHIFT) RD_MASK.
Definition ra (i : Instruction) : Z := Z.land (Z.shiftr i.(raw) RA_SHIFT) RA_MASK.
Definition rb (i : Instruction) : Z := Z.land (Z.shiftr i.(raw) RB_SHIFT) RB_MASK.
Definition func (i : Instruction) : Z := Z.land i.(raw) FUNC_MASK.
Definition imm16 (i : Instruction) : Z := Z.land i.(raw) IMM_MASK.
Definition simm16 (i : Instruction) : Z := s16 (Z.land i.(raw) IMM_MASK).
Definition target (i : Instruction) : Z := Z.land i.(raw) TARGET_MASK.
Definition offset (i : Instruction) : Z := s16 (Z.land i.(raw) IMM_MASK).

(** The bit-field views of [Format]: on the ABIs the build supports (System V
    x86-64, AAPCS64, MSVC) bit-fields are allocated from the low bit up. *)
Definition format_opcode (i : Instruction) : Z := Z.land i.(raw) 0x3F.
Definition format_rd (i : Instruction) : Z := Z.land (Z.shiftr i.(raw) 6) 0x1F.

#[local] Ltac field_range n :=
  apply (land_fits _ _ n); [lia|vm_compute; split; [discriminate|reflexivity]].

Lemma opcode_range i : 0 <= opcode i < 64.
Proof. field_range 6. Qed.
Lemma rd_range i : 0 <= rd i < 32.
Proof. field_range 5. Qed.
Lemma ra_range i : 0 <= ra i < 32.
Proof. field_range 5. Qed.
Lemma rb_range i : 0 <= rb i < 32.
Proof. field_range 5. Qed.
Lemma func_range i : 0 <= func i < 2048.
Proof. field_range 11. Qed.
Lemma imm16_range i : 0 <= imm16 i < 2 ^ 16.
Proof. field_range 16. Qed.
Lemma target_range i : 0 <= target i < 2 ^ 26.
Proof. field_range 26. Qed.
End Instruction.
#[export] Hint Resolve Instruction.opcode_range Instruction.rd_range
  Instruction.ra_range Instruction.rb_range Instruction.func_range
  Instruction.imm16_range Instruction.target_range : novium.

(** ** Encoders (namespace enc) *)
Module enc.
Definition rtype (op : Opcode) (rd_ ra_ rb_ func_ : Z) : Z :=
  Z.lor (Z.lor (Z.lor (Z.lor
    (u32 (Z.shiftl (code op) OPCODE_SHIFT))
    (u32 (Z.shiftl (Z.land rd_ RD_MASK) RD_SHIFT)))
    (u32 (Z.shiftl (Z.land ra_ RA_MASK) RA_SHIFT)))
    (u32 (Z.shiftl (Z.land rb_ RB_MASK) RB_SHIFT)))
    (Z.land func_ FUNC_MASK).
Definition itype (op : Opcode) (rd_ ra_ imm : Z) : Z :=
  Z.lor (Z.lor (Z.lor
    (u32 (Z.shiftl (code op) OPCODE_SHIFT))
    (u32 (Z.shiftl (Z.land rd_ RD_MASK) RD_SHIFT)))
    (u32 (Z.shiftl (Z.land ra_ RA_MASK) RA_SHIFT)))
    (Z.land imm IMM_MASK).
Definition jtype (op : Opcode) (addr : Z) : Z :=
  Z.lor (u32 (Z.shiftl (code op) OPCODE_SHIFT)) (Z.land addr TARGET_MASK).
(** [off] is an [int16_t]: the cast to [uint32_t] sign-extends it. *)
Definition btype (op : Opcode) (rs_ rt_ off : Z) : Z :=
  Z.lor (Z.lor (Z.lor
    (u32 (Z.shiftl (code op) OPCODE_SHIFT))
    (u32 (Z.shiftl (Z.land rs_ RA_MASK) RD_SHIFT)))
    (u32 (Z.shiftl (Z.land rt_ RA_MASK) RA_SHIFT)))
    (Z.land (u32 off) IMM_MASK).
Definition make (op : Opcode) : Z := u32 (Z.shiftl (code op) OPCODE_SHIFT).

Definition nop : Z := make NOP.
Definition halt : Z := make HALT.
Definition jmp (addr : Z) : Z := jtype JMP addr.
Definition beq (a b off : Z) : Z := btype BEQ a b off.
Definition bne (a b off : Z) : Z := btype BNE a b off.
Definition add (d a b : Z) : Z := rtype ADD d a b 0.
Definition sub (d a b : Z) : Z := rtype SUB d a b 0.
Definition mul (d a b : Z) : Z := rtype MUL d a b 0.
Definition mov (d a : Z) : Z := rtype MOV d a 0 0.
Definition movi (d imm : Z) : Z := itype MOVI d 0 imm.
Definition load (d a imm : Z) : Z := itype LOAD d a imm.
Definition store (s a imm : Z) : Z := itype STORE s a imm.
Definition load_vr (v a imm : Z) : Z := itype LOAD_VR v a imm.
Definition store_vr (v a imm : Z) : Z := itype STORE_VR v a imm.
Definition vec_add (d a b : Z) : Z := rtype VEC_ADD d a b 0.
Definition matmul_tile (d a b n : Z) : Z := rtype MATMUL_TILE d a b n.
Definition dma_load (d a bytes : Z) : Z := rtype DMA_LOAD d a 0 bytes.
Definition dma_store (d a bytes : Z) : Z := rtype DMA_STORE d a 0 bytes.
End enc.

(** ** Cycle weights *)
Definition cycle_weight (op func : Z) : Z :=
  match opcode_of op with
  | Some NOP => 1
  | Some HALT => 0
  | Some JMP => 2
  | Some BEQ | Some BNE => 2
  | Some ADD | Some SUB => 1
  | Some MUL => 3
  | Some LOAD | Some STORE => 3
  | Some MOV | Some MOVI => 1
  | Some LOAD_VR | Some STORE_VR => 5
  | Some VEC_ADD => 4
  | Some MATMUL_TILE => 16
  | Some DMA_LOAD | Some DMA_STORE =>
      u32 (u32 (u64 (func + DMA_LINE_SIZE - 1) / DMA_LINE_SIZE) + 2)
  | None => 1
  end.

(** ** Disassembler *)
#[local] Open Scope string_scope.
Definition disassemble (i : Instruction) : string :=
  let rd := dec (Instruction.rd i) in
  let ra := dec (Instruction.ra i) in
  let rb := dec (Instruction.rb i) in
  let off := dec (Instruction.offset i) in
  let simm := dec (Instruction.simm16 i) in
  let fn := dec (Instruction.func i) in
  match opcode_of (Instruction.opcode i) with
  | Some NOP => "NOP"
  | Some HALT => "HALT"
  | Some JMP => "JMP  0x" ++ hex08 (Instruction.target i)
  | Some BEQ => "BEQ  r" ++ rd ++ ", r" ++ ra ++ ", " ++ off
  | Some BNE => "BNE  r" ++ rd ++ ", r" ++ ra ++ ", " ++ off
  | Some ADD => "ADD  r" ++ rd ++ ", r" ++ ra ++ ", r" ++ rb
  | Some SUB => "SUB  r" ++ rd ++ ", r" ++ ra ++ ", r" ++ rb
  | Some MUL => "MUL  r" ++ rd ++ ", r" ++ ra ++ ", r" ++ rb
  | Some LOAD => "LOAD r" ++ rd ++ ", r" ++ ra ++ ", " ++ simm
  | Some STORE => "STORE r" ++ rd ++ ", r" ++ ra ++ ", " ++ simm
  | Some MOV => "MOV  r" ++ rd ++ ", r" ++ ra
  | Some MOVI => "MOVI r" ++ rd ++ ", #" ++ dec (Instruction.imm16 i)
  | Some LOAD_VR => "LOAD_VR  v" ++ rd ++ ", r" ++ ra ++ ", " ++ simm
  | Some STORE_VR => "STORE_VR v" ++ rd ++ ", r" ++ ra ++ ", " ++ simm
  | Some VEC_ADD => "VEC_ADD  v" ++ rd ++ ", v" ++ ra ++ ", v" ++ rb
  | Some MATMUL_TILE => "MATMUL_TILE v" ++ rd ++ ", v" ++ ra ++ ", v" ++ rb ++ ", N=" ++ fn
  | Some DMA_LOAD => "DMA_LOAD  r" ++ rd ++ ", r" ++ ra ++ ", " ++ fn ++ " bytes"
  | Some DMA_STORE => "DMA_STORE r" ++ rd ++ ", r" ++ ra ++ ", " ++ fn ++ " bytes"
  | None => "???"
  end.
#[local] Open Scope Z_scope.

(** ** Theorems *)

(** The fields of a word as quotients and remainders. *)
Lemma field_div i sh n m :
  0 <= sh -> 0 <= n -> m = Z.ones n ->
  Z.land (Z.shiftr i sh) m = i / 2 ^ sh mod 2 ^ n.
Proof. intros. by rewrite (land_mask_mod _ m n), Z.shiftr_div_pow2. Qed.

Lemma opcode_div i : Instruction.opcode i = i.(raw) / 2 ^ 26 mod 2 ^ 6.
Proof. by apply field_div. Qed.
Lemma rd_div i : Instruction.rd i = i.(raw) / 2 ^ 21 mod 2 ^ 5.
Proof. by apply field_div. Qed.
Lemma ra_div i : Instruction.ra i = i.(raw) / 2 ^ 16 mod 2 ^ 5.
Proof. by apply field_div. Qed.
Lemma rb_div i : Instruction.rb i = i.(raw) / 2 ^ 11 mod 2 ^ 5.
Proof. by apply field_div. Qed.
Lemma func_div i : Instruction.func i = i.(raw) mod 2 ^ 11.
Proof. by apply land_mask_mod. Qed.
Lemma imm16_div i : Instruction.imm16 i = i.(raw) mod 2 ^ 16.
Proof. by apply land_mask_mod. Qed.
Lemma target_div i : Instruction.target i = i.(raw) mod 2 ^ 26.
Proof. by apply land_mask_mod. Qed.

Lemma reg_field r m : m = Z.ones 5 -> Z.land r m = r mod 2 ^ 5.
Proof. intros. by apply land_mask_mod. Qed.

(** One field of an encoder: masked, shifted, and inside 32 bits. *)
Lemma enc_field v n sh :
  0 <= sh -> fits n v -> n + sh <= 32 -> 0 <= n -> u32 (Z.shiftl v sh) = v * 2 ^ sh.
Proof.
  intros Hsh [Hv0 Hv] Hn Hn0. rewrite Z.shiftl_mul_pow2 by done. apply u32_small.
  assert (2 ^ n * 2 ^ sh <= 2 ^ 32).
  { rewrite <- Z.pow_add_r by done. apply Z.pow_le_mono_r; lia. }
  unfold fits. split; [apply Z.mul_nonneg_nonneg; lia|].
  apply Z.lt_le_trans with (2 ^ n * 2 ^ sh); [|done].
  apply Z.mul_lt_mono_pos_r; [apply Z.pow_pos_nonneg; lia|done].
Qed.

Lemma code_fits op : fits 6 (code op).
Proof. apply code_range. Qed.
Lemma mod_fits z n : 0 <= n -> fits n (z mod 2 ^ n).
Proof. intros. apply Z.mod_pos_bound. lia. Qed.

Lemma make_eq op : enc.make op = code op * 2 ^ 26.
Proof. apply (enc_field _ 6); [lia|apply code_fits|cbn; lia|lia]. Qed.

#[local] Ltac pack :=
  unfold RD_SHIFT, RA_SHIFT, RB_SHIFT;
  rewrite ?(reg_field _ RD_MASK), ?(reg_field _ RA_MASK), ?(reg_field _ RB_MASK) by done;
  rewrite ?(enc_field (_ mod 2 ^ 5) 5) by (try lia; apply mod_fits; lia).

Lemma rtype_eq op d a b fn :
  enc.rtype op d a b fn =
    (((code op * 2 ^ 5 + d mod 2 ^ 5) * 2 ^ 5 + a mod 2 ^ 5) * 2 ^ 5 + b mod 2 ^ 5)
      * 2 ^ 11 + fn mod 2 ^ 11.
Proof.
  unfold enc.rtype. fold (enc.make op). rewrite make_eq. pack.
  rewrite (land_mask_mod fn FUNC_MASK 11) by done.
  rewrite (lor_pack_shift _ _ 5 21), (lor_pack_shift _ _ 5 16),
    (lor_pack_shift _ _ 5 11), lor_pack by (try lia; apply mod_fits; lia).
  done.
Qed.

Lemma itype_eq op d a imm :
  enc.itype op d a imm =
    ((code op * 2 ^ 5 + d mod 2 ^ 5) * 2 ^ 5 + a mod 2 ^ 5) * 2 ^ 16 + imm mod 2 ^ 16.
Proof.
  unfold enc.itype. fold (enc.make op). rewrite make_eq. pack.
  rewrite (land_mask_mod imm IMM_MASK 16) by done.
  rewrite (lor_pack_shift _ _ 5 21), (lor_pack_shift _ _ 5 16), lor_pack
    by (try lia; apply mod_fits; lia).
  done.
Qed.

Lemma jtype_eq op addr :
  enc.jtype op addr = code op * 2 ^ 26 + addr mod 2 ^ 26.
Proof.
  unfold enc.jtype. fold (enc.make op).
  rewrite make_eq, (land_mask_mod addr TARGET_MASK 26) by done.
  apply lor_pack; [lia|]. apply mod_fits. lia.
Qed.

Lemma u32_imm z : Z.land (u32 z) IMM_MASK = Z.land z IMM_MASK.
Proof.
  rewrite !(land_mask_mod _ IMM_MASK 16) by done. unfold u32.
  symmetry. apply Znumtheory.Zmod_div_mod; [lia..|]. by exists (2 ^ 16).
Qed.

Lemma btype_itype op s t off : enc.btype op s t off = enc.itype op s t off.
Proof. unfold enc.btype, enc.itype. by rewrite u32_imm. Qed.

#[local] Ltac field_arith :=
  rewrite ?opcode_div, ?rd_div, ?ra_div, ?rb_div, ?func_div, ?imm16_div, ?target_div;
  cbn [raw]; unfold fits in *;
  change (2 ^ 5) with 32 in *; change (2 ^ 6) with 64 in *;
  change (2 ^ 11) with 2048 in *; change (2 ^ 16) with 65536 in *;
  change (2 ^ 21) with 2097152 in *; change (2 ^ 26) with 67108864 in *;
  change (2 ^ 32) with 4294967296 in *;
  Z.div_mod_to_equations; lia.

(** An instruction word of any shape keeps its opcode. *)
Lemma rtype_fields op d a b fn :
  let i := mkInstruction (enc.rtype op d a b fn) in
  Instruction.opcode i = code op /\ Instruction.rd i = d mod 2 ^ 5 /\
  Instruction.ra i = a mod 2 ^ 5 /\ Instruction.rb i = b mod 2 ^ 5 /\
  Instruction.func i = fn mod 2 ^ 11.
Proof.
  intros i. subst i. rewrite rtype_eq. pose proof (code_range op).
  pose proof (mod_fits d 5 ltac:(lia)). pose proof (mod_fits a 5 ltac:(lia)).
  pose proof (mod_fits b 5 ltac:(lia)). pose proof (mod_fits fn 11 ltac:(lia)).
  repeat split; generalize dependent (fn mod 2 ^ 11); generalize dependent (b mod 2 ^ 5);
    generalize dependent (a mod 2 ^ 5); generalize dependent (d mod 2 ^ 5); intros;
    field_arith.
Qed.

Lemma itype_fields op d a imm :
  let i := mkInstruction (enc.itype op d a imm) in
  Instruction.opcode i = code op /\ Instruction.rd i = d mod 2 ^ 5 /\
  Instruction.ra i = a mod 2 ^ 5 /\ Instruction.imm16 i = imm mod 2 ^ 16.
Proof.
  intros i. subst i. rewrite itype_eq. pose proof (code_range op).
  pose proof (mod_fits d 5 ltac:(lia)). pose proof (mod_fits a 5 ltac:(lia)).
  pose proof (mod_fits imm 16 ltac:(lia)).
  repeat split; generalize dependent (imm mod 2 ^ 16);
    generalize dependent (a mod 2 ^ 5); generalize dependent (d mod 2 ^ 5); intros;
    field_arith.
Qed.

Lemma jtype_fields op addr :
  let i := mkInstruction (enc.jtype op addr) in
  Instruction.opcode i = code op /\ Instruction.target i = addr mod 2 ^ 26.
Proof.
  intros i. subst i. rewrite jtype_eq. pose proof (code_range op).
  pose proof (mod_fits addr 26 ltac:(lia)).
  split; generalize dependent (addr mod 2 ^ 26); intros; field_arith.
Qed.

(** Encoded words have 32 bits. *)
Lemma rtype_fits op d a b fn : fits 32 (enc.rtype op d a b fn).
Proof.
  rewrite rtype_eq. pose proof (code_range op).
  pose proof (mod_fits d 5 ltac:(lia)). pose proof (mod_fits a 5 ltac:(lia)).
  pose proof (mod_fits b 5 ltac:(lia)). pose proof (mod_fits fn 11 ltac:(lia)). unfold fits in *. lia.
Qed.
Lemma itype_fits op d a imm : fits 32 (enc.itype op d a imm).
Proof.
  rewrite itype_eq. pose proof (code_range op).
  pose proof (mod_fits d 5 ltac:(lia)). pose proof (mod_fits a 5 ltac:(lia)).
  pose proof (mod_fits imm 16 ltac:(lia)). unfold fits in *. lia.
Qed.

(** The sign of a branch offset survives its 16-bit field. *)
Lemma s16_mod z : - 2 ^ 15 <= z < 2 ^ 15 -> s16 (z mod 2 ^ 16) = z.
Proof.
  intros Hz. unfold s16, to_signed. rewrite Z.mod_mod by lia.
  change (2 ^ 16) with 65536 in *. change (2 ^ (16 - 1)) with 32768.
  change (2 ^ 15) with 32768 in *.
  destruct (Z.ltb_spec (z mod 65536) 32768); Z.div_mod_to_equations; lia.
Qed.

(** C22: decoding inverts encoding for the four instruction formats: with
    register numbers below 32, an 11-bit function field, a 16-bit immediate, a
    26-bit target and a signed 16-bit branch offset, every accessor of
    [Instruction] returns the field the encoder was given. *)
Theorem decode_encode op d a b fn imm addr off :
  fits 5 d -> fits 5 a -> fits 5 b -> fits 11 fn -> fits 16 imm -> fits 26 addr ->
  - 2 ^ 15 <= off < 2 ^ 15 ->
  let r := mkInstruction (enc.rtype op d a b fn) in
  let i := mkInstruction (enc.itype op d a imm) in
  let j := mkInstruction (enc.jtype op addr) in
  let br := mkInstruction (enc.btype op d a off) in
  (Instruction.opcode r = code op /\ Instruction.rd r = d /\ Instruction.ra r = a /\
   Instruction.rb r = b /\ Instruction.func r = fn) /\
  (Instruction.opcode i = code op /\ Instruction.rd i = d /\ Instruction.ra i = a /\
   Instruction.imm16 i = imm) /\
  (Instruction.opcode j = code op /\ Instruction.target j = addr) /\
  (Instruction.opcode br = code op /\ Instruction.rd br = d /\ Instruction.ra br = a /\
   Instruction.offset br = off).
Proof.
  intros Hd Ha Hb Hf Hi Ht Ho r i j br.
  pose proof (rtype_fields op d a b fn) as Hr. cbn zeta in Hr.
  pose proof (itype_fields op d a imm) as HI. cbn zeta in HI.
  pose proof (jtype_fields op addr) as HJ. cbn zeta in HJ.
  pose proof (itype_fields op d a off) as HB. cbn zeta in HB.
  rewrite (Z.mod_small d), (Z.mod_small a) in * by done.
  rewrite (Z.mod_small b), (Z.mod_small fn), (Z.mod_small imm), (Z.mod_small addr) in * by done.
  destruct HB as (HB1 & HB2 & HB3 & HB4). subst br. rewrite btype_itype.
  do 3 (split; [done|]). do 3 (split; [done|]).
  unfold Instruction.imm16 in HB4. unfold Instruction.offset. rewrite HB4.
  by apply s16_mod.
Qed.

Lemma decode_encode_witness :
  let i := mkInstruction (enc.movi 1 10) in
  i.(raw) = 0x2C20000A /\ Instruction.rd i = 1 /\ Instruction.imm16 i = 10.
Proof.
  split; [reflexivity|].
  destruct (decode_encode MOVI 1 0 0 0 10 0 0) as (_ & (_ & H1 & _ & H2) & _);
    [vm_compute; split; congruence..|]. by split.
Defined.

(** Every 32-bit word is the encoding of its own fields, under the
    R-type and the I-type layout, so no bit of an instruction is lost by the
    accessors. *)
Theorem encode_decode op i :
  fits 32 i.(raw) -> opcode_of (Instruction.opcode i) = Some op ->
  enc.rtype op (Instruction.rd i) (Instruction.ra i) (Instruction.rb i)
    (Instruction.func i) = i.(raw) /\
  enc.itype op (Instruction.rd i) (Instruction.ra i) (Instruction.imm16 i) = i.(raw) /\
  enc.jtype op (Instruction.target i) = i.(raw).
Proof.
  intros Hi Hop%opcode_of_Some. rewrite rtype_eq, itype_eq, jtype_eq, <- Hop.
  repeat split; field_arith.
Qed.

Lemma encode_decode_witness :
  enc.itype MOVI 1 0 10 = 0x2C20000A.
Proof.
  destruct (encode_decode MOVI (mkInstruction 0x2C20000A)) as (_ & H & _);
    [vm_compute; split; congruence|reflexivity|exact H].
Defined.

(** The bit-field views of [Instruction::Format] do not read the
    fields the encoder writes: the opcode view of every instruction that is
    built by [enc::make] (NOP, HALT) or [enc::movi] is taken from the low six
    bits, where the immediate is. *)
Theorem format_view_differs d imm :
  let i := mkInstruction (enc.movi d imm) in
  Instruction.opcode i = code MOVI /\ Instruction.format_opcode i = imm mod 64.
Proof.
  intros i. destruct (itype_fields MOVI d 0 imm) as (H & _). split; [exact H|].
  subst i. unfold Instruction.format_opcode. cbn [raw].
  rewrite (land_mask_mod _ 63 6) by done. unfold enc.movi. rewrite itype_eq.
  change (2 ^ 6) with 64. change (2 ^ 16) with (64 * 1024).
  rewrite Z.mul_assoc, (Z.mul_comm _ 1024).
  rewrite Z.add_comm, (Z.mul_comm 1024), <- Z.mul_assoc.
  generalize ((code MOVI * 2 ^ 5 + d mod 2 ^ 5) * 2 ^ 5 + 0 mod 2 ^ 5). intros x.
  Z.div_mod_to_equations. lia.
Qed.
