(* ===== verification/Memory.v ===== *)
(** * Memories: include/aiasm/memory.h

    [VirtualSRAM] (the scratchpad) and [MainRAM] hold a [std::vector<uint8_t>]
    of a fixed size, zero-initialised.  A [buffer] is such a vector: its size
    and a finite map of the bytes written so far, absent bytes being zero.
    Element accesses outside the vector are undefined behaviour; the bounds
    checks of the two classes, with the 64-bit [size_t] arithmetic they are
    written in, throw instead. *)

From S2P Require Import Prelude Text Isa.
#[local] Open Scope Z_scope.

#[local] Set Primitive Projections.
Record buffer : Type := mkBuffer { blen : Z; bdata : gmap Z Z }.
#[local] Unset Primitive Projections.

(** ** std::vector<uint8_t> *)
Module Buffer.
Definition make (n : Z) : buffer := {| blen := n; bdata := ∅ |}.
Definition byte_at (b : buffer) (a : Z) : Z := default 0 (b.(bdata) !! a).
Definition in_range (b : buffer) (a n : Z) : bool := (0 <=? a) && (a + n <=? b.(blen)).

(** Memcpy out of and into the vector. *)
Fixpoint peek (b : buffer) (a : Z) (n : nat) : list Z :=
  match n with
  | O => []
  | S n => byte_at b a :: peek b (a + 1) n
  end.
Fixpoint poke_map (m : gmap Z Z) (a : Z) (l : list Z) : gmap Z Z :=
  match l with
  | [] => m
  | x :: l => poke_map (<[a := x]> m) (a + 1) l
  end.
Definition poke (b : buffer) (a : Z) (l : list Z) : buffer :=
  { b with bdata := poke_map b.(bdata) a l }.
Definition clear (b : buffer) : buffer := { b with bdata := ∅ }.

(** A memory of bytes. *)
Definition wf (b : buffer) : Prop :=
  fits 64 b.(blen) /\ forall a, is_byte (byte_at b a).

(** Two memories a program cannot tell apart. *)
Definition same (b c : buffer) : Prop :=
  b.(blen) = c.(blen) /\ forall a, byte_at b a = byte_at c a.

Lemma blen_poke b a l : blen (poke b a l) = blen b.
Proof. done. Qed.

Lemma peek_length b a n : length (peek b a n) = n.
Proof. revert a. induction n; intros; cbn; auto. Qed.

Lemma peek_wf b a n : wf b -> Forall is_byte (peek b a n).
Proof. intros [_ Hb]. revert a. induction n; intros; cbn; constructor; auto. Qed.

Lemma poke_map_lookup m a l k :
  poke_map m a l !! k =
    if (a <=? k) && (k <? a + zlen l) then l !! Z.to_nat (k - a) else m !! k.
Proof.
  unfold zlen. revert m a. induction l as [|x l IH]; intros m a; cbn [poke_map length].
  { destruct (Z.leb_spec a k), (Z.ltb_spec k (a + Z.of_nat 0)); (lia || done). }
  rewrite IH, Nat2Z.inj_succ. destruct (decide (k = a)) as [->|Hne].
  - replace ((a + 1 <=? a) && (a <? a + 1 + Z.of_nat (length l))) with false
      by (destruct (Z.leb_spec (a + 1) a); [lia|done]).
    replace ((a <=? a) && (a <? a + Z.succ (Z.of_nat (length l)))) with true
      by (destruct (Z.leb_spec a a), (Z.ltb_spec a (a + Z.succ (Z.of_nat (length l)))); (lia || done)).
    rewrite lookup_insert_eq, Z.sub_diag. done.
  - rewrite lookup_insert_ne by done.
    destruct (Z.leb_spec (a + 1) k), (Z.leb_spec a k); try lia; cbn; [|done].
    replace (k <? a + 1 + Z.of_nat (length l)) with (k <? a + Z.succ (Z.of_nat (length l)))
      by (apply Bool.eq_iff_eq_true; rewrite !Z.ltb_lt; lia).
    case_match; [|done].
    replace (Z.to_nat (k - a)) with (S (Z.to_nat (k - (a + 1)))) by lia. done.
Qed.

Lemma byte_at_poke b a l k :
  byte_at (poke b a l) k =
    if (a <=? k) && (k <? a + zlen l) then default 0 (l !! Z.to_nat (k - a))
    else byte_at b k.
Proof. unfold byte_at, poke. cbn. rewrite poke_map_lookup. by case_match. Qed.

Lemma byte_at_poke_out b a l k :
  k < a \/ a + zlen l <= k -> byte_at (poke b a l) k = byte_at b k.
Proof.
  intros Hk. rewrite byte_at_poke.
  destruct (Z.leb_spec a k), (Z.ltb_spec k (a + zlen l)); (lia || done).
Qed.

Lemma byte_at_poke_in b a l k :
  a <= k < a + zlen l -> byte_at (poke b a l) k = default 0 (l !! Z.to_nat (k - a)).
Proof.
  intros Hk. rewrite byte_at_poke.
  destruct (Z.leb_spec a k), (Z.ltb_spec k (a + zlen l)); (lia || done).
Qed.

Lemma peek_lookup b a n i :
  (i < n)%nat -> peek b a n !! i = Some (byte_at b (a + Z.of_nat i)).
Proof.
  revert a i. induction n as [|n IH]; intros a i Hi; [lia|].
  destruct i as [|i]; cbn [peek lookup list_lookup].
  - by rewrite Z.add_0_r.
  - change (peek b (a + 1) n !! i = Some (byte_at b (a + Z.of_nat (S i)))).
    rewrite IH by lia. do 2 f_equal. lia.
Qed.

Lemma peek_ext b c a n :
  (forall k, a <= k < a + Z.of_nat n -> byte_at b k = byte_at c k) ->
  peek b a n = peek c a n.
Proof.
  revert a. induction n as [|n IH]; intros a H; cbn [peek]; [done|].
  f_equal; [apply H; lia|apply IH; intros; apply H; lia].
Qed.

Lemma peek_poke b a l : peek (poke b a l) a (length l) = l.
Proof.
  apply list_eq. intros i. destruct (decide (i < length l)%nat) as [Hi|Hi].
  - rewrite peek_lookup, byte_at_poke_in by (unfold zlen; lia).
    replace (Z.to_nat (a + Z.of_nat i - a)) with i by lia.
    destruct (lookup_lt_is_Some_2 l i Hi) as [x Hx]. by rewrite Hx.
  - rewrite !lookup_ge_None_2; rewrite ?peek_length; (lia || done).
Qed.

Lemma peek_poke_disjoint b a l k n :
  k + Z.of_nat n <= a \/ a + zlen l <= k -> peek (poke b a l) k n = peek b k n.
Proof. intros H. apply peek_ext. intros j Hj. apply byte_at_poke_out. lia. Qed.

Lemma wf_make n : fits 64 n -> wf (make n).
Proof.
  intros Hn. split; [done|]. intros a. unfold byte_at, make. cbn.
  rewrite lookup_empty. cbn. unfold is_byte. lia.
Qed.
Lemma wf_clear b : wf b -> wf (clear b).
Proof. intros [Hb _]. by apply (wf_make (blen b)). Qed.
Lemma wf_poke b a l : wf b -> Forall is_byte l -> wf (poke b a l).
Proof.
  intros [Hn Hb] Hl. split; [done|]. intros k. rewrite byte_at_poke.
  case_match; [|done]. destruct (l !! _) as [x|] eqn:Hx; cbn.
  - by eapply Forall_lookup_1 in Hx.
  - unfold is_byte. lia.
Qed.

#[export] Instance same_equivalence : Equivalence same.
Proof.
  split; unfold same.
  - done.
  - intros b c [? ?]. split; auto.
  - intros b c d [? H1] [? H2]. split; [congruence|]. intros a. by rewrite H1.
Qed.
#[export] Instance byte_at_proper : Proper (same ==> eq ==> eq) byte_at.
Proof. intros b c [_ H] a ? <-. apply H. Qed.
#[export] Instance peek_proper : Proper (same ==> eq ==> eq ==> eq) peek.
Proof. intros b c [_ H] a ? <- n ? <-. apply peek_ext. auto. Qed.
#[export] Instance poke_proper : Proper (same ==> eq ==> eq ==> same) poke.
Proof.
  intros b c [H1 H2] a ? <- l ? <-. split; [done|]. intros k.
  rewrite !byte_at_poke. by case_match.
Qed.
End Buffer.
#[global] Arguments Buffer.poke : simpl never.
#[export] Hint Resolve Buffer.peek_wf Buffer.wf_poke Buffer.wf_clear : novium.

(** ** Typed accesses *)

(** A trivially copyable type [T]: its size and its object representation; and
    the values of [T] that a copy of their bytes restores. *)
Class TriviallyCopyable (T : Type) : Type := {
  sizeof : Z;
  object_bytes : T -> list Z;
  object_of : list Z -> T }.
#[global] Arguments sizeof T {_}.
Class Copies (T : Type) `{TriviallyCopyable T} (holds : T -> Prop) : Prop := {
  sizeof_range : 0 <= sizeof T < 2 ^ 32;
  object_bytes_size (v : T) : zlen (object_bytes v) = sizeof T;
  object_bytes_bytes (v : T) : Forall is_byte (object_bytes v);
  object_of_bytes v : holds v -> object_of (object_bytes v) = v }.

(** An unsigned integer of [n] bytes, on a little-endian host. *)
Record UInt (n : nat) : Type := mkUInt { uint_val : Z }.
#[global] Arguments mkUInt {n} _.
#[global] Arguments uint_val {n} _.
#[export] Instance uint_copyable n : TriviallyCopyable (UInt n) := {
  sizeof := Z.of_nat n;
  object_bytes v := le_bytes n (uint_val v);
  object_of l := mkUInt (le_val l) }.
Lemma uint_copies n :
  Z.of_nat n < 2 ^ 32 -> Copies (UInt n) (fun v => 0 <= uint_val v < 256 ^ Z.of_nat n).
Proof.
  intros Hn. split; cbn [sizeof object_bytes object_of uint_copyable].
  - lia.
  - intros v. unfold zlen. by rewrite le_bytes_length.
  - intros v. apply le_bytes_bytes.
  - intros [v] Hv. cbn [uint_val] in *. by rewrite le_val_bytes, Z.mod_small.
Qed.

(** ** VirtualSRAM *)
Abbreviation VirtualSRAM := buffer (only parsing).
Module VirtualSRAM.
(** [addr + size > data_.size()]: the sum is a 64-bit [size_t]. *)
Definition check_bounds (m : VirtualSRAM) (addr size : Z) : bool :=
  negb (u64 (addr + size) >? m.(blen)).

Definition write_bytes (addr : Z) (src : list Z) : M VirtualSRAM unit := fun m =>
  if check_bounds m addr (zlen src) then
    if Buffer.in_range m addr (zlen src) then (Ok tt, Buffer.poke m addr src)
    else (Undefined (BufferOverrun addr (zlen src)), m)
  else (Throw (SramOutOfBounds addr (zlen src)), m).

Definition read_bytes (m : VirtualSRAM) (addr count : Z) : outcome (list Z) :=
  if check_bounds m addr count then
    if Buffer.in_range m addr count then Ok (Buffer.peek m addr (Z.to_nat count))
    else Undefined (BufferOverrun addr count)
  else Throw (SramOutOfBounds addr count).

Definition write32 (addr value : Z) : M VirtualSRAM unit :=
  write_bytes addr (le_bytes 4 value).
Definition read32 (m : VirtualSRAM) (addr : Z) : outcome Z :=
  match read_bytes m addr 4 with
  | Ok l => Ok (le_val l)
  | Throw e => Throw e
  | Undefined u => Undefined u
  end.

Definition write `{TriviallyCopyable T} (addr : Z) (value : T) : M VirtualSRAM unit :=
  write_bytes addr (object_bytes value).
Definition read T `{TriviallyCopyable T} (m : VirtualSRAM) (addr : Z) : outcome T :=
  match read_bytes m addr (sizeof T) with
  | Ok l => Ok (object_of l)
  | Throw e => Throw e
  | Undefined u => Undefined u
  end.

Definition load (addr : Z) (src : list Z) : M VirtualSRAM unit := write_bytes addr src.
Definition words_bytes (ws : list Z) : list Z := concat (map (le_bytes 4) ws).
Definition load_words (addr : Z) (instrs : list Z) : M VirtualSRAM unit :=
  load addr (words_bytes instrs).

Definition in_text_region (addr : Z) : bool :=
  (TEXT_BASE <=? addr) && (addr <? TEXT_BASE + TEXT_SIZE).
Definition in_data_region (addr : Z) : bool :=
  (DATA_BASE <=? addr) && (addr <? DATA_BASE + DATA_SIZE).
Definition in_tensor_region (addr : Z) : bool :=
  (TENSOR_BASE <=? addr) && (addr <? TENSOR_BASE + TENSOR_SIZE).
Definition size (m : VirtualSRAM) : Z := m.(blen).
Definition clear (m : VirtualSRAM) : VirtualSRAM := Buffer.clear m.

(** *** Lemmas *)
Lemma check_bounds_small m addr n :
  0 <= addr -> 0 <= n -> addr + n < 2 ^ 64 ->
  check_bounds m addr n = Buffer.in_range m addr n.
Proof.
  intros. unfold check_bounds, Buffer.in_range. rewrite u64_small by (unfold fits; lia).
  destruct (Z.leb_spec 0 addr); [|lia]. cbn.
  rewrite Z.gtb_ltb. destruct (Z.ltb_spec (blen m) (addr + n)),
    (Z.leb_spec (addr + n) (blen m)); (lia || done).
Qed.

Lemma write_bytes_ok m addr src :
  0 <= addr -> addr + zlen src <= m.(blen) -> m.(blen) < 2 ^ 64 ->
  write_bytes addr src m = (Ok tt, Buffer.poke m addr src).
Proof.
  intros. unfold write_bytes. unfold zlen in *.
  rewrite check_bounds_small by lia. unfold Buffer.in_range.
  destruct (Z.leb_spec 0 addr); [|lia].
  by destruct (Z.leb_spec (addr + Z.of_nat (length src)) (blen m)); [|lia].
Qed.

Lemma write_bytes_throws m addr src :
  0 <= addr -> m.(blen) < addr + zlen src < 2 ^ 64 ->
  write_bytes addr src m = (Throw (SramOutOfBounds addr (zlen src)), m).
Proof.
  intros. unfold write_bytes, zlen in *. rewrite check_bounds_small by lia.
  unfold Buffer.in_range. destruct (Z.leb_spec 0 addr); [|lia].
  by destruct (Z.leb_spec (addr + Z.of_nat (length src)) (blen m)); [lia|].
Qed.

Lemma read_bytes_ok m addr n :
  0 <= addr -> 0 <= n -> addr + n <= m.(blen) -> m.(blen) < 2 ^ 64 ->
  read_bytes m addr n = Ok (Buffer.peek m addr (Z.to_nat n)).
Proof.
  intros. unfold read_bytes. rewrite check_bounds_small by lia. unfold Buffer.in_range.
  destruct (Z.leb_spec 0 addr); [|lia]. by destruct (Z.leb_spec (addr + n) (blen m)); [|lia].
Qed.

Lemma read_bytes_throws m addr n :
  0 <= addr -> 0 <= n -> m.(blen) < addr + n < 2 ^ 64 ->
  read_bytes m addr n = Throw (SramOutOfBounds addr n).
Proof.
  intros. unfold read_bytes. rewrite check_bounds_small by lia. unfold Buffer.in_range.
  destruct (Z.leb_spec 0 addr); [|lia]. by destruct (Z.leb_spec (addr + n) (blen m)); [lia|].
Qed.

Lemma read_bytes_bytes m addr n l :
  Buffer.wf m -> read_bytes m addr n = Ok l -> Forall is_byte l.
Proof.
  intros Hm. unfold read_bytes. destruct (check_bounds m addr n); [|done].
  destruct (Buffer.in_range m addr n); [|done]. intros <-%Ok_inj. by apply Buffer.peek_wf.
Qed.
Lemma read32_ok m addr :
  0 <= addr -> addr + 4 <= m.(blen) -> m.(blen) < 2 ^ 64 ->
  read32 m addr = Ok (le_val (Buffer.peek m addr 4)).
Proof. intros. unfold read32. by rewrite read_bytes_ok by lia. Qed.
Lemma read32_throws m addr :
  0 <= addr -> m.(blen) < addr + 4 < 2 ^ 64 ->
  read32 m addr = Throw (SramOutOfBounds addr 4).
Proof. intros. unfold read32. by rewrite read_bytes_throws by lia. Qed.

Lemma read32_fits m addr v : Buffer.wf m -> read32 m addr = Ok v -> fits 32 v.
Proof.
  intros Hm. unfold read32, read_bytes. repeat case_match; intros; simplify_eq.
  pose proof (le_val_range _ (Buffer.peek_wf m addr (Z.to_nat 4) Hm)) as H.
  rewrite Buffer.peek_length in H. exact H.
Qed.

(** The word at an address, for a copy that is not bounds-checked. *)
Lemma peek_word_fits m addr : Buffer.wf m -> fits 32 (le_val (Buffer.peek m addr 4)).
Proof.
  intros Hm. pose proof (le_val_range _ (Buffer.peek_wf m addr 4 Hm)) as Hr.
  rewrite Buffer.peek_length in Hr. exact Hr.
Qed.

(** A 32-bit access of a memory of less than 2^64 bytes never leaves the
    vector unnoticed. *)
Lemma read32_no_ub m addr u :
  fits 32 addr -> read32 m addr <> Undefined u.
Proof.
  unfold fits. intros Ha. unfold read32, read_bytes.
  rewrite check_bounds_small by lia. by destruct (Buffer.in_range m addr 4).
Qed.
Lemma write_bytes_no_ub m addr src u :
  fits 32 addr -> zlen src < 2 ^ 32 -> (write_bytes addr src m).1 <> Undefined u.
Proof.
  unfold fits. intros Ha Hs. unfold write_bytes.
  rewrite check_bounds_small by (unfold zlen in *; lia).
  by destruct (Buffer.in_range m addr (zlen src)).
Qed.

Lemma write_bytes_wf addr src : Forall is_byte src -> preserves Buffer.wf (write_bytes addr src).
Proof. intros Hs m Hm. unfold write_bytes. repeat case_match; cbn; auto with novium. Qed.
Lemma write_bytes_blen m addr src : (write_bytes addr src m).2.(blen) = m.(blen).
Proof. unfold write_bytes. by repeat case_match. Qed.
End VirtualSRAM.

Lemma words_bytes_length ws : List.length (VirtualSRAM.words_bytes ws) = (4 * List.length ws)%nat.
Proof.
  induction ws as [|w ws IH]; [done|]. unfold VirtualSRAM.words_bytes in *. cbn [map concat].
  rewrite length_app, IH, le_bytes_length. cbn [List.length]. lia.
Qed.

(** ** MainRAM *)
Abbreviation MainRAM := buffer (only parsing).
Module MainRAM.
Definition check_bounds (m : MainRAM) (addr count : Z) : bool :=
  negb (u64 (addr + count) >? m.(blen)).
Definition write (addr : Z) (src : list Z) : M MainRAM unit := fun m =>
  if check_bounds m addr (zlen src) then
    if Buffer.in_range m addr (zlen src) then (Ok tt, Buffer.poke m addr src)
    else (Undefined (BufferOverrun addr (zlen src)), m)
  else (Throw MainRamOutOfBounds, m).
Definition read (m : MainRAM) (addr count : Z) : outcome (list Z) :=
  if check_bounds m addr count then
    if Buffer.in_range m addr count then Ok (Buffer.peek m addr (Z.to_nat count))
    else Undefined (BufferOverrun addr count)
  else Throw MainRamOutOfBounds.
Definition write_typed `{TriviallyCopyable T} (addr : Z) (value : T) : M MainRAM unit :=
  write addr (object_bytes value).
Definition size (m : MainRAM) : Z := m.(blen).
Definition clear (m : MainRAM) : MainRAM := Buffer.clear m.

Lemma write_ok m addr src :
  0 <= addr -> addr + zlen src <= m.(blen) -> m.(blen) < 2 ^ 64 ->
  write addr src m = (Ok tt, Buffer.poke m addr src).
Proof.
  intros. pose proof (VirtualSRAM.write_bytes_ok m addr src) as Hw.
  specialize (Hw ltac:(done) ltac:(done) ltac:(done)).
  unfold VirtualSRAM.write_bytes in Hw. unfold write.
  change (check_bounds m addr (zlen src)) with (VirtualSRAM.check_bounds m addr (zlen src)).
  by repeat case_match.
Qed.
Lemma ram_write_wf addr src : Forall is_byte src -> preserves Buffer.wf (write addr src).
Proof. intros Hs m Hm. unfold write. repeat case_match; cbn; auto with novium. Qed.
End MainRAM.

(** ** Theorems *)

Lemma write32_ok (m : VirtualSRAM) addr v :
  fits 32 addr -> fits 32 v -> Buffer.wf m -> addr + 4 <= m.(blen) ->
  exists m', VirtualSRAM.write32 addr v m = (Ok tt, m') /\ Buffer.wf m' /\
    m'.(blen) = m.(blen) /\ VirtualSRAM.read32 m' addr = Ok v /\
    (forall k, k < addr \/ addr + 4 <= k -> Buffer.byte_at m' k = Buffer.byte_at m k).
Proof.
  unfold fits. intros Ha Hv Hm Hin. pose proof Hm as [Hl _]. unfold fits in Hl.
  assert (Hlen : zlen (le_bytes 4 v) = 4) by (unfold zlen; by rewrite le_bytes_length).
  exists (Buffer.poke m addr (le_bytes 4 v)). unfold VirtualSRAM.write32.
  rewrite VirtualSRAM.write_bytes_ok by (rewrite ?Hlen; lia).
  split; [done|]. split; [apply Buffer.wf_poke; [done|apply le_bytes_bytes]|].
  split; [done|]. split.
  - rewrite VirtualSRAM.read32_ok by (rewrite ?Buffer.blen_poke; lia).
    change 4%nat with (length (le_bytes 4 v)) at 1. rewrite Buffer.peek_poke.
    rewrite le_val_bytes. f_equal. by apply Z.mod_small.
  - intros k Hk. apply Buffer.byte_at_poke_out. lia.
Qed.
Lemma write32_throws (m : VirtualSRAM) addr v :
  fits 32 addr -> m.(blen) < addr + 4 ->
  VirtualSRAM.write32 addr v m = (Throw (SramOutOfBounds addr 4), m).
Proof.
  unfold fits. intros Ha Hout. unfold VirtualSRAM.write32.
  assert (Hlen : zlen (le_bytes 4 v) = 4) by (unfold zlen; by rewrite le_bytes_length).
  rewrite VirtualSRAM.write_bytes_throws by lia. by rewrite Hlen.
Qed.
(** A load that does not touch the bytes that changed. *)
Lemma read32_frame (m m' : VirtualSRAM) a :
  fits 32 a -> m'.(blen) = m.(blen) ->
  (forall k, a <= k < a + 4 -> Buffer.byte_at m' k = Buffer.byte_at m k) ->
  VirtualSRAM.read32 m' a = VirtualSRAM.read32 m a.
Proof.
  unfold fits. intros Ha Hl Hb. unfold VirtualSRAM.read32, VirtualSRAM.read_bytes.
  rewrite !VirtualSRAM.check_bounds_small by lia. unfold Buffer.in_range. rewrite Hl.
  rewrite (Buffer.peek_ext m' m) by (intros; apply Hb; lia). done.
Qed.

(** A 32-bit store either throws and changes nothing, exactly when the
    word does not fit below the size, or stores: the same word reads back and
    every byte outside it is unchanged; so every disjoint 32-bit load returns
    what it did before. *)
Theorem write32_read32 (m : VirtualSRAM) addr v :
  fits 32 addr -> fits 32 v -> Buffer.wf m ->
  if addr + 4 <=? m.(blen) then
    exists m', VirtualSRAM.write32 addr v m = (Ok tt, m') /\ Buffer.wf m' /\
      m'.(blen) = m.(blen) /\
      VirtualSRAM.read32 m' addr = Ok v /\
      (forall k, k < addr \/ addr + 4 <= k -> Buffer.byte_at m' k = Buffer.byte_at m k) /\
      (forall a', fits 32 a' -> a' + 4 <= addr \/ addr + 4 <= a' ->
         VirtualSRAM.read32 m' a' = VirtualSRAM.read32 m a')
  else VirtualSRAM.write32 addr v m = (Throw (SramOutOfBounds addr 4), m) /\
       VirtualSRAM.read32 m addr = Throw (SramOutOfBounds addr 4).
Proof.
  intros Ha Hv Hm. destruct (Z.leb_spec (addr + 4) (blen m)) as [Hin|Hout].
  - destruct (write32_ok m addr v Ha Hv Hm Hin) as (m' & Hw & Hm' & Hl & Hr & Hf).
    exists m'. repeat (split; [done|]). intros a' Ha' Hd. apply read32_frame; [done..|].
    intros k Hk. apply Hf. lia.
  - split; [by apply write32_throws|]. unfold fits in *. apply VirtualSRAM.read32_throws; lia.
Qed.

Lemma write32_read32_witness :
  exists m', VirtualSRAM.write32 0x10 7 (Buffer.make 64) = (Ok tt, m') /\
    VirtualSRAM.read32 m' 0x10 = Ok 7.
Proof.
  pose proof (write32_read32 (Buffer.make 64) 0x10 7 ltac:(by vm_compute)
    ltac:(by vm_compute) (Buffer.wf_make 64 ltac:(by vm_compute))) as H.
  cbn in H. destruct H as (m' & H1 & _ & _ & H2 & _). exists m'. by split.
Defined.

(** A typed write of any trivially copyable type throws when the object does
    not fit; else it reads back, and no other byte changes. *)
Theorem write_read `{TriviallyCopyable T} holds `{!Copies T holds} (m : VirtualSRAM) addr (v : T) :
  fits 32 addr -> holds v -> Buffer.wf m ->
  if addr + sizeof T <=? m.(blen) then
    exists m', VirtualSRAM.write addr v m = (Ok tt, m') /\ Buffer.wf m' /\
      VirtualSRAM.read T m' addr = Ok v /\
      (forall k, k < addr \/ addr + sizeof T <= k -> Buffer.byte_at m' k = Buffer.byte_at m k)
  else VirtualSRAM.write addr v m = (Throw (SramOutOfBounds addr (sizeof T)), m) /\
       VirtualSRAM.read T m addr = Throw (SramOutOfBounds addr (sizeof T)).
Proof.
  intros [Ha0 Ha] Hv Hm. pose proof Hm as [[Hl0 Hl] _]. pose proof sizeof_range as Hs. pose proof (object_bytes_size v) as Hz.
  unfold VirtualSRAM.write, VirtualSRAM.read. destruct (Z.leb_spec (addr + sizeof T) (blen m)).
  - exists (Buffer.poke m addr (object_bytes v)). rewrite VirtualSRAM.write_bytes_ok by lia. split; [done|].
    split; [apply Buffer.wf_poke; [done|apply object_bytes_bytes]|]. split.
    + rewrite VirtualSRAM.read_bytes_ok by (rewrite ?Buffer.blen_poke; lia). rewrite <- Hz. unfold zlen.
      rewrite Nat2Z.id, Buffer.peek_poke. f_equal. by apply object_of_bytes.
    + intros k Hk. apply Buffer.byte_at_poke_out. lia.
  - rewrite VirtualSRAM.write_bytes_throws, Hz by lia. by rewrite VirtualSRAM.read_bytes_throws by lia.
Qed.
Lemma write_read_witness :
  exists m', VirtualSRAM.write 0x10 (mkUInt 0x1234567890 : UInt 8) (Buffer.make 64) = (Ok tt, m') /\
    VirtualSRAM.read (UInt 8) m' 0x10 = Ok (mkUInt 0x1234567890).
Proof.
  pose proof (@write_read (UInt 8) _ _ (uint_copies 8 ltac:(lia)) (Buffer.make 64) 0x10 (mkUInt 0x1234567890)
    ltac:(by vm_compute) ltac:(cbn; lia) (Buffer.wf_make 64 ltac:(by vm_compute))) as H.
  cbn in H. destruct H as (m' & H1 & _ & H2 & _). exists m'. by split.
Defined.

(** The bounds check is computed modulo 2^64: a block write passes it
    and stays inside the vector for every length below 2^64 - 2^32, but a
    length of 2^64 - addr wraps to zero, passes the check, and the copy that
    follows is outside the vector. *)
Theorem check_bounds_wraps (m : VirtualSRAM) addr n :
  fits 32 addr -> 0 <= n < 2 ^ 64 -> fits 64 m.(blen) ->
  (n < 2 ^ 64 - 2 ^ 32 ->
     VirtualSRAM.check_bounds m addr n = Buffer.in_range m addr n) /\
  (0 < addr -> n = 2 ^ 64 - addr ->
     VirtualSRAM.read_bytes m addr n = Undefined (BufferOverrun addr n)).
Proof.
  unfold fits. intros Ha Hn Hl. split; [intros; apply VirtualSRAM.check_bounds_small; lia|].
  intros Hp ->. unfold VirtualSRAM.read_bytes, VirtualSRAM.check_bounds.
  replace (addr + (2 ^ 64 - addr)) with (1 * 2 ^ 64) by lia.
  unfold u64. rewrite Z.mod_mul by lia. rewrite Z.gtb_ltb.
  destruct (Z.ltb_spec (blen m) 0); [lia|]. cbn [negb]. unfold Buffer.in_range.
  destruct (Z.leb_spec (addr + (2 ^ 64 - addr)) (blen m)); [lia|]. by rewrite andb_false_r.
Qed.

Lemma check_bounds_wraps_witness :
  VirtualSRAM.read_bytes (Buffer.make 64) 16 (2 ^ 64 - 16)
    = Undefined (BufferOverrun 16 (2 ^ 64 - 16)).
Proof.
  destruct (check_bounds_wraps (Buffer.make 64) 16 (2 ^ 64 - 16)) as [_ H];
    [vm_compute; split; congruence..|]. apply H; reflexivity.
Defined.
