(* ===== verification/Registers.v ===== *)
(** * Architectural state: registers.h and csr.h

    [RegisterFile]: sixteen 32-bit general registers, eight vector registers
    of sixteen floats (kept as their 32-bit patterns, as [memcpy] moves
    them), the program counter, the halt flag and the status flags.
    [CSRFile]: 4096 64-bit control registers and the privilege level. *)

From S2P Require Import Prelude Text Isa.
#[local] Open Scope Z_scope.

#[local] Set Primitive Projections.
Record StatusFlags : Type :=
  mkStatus { zero : bool; negative : bool; overflow : bool }.
Record RegisterFile : Type := mkRegs {
  gpr : list Z;
  vr : list (list Z);
  pc : Z;
  halt : bool;
  status : StatusFlags }.
Record CSRFile : Type := mkCSR { regs : gmap Z Z; priv : Z }.
#[local] Unset Primitive Projections.

Definition no_flags : StatusFlags := {| zero := false; negative := false; overflow := false |}.

Module RegisterFile.
(** [gpr[idx]] and [vr[idx]] are unchecked: [None] is an index past the end. *)
Definition read_gpr (r : RegisterFile) (idx : Z) : option Z :=
  if idx =? 0 then Some 0 else zget r.(gpr) idx.
Definition write_gpr (r : RegisterFile) (idx value : Z) : option RegisterFile :=
  if idx =? 0 then Some { r with gpr := zset r.(gpr) 0 0 }
  else if idx <? zlen r.(gpr) then
    Some { r with gpr := zset (zset r.(gpr) idx value) 0 0 }
  else None.
Definition read_vr (r : RegisterFile) (idx : Z) : option (list Z) := zget r.(vr) idx.
Definition write_vr (r : RegisterFile) (idx : Z) (v : list Z) : RegisterFile :=
  { r with vr := zset r.(vr) idx v }.

Definition update_flags_u32 (r : RegisterFile) (result : Z) : RegisterFile :=
  { r with status := {| zero := result =? 0;
                        negative := Z.land (Z.shiftr result 31) 1 =? 1;
                        overflow := false |} }.
Definition update_flags_s32 (r : RegisterFile) (result : Z) : RegisterFile :=
  { r with status := {| zero := result =? 0; negative := result <? 0; overflow := false |} }.

Definition init : RegisterFile :=
  {| gpr := replicate 16 0; vr := replicate 8 (replicate 16 0);
     pc := 0; halt := false; status := no_flags |}.
Definition reset (r : RegisterFile) : RegisterFile :=
  {| gpr := replicate 16 0; vr := replicate 8 (replicate 16 0);
     pc := 0; halt := false; status := no_flags |}.

(** The invariant of the register file: its arrays have their sizes and hold
    32-bit values, and r0 is zero. *)
Definition vec_ok (v : list Z) : Prop := length v = 16%nat /\ Forall (fits 32) v.
Record wf (r : RegisterFile) : Prop := {
  wf_gpr_len : length r.(gpr) = 16%nat;
  wf_gpr : Forall (fits 32) r.(gpr);
  wf_r0 : r.(gpr) !! 0%nat = Some 0;
  wf_vr_len : length r.(vr) = 8%nat;
  wf_vr : Forall vec_ok r.(vr);
  wf_pc : fits 32 r.(pc) }.

Lemma regs_init_wf : wf init.
Proof.
  split; try reflexivity; try (cbn; unfold fits; lia).
  - repeat constructor; unfold fits; lia.
  - repeat constructor; unfold fits; cbn; lia.
Qed.
Lemma reset_init r : reset r = init.
Proof. done. Qed.

Lemma read_gpr_some r idx :
  wf r -> 0 <= idx < 16 -> exists v, read_gpr r idx = Some v /\ fits 32 v.
Proof.
  intros Hr Hi. unfold read_gpr. destruct (Z.eqb_spec idx 0).
  - exists 0. split; [done|]. unfold fits. lia.
  - destruct (zget_lt (gpr r) idx) as [v Hv].
    { unfold zlen. rewrite wf_gpr_len by done. lia. }
    exists v. split; [done|]. by eapply Forall_zget; [apply wf_gpr|].
Qed.
Lemma read_gpr_fits r idx v : wf r -> read_gpr r idx = Some v -> fits 32 v.
Proof.
  intros Hr. unfold read_gpr. case_match; intros; simplify_eq.
  - unfold fits. lia.
  - by eapply Forall_zget; [apply wf_gpr|].
Qed.
Lemma read_gpr_ub r idx : wf r -> 16 <= idx -> read_gpr r idx = None.
Proof.
  intros Hr Hi. unfold read_gpr. destruct (Z.eqb_spec idx 0); [lia|].
  apply zget_None. unfold zlen. rewrite wf_gpr_len by done. lia.
Qed.

Lemma write_gpr_wf r idx v r' :
  wf r -> 0 <= idx -> fits 32 v -> write_gpr r idx v = Some r' -> wf r'.
Proof.
  intros Hr Hi Hv. assert (H0 : fits 32 0) by (unfold fits; lia).
  unfold write_gpr. repeat case_match; intros; simplify_eq.
  all: destruct Hr; split; cbn; unfold zset; rewrite ?length_insert; auto.
  all: rewrite ?list_lookup_insert_eq by (rewrite ?length_insert; lia); auto.
  all: repeat (apply Forall_insert; auto).
Qed.
Lemma write_gpr_some r idx v :
  wf r -> 0 <= idx < 16 -> exists r', write_gpr r idx v = Some r'.
Proof.
  intros Hr Hi. unfold write_gpr. destruct (Z.eqb_spec idx 0); [eauto|].
  destruct (Z.ltb_spec idx (zlen (gpr r))) as [|Hge]; [eauto|].
  unfold zlen in Hge. rewrite wf_gpr_len in Hge by done. lia.
Qed.
Lemma write_gpr_ub r idx v : wf r -> 16 <= idx -> write_gpr r idx v = None.
Proof.
  intros Hr Hi. unfold write_gpr. destruct (Z.eqb_spec idx 0); [lia|].
  destruct (Z.ltb_spec idx (zlen (gpr r))) as [Hlt|]; [|done].
  unfold zlen in Hlt. rewrite wf_gpr_len in Hlt by done. lia.
Qed.
(** Only the general registers change. *)
Lemma write_gpr_frame r idx v r' :
  write_gpr r idx v = Some r' ->
  r'.(vr) = r.(vr) /\ r'.(pc) = r.(pc) /\ r'.(halt) = r.(halt) /\ r'.(status) = r.(status).
Proof. unfold write_gpr. repeat case_match; intros; by simplify_eq. Qed.

(** A written register reads back, unless it is r0; the others keep their
    values. *)
Lemma read_write_gpr r idx v r' j :
  wf r -> 0 <= idx -> 0 <= j -> write_gpr r idx v = Some r' ->
  read_gpr r' j = if j =? 0 then Some 0 else if j =? idx then Some v else read_gpr r j.
Proof.
  intros Hr Hi Hj. unfold write_gpr, read_gpr.
  destruct (Z.eqb_spec j 0) as [->|Hj0]; [done|].
  destruct (Z.eqb_spec idx 0) as [->|Hi0].
  { intros [= <-]. cbn. destruct (Z.eqb_spec j 0); [done|].
    by rewrite zget_zset_ne by lia. }
  destruct (Z.ltb_spec idx (zlen (gpr r))); [|done]. intros [= <-]. cbn.
  rewrite zget_zset_ne by lia. destruct (Z.eqb_spec j idx) as [->|].
  - by rewrite zget_zset_eq by lia.
  - by rewrite zget_zset_ne by lia.
Qed.

Lemma update_flags_wf r z : wf r -> wf (update_flags_u32 r z).
Proof. by intros []. Qed.
Lemma set_pc_wf r p : wf r -> fits 32 p -> wf { r with pc := p }.
Proof. by intros [] ?. Qed.
Lemma set_halt_wf r b : wf r -> wf { r with halt := b }.
Proof. by intros []. Qed.
Lemma set_status_wf r st : wf r -> wf { r with status := st }.
Proof. by intros []. Qed.

Lemma read_vr_some r idx :
  wf r -> 0 <= idx < 8 -> exists v, read_vr r idx = Some v /\ vec_ok v.
Proof.
  intros Hr Hi. unfold read_vr. destruct (zget_lt (vr r) idx) as [v Hv].
  { unfold zlen. rewrite wf_vr_len by done. lia. }
  exists v. split; [done|]. by eapply Forall_zget; [apply wf_vr|].
Qed.
Lemma read_vr_ub r idx : wf r -> 8 <= idx -> read_vr r idx = None.
Proof. intros Hr Hi. apply zget_None. unfold zlen. rewrite wf_vr_len by done. lia. Qed.
Lemma read_vr_ok r idx v : wf r -> read_vr r idx = Some v -> vec_ok v.
Proof. intros Hr. apply Forall_zget, Hr. Qed.
Lemma write_vr_wf r idx v : wf r -> vec_ok v -> wf (write_vr r idx v).
Proof.
  intros [] Hv. split; cbn; auto.
  - unfold zset. by rewrite length_insert.
  - by apply Forall_zset.
Qed.
End RegisterFile.
#[export] Hint Resolve RegisterFile.regs_init_wf RegisterFile.update_flags_wf
  RegisterFile.set_pc_wf RegisterFile.set_halt_wf RegisterFile.set_status_wf
  RegisterFile.write_vr_wf : novium.

(** ** Control and status registers *)

(** [enum class PrivilegeLevel : uint8_t]: a value of the enum is any byte,
    and [mret] can produce the unnamed value 2. *)
Definition User : Z := 0.
Definition Supervisor : Z := 1.
Definition Machine : Z := 3.

Definition CSR_FFLAGS : Z := 0x001.
Definition CSR_FRM : Z := 0x002.
Definition CSR_FCSR : Z := 0x003.
Definition CSR_CYCLE : Z := 0xC00.
Definition CSR_TIME : Z := 0xC01.
Definition CSR_INSTRET : Z := 0xC02.
Definition CSR_SSTATUS : Z := 0x100.
Definition CSR_SIE : Z := 0x104.
Definition CSR_STVEC : Z := 0x105.
Definition CSR_SEPC : Z := 0x141.
Definition CSR_SCAUSE : Z := 0x142.
Definition CSR_STVAL : Z := 0x143.
Definition CSR_SATP : Z := 0x180.
Definition CSR_MSTATUS : Z := 0x300.
Definition CSR_MISA : Z := 0x301.
Definition CSR_MEDELEG : Z := 0x302.
Definition CSR_MIDELEG : Z := 0x303.
Definition CSR_MIE : Z := 0x304.
Definition CSR_MTVEC : Z := 0x305.
Definition CSR_MSCRATCH : Z := 0x340.
Definition CSR_MEPC : Z := 0x341.
Definition CSR_MCAUSE : Z := 0x342.
Definition CSR_MTVAL : Z := 0x343.
Definition CSR_MIP : Z := 0x344.
Definition CSR_NOV_TILE : Z := 0x800.
Definition CSR_NOV_LANES : Z := 0x801.
Definition CSR_NOV_STAT : Z := 0x802.

Module CSRFile.
Definition read (c : CSRFile) (addr : Z) : Z :=
  if addr <? 4096 then default 0 (c.(regs) !! addr) else 0.
Definition write (c : CSRFile) (addr val : Z) : CSRFile :=
  if 4096 <=? addr then c
  else if addr =? CSR_MISA then c
  else { c with regs := <[addr := val]> c.(regs) }.
Definition mstatus (c : CSRFile) : Z := read c CSR_MSTATUS.
Definition mtvec (c : CSRFile) : Z := read c CSR_MTVEC.
Definition mepc (c : CSRFile) : Z := read c CSR_MEPC.
Definition set_mepc (c : CSRFile) (v : Z) : CSRFile := write c CSR_MEPC v.
Definition satp (c : CSRFile) : Z := read c CSR_SATP.
Definition mstatus_mie (c : CSRFile) : bool :=
  negb (Z.land (read c CSR_MSTATUS) (Z.shiftl 1 3) =? 0).
Definition mie_enabled (c : CSRFile) (irq : Z) : bool :=
  negb (Z.land (read c CSR_MIE) (Z.shiftl 1 irq) =? 0).
(** A default-constructed file is all zeros; [reset] writes the ISA word. *)
Definition init : CSRFile := {| regs := ∅; priv := Machine |}.
Definition reset (c : CSRFile) : CSRFile :=
  {| regs := <[CSR_SATP := 0]> (<[CSR_MTVEC := 0]> (<[CSR_MSTATUS := 0]>
               (<[CSR_MISA := 0x40001100]> ∅)));
     priv := Machine |}.

#[local] Open Scope string_scope.
Definition dump (c : CSRFile) : string :=
  "priv=" ++ udec (priv c) ++ " mstatus=0x" ++ hex (read c CSR_MSTATUS)
  ++ " mtvec=0x" ++ hex (read c CSR_MTVEC) ++ " mepc=0x" ++ hex (read c CSR_MEPC)
  ++ " mcause=0x" ++ hex (read c CSR_MCAUSE) ++ " satp=0x" ++ hex (read c CSR_SATP).
#[local] Open Scope Z_scope.

Record wf (c : CSRFile) : Prop := {
  wf_regs : map_Forall (fun _ v => fits 64 v) c.(regs);
  wf_priv : 0 <= c.(priv) < 4 }.

Lemma read_fits c addr : wf c -> fits 64 (read c addr).
Proof.
  intros [Hr _]. assert (fits 64 0) by (unfold fits; lia). unfold read.
  case_match; [|done]. destruct (regs c !! addr) eqn:Hl; [by eapply Hr|done].
Qed.
Lemma csr_write_wf c addr v : wf c -> fits 64 v -> wf (write c addr v).
Proof.
  intros [Hr Hp] Hv. unfold write. repeat case_match; try done.
  split; [|done]. cbn. by apply map_Forall_insert_2.
Qed.
Lemma csr_init_wf : wf init.
Proof. split; [apply map_Forall_empty|]. unfold init, Machine. cbn. lia. Qed.
Lemma csr_reset_wf c : wf (reset c).
Proof.
  split; [|cbn; unfold Machine; lia]. cbn [reset regs].
  repeat apply map_Forall_insert_2; try (unfold fits; lia). apply map_Forall_empty.
Qed.
Lemma set_priv_wf c p : wf c -> 0 <= p < 4 -> wf { c with priv := p }.
Proof. intros [] ?. by split. Qed.

Lemma read_write c a b v :
  read (write c a v) b =
    if (a <? 4096) && negb (a =? CSR_MISA) && (b =? a) then v else read c b.
Proof.
  unfold read, write. rewrite Z.leb_antisym.
  destruct (Z.ltb_spec a 4096); cbn; [|done].
  destruct (Z.eqb_spec a CSR_MISA); cbn; [done|].
  destruct (Z.eqb_spec b a) as [->|].
  - destruct (Z.ltb_spec a 4096); [|lia]. by rewrite lookup_insert_eq.
  - by rewrite lookup_insert_ne.
Qed.
(** The same for the writable registers. *)
Lemma read_write_csr c a b v :
  (a <? 4096) = true -> (a =? CSR_MISA) = false ->
  read (write c a v) b = if b =? a then v else read c b.
Proof. intros Ha Hm. by rewrite read_write, Ha, Hm. Qed.
Lemma read_mk c p b : read {| regs := regs c; priv := p |} b = read c b.
Proof. done. Qed.
Lemma read_priv c p b : read { c with priv := p } b = read c b.
Proof. done. Qed.
Lemma priv_write c a v : priv (write c a v) = priv c.
Proof. unfold write. by repeat case_match. Qed.
End CSRFile.
#[export] Hint Resolve CSRFile.read_fits CSRFile.csr_write_wf CSRFile.csr_init_wf
  CSRFile.csr_reset_wf CSRFile.set_priv_wf : novium.

(** Reads of a file after writes at literal addresses. *)
Ltac csr_simpl :=
  rewrite ?CSRFile.read_priv, ?CSRFile.read_mk, ?CSRFile.priv_write;
  rewrite ?CSRFile.read_write_csr by reflexivity;
  repeat match goal with
  | |- context [?a =? ?b] =>
      is_const a; is_const b;
      let v := eval vm_compute in (a =? b) in
      match v with
      | true => change (a =? b) with true
      | false => change (a =? b) with false
      end
  end; cbv iota.
