(* ===== verification/Interrupt.v ===== *)
(** * Interrupt and trap controller: interrupt.h, interrupt.cpp

    Pending bits, trap delivery to machine mode and return from traps.  The
    [csr_] pointer is an argument, [None] when it is null. *)

From S2P Require Import Prelude Text Isa Registers.
#[local] Open Scope Z_scope.

(** [TrapCause]: its 16-bit values. *)
Inductive TrapCause : Type :=
  | InstAddrMisaligned | InstAccessFault | IllegalInst | Breakpoint
  | LoadAddrMisaligned | LoadAccessFault | StoreAddrMisaligned | StoreAccessFault
  | EnvCallU | EnvCallS | EnvCallM
  | InstPageFault | LoadPageFault | StorePageFault
  | SupervisorSoft | MachineSoft | SupervisorTimer | MachineTimer
  | SupervisorExternal | MachineExternal.

Definition cause_code (c : TrapCause) : Z :=
  match c with
  | InstAddrMisaligned => 0 | InstAccessFault => 1 | IllegalInst => 2 | Breakpoint => 3
  | LoadAddrMisaligned => 4 | LoadAccessFault => 5 | StoreAddrMisaligned => 6
  | StoreAccessFault => 7 | EnvCallU => 8 | EnvCallS => 9 | EnvCallM => 11
  | InstPageFault => 12 | LoadPageFault => 13 | StorePageFault => 15
  | SupervisorSoft => 0x8001 | MachineSoft => 0x8003 | SupervisorTimer => 0x8005
  | MachineTimer => 0x8007 | SupervisorExternal => 0x8009 | MachineExternal => 0x800B
  end.

#[local] Set Primitive Projections.
Record Trap : Type := mkTrap {
  cause : TrapCause;
  tval : Z;
  trap_pc : Z;
  is_interrupt : bool }.
Record InterruptController : Type := mkIntc {
  mip_ : Z;
  external_id_ : Z;
  trap_count_ : Z }.
#[local] Unset Primitive Projections.

(** A bit as [1u << n]. *)
Definition bit (n : Z) : Z := Z.shiftl 1 n.
Definition has_bit (x n : Z) : bool := negb (Z.land x (bit n) =? 0).

Module InterruptController.
Definition init : InterruptController := {| mip_ := 0; external_id_ := 0; trap_count_ := 0 |}.
Definition reset (c : InterruptController) : InterruptController :=
  {| mip_ := 0; external_id_ := 0; trap_count_ := 0 |}.

Definition raise_timer (c : InterruptController) := { c with mip_ := Z.lor c.(mip_) (bit 7) }.
Definition raise_external (id : Z) (c : InterruptController) :=
  { c with mip_ := Z.lor c.(mip_) (bit 11); external_id_ := id }.
Definition raise_soft (c : InterruptController) := { c with mip_ := Z.lor c.(mip_) (bit 3) }.
Definition clear_timer (c : InterruptController) := { c with mip_ := Z.ldiff c.(mip_) (bit 7) }.
Definition clear_external (c : InterruptController) := { c with mip_ := Z.ldiff c.(mip_) (bit 11) }.
Definition clear_soft (c : InterruptController) := { c with mip_ := Z.ldiff c.(mip_) (bit 3) }.
Definition set_mip (v : Z) (c : InterruptController) := { c with mip_ := v }.

Definition interrupt_pending (csr : option CSRFile) (c : InterruptController) : bool :=
  match csr with
  | None => negb (c.(mip_) =? 0)
  | Some csr =>
      if negb (has_bit (CSRFile.read csr CSR_MSTATUS) 3) then false
      else negb (Z.land c.(mip_) (CSRFile.read csr CSR_MIE) =? 0)
  end.

Definition async (cz : TrapCause) : Trap :=
  {| cause := cz; tval := 0; trap_pc := 0; is_interrupt := true |}.

Definition pending_interrupt (csr : option CSRFile) (c : InterruptController) : option Trap :=
  if negb (interrupt_pending csr c) then None
  else
    let mie := match csr with Some csr => CSRFile.read csr CSR_MIE | None => 0xFFFFFFFF end in
    let pending := Z.land c.(mip_) (u32 mie) in
    if has_bit pending 11 then Some (async MachineExternal)
    else if has_bit pending 7 then Some (async MachineTimer)
    else if has_bit pending 3 then Some (async MachineSoft)
    else if has_bit pending 9 then Some (async SupervisorExternal)
    else if has_bit pending 5 then Some (async SupervisorTimer)
    else None.

(** The status word after a trap: MIE moves to MPIE, MPP records the
    privilege, MIE is cleared. *)
Definition trap_mstatus (mstatus priv : Z) : Z :=
  let mie := has_bit mstatus 3 in
  let m := Z.ldiff mstatus (Z.lor (Z.lor (bit 7) (bit 3)) (Z.shiftl 3 11)) in
  let m := if mie then Z.lor m (bit 7) else m in
  Z.lor m (u64 (Z.shiftl priv 11)).

Definition take_trap (t : Trap) (csr : option CSRFile) (c : InterruptController)
    : bool * option CSRFile * InterruptController :=
  match csr with
  | None => (false, None, c)
  | Some csr =>
      let trap_cause := Z.lor (cause_code t.(cause)) (if t.(is_interrupt) then bit 63 else 0) in
      let csr := CSRFile.write csr CSR_MEPC t.(trap_pc) in
      let csr := CSRFile.write csr CSR_MCAUSE trap_cause in
      let csr := CSRFile.write csr CSR_MTVAL t.(tval) in
      let csr := CSRFile.write csr CSR_MSTATUS
                   (trap_mstatus (CSRFile.read csr CSR_MSTATUS) csr.(priv)) in
      (true, Some { csr with priv := Machine },
       { c with trap_count_ := u64 (c.(trap_count_) + 1) })
  end.

Definition ecall_trap (csr : option CSRFile) (pc : Z) : Trap :=
  match csr with
  | None => {| cause := EnvCallM; tval := 0; trap_pc := 0; is_interrupt := false |}
  | Some csr =>
      {| cause := if csr.(priv) =? User then EnvCallU
                  else if csr.(priv) =? Supervisor then EnvCallS else EnvCallM;
         tval := 0; trap_pc := pc; is_interrupt := false |}
  end.
Definition ebreak_trap (pc : Z) : Trap :=
  {| cause := Breakpoint; tval := 0; trap_pc := pc; is_interrupt := false |}.
Definition page_fault_trap (pc va : Z) (is_store : bool) : Trap :=
  {| cause := if is_store then StorePageFault else LoadPageFault;
     tval := va; trap_pc := pc; is_interrupt := false |}.
Definition illegal_inst_trap (pc inst : Z) : Trap :=
  {| cause := IllegalInst; tval := inst; trap_pc := pc; is_interrupt := false |}.

Definition mret_mstatus (mstatus : Z) : Z :=
  let m := Z.ldiff mstatus (bit 3) in
  let m := if has_bit mstatus 7 then Z.lor m (bit 3) else m in
  Z.ldiff (Z.ldiff m (bit 7)) (Z.shiftl 3 11).

Definition mret (csr : option CSRFile) : Z * option CSRFile :=
  match csr with
  | None => (0, None)
  | Some csr =>
      let mstatus := CSRFile.read csr CSR_MSTATUS in
      let mpp := Z.land (Z.shiftr mstatus 11) 3 in
      let csr := CSRFile.write csr CSR_MSTATUS (mret_mstatus mstatus) in
      let csr := { csr with priv := Z.land mpp 3 } in
      (CSRFile.read csr CSR_MEPC, Some csr)
  end.

Definition sret (csr : option CSRFile) : Z * option CSRFile :=
  match csr with
  | None => (0, None)
  | Some csr =>
      let mstatus := CSRFile.read csr CSR_MSTATUS in
      let spp := Z.land (Z.shiftr mstatus 8) 1 in
      let m := Z.ldiff mstatus (bit 1) in
      let m := if has_bit mstatus 5 then Z.lor m (bit 1) else m in
      let m := Z.ldiff (Z.ldiff m (bit 5)) (bit 8) in
      let csr := CSRFile.write csr CSR_MSTATUS m in
      let csr := { csr with priv := if spp =? 0 then User else Supervisor } in
      (CSRFile.read csr CSR_SEPC, Some csr)
  end.

Record wf (c : InterruptController) : Prop := {
  wf_mip : fits 32 c.(mip_);
  wf_count : fits 64 c.(trap_count_) }.

(** A pending interrupt is one of the five the controller delivers, carries
    no address, and its line is raised and enabled. *)
Lemma pending_interrupt_async csr c t :
  pending_interrupt csr c = Some t ->
  trap_pc t = 0 /\ tval t = 0 /\ is_interrupt t = true /\
  cause t ∈ [MachineExternal; MachineTimer; MachineSoft; SupervisorExternal; SupervisorTimer].
Proof.
  unfold pending_interrupt. repeat case_match; intros; simplify_eq; cbn;
    repeat split; set_solver.
Qed.

(** Interrupts are not delivered while MSTATUS.MIE is clear. *)
Lemma pending_interrupt_masked csr c :
  has_bit (CSRFile.read csr CSR_MSTATUS) 3 = false -> pending_interrupt (Some csr) c = None.
Proof. intros H. unfold pending_interrupt, interrupt_pending. by rewrite H. Qed.

Lemma bit_fits n w : 0 <= n < w -> fits w (bit n).
Proof.
  intros. unfold bit, fits. rewrite Z.shiftl_1_l. split; [apply Z.pow_nonneg; lia|].
  apply Z.pow_lt_mono_r; lia.
Qed.
#[export] Hint Extern 1 (fits _ (bit _)) => (apply bit_fits; lia) : novium.

Lemma trap_mstatus_fits m p : fits 64 m -> fits 64 (trap_mstatus m p).
Proof. intros. unfold trap_mstatus. case_match; auto 10 with novium. Qed.

Lemma has_bit_testbit x n : 0 <= n -> has_bit x n = Z.testbit x n.
Proof.
  intros Hn. unfold has_bit, bit. rewrite Z.shiftl_1_l.
  destruct (Z.testbit x n) eqn:Hb.
  - destruct (Z.eqb_spec (Z.land x (2 ^ n)) 0) as [H|]; [|done].
    apply (f_equal (fun y => Z.testbit y n)) in H.
    rewrite tb_land, Hb, Z.pow2_bits_true, Z.bits_0 in H by done. done.
  - replace (Z.land x (2 ^ n)) with 0; [done|]. apply Z.bits_inj'. intros i Hi.
    rewrite tb_land, Z.bits_0, Z.pow2_bits_eqb by done.
    destruct (Z.eqb_spec n i) as [<-|]; [by rewrite Hb|by rewrite andb_false_r].
Qed.

Lemma take_trap_wf t csr c :
  CSRFile.wf csr -> wf c -> fits 64 t.(tval) -> fits 64 t.(trap_pc) ->
  exists csr' c', take_trap t (Some csr) c = (true, Some csr', c') /\
    CSRFile.wf csr' /\ wf c'.
Proof.
  intros Hcsr [] Ht Hp. do 2 eexists. split; [reflexivity|]. split; [|split; cbn; auto with novium].
  apply CSRFile.set_priv_wf; [|unfold Machine; lia].
  assert (fits 64 (Z.lor (cause_code (cause t)) (if is_interrupt t then bit 63 else 0))).
  { apply lor_fits; [lia| |case_match; auto with novium].
    destruct (cause t); unfold fits; cbn; lia. }
  repeat (apply CSRFile.csr_write_wf; [|auto with novium]); [done|].
  apply trap_mstatus_fits, CSRFile.read_fits. auto 10 with novium.
Qed.
End InterruptController.
#[export] Hint Extern 1 (fits _ (bit _)) => (apply InterruptController.bit_fits; lia) : novium.

(** ** Theorems *)

Lemma tb_bit n i : 0 <= n -> Z.testbit (bit n) i = (i =? n).
Proof.
  intros Hn. unfold bit. rewrite Z.shiftl_1_l, Z.pow2_bits_eqb by done.
  apply Z.eqb_sym.
Qed.
Lemma tb_3 i : Z.testbit 3 i = (i =? 0) || (i =? 1).
Proof.
  destruct (Z.ltb_spec i 0).
  { rewrite Z.testbit_neg_r by done.
    destruct (Z.eqb_spec i 0), (Z.eqb_spec i 1); (lia || done). }
  destruct (Z.ltb_spec i 2).
  - assert (i = 0 \/ i = 1) as [-> | ->] by lia; done.
  - rewrite (tb_high 3 2) by (unfold fits; lia).
    destruct (Z.eqb_spec i 0), (Z.eqb_spec i 1); (lia || done).
Qed.

#[local] Ltac flag_bits :=
  repeat first [rewrite tb_lor | rewrite tb_ldiff | rewrite tb_shl | rewrite tb_3
               | rewrite tb_bit by lia | rewrite Z.bits_0];
  repeat match goal with
  | |- context [?a =? ?b] => destruct (Z.eqb_spec a b); try (exfalso; lia)
  | |- context [?a <=? ?b] => destruct (Z.leb_spec a b); try (exfalso; lia)
  end; cbn [andb orb negb]; rewrite ?andb_false_r, ?orb_false_r, ?andb_true_r; try done.

(** The status word of a trap, bit by bit. *)
Lemma trap_mstatus_bits m p i :
  0 <= p < 4 -> 0 <= i < 64 ->
  Z.testbit (InterruptController.trap_mstatus m p) i =
    if i =? 3 then false
    else if i =? 7 then Z.testbit m 3
    else if (i =? 11) || (i =? 12) then Z.testbit p (i - 11)
    else Z.testbit m i.
Proof.
  intros Hp Hi. unfold InterruptController.trap_mstatus.
  rewrite InterruptController.has_bit_testbit by lia.
  assert (Hpb : Z.testbit (u64 (Z.shiftl p 11)) i = ((i =? 11) || (i =? 12)) && Z.testbit p (i - 11)).
  { unfold u64. rewrite tb_mod, tb_shl by lia.
    destruct (Z.ltb_spec i 64), (Z.leb_spec 0 i); try lia. cbn.
    destruct (Z.eqb_spec i 11), (Z.eqb_spec i 12); try done; cbn.
    destruct (Z.ltb_spec i 11); [by rewrite Z.testbit_neg_r by lia|].
    apply (tb_high p 2); [unfold fits; lia|lia]. }
  rewrite tb_lor, Hpb. destruct (Z.testbit m 3) eqn:H3; flag_bits; subst; try done.
  all: rewrite ?H3; try btauto.
Qed.

Lemma mret_mstatus_bits m i :
  0 <= i < 64 ->
  Z.testbit (InterruptController.mret_mstatus m) i =
    if i =? 3 then Z.testbit m 7
    else if (i =? 7) || (i =? 11) || (i =? 12) then false
    else Z.testbit m i.
Proof.
  intros Hi. unfold InterruptController.mret_mstatus.
  rewrite InterruptController.has_bit_testbit by lia.
  destruct (Z.testbit m 7) eqn:H7; flag_bits; subst; try done; rewrite ?H7; btauto.
Qed.

(** MPP read back as a two-bit field. *)
Lemma mpp_field m p :
  0 <= p < 4 -> Z.land (Z.land (Z.shiftr (InterruptController.trap_mstatus m p) 11) 3) 3 = p.
Proof.
  intros Hp. apply Z.bits_inj'. intros i Hi. rewrite !tb_land, tb_shr, tb_3.
  destruct (Z.leb_spec 0 i); [|lia]. cbn.
  destruct (Z.ltb_spec i 2).
  - assert (i = 0 \/ i = 1) as [-> | ->] by lia; 
      [change (0 + 11) with 11|change (1 + 11) with 12]; rewrite trap_mstatus_bits by lia;
      cbn [Z.eqb Pos.eqb orb andb]; [change (11 - 11) with 0|change (12 - 11) with 1]; btauto.
  - rewrite (tb_high p 2) by (unfold fits; lia).
    destruct (Z.eqb_spec i 0), (Z.eqb_spec i 1); (lia || (cbn; btauto)).
Qed.

(** The state a trap leaves, register by register. *)
Lemma take_trap_spec t csr c :
  exists csr1 c1, InterruptController.take_trap t (Some csr) c = (true, Some csr1, c1) /\
    priv csr1 = Machine /\
    (forall a, CSRFile.read csr1 a =
      if a =? CSR_MSTATUS then
        InterruptController.trap_mstatus (CSRFile.read csr CSR_MSTATUS) (priv csr)
      else if a =? CSR_MTVAL then tval t
      else if a =? CSR_MCAUSE then
        Z.lor (cause_code (cause t)) (if is_interrupt t then bit 63 else 0)
      else if a =? CSR_MEPC then trap_pc t
      else CSRFile.read csr a).
Proof.
  do 2 eexists. split; [reflexivity|]. split; [done|]. intros a.
  cbn [apply_update constant]. csr_simpl. done.
Qed.

Lemma mret_spec csr :
  exists csr2, InterruptController.mret (Some csr) = (CSRFile.read csr CSR_MEPC, Some csr2) /\
    priv csr2 = Z.land (Z.land (Z.shiftr (CSRFile.mstatus csr) 11) 3) 3 /\
    CSRFile.mstatus csr2 = InterruptController.mret_mstatus (CSRFile.mstatus csr).
Proof.
  unfold InterruptController.mret, CSRFile.mstatus.
  eexists. split; [f_equal; by rewrite CSRFile.read_priv, CSRFile.read_write_csr|].
  split; [done|]. by rewrite CSRFile.read_priv, CSRFile.read_write_csr.
Qed.

(** C18: trap entry and MRET are inverse on what they save. Taking a trap
    records its PC, cause and value, enters machine mode with MIE cleared,
    leaves every CSR but MEPC, MCAUSE, MTVAL and MSTATUS alone; the MRET that
    follows returns the saved PC, restores the privilege level and the MIE
    bit, and clears MPIE and MPP; the other status bits survive both. *)
Theorem trap_mret (t : Trap) (csr : CSRFile) (c : InterruptController) :
  CSRFile.wf csr ->
  exists csr1 c1 csr2,
    InterruptController.take_trap t (Some csr) c = (true, Some csr1, c1) /\
    CSRFile.read csr1 CSR_MEPC = t.(trap_pc) /\
    CSRFile.read csr1 CSR_MTVAL = t.(tval) /\
    CSRFile.read csr1 CSR_MCAUSE =
      Z.lor (cause_code t.(cause)) (if t.(is_interrupt) then bit 63 else 0) /\
    csr1.(priv) = Machine /\
    has_bit (CSRFile.mstatus csr1) 3 = false /\
    (forall a, a ∉ [CSR_MEPC; CSR_MCAUSE; CSR_MTVAL; CSR_MSTATUS] ->
       CSRFile.read csr1 a = CSRFile.read csr a) /\
    InterruptController.mret (Some csr1) = (t.(trap_pc), Some csr2) /\
    csr2.(priv) = csr.(priv) /\
    (forall i, 0 <= i < 64 ->
       Z.testbit (CSRFile.mstatus csr2) i =
         if (i =? 7) || (i =? 11) || (i =? 12) then false
         else Z.testbit (CSRFile.mstatus csr) i).
Proof.
  intros [_ Hpriv]. destruct (take_trap_spec t csr c) as (csr1 & c1 & Ht & Hp & Hr).
  destruct (mret_spec csr1) as (csr2 & Hm & Hp2 & Hs).
  assert (Hs1 : CSRFile.mstatus csr1 =
    InterruptController.trap_mstatus (CSRFile.mstatus csr) (priv csr)) by apply Hr.
  rewrite (Hr CSR_MEPC) in Hm. rewrite Hs1 in *.
  exists csr1, c1, csr2. split; [done|]. rewrite !Hr. do 3 (split; [done|]). split; [done|].
  split. { rewrite Hs1, InterruptController.has_bit_testbit, trap_mstatus_bits by lia. done. }
  split.
  { intros a Ha. rewrite Hr. rewrite !not_elem_of_cons in Ha. destruct Ha as (H1 & H2 & H3 & H4 & _).
    by repeat rewrite (proj2 (Z.eqb_neq _ _)) by done. }
  split; [done|]. split; [rewrite Hp2; by apply mpp_field|].
  intros i Hi. rewrite Hs, mret_mstatus_bits by lia.
  destruct (Z.eqb_spec i 3) as [->|].
  - by rewrite trap_mstatus_bits by lia.
  - destruct ((i =? 7) || (i =? 11) || (i =? 12)) eqn:E; [done|].
    apply orb_false_elim in E as [[E7 E11]%orb_false_elim E12].
    rewrite trap_mstatus_bits, E7, E11, E12 by lia. by destruct (Z.eqb_spec i 3).
Qed.

Lemma trap_mret_witness :
  exists csr1 c1 csr2,
    InterruptController.take_trap (InterruptController.ebreak_trap 0x44) (Some CSRFile.init)
      InterruptController.init = (true, Some csr1, c1) /\
    InterruptController.mret (Some csr1) = (0x44, Some csr2).
Proof.
  destruct (trap_mret (InterruptController.ebreak_trap 0x44) CSRFile.init
    InterruptController.init CSRFile.csr_init_wf)
    as (csr1 & c1 & csr2 & H1 & _ & _ & _ & _ & _ & _ & H2 & _).
  exists csr1, c1, csr2. by split.
Defined.

(** interrupt priority. With MSTATUS.MIE set, the controller delivers
    the highest-priority line that is raised and enabled, in the order machine
    external, machine timer, machine software, supervisor external, supervisor
    timer; with MIE clear it delivers none. The supervisor software line (bit
    1) is never delivered although it makes [interrupt_pending] true. *)
Theorem interrupt_priority (csr : CSRFile) (c : InterruptController) :
  InterruptController.wf c ->
  let on n := Z.testbit c.(mip_) n && Z.testbit (CSRFile.read csr CSR_MIE) n in
  InterruptController.pending_interrupt (Some csr) c =
    if negb (Z.testbit (CSRFile.mstatus csr) 3) then None
    else if on 11 then Some (InterruptController.async MachineExternal)
    else if on 7 then Some (InterruptController.async MachineTimer)
    else if on 3 then Some (InterruptController.async MachineSoft)
    else if on 9 then Some (InterruptController.async SupervisorExternal)
    else if on 5 then Some (InterruptController.async SupervisorTimer)
    else None.
Proof.
  intros Hc on. unfold InterruptController.pending_interrupt,
    InterruptController.interrupt_pending, CSRFile.mstatus.
  rewrite (InterruptController.has_bit_testbit _ 3) by lia.
  destruct (Z.testbit (CSRFile.read csr CSR_MSTATUS) 3); [cbn [negb]|done].
  assert (Hon : forall n, 0 <= n < 32 ->
    has_bit (Z.land (mip_ c) (u32 (CSRFile.read csr CSR_MIE))) n = on n).
  { intros n Hn. rewrite InterruptController.has_bit_testbit by lia.
    unfold u32, on. rewrite tb_land, tb_mod by lia.
    by destruct (Z.ltb_spec n 32); [|lia]. }
  rewrite !Hon by lia.
  destruct (Z.eqb_spec (Z.land (mip_ c) (CSRFile.read csr CSR_MIE)) 0) as [H0|]; cbn [negb];
    [|done].
  assert (Hoff : forall n, on n = false).
  { intros n. unfold on. rewrite <- tb_land, H0. apply Z.bits_0. }
  by rewrite !Hoff.
Qed.

Lemma interrupt_priority_witness :
  let csr := CSRFile.write (CSRFile.write CSRFile.init CSR_MIE 0x888) CSR_MSTATUS 8 in
  let c := InterruptController.raise_timer (InterruptController.raise_soft InterruptController.init) in
  InterruptController.pending_interrupt (Some csr) c
    = Some (InterruptController.async MachineTimer).
Proof.
  intros csr c. rewrite interrupt_priority; [reflexivity|].
  split; vm_compute; split; congruence.
Defined.
