(* ===== verification/Devices.v ===== *)
(** * Peripherals: devices.h

    The interval timer and the UART.  A device is a record of its private
    fields; an MMIO access is a function of the register offset.  What the
    UART prints is returned as the list of the strings it passes to stdout. *)

From S2P Require Import Prelude Text Isa.
From Stdlib Require Import Ascii String.
#[local] Open Scope Z_scope.

(** ** Timer *)
#[local] Set Primitive Projections.
Record TimerDevice : Type := mkTimer {
  count_ : Z;
  limit_ : Z;
  ctrl_ : bool;
  irq_pending_ : bool }.
#[local] Unset Primitive Projections.

Module TimerDevice.
Definition init : TimerDevice :=
  {| count_ := 0; limit_ := 10000; ctrl_ := false; irq_pending_ := false |}.

Definition tick (cycles : Z) (t : TimerDevice) : TimerDevice :=
  if t.(ctrl_) then
    let t := { t with count_ := u64 (t.(count_) + cycles) } in
    if t.(limit_) <=? t.(count_)
    then { t with count_ := u64 (t.(count_) - t.(limit_)); irq_pending_ := true }
    else t
  else t.

(** Reading IRQ clears it. *)
Definition read_reg (offset : Z) (t : TimerDevice) : Z * TimerDevice :=
  if offset =? TIMER_COUNT then (u32 (Z.land t.(count_) 0xFFFFFFFF), t)
  else if offset =? TIMER_LIMIT then (u32 (Z.land t.(limit_) 0xFFFFFFFF), t)
  else if offset =? TIMER_CTRL then (if t.(ctrl_) then 1 else 0, t)
  else if offset =? TIMER_IRQ then
    (if t.(irq_pending_) then 1 else 0, { t with irq_pending_ := false })
  else (0, t).

Definition write_reg (offset value : Z) (t : TimerDevice) : TimerDevice :=
  if offset =? TIMER_COUNT then { t with count_ := value }
  else if offset =? TIMER_LIMIT then { t with limit_ := value }
  else if offset =? TIMER_CTRL then { t with ctrl_ := negb (value =? 0) }
  else if offset =? TIMER_IRQ then { t with irq_pending_ := false }
  else t.

Definition interrupt_pending (t : TimerDevice) : bool := t.(irq_pending_).
Definition clear_interrupt (t : TimerDevice) : TimerDevice := { t with irq_pending_ := false }.

#[local] Set Primitive Projections.
Record State : Type := mkState { count : Z; limit : Z; ctrl : bool; irq_pending : bool }.
#[local] Unset Primitive Projections.
Definition save (t : TimerDevice) : State :=
  {| count := t.(count_); limit := t.(limit_); ctrl := t.(ctrl_); irq_pending := t.(irq_pending_) |}.
Definition restore (s : State) (t : TimerDevice) : TimerDevice :=
  {| count_ := s.(count); limit_ := s.(limit); ctrl_ := s.(ctrl); irq_pending_ := s.(irq_pending) |}.

Definition wf (t : TimerDevice) : Prop := fits 64 t.(count_) /\ fits 64 t.(limit_).

Lemma timer_init_wf : wf init.
Proof. split; vm_compute; split; congruence. Qed.
Lemma timer_tick_wf c t : wf t -> wf (tick c t).
Proof. intros []. unfold tick. repeat case_match; split; cbn; auto with novium. Qed.
Lemma read_reg_wf o t : wf t -> wf (read_reg o t).2.
Proof. intros []. unfold read_reg. repeat case_match; split; cbn; auto. Qed.
Lemma timer_read_reg_fits o t : wf t -> fits 32 (read_reg o t).1.
Proof.
  intros []. unfold read_reg. repeat case_match; cbn; auto with novium.
Qed.
Lemma write_reg_wf o v t : wf t -> fits 32 v -> wf (write_reg o v t).
Proof.
  intros [] Hv. apply (fits_mono 32 64) in Hv; [|lia].
  unfold write_reg. repeat case_match; split; cbn; auto.
Qed.

(** A running timer whose count is below a limit of at least one tick: the
    count advances modulo the limit and the interrupt is raised when it wraps. *)
Lemma tick_mod d t :
  t.(ctrl_) = true -> 0 < d <= t.(limit_) -> 0 <= t.(count_) < t.(limit_) ->
  t.(limit_) + d < 2 ^ 64 ->
  tick d t = {| count_ := (t.(count_) + d) mod t.(limit_); limit_ := t.(limit_); ctrl_ := true;
    irq_pending_ := t.(irq_pending_) || (t.(limit_) <=? t.(count_) + d) |}.
Proof.
  intros Hc Hd Hn Hw. destruct t as [n l c i]; cbn in *. subst c. unfold tick. cbn.
  rewrite u64_small by (unfold fits; lia).
  destruct (Z.leb_spec l (n + d)).
  - rewrite u64_small by (unfold fits; lia). rewrite orb_true_r. f_equal.
    replace (n + d) with (n + d - l + 1 * l) by lia. rewrite Z.mod_add by lia.
    rewrite Z.mod_small by lia. lia.
  - rewrite orb_false_r, Z.mod_small by lia. done.
Qed.

(** [n] ticks whose interrupt is acknowledged before the next one: how many
    of them raise it, and the timer they leave. *)
Fixpoint run_ticks (n : nat) (d : Z) (t : TimerDevice) : Z * TimerDevice :=
  match n with
  | O => (0, t)
  | S n =>
      let t := tick d (clear_interrupt t) in
      let '(k, t') := run_ticks n d t in
      ((if interrupt_pending t then 1 else 0) + k, t')
  end.
End TimerDevice.
#[export] Hint Resolve TimerDevice.timer_init_wf TimerDevice.timer_tick_wf TimerDevice.read_reg_wf
  TimerDevice.timer_read_reg_fits TimerDevice.write_reg_wf : novium.

(** ** UART *)
#[local] Set Primitive Projections.
Record UartDevice : Type := mkUart { tx_buffer_ : string; rx_buffer_ : string }.
#[local] Unset Primitive Projections.

Module UartDevice.
Definition init : UartDevice := {| tx_buffer_ := ""; rx_buffer_ := "" |}.

Definition newline : ascii := "010"%char.

(** printf("[UART TX] %s\n", buf) *)
Definition tx_line (buf : string) : string :=
  ("[UART TX] " ++ c_str buf ++ String newline "")%string.

Definition write_reg (offset value : Z) (u : UartDevice) : UartDevice * list string :=
  if offset =? UART_TX then
    let u := { u with tx_buffer_ := (u.(tx_buffer_) ++ String (char_of (Z.land value 0xFF)) "")%string } in
    if (Z.land value 0xFF =? 10) || (256 <=? String.length u.(tx_buffer_))%nat
    then ({ u with tx_buffer_ := ""%string }, [tx_line u.(tx_buffer_)])
    else (u, [])
  else (u, []).

(** [static_cast<uint32_t>] of a (signed) [char]. *)
Definition read_reg (offset : Z) (u : UartDevice) : Z :=
  if offset =? UART_RX then
    match u.(rx_buffer_) with
    | EmptyString => 0
    | String c _ => u32 (to_signed 8 (byte_of c))
    end
  else if offset =? UART_STATUS then 1
  else 0.

Definition tick (cycles : Z) (u : UartDevice) : UartDevice := u.

Definition flush (u : UartDevice) : UartDevice * list string :=
  match u.(tx_buffer_) with
  | EmptyString => (u, [])
  | String _ _ => ({ u with tx_buffer_ := ""%string }, [tx_line u.(tx_buffer_)])
  end.

Definition interrupt_pending (u : UartDevice) : bool := false.

#[local] Set Primitive Projections.
Record State : Type := mkState { tx_buffer : string; rx_buffer : string }.
#[local] Unset Primitive Projections.
Definition save (u : UartDevice) : State :=
  {| tx_buffer := u.(tx_buffer_); rx_buffer := u.(rx_buffer_) |}.
Definition restore (s : State) (u : UartDevice) : UartDevice :=
  {| tx_buffer_ := s.(tx_buffer); rx_buffer_ := s.(rx_buffer) |}.

Lemma uart_read_reg_fits o u : fits 32 (read_reg o u).
Proof. unfold read_reg. repeat case_match; auto with novium. Qed.

(** A sequence of byte writes to TX. *)
Fixpoint write_all (bytes : list Z) (u : UartDevice) : UartDevice * list string :=
  match bytes with
  | [] => (u, [])
  | b :: bytes =>
      let '(u1, o1) := write_reg UART_TX b u in
      let '(u2, o2) := write_all bytes u1 in
      (u2, o1 ++ o2)
  end.

Fixpoint chars (bytes : list Z) : string :=
  match bytes with
  | [] => ""
  | b :: bytes => String (char_of b) (chars bytes)
  end.

(** A flushed buffer: it ends in a newline or is full. *)
Definition full_line (s : string) : Prop :=
  (exists s', s = (s' ++ String newline "")%string) \/ String.length s = 256%nat.
End UartDevice.
#[export] Hint Resolve UartDevice.uart_read_reg_fits : novium.

(** ** Theorems *)

(** The timer is periodic. A running timer whose count is below its
    reload value, ticked in steps no longer than that value, has after [n]
    ticks (each interrupt acknowledged) the count [(count + n d) mod limit]
    and has raised the interrupt [(count + n d) / limit] times: no period is
    lost and none is counted twice. *)
Theorem timer_periods (n : nat) (d : Z) (t : TimerDevice) :
  t.(ctrl_) = true -> 0 < d <= t.(limit_) -> 0 <= t.(count_) < t.(limit_) ->
  t.(limit_) + d < 2 ^ 64 ->
  let '(fires, t') := TimerDevice.run_ticks n d t in
  fires = (t.(count_) + Z.of_nat n * d) / t.(limit_) /\
  t'.(count_) = (t.(count_) + Z.of_nat n * d) mod t.(limit_) /\
  t'.(limit_) = t.(limit_) /\ t'.(ctrl_) = true.
Proof.
  revert t. induction n as [|n IH]; intros t Hc Hd Hn Hw.
  { cbn. rewrite Z.add_0_r, Z.div_small, Z.mod_small by lia. done. }
  cbn [TimerDevice.run_ticks]. rewrite TimerDevice.tick_mod by done.
  destruct t as [c l ct i]; cbn in *; subst ct.
  set (t1 := {| count_ := _ |}).
  pose proof (Z.mod_pos_bound (c + d) l ltac:(lia)) as Hm.
  specialize (IH t1 eq_refl Hd Hm Hw). destruct (TimerDevice.run_ticks n d t1) as [k t'].
  destruct IH as (-> & -> & -> & ->). subst t1. cbn [count_ limit_].
  assert (Hq : (if l <=? c + d then 1 else 0) = (c + d) / l).
  { destruct (Z.leb_spec l (c + d)) as [Hle|Hlt].
    - apply Z.div_unique with (c + d - l); lia.
    - symmetry. apply Z.div_small. lia. }
  rewrite Hq. rewrite Nat2Z.inj_succ.
  replace (c + Z.succ (Z.of_nat n) * d) with
    ((c + d) mod l + Z.of_nat n * d + (c + d) / l * l)
    by (pose proof (Z.div_mod (c + d) l); lia).
  rewrite Z.div_add, Z.mod_add by lia. repeat split; lia.
Qed.

Lemma timer_periods_witness :
  let t := {| count_ := 0; limit_ := 2500; ctrl_ := true; irq_pending_ := false |} in
  (TimerDevice.run_ticks 10 1000 t).1 = 4.
Proof.
  intros t. pose proof (timer_periods 10 1000 t eq_refl ltac:(cbn; lia) ltac:(cbn; lia)
    ltac:(cbn; lia)) as H.
  destruct (TimerDevice.run_ticks 10 1000 t) as [k t']. destruct H as [-> _]. reflexivity.
Defined.

(** A step of the UART on one byte, as a case distinction on whether it
    completes a line. *)
Lemma uart_tx_step b u :
  is_byte b ->
  let buf := (u.(tx_buffer_) ++ String (char_of b) "")%string in
  UartDevice.write_reg UART_TX b u =
    if (b =? 10) || (256 <=? String.length buf)%nat
    then ({| tx_buffer_ := ""; rx_buffer_ := u.(rx_buffer_) |}, [UartDevice.tx_line buf])
    else ({| tx_buffer_ := buf; rx_buffer_ := u.(rx_buffer_) |}, []).
Proof.
  intros Hb buf. unfold UartDevice.write_reg. rewrite Z.eqb_refl.
  rewrite (land_mask_mod b 0xFF 8) by done.
  rewrite (Z.mod_small b) by (unfold is_byte in Hb; lia). subst buf.
  destruct u as [tx rx]; cbn -[char_of Nat.leb]. by case_match.
Qed.

(** The UART neither loses nor reorders bytes. Whatever bytes are
    written to TX, what is printed is a sequence of complete lines (each ends
    in a newline or holds 256 bytes), one per flush, and those lines followed
    by what is still buffered are the old buffer followed by the bytes in
    order; the buffer stays below 256 bytes. *)
Theorem uart_stream (bytes : list Z) (u : UartDevice) :
  Forall is_byte bytes -> (String.length u.(tx_buffer_) < 256)%nat ->
  let '(u', out) := UartDevice.write_all bytes u in
  exists lines, out = map UartDevice.tx_line lines /\
    Forall UartDevice.full_line lines /\
    (String.concat "" lines ++ u'.(tx_buffer_))%string
      = (u.(tx_buffer_) ++ UartDevice.chars bytes)%string /\
    (String.length u'.(tx_buffer_) < 256)%nat /\ u'.(rx_buffer_) = u.(rx_buffer_).
Proof.
  assert (Hcat : forall x l, String.concat "" (x :: l) = (x ++ String.concat "" l)%string).
  { intros x [|y l]; cbn; [by rewrite string_app_nil|done]. }
  intros Hb. revert u. induction Hb as [|b bytes Hb _ IH]; intros u Hlen.
  { exists []. cbn. rewrite string_app_nil. auto. }
  cbn [UartDevice.write_all]. rewrite uart_tx_step by done.
  set (buf := (tx_buffer_ u ++ String (char_of b) "")%string).
  assert (Hbuf : (tx_buffer_ u ++ UartDevice.chars (b :: bytes))%string
                 = (buf ++ UartDevice.chars bytes)%string).
  { subst buf. by rewrite <- string_app_assoc. }
  assert (Hl : String.length buf = S (String.length (tx_buffer_ u))).
  { subst buf. rewrite string_app_length. cbn. lia. }
  destruct ((b =? 10) || (256 <=? String.length buf)%nat) eqn:E.
  - specialize (IH {| tx_buffer_ := ""; rx_buffer_ := rx_buffer_ u |} ltac:(cbn; lia)).
    destruct (UartDevice.write_all bytes _) as [u2 o2].
    destruct IH as (lines & -> & Hf & Hc & Hn & Hr). exists (buf :: lines).
    split; [done|]. split; [|split; [|done]].
    + constructor; [|done]. apply orb_true_iff in E as [->%Z.eqb_eq|Hge%Nat.leb_le].
      * left. by exists (tx_buffer_ u).
      * right. lia.
    + rewrite Hcat, Hbuf, <- string_app_assoc, Hc. done.
  - specialize (IH {| tx_buffer_ := buf; rx_buffer_ := rx_buffer_ u |}).
    apply orb_false_iff in E as [_ Hlt%Nat.leb_gt]. specialize (IH Hlt).
    destruct (UartDevice.write_all bytes _) as [u2 o2].
    destruct IH as (lines & -> & Hf & Hc & Hn & Hr). exists lines.
    rewrite Hbuf. done.
Qed.

Lemma uart_stream_witness :
  exists u', UartDevice.write_all [72; 105; 10; 33] UartDevice.init
    = (u', [("[UART TX] Hi" ++ String "010" (String "010" ""))%string]) /\
  u'.(tx_buffer_) = "!"%string.
Proof.
  pose proof (uart_stream [72; 105; 10; 33] UartDevice.init
    ltac:(repeat constructor; unfold is_byte; lia) ltac:(cbn; lia)) as H.
  destruct (UartDevice.write_all [72; 105; 10; 33] UartDevice.init) as [u' out] eqn:E.
  vm_compute in E. destruct H as (lines & _). exists u'. injection E as <- <-. by split.
Defined.
