(* ===== verification/Bus.v ===== *)
(** * Memory-mapped bus: bus.h

    The bus routes 32-bit accesses at or above [MMIO_BASE] to the first
    registered device whose window holds the address, and everything else to
    the memory.  Device handlers are callbacks on the rest of the machine
    ([std::function] closures over the emulator), so the bus is generic in a
    world state [S] that contains the memory. *)

From S2P Require Import Prelude Text Isa Memory.
#[local] Open Scope Z_scope.

#[local] Set Primitive Projections.
Record Device (S : Type) : Type := mkDevice {
  base : Z;
  size : Z;
  read : option (Z -> M S Z);
  write : option (Z -> Z -> M S unit) }.
#[local] Unset Primitive Projections.
Arguments mkDevice {S} _ _ _ _.
Arguments base {S} _.
Arguments size {S} _.
Arguments read {S} _.
Arguments write {S} _.

Module Bus.
Section Bus.
Context {S : Type} (ram : S -> VirtualSRAM) (set_ram : VirtualSRAM -> S -> S).

Definition add_device (base size : Z) rd wr (devices : list (Device S)) : list (Device S) :=
  devices ++ [mkDevice base size rd wr].

(** [addr >= dev.base && addr < dev.base + dev.size], the sum in 32 bits. *)
Definition holds (addr : Z) (d : Device S) : bool :=
  (base d <=? addr) && (addr <? u32 (base d + size d)).

Definition is_mmio (addr : Z) : bool := MMIO_BASE <=? addr.

Definition route (devices : list (Device S)) (addr : Z) : option (Device S) :=
  if is_mmio addr then List.find (holds addr) devices else None.

Definition read32 (devices : list (Device S)) (addr : Z) : M S Z :=
  match route devices addr with
  | Some d => match read d with Some f => f addr | None => ret 0 end
  | None => let! s := get in lift (VirtualSRAM.read32 (ram s) addr)
  end.

Definition write32 (devices : list (Device S)) (addr value : Z) : M S unit :=
  match route devices addr with
  | Some d => match write d with Some f => f addr value | None => ret tt end
  | None => zoom ram set_ram (VirtualSRAM.write32 addr value)
  end.

(** No address belongs to two windows. *)
Definition disjoint (devices : list (Device S)) : Prop :=
  ForallOrdPairs (fun d e => forall a, holds a d = true -> holds a e = false) devices.

Lemma route_low devices addr : addr < MMIO_BASE -> route devices addr = None.
Proof. intros H. unfold route, is_mmio. by destruct (Z.leb_spec MMIO_BASE addr); [lia|]. Qed.

Lemma find_none (l : list (Device S)) addr :
  (forall d, d ∈ l -> holds addr d = false) -> List.find (holds addr) l = None.
Proof.
  induction l as [|d l IH]; intros H; [done|]. cbn.
  rewrite H by set_solver. apply IH. set_solver.
Qed.

(** In a disjoint list, the device that holds an address is the one routed to. *)
Lemma find_unique (l : list (Device S)) addr d :
  disjoint l -> d ∈ l -> holds addr d = true -> List.find (holds addr) l = Some d.
Proof.
  intros Hl. induction Hl as [|e l He Hl IH]; intros Hin Hd; [set_solver|]. cbn.
  apply elem_of_cons in Hin as [->|Hin]; [by rewrite Hd|].
  destruct (holds addr e) eqn:Hh; [|by apply IH].
  pose proof (proj1 (Forall_forall _ _) He d Hin addr Hh). congruence.
Qed.

Lemma read32_low devices addr s :
  addr < MMIO_BASE -> read32 devices addr s = (VirtualSRAM.read32 (ram s) addr, s).
Proof. intros H. unfold read32. by rewrite route_low. Qed.
Lemma write32_low devices addr v s :
  addr < MMIO_BASE ->
  write32 devices addr v s = zoom ram set_ram (VirtualSRAM.write32 addr v) s.
Proof. intros H. unfold write32. by rewrite route_low. Qed.
End Bus.
End Bus.

(** ** Theorems *)

(** Address decoding is unambiguous. Devices with disjoint windows may
    be registered in any order: every address is routed the same way, to the
    one device whose window holds it when the address is in MMIO space, and to
    the memory in every other case; so reads and writes of two buses with
    permuted device lists agree on every state. *)
Theorem bus_order_irrelevant {S} (ram : S -> VirtualSRAM) set_ram
    (devices devices' : list (Device S)) addr v s :
  Bus.disjoint devices -> Bus.disjoint devices' -> devices ≡ₚ devices' ->
  Bus.route devices addr = Bus.route devices' addr /\
  (forall d, d ∈ devices -> Bus.is_mmio addr = true -> Bus.holds addr d = true ->
     Bus.route devices' addr = Some d) /\
  Bus.read32 ram devices addr s = Bus.read32 ram devices' addr s /\
  Bus.write32 ram set_ram devices addr v s = Bus.write32 ram set_ram devices' addr v s.
Proof.
  intros Hd Hd' Hp.
  assert (Hr : Bus.route devices addr = Bus.route devices' addr).
  { unfold Bus.route. case_match; [|done].
    destruct (List.find (Bus.holds addr) devices) as [d|] eqn:Hf.
    - apply List.find_some in Hf as [Hin Hh]. apply list_elem_of_In in Hin.
      symmetry. apply Bus.find_unique; [done|by rewrite <- Hp|done].
    - symmetry. apply Bus.find_none. intros d Hin. rewrite <- Hp in Hin.
      apply (List.find_none _ _ Hf). by apply list_elem_of_In. }
  split; [done|]. split.
  - intros d Hin Hm Hh. unfold Bus.route. rewrite Hm.
    apply Bus.find_unique; [done|by rewrite <- Hp|done].
  - unfold Bus.read32, Bus.write32. by rewrite Hr.
Qed.

Lemma bus_order_irrelevant_witness :
  let d1 := mkDevice MMIO_BASE 0x1000 (Some (fun a => ret 1)) None in
  let d2 := mkDevice (MMIO_BASE + UART_BASE) 0x1000 (Some (fun a => ret 2)) None in
  Bus.read32 (fun s : VirtualSRAM => s) [d2; d1] (MMIO_BASE + 4) (Buffer.make 16)
    = (Ok 1, Buffer.make 16).
Proof.
  intros d1 d2.
  assert (H12 : forall a, Bus.holds a d1 = true -> Bus.holds a d2 = false).
  { unfold Bus.holds. intros a. change (u32 (base d1 + size d1)) with 0x3F01000.
    change (base d2) with 0x3F01000. change (base d1) with 0x3F00000. intros H.
    destruct (Z.leb_spec 0x3F01000 a); [|done].
    destruct (Z.ltb_spec a 0x3F01000); [lia|by rewrite andb_false_r in H]. }
  assert (H21 : forall a, Bus.holds a d2 = true -> Bus.holds a d1 = false).
  { intros a H. destruct (Bus.holds a d1) eqn:E; [by rewrite (H12 a E) in H|done]. }
  destruct (bus_order_irrelevant (fun s : VirtualSRAM => s) (fun r _ => r) [d1; d2] [d2; d1]
    (MMIO_BASE + 4) 0 (Buffer.make 16)) as (_ & _ & Hr & _).
  - repeat constructor; done.
  - repeat constructor; done.
  - apply perm_swap.
  - rewrite <- Hr. reflexivity.
Defined.
