(* ===== verification/Float.v ===== *)
(** * Floating point: the C++ [float] and [double] the source computes with

    A [float] is its 32-bit pattern, as the emulator moves it between
    registers and memory.  Arithmetic is IEEE 754 through the Standard
    Library's [SpecFloat]; which NaN an operation returns, and whether the
    compiler contracts [sum += a * b], are left to the host: they are the
    operations of the class [FloatOps].  Conversions from 64-bit counters to
    [double] and the printf conversion %.<n>f are computed exactly. *)

From S2P Require Import Prelude Text.
From Stdlib Require Import Ascii String SpecFloat.
#[local] Open Scope Z_scope.

(** ** Binary32 patterns *)
Definition f32_sign (z : Z) : bool := 2 ^ 31 <=? z.
Definition f32_exp (z : Z) : Z := z / 2 ^ 23 mod 2 ^ 8.
Definition f32_man (z : Z) : Z := z mod 2 ^ 23.
Definition f32_is_nan (z : Z) : bool := (f32_exp z =? 255) && negb (f32_man z =? 0).

Definition of_bits (z : Z) : spec_float :=
  let s := f32_sign z in
  let e := f32_exp z in
  let m := f32_man z in
  if e =? 0 then
    match m with Zpos p => S754_finite s p (-149) | _ => S754_zero s end
  else if e =? 255 then
    if m =? 0 then S754_infinity s else S754_nan
  else
    match 2 ^ 23 + m with Zpos p => S754_finite s p (e - 150) | _ => S754_zero s end.

Definition sign_bit (s : bool) : Z := if s then 2 ^ 31 else 0.

(** NaN patterns are printed and compared as one NaN. *)
Definition canon (z : Z) : Z := if f32_is_nan z then 0x7FC00000 else z.

Definition to_bits (x : spec_float) : Z :=
  canon (u32
    match x with
    | S754_zero s => sign_bit s
    | S754_infinity s => sign_bit s + 255 * 2 ^ 23
    | S754_nan => 0x7FC00000
    | S754_finite s m e =>
        if Zpos m <? 2 ^ 23 then sign_bit s + Zpos m
        else sign_bit s + (e + 150) * 2 ^ 23 + (Zpos m - 2 ^ 23)
    end).

Lemma canon_fits z : fits 32 z -> fits 32 (canon z).
Proof. intros. unfold canon. case_match; auto with novium. Qed.
Lemma canon_canon z : canon (canon z) = canon z.
Proof. unfold canon. by destruct (f32_is_nan z) eqn:E; rewrite ?E. Qed.
Lemma to_bits_fits x : fits 32 (to_bits x).
Proof. apply canon_fits, u32_fits. Qed.

(** Every pattern but the NaNs is the pattern of the number it denotes. *)
Lemma to_bits_of_bits z : fits 32 z -> to_bits (of_bits z) = canon z.
Proof.
  intros Hz. unfold fits in Hz.
  assert (Hdec : z = sign_bit (f32_sign z) + f32_exp z * 2 ^ 23 + f32_man z /\
                 0 <= f32_exp z < 256 /\ 0 <= f32_man z < 2 ^ 23).
  { unfold f32_sign, f32_exp, f32_man, sign_bit.
    destruct (Z.leb_spec (2 ^ 31) z);
      change (2 ^ 31) with 2147483648 in *; change (2 ^ 32) with 4294967296 in *;
      change (2 ^ 23) with 8388608 in *; change (2 ^ 8) with 256;
      repeat split; Z.div_mod_to_equations; lia. }
  destruct Hdec as (Hd & He & Hm). unfold of_bits, to_bits.
  destruct (Z.eqb_spec (f32_exp z) 0) as [He0|He0].
  { destruct (f32_man z) as [|p|p] eqn:Em; [|..|lia].
    - rewrite u32_small by (unfold fits, sign_bit; case_match; lia). f_equal. lia.
    - destruct (Z.ltb_spec (Zpos p) (2 ^ 23)); [|lia].
      rewrite u32_small by (unfold fits, sign_bit; case_match; lia). f_equal. lia. }
  destruct (Z.eqb_spec (f32_exp z) 255) as [Hi|Hi].
  { destruct (Z.eqb_spec (f32_man z) 0) as [Hz0|Hz0].
    - rewrite u32_small by (unfold fits, sign_bit; case_match; lia). f_equal. lia.
    - rewrite u32_small by (unfold fits; lia). unfold canon at 2, f32_is_nan.
      rewrite Hi. apply Z.eqb_neq in Hz0. rewrite Hz0. reflexivity. }
  destruct (2 ^ 23 + f32_man z) as [|p|p] eqn:Em; [lia|..|lia].
  destruct (Z.ltb_spec (Zpos p) (2 ^ 23)); [lia|].
  rewrite u32_small by (unfold fits, sign_bit; case_match; lia). f_equal. lia.
Qed.

(** ** Operations of the host's floating-point unit *)
Definition sf32_add : spec_float -> spec_float -> spec_float := SFadd 24 128.
Definition sf32_mul : spec_float -> spec_float -> spec_float := SFmul 24 128.
(** The fused multiply-add: the product is not rounded. *)
Definition sf32_fma (c a b : spec_float) : spec_float :=
  match a, b with
  | S754_finite sa ma ea, S754_finite sb mb eb =>
      match c with
      | S754_zero _ =>
          binary_normalize 24 128 (cond_Zopp (xorb sa sb) (Zpos (ma * mb))) (ea + eb) false
      | _ => sf32_add c (S754_finite (xorb sa sb) (ma * mb) (ea + eb))
      end
  | _, _ => sf32_add c (sf32_mul a b)
  end.

Class FloatOps : Type := {
  fadd : Z -> Z -> Z;
  fmul : Z -> Z -> Z;
  fmac : Z -> Z -> Z -> Z;   (* sum + a * b, as one C++ expression *)
  fadd_fits a b : fits 32 (fadd a b);
  fmul_fits a b : fits 32 (fmul a b);
  fmac_fits s a b : fits 32 (fmac s a b);
  fadd_ieee a b : canon (fadd a b) = to_bits (sf32_add (of_bits a) (of_bits b));
  fmul_ieee a b : canon (fmul a b) = to_bits (sf32_mul (of_bits a) (of_bits b));
  fmac_ieee s a b :
    fmac s a b = fadd s (fmul a b) \/
    canon (fmac s a b) = to_bits (sf32_fma (of_bits s) (of_bits a) (of_bits b)) }.
#[export] Hint Resolve fadd_fits fmul_fits fmac_fits : novium.

(** A host that rounds every operation and returns the quiet NaN. *)
#[export] Program Instance ieee_ops : FloatOps := {
  fadd a b := to_bits (sf32_add (of_bits a) (of_bits b));
  fmul a b := to_bits (sf32_mul (of_bits a) (of_bits b));
  fmac s a b := to_bits (sf32_add (of_bits s)
                  (of_bits (to_bits (sf32_mul (of_bits a) (of_bits b))))) }.
Next Obligation. intros; apply to_bits_fits. Qed.
Next Obligation. intros; apply to_bits_fits. Qed.
Next Obligation. intros; apply to_bits_fits. Qed.
Next Obligation. intros; apply canon_canon. Qed.
Next Obligation. intros; apply canon_canon. Qed.
Next Obligation. intros; by left. Qed.

(** ** double *)
Definition f64_of_Z (n : Z) : spec_float := binary_normalize 53 1024 n 0 false.
Definition f64_div : spec_float -> spec_float -> spec_float := SFdiv 53 1024.
Definition f64_mul : spec_float -> spec_float -> spec_float := SFmul 53 1024.
(** [tot ? double(a) / double(tot) : 0.0] *)
Definition ratio (a tot : Z) : spec_float :=
  if tot =? 0 then S754_zero false else f64_div (f64_of_Z a) (f64_of_Z tot).

(** %.<p>f: the exact value times 10^p, rounded half to even. *)
Definition round_half_even (num den : Z) : Z :=
  let q := num / den in
  let r := num mod den in
  if 2 * r <? den then q
  else if den <? 2 * r then q + 1
  else if Z.even q then q else q + 1.

#[local] Open Scope string_scope.
Definition fixed (p : nat) (x : spec_float) : string :=
  let show (s : bool) (n : Z) :=
    let t := 10 ^ Z.of_nat p in
    (if s then "-" else "") ++ udec (n / t)
      ++ match p with O => "" | _ => "." ++ zero_pad p (udec (n mod t)) end in
  match x with
  | S754_zero s => show s 0
  | S754_infinity s => (if s then "-" else "") ++ "inf"
  | S754_nan => "nan"
  | S754_finite s m e =>
      let scaled := Zpos m * 10 ^ Z.of_nat p in
      show s (if (0 <=? e)%Z then scaled * 2 ^ e else round_half_even scaled (2 ^ (- e)))
  end.
#[local] Open Scope Z_scope.

(** Rounding is to the nearest integer. *)
Lemma round_half_even_nearest num den :
  0 <= num -> 0 < den ->
  2 * Z.abs (round_half_even num den * den - num) <= den.
Proof.
  intros Hn Hd. unfold round_half_even.
  pose proof (Z.div_mod num den ltac:(lia)) as E.
  pose proof (Z.mod_pos_bound num den Hd) as B.
  destruct (Z.ltb_spec (2 * (num mod den)) den); [lia|].
  destruct (Z.ltb_spec den (2 * (num mod den))); [lia|].
  case_match; lia.
Qed.

(** A [float] promoted to [double] keeps the sign of a NaN, which is printed. *)
Definition fixed_float (p : nat) (x : Z) : string :=
  if f32_is_nan x then (if f32_sign x then "-nan" else "nan") else fixed p (of_bits x).
Example fixed_1 : fixed 4 (ratio 2 3) = "0.6667".
Proof. reflexivity. Qed.
Example fixed_2 : fixed 1 (of_bits 0x3F400000) = "0.8".
Proof. reflexivity. Qed.
