(* ===== verification/Profiler.v ===== *)
(** * Counters: profiler.h (with emulator.cpp) and pmc.h, pmc.cpp

    The per-instruction profiler with its opcode histogram and report, and
    the performance monitor counters.  All counters are 64-bit and wrap. *)

From S2P Require Import Prelude Text Isa Float.
From Stdlib Require Import Ascii String SpecFloat.
#[local] Open Scope Z_scope.

#[local] Set Primitive Projections.
Record Profiler : Type := mkProfiler {
  instr_count_ : Z;
  cycle_count_ : Z;
  dma_bytes_ : Z;
  dma_cycle_count_ : Z;
  opcode_hist_ : list Z }.
#[local] Unset Primitive Projections.

Definition incr64 (l : list Z) (i v : Z) : list Z :=
  zset l i (u64 (default 0 (zget l i) + v)).

Module Profiler.
Definition reset (p : Profiler) : Profiler :=
  {| instr_count_ := 0; cycle_count_ := 0; dma_bytes_ := 0; dma_cycle_count_ := 0;
     opcode_hist_ := replicate 64 0 |}.
Definition init : Profiler :=
  {| instr_count_ := 0; cycle_count_ := 0; dma_bytes_ := 0; dma_cycle_count_ := 0;
     opcode_hist_ := replicate 64 0 |}.

Definition record (op cycles dma_bytes : Z) (p : Profiler) : Profiler :=
  let p := { p with instr_count_ := u64 (p.(instr_count_) + 1);
                    cycle_count_ := u64 (p.(cycle_count_) + cycles);
                    opcode_hist_ := incr64 p.(opcode_hist_) op 1 } in
  if 0 <? dma_bytes then
    { p with dma_bytes_ := u64 (p.(dma_bytes_) + dma_bytes);
             dma_cycle_count_ := u64 (p.(dma_cycle_count_) + cycles) }
  else p.

Definition instructions (p : Profiler) : Z := p.(instr_count_).
Definition cycles (p : Profiler) : Z := p.(cycle_count_).
Definition ipc (p : Profiler) : spec_float := ratio p.(instr_count_) p.(cycle_count_).
Definition dma_throughput (p : Profiler) : spec_float :=
  ratio p.(dma_bytes_) p.(dma_cycle_count_).

#[local] Set Primitive Projections.
Record State : Type := mkState {
  instr_count : Z; cycle_count : Z; dma_bytes : Z; dma_cycles : Z; opcode_hist : list Z }.
#[local] Unset Primitive Projections.
Definition save (p : Profiler) : State :=
  {| instr_count := p.(instr_count_); cycle_count := p.(cycle_count_);
     dma_bytes := p.(dma_bytes_); dma_cycles := p.(dma_cycle_count_);
     opcode_hist := p.(opcode_hist_) |}.
Definition restore (s : State) (p : Profiler) : Profiler :=
  {| instr_count_ := s.(instr_count); cycle_count_ := s.(cycle_count);
     dma_bytes_ := s.(dma_bytes); dma_cycle_count_ := s.(dma_cycles);
     opcode_hist_ := s.(opcode_hist) |}.

#[local] Open Scope string_scope.
(** The table has 30 initialisers; the rest of its 64 entries are null. *)
Definition names : list string :=
  ["NOP"; "HALT"; "JMP"; "BEQ"; "BNE"; "ADD"; "SUB"; "MUL"; "LOAD"; "STORE"; "MOV"; "MOVI";
   "LOAD_VR"; "STORE_VR"; ""; ""; "VEC_ADD"; "MATMUL_TILE"; "DMA_LOAD"; "DMA_STORE";
   ""; ""; ""; ""; ""; ""; ""; ""; ""; ""].
Definition nl : string := String "010"%char "".


Definition report (p : Profiler) : string :=
  let header := snprintf 256
    ("=== Performance Report ===" ++ nl
     ++ "Instructions:    " ++ udec p.(instr_count_) ++ nl
     ++ "Total cycles:    " ++ udec p.(cycle_count_) ++ nl
     ++ "IPC:             " ++ fixed 4 (ipc p) ++ nl
     ++ "DMA bytes:       " ++ udec p.(dma_bytes_) ++ nl
     ++ "DMA cycles:      " ++ udec p.(dma_cycle_count_) ++ nl
     ++ "DMA throughput:  " ++ fixed 2 (dma_throughput p) ++ " bytes/cycle" ++ nl
     ++ nl ++ "Opcode histogram:" ++ nl) in
  let line (i : nat) (n : Z) :=
    if (0 <? n)%Z then
      snprintf 256 ("  [" ++ pad_left " "%char 2 (udec (Z.of_nat i)) ++ "] "
        ++ pad_right 12 (default "???" (names !! i)) ++ " " ++ udec n ++ nl)
    else "" in
  header ++ String.concat "" (imap line p.(opcode_hist_)).
#[local] Open Scope Z_scope.

Record wf (p : Profiler) : Prop := {
  wf_instr : fits 64 p.(instr_count_);
  wf_cycles : fits 64 p.(cycle_count_);
  wf_dma : fits 64 p.(dma_bytes_);
  wf_dma_cycles : fits 64 p.(dma_cycle_count_);
  wf_hist_len : List.length p.(opcode_hist_) = 64%nat;
  wf_hist : Forall (fits 64) p.(opcode_hist_) }.

Lemma prof_init_wf : wf init.
Proof.
  assert (fits 64 0) by (unfold fits; lia).
  split; try done. by apply Forall_replicate.
Qed.
Lemma record_wf op c d p : wf p -> wf (record op c d p).
Proof.
  intros []. unfold record, incr64. case_match; split; cbn; auto with novium.
  all: unfold zset; by rewrite length_insert.
Qed.

(** The counters after a sequence of recorded instructions. *)
Definition event : Type := Z * Z * Z.   (* opcode, cycles, DMA bytes *)
Definition record_all (evs : list event) (p : Profiler) : Profiler :=
  fold_left (fun p '(op, c, d) => record op c d p) evs p.
Definition total (f : event -> Z) (evs : list event) : Z :=
  foldr (fun e s => f e + s) 0 evs.
Lemma total_cons f e evs : total f (e :: evs) = f e + total f evs.
Proof. done. Qed.
End Profiler.
#[export] Hint Resolve Profiler.prof_init_wf Profiler.record_wf : novium.

(** ** Performance monitor counters *)
Inductive PMCEvent : Type :=
  | Cycles | Instructions | BranchMispredicts | CacheMisses | TLBMisses
  | DMABandwidth | WarpStalls | SystolicTiles | InterconnectStalls.

#[export] Instance PMCEvent_eq_dec : EqDecision PMCEvent.
Proof. solve_decision. Defined.

Definition event_index (e : PMCEvent) : Z :=
  match e with
  | Cycles => 0 | Instructions => 1 | BranchMispredicts => 2 | CacheMisses => 3
  | TLBMisses => 4 | DMABandwidth => 5 | WarpStalls => 6 | SystolicTiles => 7
  | InterconnectStalls => 8
  end.

#[local] Set Primitive Projections.
Record PMC : Type := mkPMC { ctr : list Z }.
#[local] Unset Primitive Projections.

Module PMC.
Definition init : PMC := {| ctr := replicate 9 0 |}.
Definition reset (p : PMC) : PMC := {| ctr := replicate 9 0 |}.
Definition get (e : PMCEvent) (p : PMC) : Z := default 0 (zget p.(ctr) (event_index e)).
Definition inc (e : PMCEvent) (v : Z) (p : PMC) : PMC :=
  {| ctr := incr64 p.(ctr) (event_index e) v |}.
Definition set (e : PMCEvent) (v : Z) (p : PMC) : PMC :=
  {| ctr := zset p.(ctr) (event_index e) v |}.
Definition ipc (p : PMC) : spec_float := ratio (get Instructions p) (get Cycles p).
Definition cache_miss_rate (hits misses : Z) : spec_float :=
  ratio misses (u64 (hits + misses)).

Definition on_commit (cycles : Z) (is_branch_mispredict is_cache_miss : bool) (p : PMC) : PMC :=
  let p := inc Cycles cycles p in
  let p := inc Instructions 1 p in
  let p := if is_branch_mispredict then inc BranchMispredicts 1 p else p in
  if is_cache_miss then inc CacheMisses 1 p else p.
Definition on_tlb_miss (p : PMC) : PMC := inc TLBMisses 1 p.
Definition on_dma (bytes : Z) (p : PMC) : PMC := inc DMABandwidth bytes p.

#[local] Open Scope string_scope.
Definition report (l1_hits l1_misses tlb_hits tlb_misses : Z) (p : PMC) : string :=
  let rate := match u64 (l1_hits + l1_misses) with
              | Z0 => S754_zero false
              | tot => f64_mul (ratio l1_misses tot) (f64_of_Z 100)
              end in
  snprintf 512 ("PMCs IPC=" ++ fixed 3 (ipc p) ++ " cyc=" ++ udec (get Cycles p)
    ++ " instr=" ++ udec (get Instructions p) ++ " br_miss=" ++ udec (get BranchMispredicts p)
    ++ " cache_miss_rate=" ++ fixed 1 rate ++ "% tlb_miss=" ++ udec (get TLBMisses p)
    ++ " dma_B=" ++ udec (get DMABandwidth p) ++ " warp_stall=" ++ udec (get WarpStalls p)
    ++ " tiles=" ++ udec (get SystolicTiles p)).
#[local] Open Scope Z_scope.

Lemma event_index_inj e f : event_index e = event_index f -> e = f.
Proof. by destruct e, f. Qed.
Lemma event_index_range e : 0 <= event_index e < 9.
Proof. by destruct e. Qed.

Lemma get_inc e f v p :
  List.length p.(ctr) = 9%nat ->
  get f (inc e v p) = if decide (f = e) then u64 (get e p + v) else get f p.
Proof.
  intros Hl. pose proof (event_index_range e). unfold get, inc, incr64. cbn [ctr].
  destruct (decide (f = e)) as [->|Hne].
  - by rewrite zget_zset_eq by (unfold zlen; lia).
  - rewrite zget_zset_ne; [done|lia|]. intros ?%event_index_inj. congruence.
Qed.
Lemma length_inc e v p : List.length (inc e v p).(ctr) = List.length p.(ctr).
Proof. apply length_insert. Qed.
End PMC.

(** ** Theorems *)

Lemma zget_incr64 l i j v :
  0 <= i < zlen l ->
  default 0 (zget (incr64 l i v) j) =
    if j =? i then u64 (default 0 (zget l i) + v) else default 0 (zget l j).
Proof.
  intros Hi. unfold incr64. destruct (Z.eqb_spec j i) as [->|Hne].
  - by rewrite zget_zset_eq.
  - by rewrite zget_zset_ne by lia.
Qed.

(** What the profiler counts. After any sequence of recorded
    instructions every counter is, modulo 2^64, its old value plus: the number
    of instructions; the sum of their cycles; the sum of their DMA bytes; the
    sum of the cycles of those that moved bytes; and, per opcode, the number of
    instructions with that opcode. *)
Theorem profiler_totals (evs : list Profiler.event) (p : Profiler) :
  Profiler.wf p -> Forall (fun '(op, c, d) => 0 <= op < 64 /\ 0 <= d) evs ->
  let p' := Profiler.record_all evs p in
  Profiler.wf p' /\
  p'.(instr_count_) = u64 (p.(instr_count_) + zlen evs) /\
  p'.(cycle_count_) = u64 (p.(cycle_count_) + Profiler.total (fun '(_, c, _) => c) evs) /\
  p'.(dma_bytes_) = u64 (p.(dma_bytes_) + Profiler.total (fun '(_, _, d) => d) evs) /\
  p'.(dma_cycle_count_) =
    u64 (p.(dma_cycle_count_) + Profiler.total (fun '(_, c, d) => if 0 <? d then c else 0) evs) /\
  (forall op, 0 <= op < 64 ->
     default 0 (zget p'.(opcode_hist_) op) =
     u64 (default 0 (zget p.(opcode_hist_) op) +
          Profiler.total (fun '(o, _, _) => if o =? op then 1 else 0) evs)).
Proof.
  intros Hp Hevs. revert p Hp. induction Hevs as [|[[o c] d] evs [Ho Hd] _ IH]; intros p Hp.
  { cbn. rewrite !Z.add_0_r. pose proof Hp as []. rewrite !u64_small by done.
    do 5 (split; [done|]). intros op Hop. rewrite Z.add_0_r. symmetry. apply u64_small.
    destruct (zget_lt (opcode_hist_ p) op) as [x Hx]; [unfold zlen; lia|]. rewrite Hx.
    by eapply Forall_zget in Hx. }
  specialize (IH (Profiler.record o c d p) (Profiler.record_wf o c d p Hp)).
  cbn [Profiler.record_all fold_left]. fold (Profiler.record_all evs (Profiler.record o c d p)).
  destruct IH as (Hw & -> & -> & -> & -> & Hh). split; [done|].
  unfold zlen. cbn [List.length]. rewrite Nat2Z.inj_succ, !Profiler.total_cons.
  assert (Hhist : forall op, 0 <= op < 64 ->
    default 0 (zget (Profiler.record o c d p).(opcode_hist_) op) =
      if op =? o then u64 (default 0 (zget p.(opcode_hist_) o) + 1)
      else default 0 (zget p.(opcode_hist_) op)).
  { intros op Hop. replace (opcode_hist_ (Profiler.record o c d p))
      with (incr64 (opcode_hist_ p) o 1) by (unfold Profiler.record; by case_match).
    apply zget_incr64. unfold zlen. by rewrite (Profiler.wf_hist_len p). }
  split; [|split; [|split; [|split]]].
  1-4: clear Hhist Hh Hw; destruct p; unfold Profiler.record; cbn beta iota;
    destruct (Z.ltb_spec 0 d); cbn; rewrite ?u64_add_l; f_equal; lia.
  - intros op Hop. rewrite Hh, Hhist, Profiler.total_cons by done. rewrite (Z.eqb_sym o op).
    destruct (Z.eqb_spec op o) as [->|]; [rewrite u64_add_l|]; f_equal; lia.
Qed.

Lemma profiler_totals_witness :
  let p := Profiler.record_all [(0x0B, 1, 0); (0x12, 3, 64); (0x0B, 1, 0)] Profiler.init in
  p.(cycle_count_) = 5 /\ zget p.(opcode_hist_) 0x0B = Some 2.
Proof.
  destruct (profiler_totals [(0x0B, 1, 0); (0x12, 3, 64); (0x0B, 1, 0)] Profiler.init
    Profiler.prof_init_wf ltac:(repeat constructor; lia)) as (_ & _ & H & _).
  cbn zeta. rewrite H. split; reflexivity.
Defined.
