(* ===== verification/Interconnect.v ===== *)
(** * Synchronous interconnect: interconnect.h, interconnect.cpp

    A fabric holds its in-flight transactions in issue order, refuses one when
    [max_outstanding] are in flight, and retires them from the front. *)

From S2P Require Import Prelude Text Isa Float.
From Stdlib Require Import SpecFloat.
#[local] Open Scope Z_scope.

Inductive FabricProtocol : Type := AXI4 | PCIe | CXI.

#[local] Set Primitive Projections.
Record InterconnectConfig : Type := mkConfig {
  protocol : FabricProtocol;
  data_width : Z;
  latency_cycles : Z;
  max_outstanding : Z;
  burst_len : Z }.
Record Transaction : Type := mkTransaction {
  id : Z;
  addr : Z;
  bytes : Z;
  is_write : bool;
  issue_cycle : Z;
  complete_cycle : Z;
  proto : FabricProtocol }.
Record Interconnect : Type := mkInterconnect {
  cfg_ : InterconnectConfig;
  pending_ : list Transaction;
  cur_cycle_ : Z;
  completed_ : Z;
  stalled_ : Z }.
#[local] Unset Primitive Projections.

Module Interconnect.
Definition make (cfg : InterconnectConfig) : Interconnect :=
  {| cfg_ := cfg; pending_ := []; cur_cycle_ := 0; completed_ := 0; stalled_ := 0 |}.
Definition default_config : InterconnectConfig :=
  {| protocol := AXI4; data_width := 64; latency_cycles := 2; max_outstanding := 8;
     burst_len := 16 |}.
Definition configure (cfg : InterconnectConfig) (f : Interconnect) : Interconnect :=
  { f with cfg_ := cfg }.

(** [bytes / (data_width * burst_len)] rounded up, in 32 bits: undefined when
    the product is zero. *)
Definition bursts (cfg : InterconnectConfig) (bytes : Z) : outcome Z :=
  let beat := u32 (cfg.(data_width) * cfg.(burst_len)) in
  if beat =? 0 then Undefined DivideByZero
  else Ok (u32 (bytes + beat - 1) / beat).

Definition issue (t : Transaction) (cur_cycle : Z) : M Interconnect bool := fun f =>
  if f.(cfg_).(max_outstanding) <=? zlen f.(pending_) then
    (Ok false, { f with stalled_ := u64 (f.(stalled_) + 1) })
  else
    match bursts f.(cfg_) t.(bytes) with
    | Ok n =>
        let nt := { t with issue_cycle := cur_cycle;
                    complete_cycle := u64 (cur_cycle + f.(cfg_).(latency_cycles) + n);
                    proto := f.(cfg_).(protocol) } in
        (Ok true, { f with pending_ := f.(pending_) ++ [nt]; cur_cycle_ := cur_cycle })
    | Throw e => (Throw e, f)
    | Undefined u => (Undefined u, f)
    end.

(** The loop of [tick]: it pops until the front is not due. *)
Fixpoint retire (now : Z) (q : list Transaction) (completed : Z) : list Transaction * Z :=
  match q with
  | [] => ([], completed)
  | t :: q' =>
      if t.(complete_cycle) <=? now then retire now q' (u64 (completed + 1))
      else (q, completed)
  end.

Definition tick (cycles : Z) (f : Interconnect) : Interconnect :=
  let now := u64 (f.(cur_cycle_) + cycles) in
  let '(q, n) := retire now f.(pending_) f.(completed_) in
  { f with cur_cycle_ := now; pending_ := q; completed_ := n }.

Definition outstanding (f : Interconnect) : Z := zlen f.(pending_).
Definition completed (f : Interconnect) : Z := f.(completed_).
Definition stalled (f : Interconnect) : Z := f.(stalled_).
Definition utilization (f : Interconnect) : spec_float :=
  ratio f.(completed_) (u64 (f.(completed_) + f.(stalled_))).
Definition pending_bytes (f : Interconnect) : Z :=
  fold_left (fun s t => u64 (s + t.(bytes))) f.(pending_) 0.
Definition reset (f : Interconnect) : Interconnect :=
  { f with pending_ := []; completed_ := 0; stalled_ := 0; cur_cycle_ := 0 }.
Definition proto_name (f : Interconnect) : string :=
  match f.(cfg_).(protocol) with AXI4 => "AXI4" | PCIe => "PCIe" | CXI => "CXI" end%string.
Definition latency_for (f : Interconnect) (bytes : Z) : outcome Z :=
  match bursts f.(cfg_) bytes with
  | Ok n => Ok (u32 (f.(cfg_).(latency_cycles) + n))
  | Throw e => Throw e
  | Undefined u => Undefined u
  end.

(** *** Invariant and lemmas *)
Record wf (f : Interconnect) : Prop := {
  wf_bound : outstanding f <= Z.max 0 f.(cfg_).(max_outstanding);
  wf_completed : fits 64 f.(completed_);
  wf_stalled : fits 64 f.(stalled_);
  wf_now : fits 64 f.(cur_cycle_);
  wf_beat : u32 (f.(cfg_).(data_width) * f.(cfg_).(burst_len)) <> 0 }.

(** [retire] removes the longest prefix of due transactions. *)
Lemma retire_spec now q n :
  exists done_ rest, q = done_ ++ rest /\ Forall (fun t => complete_cycle t <= now) done_ /\
    (forall t rest', rest = t :: rest' -> now < complete_cycle t) /\
    (fits 64 n -> retire now q n = (rest, u64 (n + zlen done_))).
Proof.
  revert n. induction q as [|t q IH]; intros n.
  { exists [], []. repeat split; [done..|]. intros. cbn. by rewrite Z.add_0_r, u64_small. }
  cbn [retire]. destruct (Z.leb_spec (complete_cycle t) now) as [Hle|Hgt].
  - destruct (IH (u64 (n + 1))) as (dn & rest & -> & Hd & Hr & He).
    exists (t :: dn), rest. split; [done|]. split; [by constructor|]. split; [done|].
    intros _. rewrite He by apply u64_fits. rewrite u64_add_l. unfold zlen. cbn [length].
    do 2 f_equal. lia.
  - exists [], (t :: q). split; [done|]. split; [done|]. split; [by intros ?? [= -> ->]|].
    intros. rewrite Z.add_0_r, u64_small; done.
Qed.

(** A well-formed fabric accepts or refuses, and never fails otherwise. *)
Lemma issue_total t c f :
  wf f -> fits 64 c -> exists b f', issue t c f = (Ok b, f') /\ wf f' /\ cfg_ f' = cfg_ f /\
    b = (outstanding f <? max_outstanding (cfg_ f)) /\
    outstanding f' = outstanding f + (if b then 1 else 0) /\
    completed_ f' = completed_ f /\
    stalled_ f' = u64 (stalled_ f + (if b then 0 else 1)) /\
    (b = false -> cur_cycle_ f' = cur_cycle_ f).
Proof.
  destruct f as [cfg q now dn st]. intros [Hb H1 H2 H3 Hbeat] Hc.
  unfold issue, outstanding, bursts in *. cbn in *.
  destruct (Z.leb_spec (max_outstanding cfg) (zlen q)) as [Hle|Hlt].
  - eexists false, _. split; [done|]. split; [split; cbn; auto with novium|].
    cbn. destruct (Z.ltb_spec (zlen q) (max_outstanding cfg)); [lia|]. repeat split; lia.
  - apply Z.eqb_neq in Hbeat as Hbeat'. rewrite Hbeat'.
    assert (Hl : forall x : Transaction, zlen (q ++ [x]) = zlen q + 1).
    { intros x. unfold zlen. rewrite length_app. cbn. lia. }
    eexists true, _. split; [reflexivity|].
    destruct (Z.ltb_spec (zlen q) (max_outstanding cfg)); [|lia].
    split; [split; cbn; auto; unfold outstanding; cbn; rewrite Hl; lia|].
    cbn. rewrite Hl, Z.add_0_r, u64_small by done. repeat split; lia || done.
Qed.

Lemma tick_spec c f :
  wf f -> exists dn rest, f.(pending_) = dn ++ rest /\
    Forall (fun t => complete_cycle t <= u64 (cur_cycle_ f + c)) dn /\
    (forall t rest', rest = t :: rest' -> u64 (cur_cycle_ f + c) < complete_cycle t) /\
    tick c f = { f with cur_cycle_ := u64 (cur_cycle_ f + c); pending_ := rest;
                        completed_ := u64 (completed_ f + zlen dn) } /\
    wf (tick c f).
Proof.
  destruct f as [cfg q now n st]. intros Hf.
  destruct (retire_spec (u64 (now + c)) q n)
    as (dn & rest & Hq & Hd & Hr & He).
  exists dn, rest. split; [done|]. split; [done|]. split; [done|].
  assert (Ht : tick c (mkInterconnect cfg q now n st) =
    mkInterconnect cfg rest (u64 (now + c)) (u64 (n + zlen dn)) st).
  { unfold tick. cbn. rewrite He by apply Hf. done. }
  split; [done|]. rewrite Ht. destruct Hf as [Hb]. split; cbn; auto with novium.
  unfold outstanding in *. cbn in *. rewrite Hq in Hb. unfold zlen in *. rewrite length_app in Hb. lia.
Qed.
Lemma fabric_tick_wf c f : wf f -> wf (tick c f).
Proof. intros Hf. by destruct (tick_spec c f Hf) as (? & ? & ? & ? & ? & ? & ?). Qed.
Lemma tick_cfg c f : cfg_ (tick c f) = cfg_ f.
Proof. unfold tick. by destruct retire. Qed.
Lemma fabric_reset_wf f : wf f -> wf (reset f).
Proof. intros []. split; cbn; auto with novium. unfold outstanding, zlen. cbn. lia. Qed.
End Interconnect.
#[export] Hint Resolve Interconnect.fabric_tick_wf Interconnect.fabric_reset_wf : novium.

(** ** Operations in sequence *)
Inductive fabric_op : Type :=
  | Issue (t : Transaction) (cycle : Z)
  | Tick (cycles : Z).

(** A run of a fabric: the state reached, and how many of the issued
    transactions were accepted and refused. *)
Inductive fabric_run (f0 : Interconnect) : Interconnect -> Z -> Z -> Prop :=
  | run_start : fabric_run f0 f0 0 0
  | run_issue f a r t c b f' :
      fabric_run f0 f a r -> fits 64 c -> Interconnect.issue t c f = (Ok b, f') ->
      fabric_run f0 f' (a + (if b then 1 else 0)) (r + (if b then 0 else 1))
  | run_tick f a r c :
      fabric_run f0 f a r -> fabric_run f0 (Interconnect.tick c f) a r.

(** ** Theorems *)

(** C24: flow conservation and backpressure. In every run of a reset
    fabric, whatever is issued and however it is ticked: the transactions in
    flight never exceed [max_outstanding]; every accepted transaction is
    either in flight or counted as completed, and every refused one as
    stalled (counters modulo 2^64); a transaction is refused exactly when the
    fabric is full. *)
Theorem fabric_conservation cfg f accepted refused :
  0 <= max_outstanding cfg -> u32 (data_width cfg * burst_len cfg) <> 0 ->
  fabric_run (Interconnect.make cfg) f accepted refused ->
  Interconnect.outstanding f <= max_outstanding cfg /\
  u64 accepted = u64 (Interconnect.outstanding f + Interconnect.completed f) /\
  u64 refused = Interconnect.stalled f /\
  (forall t c, fits 64 c ->
     (Interconnect.issue t c f).1 = Ok (Interconnect.outstanding f <? max_outstanding cfg)).
Proof.
  intros Hm Hbeat Hrun.
  assert (Hinv : Interconnect.wf f /\ cfg_ f = cfg /\
    u64 accepted = u64 (Interconnect.outstanding f + Interconnect.completed f) /\
    u64 refused = Interconnect.stalled f).
  { unfold Interconnect.completed, Interconnect.stalled.
    induction Hrun as [|f a r t c b f' _ IH Hc Hi|f a r c _ IH].
    - split; [|done]. split; cbn; auto with novium. unfold Interconnect.outstanding, zlen. cbn. lia.
    - destruct IH as (Hw & <- & Ha & Hr).
      destruct (Interconnect.issue_total t c f Hw Hc) as (b' & f2 & Hi' & Hw' & Hcf & _ & Ho & Hd & Hs & _).
      rewrite Hi in Hi'. injection Hi' as -> ->. split; [done|]. split; [done|].
      rewrite Ho, Hd, Hs, <- Hr, u64_add_l. split; [|done].
      rewrite <- u64_add_l, Ha, u64_add_l. f_equal. lia.
    - destruct IH as (Hw & <- & Ha & Hr).
      destruct (Interconnect.tick_spec c f Hw) as (dn & rest & Hq & _ & _ & Ht & Hw').
      split; [done|]. rewrite Ht. cbn. split; [done|]. split; [|done].
      rewrite Ha. unfold Interconnect.outstanding. cbn. rewrite Hq. unfold zlen.
      rewrite u64_add_r, length_app. f_equal. lia. }
  destruct Hinv as (Hw & Hcf & Ha & Hr).
  split; [pose proof (Interconnect.wf_bound f Hw); rewrite Hcf in *; lia|].
  split; [done|]. split; [done|]. intros t c Hc.
  destruct (Interconnect.issue_total t c f Hw Hc) as (b & f' & -> & _ & _ & -> & _).
  by rewrite Hcf.
Qed.

Lemma fabric_conservation_witness :
  let cfg := mkConfig AXI4 64 2 1 16 in
  let t := mkTransaction 0 0 64 false 0 0 AXI4 in
  let f1 := (Interconnect.issue t 5 (Interconnect.make cfg)).2 in
  let f2 := (Interconnect.issue t 6 f1).2 in
  Interconnect.stalled f2 = 1 /\ Interconnect.outstanding (Interconnect.tick 1000 f2) = 0.
Proof.
  intros cfg t f1 f2.
  destruct (fabric_conservation cfg f2 (0 + 1 + 0) (0 + 0 + 1)) as (_ & _ & H & _).
  - cbn; lia.
  - by vm_compute.
  - apply (run_issue _ f1 (0 + 1) (0 + 0) t 6 false).
    + apply (run_issue _ (Interconnect.make cfg) 0 0 t 5 true);
        [constructor|vm_compute; split; congruence|reflexivity].
    + vm_compute; split; congruence.
    + reflexivity.
  - split; [symmetry; exact H|reflexivity].
Defined.

(** Completion is in order and exact. A tick retires a prefix of the
    in-flight transactions, all of them due at the new cycle, and stops at the
    first that is not due: so a transaction that is due stays in flight only
    behind an older one that is not. A later tick that reaches every
    completion cycle empties the fabric. *)
Theorem tick_in_order f c :
  Interconnect.wf f ->
  let f' := Interconnect.tick c f in
  let now := u64 (f.(cur_cycle_) + c) in
  exists retired, f.(pending_) = retired ++ f'.(pending_) /\
    Forall (fun t => complete_cycle t <= now) retired /\
    (forall t, t ∈ f'.(pending_) -> complete_cycle t <= now ->
       exists older before after, f'.(pending_) = older :: before ++ t :: after /\
         now < complete_cycle older) /\
    (Forall (fun t => complete_cycle t <= now) f.(pending_) -> f'.(pending_) = []).
Proof.
  intros Hf f' now. destruct (Interconnect.tick_spec c f Hf) as (dn & rest & Hq & Hd & Hr & Ht & _).
  subst f'. rewrite Ht. cbn [pending_ apply_update constant]. exists dn.
  split; [done|]. split; [done|]. split.
  - intros t Hin Hdue. destruct rest as [|t0 rest]; [set_solver|].
    specialize (Hr _ _ eq_refl). apply elem_of_cons in Hin as [->|Hin]; [subst now; lia|].
    apply list_elem_of_split in Hin as (l1 & l2 & ->). by exists t0, l1, l2.
  - intros Hall. destruct rest as [|t0 rest]; [done|]. specialize (Hr _ _ eq_refl).
    rewrite Hq in Hall. apply Forall_app in Hall as [_ Hall]. apply Forall_inv in Hall.
    subst now. lia.
Qed.

Lemma tick_in_order_witness :
  let t := mkTransaction 0 0 64 false 0 0 AXI4 in
  let f := (Interconnect.issue t 5 (Interconnect.make Interconnect.default_config)).2 in
  (Interconnect.tick 3 f).(pending_) = [].
Proof.
  intros t f. destruct (tick_in_order f 3) as (r & _ & _ & _ & H).
  - split; vm_compute; try (split; congruence); congruence.
  - apply H. constructor; [vm_compute; congruence|constructor].
Defined.
