(* ===== verification/Target.v ===== *)
(** * Simulation targets: target.h

    A profile overrides the cycle weight of some opcodes; zero means the
    default of isa.h. *)

From S2P Require Import Prelude Text Isa.
#[local] Open Scope Z_scope.

Inductive TargetKind : Type := CPU | GPU | ASIC.

#[local] Set Primitive Projections.
Record TargetProfile : Type := mkProfile {
  kind : TargetKind;
  name : string;
  cycle_overrides : list Z;
  vector_lanes : Z;
  tensor_cores : Z;
  dma_bandwidth : Z;
  out_of_order : bool;
  warp_scheduling : bool }.
#[local] Unset Primitive Projections.

Definition default_profile : TargetProfile :=
  {| kind := ASIC; name := ""; cycle_overrides := replicate 64 0; vector_lanes := 4;
     tensor_cores := 1; dma_bandwidth := 64; out_of_order := false; warp_scheduling := false |}.

Definition override (op : Opcode) (w : Z) (l : list Z) : list Z := zset l (code op) w.

Definition make_cpu_profile : TargetProfile :=
  { default_profile with
      kind := CPU; name := "cpu-x86-arm"%string; vector_lanes := 8; tensor_cores := 1;
      dma_bandwidth := 32; out_of_order := true;
      cycle_overrides := override MATMUL_TILE 24 (override VEC_ADD 2 (replicate 64 0)) }.

Definition make_gpu_profile : TargetProfile :=
  { default_profile with
      kind := GPU; name := "gpu-warp32"%string; vector_lanes := 32; tensor_cores := 4;
      dma_bandwidth := 256; warp_scheduling := true;
      cycle_overrides :=
        override DMA_STORE 1 (override DMA_LOAD 1
          (override MATMUL_TILE 4 (override VEC_ADD 1 (replicate 64 0)))) }.

Definition make_asic_profile : TargetProfile :=
  { default_profile with
      kind := ASIC; name := "asic-npu-4x4"%string; vector_lanes := 16; tensor_cores := 1;
      dma_bandwidth := 64; cycle_overrides := replicate 64 0 }.

Definition make_custom_profile (name_ : string) (lanes cores bw : Z) : TargetProfile :=
  { make_asic_profile with
      name := name_; vector_lanes := lanes; tensor_cores := cores; dma_bandwidth := bw }.

Definition make_profile (k : TargetKind) : TargetProfile :=
  match k with
  | CPU => make_cpu_profile
  | GPU => make_gpu_profile
  | ASIC => make_asic_profile
  end.

Definition profile_cycle_weight (prof : TargetProfile) (op func : Z) : Z :=
  let ov := default 0 (zget prof.(cycle_overrides) op) in
  if negb (ov =? 0) then ov else cycle_weight op func.

Definition profile_wf (p : TargetProfile) : Prop :=
  List.length p.(cycle_overrides) = 64%nat /\ Forall (fits 32) p.(cycle_overrides).

Lemma make_profile_wf k : profile_wf (make_profile k).
Proof.
  split; [by destruct k|]. apply (bool_decide_unpack _).
  destruct k; vm_compute; exact I.
Qed.

Lemma cycle_weight_fits op func : fits 32 (cycle_weight op func).
Proof. unfold cycle_weight. repeat case_match; auto with novium. Qed.

Lemma profile_cycle_weight_fits p op func :
  profile_wf p -> fits 32 (profile_cycle_weight p op func).
Proof.
  intros [_ Hp]. unfold profile_cycle_weight. destruct (zget _ op) as [x|] eqn:E; cbn.
  - case_match; [by eapply Forall_zget in E|apply cycle_weight_fits].
  - apply cycle_weight_fits.
Qed.
#[export] Hint Resolve make_profile_wf cycle_weight_fits profile_cycle_weight_fits : novium.

(** ** Theorems *)

(** The DMA weight, away from 32-bit wrap-around: lines moved plus two. *)
Lemma cycle_weight_dma func :
  0 <= func < 2 ^ 31 -> cycle_weight (code DMA_LOAD) func = (func + 63) / 64 + 2.
Proof.
  intros Hf. unfold cycle_weight. rewrite opcode_of_code. unfold DMA_LINE_SIZE.
  rewrite u64_small by (unfold fits; lia).
  replace (func + 64 - 1) with (func + 63) by lia.
  assert (0 <= (func + 63) / 64 < 2 ^ 31).
  { split; [apply Z.div_pos; lia|]. apply Z.div_lt_upper_bound; lia. }
  rewrite (u32_small ((func + 63) / 64)) by (unfold fits; lia).
  apply u32_small. unfold fits. lia.
Qed.

(** Timing is the only thing a target changes, and only for the
    accelerator opcodes: for the three built-in targets every opcode but
    VEC_ADD, MATMUL_TILE and (on the GPU) the DMA instructions has the weight
    of isa.h; the weight of every opcode is one to 34 cycles except HALT's,
    which is free; and no target makes a DMA transfer dearer than the ASIC
    reference, whose cost is one cycle per started 64-byte line plus two. *)
Theorem target_weights (k : TargetKind) (op : Opcode) (func : Z) :
  0 <= func < 2048 ->
  let w := profile_cycle_weight (make_profile k) (code op) func in
  (w <> cycle_weight (code op) func ->
     op = VEC_ADD \/ op = MATMUL_TILE \/ (k = GPU /\ (op = DMA_LOAD \/ op = DMA_STORE))) /\
  (op <> HALT -> 1 <= w <= 34) /\ (op = HALT -> w = 0) /\
  (op = DMA_LOAD \/ op = DMA_STORE ->
     profile_cycle_weight (make_profile ASIC) (code op) func = (func + 63) / 64 + 2 /\
     w <= (func + 63) / 64 + 2).
Proof.
  intros Hf w.
  assert (Hd : cycle_weight (code DMA_LOAD) func = (func + 63) / 64 + 2 /\
               cycle_weight (code DMA_STORE) func = (func + 63) / 64 + 2).
  { rewrite <- cycle_weight_dma by lia. by split. }
  destruct Hd as [Hl Hs].
  assert (0 <= (func + 63) / 64 < 33).
  { split; [apply Z.div_pos; lia|]. apply Z.div_lt_upper_bound; lia. }
  assert (Hov : w = let ov := default 0 (zget (make_profile k).(cycle_overrides) (code op)) in
                    if negb (ov =? 0) then ov else cycle_weight (code op) func) by done.
  assert (Hasic : profile_cycle_weight (make_profile ASIC) (code op) func
                  = cycle_weight (code op) func) by (by destruct op).
  rewrite Hasic. clearbody w. clear Hasic.
  destruct k, op; rewrite ?Hl, ?Hs in *; cbn in Hov; rewrite ?Hl, ?Hs in Hov; subst w;
    repeat split; intros; try lia; try done; auto; naive_solver lia.
Qed.

Lemma target_weights_witness :
  profile_cycle_weight (make_profile GPU) (code DMA_LOAD) 256 <= 6.
Proof.
  destruct (target_weights GPU DMA_LOAD 256 ltac:(lia)) as (_ & _ & _ & H).
  destruct (H ltac:(by left)) as [_ H']. exact H'.
Defined.
