(* ===== verification/Host.v ===== *)
(** * Accelerated kernels: host.h

    The vector registers are the rows of a list; the kernels read and write
    them through [float*] pointers that may denote the same row, so they are
    modelled on the whole register array, in the order of their loads and
    stores.  [HostPath] is the preprocessor branch the kernel was built for.
    [None] is an access outside a register. *)

From S2P Require Import Prelude Text Isa Registers Float.
#[local] Open Scope Z_scope.

Inductive HostISA : Type := Unknown | X86_64 | AArch64.
(** The branches of [vec_add_host]. *)
Inductive HostPath : Type := PathAVX2 | PathAVX512 | PathNEON | PathScalar.

Module Host.
#[local] Set Primitive Projections.
Record features : Type := mkFeatures {
  isa : HostISA; avx2 : bool; avx512f : bool; neon : bool; sve : bool }.
#[local] Unset Primitive Projections.

Definition host_isa_name (i : HostISA) : string :=
  match i with X86_64 => "x86_64" | AArch64 => "aarch64" | Unknown => "unknown" end%string.

Definition path (f : features) : HostPath :=
  match f.(isa) with
  | X86_64 => if f.(avx2) then PathAVX2 else if f.(avx512f) then PathAVX512 else PathScalar
  | AArch64 => if f.(neon) then PathNEON else PathScalar
  | Unknown => PathScalar
  end.

Definition host_feature_string (f : features) : string :=
  let add '(s, first) '(n, v) :=
    if (v : bool) then ((s +:+ (if (first : bool) then "" else ",") +:+ n)%string, false)
    else (s, first) in
  let '(s, first) :=
    fold_left add [("AVX2", f.(avx2)); ("AVX512F", f.(avx512f)); ("NEON", f.(neon)); ("SVE", f.(sve))]%string
      ((host_isa_name f.(isa) +:+ " [")%string, true) in
  (s +:+ (if first then "scalar" else "") +:+ "]")%string.

Section Kernels.
Context `{FloatOps}.

Definition row (vrs : list (list Z)) (r : Z) : list Z := default [] (zget vrs r).

(** A [w]-wide load, and a store at an offset of a row. *)
Definition load (vrs : list (list Z)) (r : Z) (off w : nat) : list Z :=
  take w (drop off (row vrs r)).
Definition store (vrs : list (list Z)) (r : Z) (off : nat) (xs : list Z) : list (list Z) :=
  zset vrs r (take off (row vrs r) ++ xs ++ drop (off + length xs) (row vrs r)).

Definition add_block (w : nat) (d a b : Z) (vrs : list (list Z)) (off : nat) : list (list Z) :=
  store vrs d off (zip_with fadd (load vrs a off w) (load vrs b off w)).

Definition blocks (p : HostPath) : nat * list nat :=
  match p with
  | PathAVX2 => (8, [0; 8])%nat
  | PathAVX512 => (16, [0])%nat
  | PathNEON => (4, [0; 4; 8; 12])%nat
  | PathScalar => (1, seq 0 16)%nat
  end.

Definition vec_add_host (p : HostPath) (vrs : list (list Z)) (d a b : Z) : list (list Z) :=
  let '(w, offs) := blocks p in fold_left (add_block w d a b) offs vrs.

(** The loop of [Emulator::op_vec_add] without acceleration. *)
Definition vec_add_scalar (vrs : list (list Z)) (d a b : Z) : list (list Z) :=
  fold_left (add_block 1 d a b) (seq 0 16) vrs.

(** *** Tile product *)
Definition elem (vrs : list (list Z)) (r k : Z) : option Z :=
  match zget vrs r with Some v => zget v k | None => None end.
Definition set_elem (vrs : list (list Z)) (r k x : Z) : option (list (list Z)) :=
  match zget vrs r with
  | Some v => if (0 <=? k) && (k <? zlen v) then Some (zset vrs r (zset v k x)) else None
  | None => None
  end.

(** [sum += a[i * n + k] * b[k * n + j]] for k below n. *)
Definition dot (vrs : list (list Z)) (a b n i j : Z) : option Z :=
  foldM (fun sum k =>
    match elem vrs a (i * n + k), elem vrs b (k * n + j) with
    | Some x, Some y => Some (fmac sum x y)
    | _, _ => None
    end) (seqZ 0 n) 0.

Definition cell (n d a b : Z) (vrs : list (list Z)) '((i, j) : Z * Z) : option (list (list Z)) :=
  match dot vrs a b n i j with
  | Some sum => set_elem vrs d (i * n + j) sum
  | None => None
  end.

Definition cells (n : Z) : list (Z * Z) :=
  i ← seqZ 0 n; j ← seqZ 0 n; [(i, j)].

Definition matmul_loop (vrs : list (list Z)) (d a b n : Z) : option (list (list Z)) :=
  foldM (cell n d a b) (cells n) vrs.

Definition matmul_tile_host (vrs : list (list Z)) (d a b n : Z) : option (list (list Z)) :=
  if n =? 4 then matmul_loop vrs d a b 4 else matmul_loop vrs d a b n.

(** *** Lemmas *)
Lemma row_zset_eq vrs d v : 0 <= d < zlen vrs -> row (zset vrs d v) d = v.
Proof. intros. unfold row. by rewrite zget_zset_eq. Qed.
Lemma row_zset_ne vrs d e v : 0 <= d -> d <> e -> row (zset vrs d v) e = row vrs e.
Proof. intros. unfold row. by rewrite zget_zset_ne. Qed.

Lemma zip_with_take_app {A B C} (f : A -> B -> C) l k n m :
  take n (zip_with f l k) ++ zip_with f (take m (drop n l)) (take m (drop n k))
  = take (n + m) (zip_with f l k).
Proof.
  rewrite <- zip_with_take, <- zip_with_drop.
  apply take_take_drop.
Qed.

(** One block, on a destination whose first [n] elements are already sums:
    the operands are read at and after [n], where the destination still holds
    what it held at the start. *)
Lemma add_block_step w n (vrs : list (list Z)) d a b :
  0 <= d < zlen vrs -> 0 <= a < zlen vrs -> 0 <= b < zlen vrs ->
  (forall r, 0 <= r < zlen vrs -> length (row vrs r) = 16%nat) -> (n + w <= 16)%nat ->
  let sums := zip_with fadd (row vrs a) (row vrs b) in
  let st k := zset vrs d (take k sums ++ drop k (row vrs d)) in
  add_block w d a b (st n) n = st (n + w)%nat.
Proof.
  intros Hd Ha Hb Hlen Hw sums st.
  assert (Hsl : length sums = 16%nat).
  { unfold sums. rewrite length_zip_with, !Hlen by done. lia. }
  assert (Hload : forall r, 0 <= r < zlen vrs ->
    load (st n) r n w = take w (drop n (row vrs r))).
  { intros r Hr. unfold load, st. destruct (decide (r = d)) as [->|Hne].
    - rewrite row_zset_eq by done. rewrite drop_app_length'; [done|].
      rewrite length_take. lia.
    - by rewrite row_zset_ne by (lia || done). }
  unfold add_block. rewrite !Hload by done. unfold store.
  set (blk := zip_with fadd _ _).
  assert (Hbl : length blk = w).
  { unfold blk. rewrite length_zip_with, !length_take, !length_drop, !Hlen by done. lia. }
  unfold st at 1. rewrite zset_zset. unfold st. f_equal.
  rewrite row_zset_eq by done. rewrite app_assoc. f_equal.
  - rewrite take_app_length' by (rewrite length_take; lia).
    unfold blk, sums. apply zip_with_take_app.
  - rewrite drop_app_ge by (rewrite length_take; lia). rewrite length_take, drop_drop, Hbl.
    f_equal. lia.
Qed.

(** Every element read is the sum of the original operands, whichever rows
    coincide, for every block width that covers the sixteen lanes. *)
Lemma add_blocks_all w m (vrs : list (list Z)) d a b :
  0 <= d < zlen vrs -> 0 <= a < zlen vrs -> 0 <= b < zlen vrs ->
  (forall r, 0 <= r < zlen vrs -> length (row vrs r) = 16%nat) -> (m * w <= 16)%nat ->
  let sums := zip_with fadd (row vrs a) (row vrs b) in
  fold_left (add_block w d a b) (map (fun i => i * w)%nat (seq 0 m)) vrs
    = zset vrs d (take (m * w) sums ++ drop (m * w) (row vrs d)).
Proof.
  intros Hd Ha Hb Hlen. induction m as [|m IH]; intros Hm sums.
  - cbn. rewrite take_0. cbn. rewrite drop_0.
    unfold row. destruct (zget_lt vrs d Hd) as [v Hv]. rewrite Hv. cbn. by rewrite zset_zget.
  - rewrite seq_S, map_app, fold_left_app, IH by lia. cbn [map fold_left Nat.add].
    rewrite add_block_step by (try done; lia). by rewrite (Nat.add_comm (m * w) w).
Qed.

Lemma blocks_cover p :
  exists w m, blocks p = (w, map (fun i => i * w)%nat (seq 0 m)) /\ (m * w = 16)%nat.
Proof.
  destruct p; [exists 8%nat, 2%nat|exists 16%nat, 1%nat|exists 4%nat, 4%nat|exists 1%nat, 16%nat];
    split; reflexivity.
Qed.

(** A dot product does not read the destination row. *)
Lemma dot_zset vrs d v a b n i j :
  0 <= d -> d <> a -> d <> b -> dot (zset vrs d v) a b n i j = dot vrs a b n i j.
Proof.
  intros Hd Ha Hb. unfold dot, elem. generalize 0 at 2 4.
  by rewrite !zget_zset_ne by done.
Qed.

Definition dot_ref (A B : list Z) (n i j : Z) : Z :=
  fold_left (fun sum k => fmac sum (default 0 (zget A (i * n + k))) (default 0 (zget B (k * n + j))))
    (seqZ 0 n) 0.

Lemma index_range n i j :
  1 <= n <= 4 -> 0 <= i < n -> 0 <= j < n -> 0 <= i * n + j < n * n /\ n * n <= 16.
Proof.
  intros Hn Hi Hj. assert (i * n <= (n - 1) * n) by (apply Z.mul_le_mono_nonneg_r; lia).
  assert (n * n <= 4 * 4) by (apply Z.mul_le_mono_nonneg; lia). nia.
Qed.

Lemma dot_some vrs a b n i j A B :
  zget vrs a = Some A -> zget vrs b = Some B -> length A = 16%nat -> length B = 16%nat ->
  1 <= n <= 4 -> 0 <= i < n -> 0 <= j < n -> dot vrs a b n i j = Some (dot_ref A B n i j).
Proof.
  intros HA HB LA LB Hn Hi Hj. unfold dot, dot_ref, elem. rewrite HA, HB.
  apply (foldM_total _ _ (fun _ => True)); [done|].
  intros s k _ [Hk1 Hk2]%elem_of_seqZ. split; [|done].
  pose proof (index_range n i k Hn Hi ltac:(lia)).
  pose proof (index_range n k j Hn ltac:(lia) Hj).
  destruct (zget_lt A (i * n + k)) as [x Hx]; [unfold zlen; lia|].
  destruct (zget_lt B (k * n + j)) as [y Hy]; [unfold zlen; lia|]. by rewrite Hx, Hy.
Qed.

Lemma cells_in n i j : (i, j) ∈ cells n <-> 0 <= i < n /\ 0 <= j < n.
Proof.
  unfold cells. rewrite list_elem_of_bind. split.
  - intros (x & (y & Hin & Hy%elem_of_seqZ)%list_elem_of_bind & Hx%elem_of_seqZ).
    apply list_elem_of_singleton in Hin as [= <- <-]. lia.
  - intros [Hi Hj]. exists i. split; [|apply elem_of_seqZ; lia]. apply list_elem_of_bind.
    exists j. split; [set_solver|apply elem_of_seqZ; lia].
Qed.

Definition cell_index (n : Z) '((i, j) : Z * Z) : Z := i * n + j.
Definition cell_value (A B : list Z) (n : Z) '((i, j) : Z * Z) : Z := dot_ref A B n i j.

Lemma cells_nodup n : 1 <= n <= 4 -> NoDup (map (cell_index n) (cells n)).
Proof.
  intros Hn. assert (n = 1 \/ n = 2 \/ n = 3 \/ n = 4) as [-> | [-> | [-> | ->]]] by lia;
    apply (bool_decide_unpack _); vm_compute; exact I.
Qed.
End Kernels.
End Host.

(** ** Theorems *)
Section Theorems.
Context `{FloatOps}.

(** The shape of the vector registers. *)
Definition rows_ok (vrs : list (list Z)) : Prop :=
  forall r, 0 <= r < zlen vrs -> length (Host.row vrs r) = 16%nat.

Lemma blocks_sums w m vrs d a b :
  rows_ok vrs -> 0 <= d < zlen vrs -> 0 <= a < zlen vrs -> 0 <= b < zlen vrs ->
  (m * w = 16)%nat ->
  fold_left (Host.add_block w d a b) (map (fun i => i * w)%nat (seq 0 m)) vrs
    = zset vrs d (zip_with fadd (Host.row vrs a) (Host.row vrs b)).
Proof.
  intros Hr Hd Ha Hb Hm. rewrite Host.add_blocks_all by (done || lia). rewrite Hm. f_equal.
  rewrite drop_ge by (rewrite Hr by done; lia). rewrite app_nil_r.
  apply take_ge. rewrite length_zip_with, !Hr by done. lia.
Qed.

Lemma vec_add_path p vrs d a b :
  rows_ok vrs -> 0 <= d < zlen vrs -> 0 <= a < zlen vrs -> 0 <= b < zlen vrs ->
  Host.vec_add_host p vrs d a b
    = zset vrs d (zip_with fadd (Host.row vrs a) (Host.row vrs b)).
Proof.
  intros Hr Hd Ha Hb. unfold Host.vec_add_host.
  destruct (Host.blocks_cover p) as (w & m & -> & Hm). by apply blocks_sums.
Qed.

Lemma vec_add_scalar_sums vrs d a b :
  rows_ok vrs -> 0 <= d < zlen vrs -> 0 <= a < zlen vrs -> 0 <= b < zlen vrs ->
  Host.vec_add_scalar vrs d a b = zset vrs d (zip_with fadd (Host.row vrs a) (Host.row vrs b)).
Proof.
  intros Hr Hd Ha Hb. unfold Host.vec_add_scalar.
  assert (Hs : seq 0 16 = map (fun i => i * 1)%nat (seq 0 16)) by reflexivity.
  rewrite Hs. by apply blocks_sums.
Qed.

(** The accelerated vector addition is exact on every host. Whatever
    SIMD width the kernel was built for (AVX2, AVX-512, NEON or the scalar
    loop), and whichever of the three registers coincide, it leaves in the
    destination the sixteen lane-wise sums of the original operands, touches no
    other register, and agrees with the interpreter's scalar loop: the blocks of
    one width never read a lane another block has already overwritten. *)
Theorem vec_add_host_exact (p : HostPath) (vrs : list (list Z)) (d a b : Z) :
  rows_ok vrs -> 0 <= d < zlen vrs -> 0 <= a < zlen vrs -> 0 <= b < zlen vrs ->
  Host.vec_add_host p vrs d a b = Host.vec_add_scalar vrs d a b /\
  Host.row (Host.vec_add_host p vrs d a b) d
    = zip_with fadd (Host.row vrs a) (Host.row vrs b) /\
  (forall r, r <> d -> Host.row (Host.vec_add_host p vrs d a b) r = Host.row vrs r).
Proof.
  intros Hr Hd Ha Hb. rewrite vec_add_path, vec_add_scalar_sums by done.
  split; [reflexivity|]. split.
  - by apply Host.row_zset_eq.
  - intros r Hne. apply Host.row_zset_ne; [lia|done].
Qed.

Lemma matmul_host_loop vrs d a b n :
  Host.matmul_tile_host vrs d a b n = Host.matmul_loop vrs d a b n.
Proof. unfold Host.matmul_tile_host. by destruct (Z.eqb_spec n 4) as [->|]. Qed.

Lemma matmul_loop_spec vrs d a b n D A B :
  zget vrs d = Some D -> zget vrs a = Some A -> zget vrs b = Some B ->
  length D = 16%nat -> length A = 16%nat -> length B = 16%nat ->
  d <> a -> d <> b -> 1 <= n <= 4 ->
  Host.matmul_loop vrs d a b n = Some (zset vrs d
    (fold_left (fun R p => zset R (Host.cell_index n p) (Host.cell_value A B n p)) (Host.cells n) D)).
Proof.
  intros HD HA HB LD LA LB Hda Hdb Hn. pose proof (zget_Some _ _ _ HD) as Hd.
  unfold Host.matmul_loop. rewrite <- (zset_zget vrs d D HD) at 1.
  assert (Hgo : forall ps R, (forall p, p ∈ ps -> p ∈ Host.cells n) -> length R = 16%nat ->
    foldM (Host.cell n d a b) ps (zset vrs d R) = Some (zset vrs d
      (fold_left (fun R p => zset R (Host.cell_index n p) (Host.cell_value A B n p)) ps R))).
  { induction ps as [|[i j] ps IH]; intros R Hin HR; [done|]. cbn [foldM fold_left].
    destruct (proj1 (Host.cells_in n i j)) as [Hi Hj]; [apply Hin; set_solver|].
    pose proof (Host.index_range n i j Hn Hi Hj). unfold Host.cell.
    rewrite Host.dot_zset, (Host.dot_some vrs a b n i j A B) by (done || lia).
    unfold Host.set_elem. rewrite zget_zset_eq by lia.
    destruct (Z.leb_spec 0 (i * n + j)), (Z.ltb_spec (i * n + j) (zlen R));
      unfold zlen in *; try lia. cbn [andb]. rewrite zset_zset. apply IH; [set_solver|].
    unfold zset. by rewrite length_insert. }
  by rewrite Hgo.
Qed.

(** The loop computes the row-by-column products. *)
Lemma matmul_lanes vrs d a b n D A B :
  zget vrs d = Some D -> zget vrs a = Some A -> zget vrs b = Some B ->
  length D = 16%nat -> length A = 16%nat -> length B = 16%nat ->
  d <> a -> d <> b -> 1 <= n <= 4 ->
  exists C, Host.matmul_loop vrs d a b n = Some (zset vrs d C) /\ length C = 16%nat /\
    (forall i j, 0 <= i < n -> 0 <= j < n ->
       zget C (i * n + j) = Some (Host.dot_ref A B n i j)) /\
    (forall k, n * n <= k -> zget C k = zget D k).
Proof.
  intros HD HA HB LD LA LB Hda Hdb Hn. rewrite (matmul_loop_spec vrs d a b n D A B) by done.
  destruct (fold_zset_spec (Host.cell_index n) (Host.cell_value A B n)
    (Host.cells n) D (Host.cells_nodup n Hn)) as (H1 & H2 & H3).
  { apply Forall_forall. intros [i j] [Hi Hj]%Host.cells_in.
    pose proof (Host.index_range n i j Hn Hi Hj). unfold zlen, Host.cell_index. lia. }
  eexists. split; [reflexivity|]. split; [unfold zlen in H1; lia|]. split.
  - intros i j Hi Hj. apply (H2 (i, j)). by apply Host.cells_in.
  - intros k Hk. apply H3. intros ([i j] & -> & [Hi Hj]%Host.cells_in)%list_elem_of_fmap.
    pose proof (Host.index_range n i j Hn Hi Hj). cbn [Host.cell_index] in *. lia.
Qed.

(** C23: the tile product. When the destination register is neither
    operand, for every tile size 1 to 4 the kernel stays inside the registers
    and element (i, j) of the result is the row-by-column product of the
    operands, accumulated from 0 in the order of k with the host's
    multiply-add; the lanes past [n * n] and all other registers keep their
    values. The specialised [n == 4] path and the generic loop are the same
    function. *)
Theorem matmul_product vrs d a b n D A B :
  zget vrs d = Some D -> zget vrs a = Some A -> zget vrs b = Some B ->
  length D = 16%nat -> length A = 16%nat -> length B = 16%nat ->
  d <> a -> d <> b -> 1 <= n <= 4 ->
  Host.matmul_tile_host vrs d a b n = Host.matmul_loop vrs d a b n /\
  exists C, Host.matmul_tile_host vrs d a b n = Some (zset vrs d C) /\ length C = 16%nat /\
    (forall i j, 0 <= i < n -> 0 <= j < n ->
       zget C (i * n + j) = Some (Host.dot_ref A B n i j)) /\
    (forall k, n * n <= k -> zget C k = zget D k).
Proof.
  intros. rewrite matmul_host_loop. split; [done|]. by eapply matmul_lanes.
Qed.
(** The kernels keep the shape of the registers, aliased or not. *)
Definition vrs_ok (vrs : list (list Z)) : Prop :=
  length vrs = 8%nat /\ Forall RegisterFile.vec_ok vrs.

Lemma vrs_ok_rows vrs : vrs_ok vrs -> rows_ok vrs.
Proof.
  intros [_ Hv] r Hr. unfold Host.row. destruct (zget_lt vrs r Hr) as [v E]. rewrite E.
  by apply (Forall_zget _ _ _ _ Hv E).
Qed.
Lemma vrs_ok_set vrs r v : vrs_ok vrs -> RegisterFile.vec_ok v -> vrs_ok (zset vrs r v).
Proof.
  intros [Hl Hv] Hok. split; [|by apply Forall_zset].
  unfold zset. by rewrite length_insert.
Qed.
Lemma elem_some vrs r k :
  vrs_ok vrs -> 0 <= r < 8 -> 0 <= k < 16 -> exists x, Host.elem vrs r k = Some x /\ fits 32 x.
Proof.
  intros [Hl Hv] Hr Hk. unfold Host.elem.
  destruct (zget_lt vrs r) as [v E]; [unfold zlen; lia|]. rewrite E.
  destruct (Forall_zget _ _ _ _ Hv E) as [Hlen Hf].
  destruct (zget_lt v k) as [x Ex]; [unfold zlen; lia|]. exists x. split; [done|].
  by eapply Forall_zget.
Qed.

Lemma dot_ok vrs a b n i j :
  vrs_ok vrs -> 0 <= a < 8 -> 0 <= b < 8 -> 1 <= n <= 4 -> 0 <= i < n -> 0 <= j < n ->
  exists x, Host.dot vrs a b n i j = Some x /\ fits 32 x.
Proof.
  intros Hv Ha Hb Hn Hi Hj. apply (foldM_inv _ (fits 32)); [unfold fits; lia|].
  intros s k _ [Hk1 Hk2]%elem_of_seqZ.
  pose proof (Host.index_range n i k Hn Hi ltac:(lia)).
  pose proof (Host.index_range n k j Hn ltac:(lia) Hj).
  destruct (elem_some vrs a (i * n + k) Hv Ha) as (x & -> & _); [lia|].
  destruct (elem_some vrs b (k * n + j) Hv Hb) as (y & -> & _); [lia|].
  eexists. split; [done|]. apply fmac_fits.
Qed.

Lemma matmul_loop_ok vrs d a b n :
  vrs_ok vrs -> 0 <= d < 8 -> 0 <= a < 8 -> 0 <= b < 8 -> 1 <= n <= 4 ->
  exists vrs', Host.matmul_loop vrs d a b n = Some vrs' /\ vrs_ok vrs'.
Proof.
  intros Hv Hd Ha Hb Hn. apply (foldM_inv _ vrs_ok); [done|].
  intros w [i j] Hw [Hi Hj]%Host.cells_in. unfold Host.cell.
  destruct (dot_ok w a b n i j Hw Ha Hb Hn Hi Hj) as (x & -> & Hx).
  pose proof (Host.index_range n i j Hn Hi Hj). unfold Host.set_elem.
  destruct (zget_lt w d) as [v E]; [unfold zlen; destruct Hw; lia|].
  rewrite E. pose proof (Forall_zget _ _ _ _ (proj2 Hw) E) as [Hlen Hf].
  destruct (Z.leb_spec 0 (i * n + j)), (Z.ltb_spec (i * n + j) (zlen v)); unfold zlen in *; try lia.
  eexists. split; [done|]. apply vrs_ok_set; [done|]. split.
  - unfold zset. by rewrite length_insert.
  - by apply Forall_zset.
Qed.

Lemma vec_sums_ok vrs a b :
  vrs_ok vrs -> 0 <= a < 8 -> 0 <= b < 8 ->
  RegisterFile.vec_ok (zip_with fadd (Host.row vrs a) (Host.row vrs b)).
Proof.
  intros Hv Ha Hb. pose proof (vrs_ok_rows _ Hv) as Hr. destruct Hv as [Hl Hv].
  unfold rows_ok, zlen in Hr. rewrite Hl in Hr. split.
  - rewrite length_zip_with, !Hr by lia. done.
  - apply Forall_forall. intros x Hx. apply list_elem_of_lookup in Hx as [k Hk].
    apply lookup_zip_with_Some in Hk as (y & z & -> & _). apply fadd_fits.
Qed.
End Theorems.

Definition row_of (l : list Z) : list Z := l ++ replicate (16 - length l) 0.

Lemma vec_add_host_exact_witness :
  (* 1.0 + 2.0 = 3.0 in every lane written over the first operand *)
  Host.row (Host.vec_add_host PathAVX2 [replicate 16 0x3F800000; replicate 16 0x40000000] 0 0 1) 0
    = replicate 16 0x40400000.
Proof.
  destruct (vec_add_host_exact PathAVX2 [replicate 16 0x3F800000; replicate 16 0x40000000] 0 0 1)
    as (_ & H & _); [|unfold zlen; cbn; lia..|rewrite H; reflexivity].
  intros r Hr. assert (r = 0 \/ r = 1) as [-> | ->] by (unfold zlen in Hr; cbn in Hr; lia); done.
Defined.

Lemma matmul_product_witness :
  (* [1 2; 3 4] * [1 2; 3 4] = [7 10; 15 22] *)
  let m := row_of [0x3F800000; 0x40000000; 0x40400000; 0x40800000] in
  exists C, Host.matmul_tile_host [row_of []; m; m] 0 1 2 2 = Some (zset [row_of []; m; m] 0 C) /\
    zget C 3 = Some 0x41B00000.
Proof.
  intros m. destruct (matmul_product [row_of []; m; m] 0 1 2 2 (row_of []) m m)
    as (_ & C & H1 & _ & H2 & _); [reflexivity..|lia|lia|lia|].
  exists C. split; [exact H1|]. exact (H2 1 1 ltac:(lia) ltac:(lia)).
Defined.

(** The tile product is computed in place. When the destination
    is also the left operand, the elements of a row that are already stored
    are read back as operands: for the square of [[1 2; 3 4]] the kernel
    leaves [[7 22; 15 46]], not the product [[7 10; 15 22]], although the
    vector addition of the same instruction format is correct under the same
    aliasing. *)
Theorem matmul_in_place_differs :
  let m := row_of [0x3F800000; 0x40000000; 0x40400000; 0x40800000] in
  (exists C, Host.matmul_tile_host [m; m] 0 0 1 2 = Some [C; m] /\
     take 4 C = [0x40E00000; 0x41B00000; 0x41700000; 0x42380000]) /\
  map (fun '(i, j) => Host.dot_ref m m 2 i j) (Host.cells 2)
    = [0x40E00000; 0x41200000; 0x41700000; 0x41B00000].
Proof. split; [eexists; split; vm_compute; reflexivity|vm_compute; reflexivity]. Qed.
