(* ===== verification/Mmu.v ===== *)
(** * MMU: mmu.h, mmu.cpp

    Address translation through a 32-entry TLB, the linear [simple_map_] of
    bare mode and the three-level page-table walk.  The pointers [ram_] and
    [csr_] are optional arguments; the [cause] out-parameter is a flag saying
    whether it is non-null and a returned value, the last cause stored
    through it. *)

From S2P Require Import Prelude Text Isa Memory Registers Float.
From Stdlib Require Import SpecFloat.
#[local] Open Scope Z_scope.

Definition PAGE_SHIFT : Z := 12.
Definition PAGE_SIZE : Z := 4096.
Definition VPN_MASK : Z := 0x1FF.
Definition TLB_SIZE : Z := 32.

Inductive PageFaultCause : Type :=
  | NoFault | LoadAccessFault | StoreAccessFault | FetchAccessFault
  | LoadPageFault | StorePageFault | FetchPageFault.

Module PageTableEntry.
Definition valid (raw : Z) : bool := negb (Z.land raw 1 =? 0).
Definition read (raw : Z) : bool := negb (Z.land raw (Z.shiftl 1 1) =? 0).
Definition write (raw : Z) : bool := negb (Z.land raw (Z.shiftl 1 2) =? 0).
Definition execute (raw : Z) : bool := negb (Z.land raw (Z.shiftl 1 3) =? 0).
Definition user (raw : Z) : bool := negb (Z.land raw (Z.shiftl 1 4) =? 0).
Definition accessed (raw : Z) : bool := negb (Z.land raw (Z.shiftl 1 6) =? 0).
Definition dirty (raw : Z) : bool := negb (Z.land raw (Z.shiftl 1 7) =? 0).
Definition ppn (raw : Z) : Z := Z.land (Z.shiftr raw 10) (2 ^ 44 - 1).
Definition is_leaf (raw : Z) : bool := read raw || write raw || execute raw.
(** The permission byte of a TLB entry. *)
Definition perms (raw : Z) : Z :=
  Z.lor (Z.lor (Z.lor (if read raw then 1 else 0) (if write raw then 2 else 0))
    (if execute raw then 4 else 0)) (if user raw then 8 else 0).
End PageTableEntry.

#[local] Set Primitive Projections.
Record TLBEntry : Type := mkTLB {
  e_vpn : Z; e_ppn : Z; e_perms : Z; e_valid : bool; e_asid : Z }.
Record SimpleMap : Type := mkSimple { m_vpn : Z; m_ppn : Z; m_perms : Z; m_valid : bool }.
Record MMU : Type := mkMMU {
  enabled_ : bool;
  tlb_ : list TLBEntry;
  tlb_next_ : Z;
  hits_ : Z;
  misses_ : Z;
  last_fault_ : PageFaultCause;
  last_fault_va_ : Z;
  simple_map_ : list SimpleMap }.
#[local] Unset Primitive Projections.

(** How a failed walk updates [last_fault_]: not at all, with a literal, or by
    reading [*cause] back. *)
Inductive fault_record : Type := NotRecorded | Literal | ThroughCause.
Inductive walk_result : Type :=
  | Mapped (pa : Z) (e : TLBEntry)
  | Fault (c : PageFaultCause) (r : fault_record).

Definition csr_satp (csr : option CSRFile) : Z :=
  match csr with Some c => CSRFile.satp c | None => 0 end.

Module MMU.
Definition no_entry : TLBEntry := mkTLB 0 0 0 false 0.
Definition init : MMU :=
  {| enabled_ := false; tlb_ := replicate 32 no_entry; tlb_next_ := 0; hits_ := 0; misses_ := 0;
     last_fault_ := NoFault; last_fault_va_ := 0; simple_map_ := [] |}.

Definition set_enabled (en : bool) (m : MMU) : MMU := { m with enabled_ := en }.
Definition enabled (m : MMU) : bool := m.(enabled_).

Definition vpn_of (va : Z) : Z := Z.shiftr va PAGE_SHIFT.
Definition page_offset (va : Z) : Z := Z.land va (PAGE_SIZE - 1).
Definition asid_of (satp : Z) : Z := Z.land (Z.shiftr satp 44) 0xFFFF.
Definition need_perms (is_write is_fetch : bool) : Z :=
  if is_fetch then 4 else if is_write then 2 else 1.

Definition insert (e : TLBEntry) (m : MMU) : MMU :=
  { m with tlb_ := zset m.(tlb_) (m.(tlb_next_) mod TLB_SIZE) e;
           tlb_next_ := u64 (m.(tlb_next_) + 1) }.

Definition entry_matches (vpn asid : Z) (e : TLBEntry) : bool :=
  e.(e_valid) && (e.(e_vpn) =? vpn) && (e.(e_asid) =? asid).
Definition entry_pa (e : TLBEntry) (va : Z) : Z :=
  u32 (Z.lor (u64 (Z.shiftl e.(e_ppn) PAGE_SHIFT)) (page_offset va)).

Definition tlb_lookup (csr : option CSRFile) (va need : Z) (m : MMU) : option Z * MMU :=
  match List.find (entry_matches (vpn_of va) (asid_of (csr_satp csr))) m.(tlb_) with
  | Some e =>
      if Z.land e.(e_perms) need =? need
      then (Some (entry_pa e va), { m with hits_ := u64 (m.(hits_) + 1) })
      else (None, m)
  | None => (None, { m with misses_ := u64 (m.(misses_) + 1) })
  end.

Definition page_fault (is_write is_fetch : bool) : PageFaultCause :=
  if is_fetch then FetchPageFault else if is_write then StorePageFault else LoadPageFault.

(** [vpn[level]] *)
Definition vpn_part (va : Z) (level : nat) : Z :=
  match level with
  | 0%nat => Z.land (Z.shiftr va 12) VPN_MASK
  | 1%nat => Z.land (Z.shiftr va 21) VPN_MASK
  | _ => Z.land (Z.shiftr va 30) VPN_MASK
  end.

Definition pte_addr (cur_ppn va : Z) (level : nat) : Z :=
  u64 (u64 (cur_ppn * PAGE_SIZE) + vpn_part va level * 8).

(** The checks on a leaf, in the order of the code. *)
Definition leaf (csr : CSRFile) (va : Z) (is_write is_fetch : bool) (raw : Z) : walk_result :=
  if is_write && negb (PageTableEntry.write raw) then Fault StorePageFault ThroughCause
  else if is_fetch && negb (PageTableEntry.execute raw) then Fault FetchPageFault ThroughCause
  else if negb is_write && negb is_fetch && negb (PageTableEntry.read raw)
    then Fault LoadPageFault ThroughCause
  else if (priv csr =? User) && negb (PageTableEntry.user raw) then Fault LoadPageFault NotRecorded
  else Mapped
    (u32 (Z.lor (u64 (Z.shiftl (PageTableEntry.ppn raw) PAGE_SHIFT)) (page_offset va)))
    (mkTLB (vpn_of va) (PageTableEntry.ppn raw) (PageTableEntry.perms raw) true
       (asid_of (CSRFile.satp csr))).

(** The loop over the levels, [level] down to 0. *)
Fixpoint walk_from (ram : VirtualSRAM) (csr : CSRFile) (va : Z) (is_write is_fetch : bool)
    (level : nat) (cur_ppn : Z) : walk_result :=
  let a := pte_addr cur_ppn va level in
  if u64 (a + 8) >? ram.(blen) then Fault LoadAccessFault Literal
  else
    let raw := le_val (Buffer.peek ram (u32 a) 8) in
    if negb (PageTableEntry.valid raw) then Fault (page_fault is_write is_fetch) ThroughCause
    else if PageTableEntry.is_leaf raw then leaf csr va is_write is_fetch raw
    else
      match level with
      | O => Fault LoadPageFault ThroughCause
      | S level => walk_from ram csr va is_write is_fetch level (PageTableEntry.ppn raw)
      end.

Definition root_ppn (csr : CSRFile) : Z := Z.land (CSRFile.satp csr) (2 ^ 44 - 1).

Definition walk_result_of (ram : option VirtualSRAM) (csr : option CSRFile) (va : Z)
    (is_write is_fetch : bool) : walk_result :=
  match ram, csr with
  | Some ram, Some csr => walk_from ram csr va is_write is_fetch 2 (root_ppn csr)
  | _, _ => Fault LoadAccessFault NotRecorded
  end.

(** A translation: the physical address, if any, and the cause stored through
    the pointer, if one was given and written. *)
Definition walk (ram : option VirtualSRAM) (csr : option CSRFile) (has_cause : bool) (va : Z)
    (is_write is_fetch : bool) : M MMU (option Z * option PageFaultCause) :=
  match walk_result_of ram csr va is_write is_fetch with
  | Mapped pa e => do! modify (insert e) in ret (Some pa, None)
  | Fault c r =>
      let stored := if has_cause then Some c else None in
      match r with
      | NotRecorded => ret (None, stored)
      | Literal =>
          do! modify (fun m => { m with last_fault_ := c; last_fault_va_ := va }) in
          ret (None, stored)
      | ThroughCause =>
          if has_cause then
            do! modify (fun m => { m with last_fault_ := c; last_fault_va_ := va }) in
            ret (None, stored)
          else undef NullDeref
      end
  end.

Definition bare_fault (c : PageFaultCause) (has_cause : bool) (va : Z)
    : M MMU (option Z * option PageFaultCause) :=
  do! modify (fun m => { m with last_fault_va_ := va; last_fault_ := c }) in
  ret (None, if has_cause then Some c else None).

Definition bare (has_cause : bool) (va : Z) (is_write is_fetch : bool)
    : M MMU (option Z * option PageFaultCause) :=
  let! m := get in
  match List.find (fun e => m_valid e && (m_vpn e =? vpn_of va)) m.(simple_map_) with
  | Some e =>
      if is_write && (Z.land (m_perms e) 2 =? 0) then bare_fault StorePageFault has_cause va
      else if is_fetch && (Z.land (m_perms e) 4 =? 0) then bare_fault FetchPageFault has_cause va
      else
        do! modify (insert (mkTLB (vpn_of va) (m_ppn e) (m_perms e) true 0)) in
        ret (Some (Z.lor (u32 (Z.shiftl (m_ppn e) PAGE_SHIFT)) (page_offset va)), None)
  | None => ret (Some va, None)
  end.

Definition translate (ram : option VirtualSRAM) (csr : option CSRFile) (has_cause : bool) (va : Z)
    (is_write is_fetch : bool) : M MMU (option Z * option PageFaultCause) :=
  let! hit := (fun m => let '(h, m') := tlb_lookup csr va (need_perms is_write is_fetch) m in
                        (Ok h, m')) in
  match hit with
  | Some pa => ret (Some pa, None)
  | None =>
      let! m := get in
      if negb m.(enabled_) || (match csr with None => true | Some c => CSRFile.satp c =? 0 end)
      then bare has_cause va is_write is_fetch
      else walk ram csr has_cause va is_write is_fetch
  end.

Definition tlb_flush (m : MMU) : MMU :=
  { m with tlb_ := map (fun e : TLBEntry => { e with e_valid := false }) m.(tlb_);
           tlb_next_ := 0 }.
Definition tlb_flush_va (va : Z) (m : MMU) : MMU :=
  { m with tlb_ := map (fun e : TLBEntry =>
      if e.(e_valid) && (e.(e_vpn) =? vpn_of va) then { e with e_valid := false } else e) m.(tlb_) }.
Definition tlb_hit_rate (m : MMU) : spec_float := ratio m.(hits_) (u64 (m.(hits_) + m.(misses_))).

Definition identity_map (va_base pa_base : Z) (pages : nat) (perms : Z) (m : MMU) : MMU :=
  { m with simple_map_ := m.(simple_map_) ++
      map (fun i => mkSimple (u32 (vpn_of va_base + Z.of_nat i)) (u32 (vpn_of pa_base + Z.of_nat i))
             perms true) (seq 0 pages) }.

(** *** Invariant *)
Record wf (m : MMU) : Prop := {
  wf_tlb : length m.(tlb_) = 32%nat;
  wf_next : 0 <= m.(tlb_next_) }.

Lemma mmu_init_wf : wf init.
Proof. split; [done|cbn; lia]. Qed.
Lemma insert_wf e m : wf m -> wf (insert e m).
Proof.
  intros []. split; cbn; [unfold zset; by rewrite length_insert|].
  apply u64_fits.
Qed.
Lemma set_enabled_wf b m : wf m -> wf (set_enabled b m).
Proof. by intros []. Qed.
Lemma tlb_flush_wf m : wf m -> wf (tlb_flush m).
Proof. intros []. split; cbn; [by rewrite length_map|lia]. Qed.
Lemma translate_wf ram csr hc va w f : preserves wf (translate ram csr hc va w f).
Proof.
  assert (Hrec : forall c v (m : MMU), wf m -> wf { m with last_fault_ := c; last_fault_va_ := v }).
  { by intros c v m []. }
  apply preserves_bind.
  - intros m Hm. cbn. unfold tlb_lookup. repeat case_match; simplify_eq; cbn; try done;
      by destruct Hm.
  - intros [pa|]; [preserve|]. unfold bare, bare_fault, walk. preserve;
      first [by apply insert_wf|by apply Hrec|by match goal with H : wf _ |- _ => destruct H end].
Qed.

(** Physical addresses are 32-bit. *)
Lemma page_offset_fits va : fits 12 (page_offset va).
Proof. apply land_fits_r; [lia|]. unfold fits, PAGE_SIZE. lia. Qed.
Lemma leaf_fits csr va w f raw pa e : leaf csr va w f raw = Mapped pa e -> fits 32 pa.
Proof. unfold leaf. repeat case_match; intros; simplify_eq; apply u32_fits. Qed.
Lemma walk_from_fits ram csr va w f level p pa e :
  walk_from ram csr va w f level p = Mapped pa e -> fits 32 pa.
Proof.
  revert p. induction level as [|level IH]; intros p; cbn [walk_from];
    repeat case_match; try done; eauto using leaf_fits.
Qed.
Lemma translate_fits ram csr hc va w f m pa c m' :
  fits 32 va -> translate ram csr hc va w f m = (Ok (Some pa, c), m') -> fits 32 pa.
Proof.
  intros Hva. unfold translate, bind, tlb_lookup, bare, bare_fault, walk, walk_result_of, get, ret,
    modify, undef, bind. intros H.
  repeat (case_match; simplify_eq; try done); try apply u32_fits; eauto using walk_from_fits.
  all: apply lor_fits; [lia|apply u32_fits|].
  all: apply (fits_mono 12); [lia|apply page_offset_fits].
Qed.

(** With both pointers and a place for the cause nothing is dereferenced
    through a null pointer. *)
Lemma translate_no_ub ram csr va w f m u :
  (translate (Some ram) (Some csr) true va w f m).1 <> Undefined u.
Proof.
  unfold translate, bare, bare_fault, walk, bind, get, ret, modify. by repeat case_match.
Qed.
End MMU.
#[export] Hint Resolve MMU.mmu_init_wf MMU.insert_wf MMU.set_enabled_wf MMU.tlb_flush_wf : novium.

(** ** Specification of the page table

    [pt_leaf ram va level table raw]: from the table at page [table], the
    entries selected by the virtual page number of [va] lead through valid
    pointer entries to the valid leaf [raw]. *)
Inductive pt_leaf (ram : VirtualSRAM) (va : Z) : nat -> Z -> Z -> Prop :=
  | pt_found level table raw :
      u64 (MMU.pte_addr table va level + 8) <= ram.(blen) ->
      raw = le_val (Buffer.peek ram (u32 (MMU.pte_addr table va level)) 8) ->
      PageTableEntry.valid raw = true -> PageTableEntry.is_leaf raw = true ->
      pt_leaf ram va level table raw
  | pt_pointer level table raw next :
      u64 (MMU.pte_addr table va (S level) + 8) <= ram.(blen) ->
      next = le_val (Buffer.peek ram (u32 (MMU.pte_addr table va (S level))) 8) ->
      PageTableEntry.valid next = true -> PageTableEntry.is_leaf next = false ->
      pt_leaf ram va level (PageTableEntry.ppn next) raw ->
      pt_leaf ram va (S level) table raw.

(** What a leaf allows, and the address it gives. *)
Definition leaf_allows (csr : CSRFile) (w f : bool) (raw : Z) : Prop :=
  (w = true -> PageTableEntry.write raw = true) /\
  (f = true -> PageTableEntry.execute raw = true) /\
  (w = false -> f = false -> PageTableEntry.read raw = true) /\
  (priv csr = User -> PageTableEntry.user raw = true).
Definition leaf_pa (raw va : Z) : Z :=
  u32 (Z.lor (u64 (Z.shiftl (PageTableEntry.ppn raw) PAGE_SHIFT)) (MMU.page_offset va)).
Definition leaf_entry (csr : CSRFile) (raw va : Z) : TLBEntry :=
  mkTLB (MMU.vpn_of va) (PageTableEntry.ppn raw) (PageTableEntry.perms raw) true
    (MMU.asid_of (CSRFile.satp csr)).

Lemma leaf_mapped csr va w f raw pa e :
  MMU.leaf csr va w f raw = Mapped pa e <->
  leaf_allows csr w f raw /\ pa = leaf_pa raw va /\ e = leaf_entry csr raw va.
Proof.
  unfold MMU.leaf, leaf_allows, leaf_pa, leaf_entry.
  destruct (PageTableEntry.write raw), (PageTableEntry.execute raw),
    (PageTableEntry.read raw), (PageTableEntry.user raw), (Z.eqb_spec (priv csr) User), w, f;
    cbn; split; intros H; first [discriminate H|injection H as <- <-; by auto 10
      |destruct H as (_ & -> & ->); reflexivity
      |destruct H as ((H1 & H2 & H3 & H4) & _); exfalso;
       first [discriminate (H1 eq_refl)|discriminate (H2 eq_refl)
             |discriminate (H3 eq_refl eq_refl)|discriminate (H4 ltac:(assumption))]].
Qed.

Lemma walk_from_mapped ram csr va w f level table pa e :
  MMU.walk_from ram csr va w f level table = Mapped pa e <->
  exists raw, pt_leaf ram va level table raw /\ leaf_allows csr w f raw /\
    pa = leaf_pa raw va /\ e = leaf_entry csr raw va.
Proof.
  revert table. induction level as [|level IH]; intros table; cbn [MMU.walk_from];
    rewrite Z.gtb_ltb;
    (match goal with |- context [?a <? ?b] => destruct (Z.ltb_spec a b) as [Hb|Hb] end;
      [split; [done|]; intros (raw & Hl & _); inversion Hl; subst; lia|]);
    set (raw0 := le_val _); destruct (PageTableEntry.valid raw0) eqn:Hv; cbn [negb];
    try (split; [done|]; intros (raw & Hl & _); inversion Hl; subst raw0; congruence);
    destruct (PageTableEntry.is_leaf raw0) eqn:Hlf.
  - rewrite leaf_mapped. split.
    + intros H. exists raw0. split; [by apply pt_found|done].
    + intros (raw & Hl & H). inversion Hl; subst. exact H.
  - split; [done|]. intros (raw & Hl & H). inversion Hl; subst raw0; congruence.
  - rewrite leaf_mapped. split.
    + intros H. exists raw0. split; [by apply pt_found|done].
    + intros (raw & Hl & H). inversion Hl; subst; [exact H|subst raw0; congruence].
  - rewrite IH. split.
    + intros (raw & Hl & H). exists raw. split; [by eapply pt_pointer|done].
    + intros (raw & Hl & H). inversion Hl; subst; [subst raw0; congruence|]. eauto.
Qed.

#[global] Arguments MMU.walk_from : simpl never.
#[global] Arguments MMU.walk_result_of : simpl never.

(** The path of a page depends only on its page number. *)
Lemma vpn_part_page va level :
  MMU.vpn_part va level =
    Z.land (Z.shiftr (MMU.vpn_of va) (match level with 0%nat => 0 | 1%nat => 9 | _ => 18 end))
      VPN_MASK.
Proof.
  unfold MMU.vpn_part, MMU.vpn_of, PAGE_SHIFT. rewrite Z.shiftr_shiftr by (by destruct level as [|[|]]).
  by destruct level as [|[|]].
Qed.
Lemma pt_leaf_page ram va va' level table raw :
  MMU.vpn_of va = MMU.vpn_of va' -> pt_leaf ram va level table raw -> pt_leaf ram va' level table raw.
Proof.
  intros Hv. assert (Ha : forall t l, MMU.pte_addr t va l = MMU.pte_addr t va' l).
  { intros. unfold MMU.pte_addr. by rewrite !vpn_part_page, Hv. }
  induction 1; [apply pt_found|eapply pt_pointer]; rewrite <- ?Ha; eauto.
Qed.
Lemma pt_leaf_fun ram va level table raw raw' :
  pt_leaf ram va level table raw -> pt_leaf ram va level table raw' -> raw = raw'.
Proof.
  intros H. revert raw'. induction H; intros raw' H'; inversion H'; subst; try congruence; eauto.
Qed.

(** ** The TLB as a cache of the walk *)

(** Every valid entry of the current address space agrees with the page table
    on every access its permissions cover. *)
Definition entry_sound (ram : VirtualSRAM) (csr : CSRFile) (e : TLBEntry) : Prop :=
  e.(e_valid) = true -> e.(e_asid) = MMU.asid_of (CSRFile.satp csr) ->
  forall va w f, w && f = false -> MMU.vpn_of va = e.(e_vpn) ->
    Z.land e.(e_perms) (MMU.need_perms w f) = MMU.need_perms w f ->
    exists e', MMU.walk_result_of (Some ram) (Some csr) va w f = Mapped (MMU.entry_pa e va) e'.
Definition coherent (ram : VirtualSRAM) (csr : CSRFile) (m : MMU) : Prop :=
  Forall (entry_sound ram csr) m.(tlb_).

Lemma coherent_flushed ram csr m : coherent ram csr (MMU.tlb_flush m).
Proof.
  unfold coherent, MMU.tlb_flush. cbn. apply Forall_forall.
  intros e (e0 & -> & _)%list_elem_of_fmap. intros [=].
Qed.

Lemma perms_cover raw w f :
  w && f = false ->
  Z.land (PageTableEntry.perms raw) (MMU.need_perms w f) = MMU.need_perms w f ->
  (w = true -> PageTableEntry.write raw = true) /\
  (f = true -> PageTableEntry.execute raw = true) /\
  (w = false -> f = false -> PageTableEntry.read raw = true).
Proof.
  unfold PageTableEntry.perms, MMU.need_perms.
  destruct (PageTableEntry.read raw), (PageTableEntry.write raw), (PageTableEntry.execute raw),
    (PageTableEntry.user raw), w, f; vm_compute; intros; split; try done; split; done.
Qed.

Lemma leaf_entry_sound ram csr va raw :
  (priv csr = User -> PageTableEntry.user raw = true) -> pt_leaf ram va 2 (MMU.root_ppn csr) raw ->
  entry_sound ram csr (leaf_entry csr raw va).
Proof.
  intros Hu Hl _ _ va' w f Hwf Hv Hp. cbn [leaf_entry e_perms e_vpn] in *.
  destruct (perms_cover raw w f Hwf Hp) as (H1 & H2 & H3).
  eexists. apply walk_from_mapped. exists raw. split; [by apply (pt_leaf_page ram va)|].
  split; [|split; reflexivity]. by repeat split.
Qed.

Lemma walk_coherent ram csr hc va w f m r m' :
  coherent ram csr m -> MMU.walk (Some ram) (Some csr) hc va w f m = (r, m') -> coherent ram csr m'.
Proof.
  intros Hc. unfold MMU.walk.
  destruct (MMU.walk_result_of _ _ _ _ _) as [pa e|c rec] eqn:Hw.
  - intros H. unfold bind, modify, ret in H. simplify_eq.
    unfold coherent, MMU.insert. cbn. apply Forall_zset; [done|].
    apply walk_from_mapped in Hw as (raw & Hl & (_ & _ & _ & Hu) & _ & ->). by apply leaf_entry_sound.
  - intros H. unfold bind, modify, ret, undef in H. by destruct rec, hc; simplify_eq.
Qed.

(** C12: the page-table walk implements the declarative Sv39-shaped table:
    with the MMU enabled and a non-zero satp, a walk of [va] returns an address
    exactly when the three-level tree rooted at satp's page number has a valid
    leaf for the page and the leaf allows the access and the privilege; the
    address is the leaf's page number followed by the page offset at whatever
    level the leaf is found, so a leaf above level 0 (a superpage) drops the
    low bits of the virtual page number. In every other case the walk
    returns a fault through the cause pointer. *)
Theorem walk_spec (ram : VirtualSRAM) (csr : CSRFile) va w f m :
  (exists r, (MMU.walk (Some ram) (Some csr) true va w f m).1 = Ok r /\
     (r.1 = None <-> r.2 <> None)) /\
  (forall pa,
     (exists m', MMU.walk (Some ram) (Some csr) true va w f m = (Ok (Some pa, None), m')) <->
     (exists raw, pt_leaf ram va 2 (MMU.root_ppn csr) raw /\ leaf_allows csr w f raw /\
        pa = leaf_pa raw va)).
Proof.
  split.
  { unfold MMU.walk. destruct (MMU.walk_result_of _ _ _ _ _) as [pa0 e0|c r].
    - by exists (Some pa0, None).
    - exists (None, Some c). by destruct r. }
  intros pa.
  unfold MMU.walk, MMU.walk_result_of.
  destruct (MMU.walk_from ram csr va w f 2 (MMU.root_ppn csr)) as [pa0 e0|c r] eqn:Hw.
  - apply walk_from_mapped in Hw as (raw & Hl & Ha & -> & ->). split.
    + intros [m' [= <- <-]]. eauto.
    + intros (raw' & Hl' & _ & ->). rewrite (pt_leaf_fun _ _ _ _ _ _ Hl' Hl). by eexists.
  - split; [intros [m' H]; by destruct r|]. intros (raw & Hl & Ha & ->).
    assert (MMU.walk_from ram csr va w f 2 (MMU.root_ppn csr)
            = Mapped (leaf_pa raw va) (leaf_entry csr raw va)) as Hm
      by (apply walk_from_mapped; eauto). congruence.
Qed.

(** A page table at page 1 whose root entry for [0, 2^30) is a leaf. *)
Definition root_leaf_ram (pte : Z) : VirtualSRAM := Buffer.poke (Buffer.make 8192) 4096 (le_bytes 8 pte).
Definition paged_csr (p : Z) : CSRFile := { CSRFile.write CSRFile.init CSR_SATP 1 with priv := p }.

Lemma root_leaf ram va raw :
  u64 (MMU.pte_addr 1 va 2 + 8) <= ram.(blen) ->
  le_val (Buffer.peek ram (u32 (MMU.pte_addr 1 va 2)) 8) = raw ->
  PageTableEntry.valid raw = true -> PageTableEntry.is_leaf raw = true ->
  pt_leaf ram va 2 (MMU.root_ppn (paged_csr Machine)) raw.
Proof. intros. apply pt_found; by subst. Qed.

Lemma walk_spec_witness :
  exists m', MMU.walk (Some (root_leaf_ram 0x140F)) (Some (paged_csr Machine)) true 0x3123
    false false MMU.init = (Ok (Some 0x5123, None), m').
Proof.
  apply (walk_spec (root_leaf_ram 0x140F) (paged_csr Machine) 0x3123 false false MMU.init).
  exists 0x140F. split; [apply root_leaf; vm_compute; congruence|].
  split; [repeat split; by vm_compute|by vm_compute].
Defined.

(** The answer of the walk alone: the address, or the cause. *)
Definition walk_answer (ram : VirtualSRAM) (csr : CSRFile) (va : Z) (w f : bool)
    : option Z * option PageFaultCause :=
  match MMU.walk_result_of (Some ram) (Some csr) va w f with
  | Mapped pa _ => (Some pa, None)
  | Fault c _ => (None, Some c)
  end.

Lemma translate_transparent (ram : VirtualSRAM) (csr : CSRFile) va w f m :
  w && f = false -> coherent ram csr m ->
  m.(enabled_) = true -> CSRFile.satp csr <> 0 ->
  exists m', MMU.translate (Some ram) (Some csr) true va w f m =
    (Ok (walk_answer ram csr va w f), m') /\ coherent ram csr m' /\ m'.(enabled_) = true.
Proof.
  unfold walk_answer. intros Hwf Hc He Hs. unfold MMU.translate, bind, MMU.tlb_lookup.
  assert (Hwalk : forall m, coherent ram csr m -> m.(enabled_) = true ->
    exists m', (let! m0 := get in
      if negb (enabled_ m0) || (CSRFile.satp csr =? 0) then MMU.bare true va w f
      else MMU.walk (Some ram) (Some csr) true va w f) m =
      (Ok (match MMU.walk_result_of (Some ram) (Some csr) va w f with
           | Mapped pa _ => (Some pa, None)
           | Fault c _ => (None, Some c)
           end), m') /\ coherent ram csr m' /\ m'.(enabled_) = true).
  { intros m0 Hc0 He0. unfold bind at 1, get. rewrite He0. apply Z.eqb_neq in Hs. rewrite Hs. cbn.
    destruct (MMU.walk (Some ram) (Some csr) true va w f m0) as [r m'] eqn:Hw.
    pose proof (walk_coherent _ _ _ _ _ _ _ _ _ Hc0 Hw) as Hc'. revert Hw.
    unfold MMU.walk. destruct (MMU.walk_result_of (Some ram) (Some csr) va w f) as [pa e|c rec];
      [|destruct rec]; intros Hw; unfold bind, modify, ret in Hw; injection Hw as <- <-;
      eexists; (split; [reflexivity|by split]). }
  destruct (List.find _ (tlb_ m)) as [e|] eqn:Hf.
  - apply List.find_some in Hf as [Hin Hm]. apply list_elem_of_In in Hin.
    unfold MMU.entry_matches in Hm. apply andb_true_iff in Hm as [[Hv Hvpn%Z.eqb_eq]%andb_true_iff Has%Z.eqb_eq].
    destruct (Z.eqb_spec (Z.land (e_perms e) (MMU.need_perms w f)) (MMU.need_perms w f)) as [Hp|Hp].
    + pose proof (proj1 (Forall_forall _ _) Hc e Hin Hv Has va w f Hwf (eq_sym Hvpn) Hp) as [e' He'].
      rewrite He'. by eexists.
    + apply (Hwalk m Hc He).
  - destruct m as [en tlb nx h ms lf lv sm].
    exact (Hwalk (mkMMU en tlb nx h (u64 (ms + 1)) lf lv sm) Hc He).
Qed.

(** Entries made in user mode serve every privilege level. *)
Lemma coherent_raise ram csr csr' m :
  CSRFile.satp csr' = CSRFile.satp csr -> priv csr' <> User -> coherent ram csr m -> coherent ram csr' m.
Proof.
  intros Hs Hu Hc. eapply Forall_impl; [exact Hc|]. intros e He Hv Ha va w f Hwf Hvpn Hp. rewrite Hs in Ha.
  destruct (He Hv Ha va w f Hwf Hvpn Hp) as (e' & (raw & Hl & (H1 & H2 & H3 & _) & Hpa & _)%walk_from_mapped).
  eexists. apply walk_from_mapped. exists raw. unfold MMU.root_ppn in *. rewrite Hs.
  split; [done|]. split; [by repeat split|]. by split; [|reflexivity].
Qed.
(** Dropping entries keeps the rest. *)
Lemma coherent_flush_va ram csr va m : coherent ram csr m -> coherent ram csr (MMU.tlb_flush_va va m).
Proof. intros Hc. apply Forall_fmap. eapply Forall_impl; [exact Hc|]. intros e He. unfold compose. by case_match. Qed.

(** *** Histories of the MMU: accesses, changes of privilege and of address
    space, flushes *)
Inductive mmu_op : Type :=
  | OAccess (va : Z) (w f : bool)
  | OPriv (p : Z)
  | OSatp (v : Z)
  | OFlush
  | OFlushVa (va : Z).
Definition set_priv (p : Z) (csr : CSRFile) : CSRFile := { csr with priv := p }.

(** The answers of the MMU, and those of the walk alone. *)
Fixpoint run_ops (ram : VirtualSRAM) (csr : CSRFile) (ops : list mmu_op)
    : M MMU (list (option Z * option PageFaultCause)) :=
  match ops with
  | [] => ret []
  | OAccess va w f :: ops =>
      let! r := MMU.translate (Some ram) (Some csr) true va w f in
      let! rs := run_ops ram csr ops in
      ret (r :: rs)
  | OPriv p :: ops => run_ops ram (set_priv p csr) ops
  | OSatp v :: ops => run_ops ram (CSRFile.write csr CSR_SATP v) ops
  | OFlush :: ops => do! modify MMU.tlb_flush in run_ops ram csr ops
  | OFlushVa va :: ops => do! modify (MMU.tlb_flush_va va) in run_ops ram csr ops
  end.
Fixpoint walk_ops (ram : VirtualSRAM) (csr : CSRFile) (ops : list mmu_op)
    : list (option Z * option PageFaultCause) :=
  match ops with
  | [] => []
  | OAccess va w f :: ops => walk_answer ram csr va w f :: walk_ops ram csr ops
  | OPriv p :: ops => walk_ops ram (set_priv p csr) ops
  | OSatp v :: ops => walk_ops ram (CSRFile.write csr CSR_SATP v) ops
  | _ :: ops => walk_ops ram csr ops
  end.

(** What system software must do: flush between the last access in another
    mode and an entry of user mode, and before a change of satp. [Empty]: no
    entry is valid; [UserMade]: every entry was made in user mode. *)
Inductive tlb_state : Type := Empty | UserMade | Mixed.
Fixpoint disciplined (csr : CSRFile) (t : tlb_state) (ops : list mmu_op) : Prop :=
  match ops with
  | [] => True
  | OAccess va w f :: ops =>
      w && f = false /\ disciplined csr (if priv csr =? User then UserMade else Mixed) ops
  | OPriv p :: ops => (p = User -> t <> Mixed) /\ disciplined (set_priv p csr) t ops
  | OSatp v :: ops =>
      t = Empty /\ CSRFile.satp (CSRFile.write csr CSR_SATP v) <> 0 /\
      disciplined (CSRFile.write csr CSR_SATP v) t ops
  | OFlush :: ops => disciplined csr Empty ops
  | OFlushVa _ :: ops => disciplined csr t ops
  end.

Definition tlb_in (ram : VirtualSRAM) (csr : CSRFile) (t : tlb_state) (m : MMU) : Prop :=
  match t with
  | Empty => Forall (fun e => e.(e_valid) = false) m.(tlb_)
  | UserMade => coherent ram (set_priv User csr) m
  | Mixed => priv csr <> User /\ coherent ram csr m
  end.
Lemma tlb_in_coherent ram csr t m : tlb_in ram csr t m -> coherent ram csr m.
Proof.
  destruct t; cbn.
  - intros Hc. eapply Forall_impl; [exact Hc|]. intros e He Hv. cbn in He. congruence.
  - intros Hc. destruct (Z.eq_dec (priv csr) User) as [E|E]; [|by apply (coherent_raise _ (set_priv User csr))].
    eapply Forall_impl; [exact Hc|]. intros e He Hv Ha va w f Hwf Hvpn Hp.
    destruct (He Hv Ha va w f Hwf Hvpn Hp) as (e' & (raw & Hl & H)%walk_from_mapped).
    eexists. apply walk_from_mapped. exists raw. split; [exact Hl|].
    destruct H as ((H1 & H2 & H3 & H4) & Hpa & _). split; [|by split; [|reflexivity]].
    split; [done|]. split; [done|]. split; [done|]. intros _. by apply H4.
  - by intros [_ Hc].
Qed.

(** C13: the TLB is a transparent cache, in every privilege level, as long as
    the system software is disciplined: take any history of translations with
    paging on, changes of privilege, changes of satp and flushes in which no
    page-table byte changes, the TLB is flushed before a change of satp, and
    it is flushed before user mode is entered if another mode has used it.
    Every translation gives the answer the walk alone would give at that
    point: the walk's address where it maps the page, the walk's cause where it
    faults, whatever entries are filled, hit and evicted on the way. Entering
    a more privileged mode needs no flush. *)
Theorem tlb_transparent (ram : VirtualSRAM) (csr : CSRFile) t ops m :
  tlb_in ram csr t m -> m.(enabled_) = true -> CSRFile.satp csr <> 0 -> disciplined csr t ops ->
  exists m', run_ops ram csr ops m = (Ok (walk_ops ram csr ops), m').
Proof.
  intros Ht He Hs. revert csr t m Ht He Hs.
  induction ops as [|[va w f|p|v| |va] ops IH]; intros csr t m Ht He Hs Hd; cbn [run_ops walk_ops disciplined] in *.
  - by exists m.
  - destruct Hd as [Hwf Hd].
    destruct (translate_transparent ram csr va w f m Hwf (tlb_in_coherent _ _ _ _ Ht) He Hs) as (m1 & H1 & Hc1 & He1).
    destruct (IH csr (if priv csr =? User then UserMade else Mixed) m1) as (m2 & H2); [|done..|].
    { destruct (Z.eqb_spec (priv csr) User) as [E|E]; [|by split]. cbn. unfold set_priv.
      rewrite <- E. by destruct csr. }
    exists m2. by rewrite (bind_ok _ _ _ _ _ H1), (bind_ok _ _ _ _ _ H2).
  - destruct Hd as [Hp Hd]. apply (IH _ t); [|exact He|exact Hs|exact Hd].
    destruct t; [done|exact Ht|]. destruct Ht as [Hu Hc]. assert (p <> User) by (intros E; by apply Hp).
    split; [done|]. by apply (coherent_raise _ csr).
  - destruct Hd as (-> & Hv & Hd). exact (IH (CSRFile.write csr CSR_SATP v) Empty m Ht He Hv Hd).
  - unfold modify at 1. unfold bind. apply (IH _ Empty); [|exact He|exact Hs|exact Hd]. cbn. apply Forall_fmap, Forall_true. by intros [].
  - unfold modify at 1. unfold bind. apply (IH _ t); [|exact He|exact Hs|exact Hd]. destruct t; cbn in *.
    + apply Forall_fmap. eapply Forall_impl; [exact Ht|]. intros e Hev. unfold compose. by case_match.
    + by apply coherent_flush_va.
    + destruct Ht. split; [done|]. by apply coherent_flush_va.
Qed.

(** A miss, a hit of the filled entry for a write, a fault; the same page is
    refused in user mode, after a flush. *)
Lemma tlb_transparent_witness :
  exists m', let ram := root_leaf_ram 0x1407 in let csr := paged_csr Machine in
    run_ops ram csr [OAccess 0x3123 false false; OAccess 0x3456 true false; OAccess 0x3456 false true;
                     OFlush; OPriv User; OAccess 0x3123 false false; OPriv Machine; OAccess 0x3123 false false]
      (MMU.set_enabled true MMU.init)
    = (Ok [(Some 0x5123, None); (Some 0x5456, None); (None, Some FetchPageFault);
           (None, Some LoadPageFault); (Some 0x5123, None)], m').
Proof.
  destruct (tlb_transparent (root_leaf_ram 0x1407) (paged_csr Machine) Empty
    [OAccess 0x3123 false false; OAccess 0x3456 true false; OAccess 0x3456 false true;
     OFlush; OPriv User; OAccess 0x3123 false false; OPriv Machine; OAccess 0x3123 false false]
    (MMU.set_enabled true MMU.init)) as (m' & H);
    [by vm_compute; repeat constructor|done|by vm_compute|by repeat split|].
  exists m'. exact H.
Defined.

(** Without the flush the TLB is not transparent in user mode: the U bit is
    checked by the walk only. Any entry whose permissions cover the access translates in
    every privilege level, user mode included; so there is a page table and a
    supervisor page of it that a user-mode access may not read on an empty
    TLB, but reads once machine-mode code has touched it. *)
Theorem tlb_skips_user_check :
  (forall ram csr hc va w f m e,
     List.find (MMU.entry_matches (MMU.vpn_of va) (MMU.asid_of (csr_satp csr))) m.(tlb_) = Some e ->
     Z.land e.(e_perms) (MMU.need_perms w f) = MMU.need_perms w f ->
     (MMU.translate ram csr hc va w f m).1 = Ok (Some (MMU.entry_pa e va), None)) /\
  (exists ram va m1,
     let on := MMU.set_enabled true MMU.init in
     (MMU.translate (Some ram) (Some (paged_csr User)) true va false false on).1
       = Ok (None, Some LoadPageFault) /\
     MMU.translate (Some ram) (Some (paged_csr Machine)) true va false false on
       = (Ok (Some va, None), m1) /\
     (MMU.translate (Some ram) (Some (paged_csr User)) true va false false m1).1
       = Ok (Some va, None)).
Proof.
  split.
  - intros ram csr hc va w f m e Hf Hp. unfold MMU.translate, bind, MMU.tlb_lookup.
    by rewrite Hf, Hp, Z.eqb_refl.
  - exists (root_leaf_ram 0x0F), 0x123. eexists. cbn zeta.
    split; [by vm_compute|]. split; [vm_compute; reflexivity|by vm_compute].
Qed.
