(* ===== verification/Translate.v ===== *)
(** * Block cache and breakpoints: translate.h, debugger.h

    Linear blocks decoded once and kept by start address; the breakpoint set
    and the dump functions of the debugger. *)

From Stdlib Require Import Ascii SpecFloat.
From S2P Require Import Prelude Text Isa Memory Registers Float Profiler Target Host.
#[local] Open Scope Z_scope.

#[local] Set Primitive Projections.
Record DecodedBlock : Type := mkBlock {
  start_pc : Z;
  end_pc : Z;
  ops : list Instruction;
  ends_with_branch : bool;
  ends_with_halt : bool }.
Record BlockCache : Type := mkBlockCache {
  map_ : gmap Z DecodedBlock;
  hits_ : Z;
  misses_ : Z }.
Record Debugger : Type := mkDebugger {
  breakpoints_ : gset Z;
  single_step_ : bool }.
#[local] Unset Primitive Projections.

Definition is_branch (op : Z) : bool :=
  match opcode_of op with Some JMP | Some BEQ | Some BNE => true | _ => false end.
Definition is_halt (op : Z) : bool :=
  match opcode_of op with Some HALT => true | _ => false end.
Definition ends_block (op : Z) : bool := is_branch op || is_halt op.

Module BlockCache.
Definition init : BlockCache := {| map_ := ∅; hits_ := 0; misses_ := 0 |}.
Definition clear (c : BlockCache) : BlockCache := {| map_ := ∅; hits_ := 0; misses_ := 0 |}.
Definition find (c : BlockCache) (pc : Z) : option DecodedBlock := c.(map_) !! pc.

(** The decoding loop: at most [fuel] instructions, up to a branch, a halt or
    a 64-byte line. *)
Fixpoint decode (mem : VirtualSRAM) (fuel : nat) (cur : Z) (blk : DecodedBlock)
    : outcome DecodedBlock :=
  match fuel with
  | O => Ok { blk with end_pc := cur }
  | S fuel =>
      match VirtualSRAM.read32 mem cur with
      | Ok raw =>
          let ins := mkInstruction raw in
          let blk := { blk with ops := blk.(ops) ++ [ins] } in
          let cur := u32 (cur + 4) in
          let op := Instruction.opcode ins in
          if ends_block op then
            Ok { blk with ends_with_branch := negb (is_halt op); ends_with_halt := is_halt op;
                          end_pc := cur }
          else if Z.land cur 0x3F =? 0 then Ok { blk with end_pc := cur }
          else decode mem fuel cur blk
      | Throw e => Throw e
      | Undefined u => Undefined u
      end
  end.

Definition max_len : nat := 32.

(** A miss that throws is still counted; a block is only kept when decoded. *)
Definition translate (mem : VirtualSRAM) (pc : Z) : M BlockCache DecodedBlock := fun c =>
  match c.(map_) !! pc with
  | Some blk => (Ok blk, { c with hits_ := u64 (c.(hits_) + 1) })
  | None =>
      let c := { c with misses_ := u64 (c.(misses_) + 1) } in
      match decode mem max_len pc (mkBlock pc 0 [] false false) with
      | Ok blk => (Ok blk, { c with map_ := <[pc := blk]> c.(map_) })
      | Throw e => (Throw e, c)
      | Undefined u => (Undefined u, c)
      end
  end.

(** The cached blocks hold 32-bit words. *)
Definition block_wf (b : DecodedBlock) : Prop := Forall (fun i => fits 32 i.(raw)) b.(ops).
Definition wf (c : BlockCache) : Prop := map_Forall (fun _ b => block_wf b) c.(map_).

Lemma decode_wf mem fuel cur blk blk' :
  Buffer.wf mem -> block_wf blk -> decode mem fuel cur blk = Ok blk' -> block_wf blk'.
Proof.
  intros Hm. revert cur blk. induction fuel as [|fuel IH]; intros cur blk Hb; cbn [decode].
  { intros <-%Ok_inj. exact Hb. }
  destruct (VirtualSRAM.read32 mem cur) as [r| |] eqn:Hr; [|done|done].
  destruct blk as [s e o b h]. cbn [ops].
  assert (Ho : Forall (fun i => fits 32 (raw i)) (o ++ [mkInstruction r])).
  { apply Forall_app. split; [exact Hb|]. constructor; [|constructor].
    by eapply VirtualSRAM.read32_fits. }
  case_match; [intros <-%Ok_inj; exact Ho|].
  case_match; [intros <-%Ok_inj; exact Ho|]. by apply IH.
Qed.
Lemma translate_keeps mem pc : Buffer.wf mem -> keeps wf (translate mem pc) block_wf.
Proof.
  intros Hm c Hc. unfold translate. destruct (map_ c !! pc) as [b|] eqn:Hl.
  - split; [exact Hc|]. intros ? [= <-]. by apply (Hc pc).
  - destruct (decode _ _ _ _) as [b| |] eqn:Hd; (split; [|intros ?; try done]); try exact Hc.
    + eapply decode_wf in Hd; [|done|by constructor]. by apply map_Forall_insert_2.
    + intros <-%Ok_inj. by eapply decode_wf in Hd; [|done|constructor].
Qed.
Lemma clear_wf c : wf (clear c).
Proof. apply map_Forall_empty. Qed.

Definition size (c : BlockCache) : Z := Z.of_nat (base.size c.(map_)).
Definition hit_rate (c : BlockCache) : spec_float := ratio c.(hits_) (u64 (c.(hits_) + c.(misses_))).
End BlockCache.

(** Host execution helpers of namespace [translate]: the kernel, the cycles of
    the profile and the optional profiler record. *)
Section Exec.
Context `{FloatOps} (path : HostPath).
Definition exec_vec_add (vrs : list (list Z)) (d a b : Z) (prof : TargetProfile)
    (p : option Profiler) : list (list Z) * Z * option Profiler :=
  let cyc := profile_cycle_weight prof (code VEC_ADD) 0 in
  (Host.vec_add_host path vrs d a b, cyc, option_map (Profiler.record (code VEC_ADD) cyc 0) p).
Definition exec_matmul_tile (vrs : list (list Z)) (d a b n : Z) (prof : TargetProfile)
    (p : option Profiler) : option (list (list Z)) * Z * option Profiler :=
  let cyc := profile_cycle_weight prof (code MATMUL_TILE) n in
  (Host.matmul_tile_host vrs d a b n, cyc,
   option_map (Profiler.record (code MATMUL_TILE) cyc 0) p).
End Exec.

Module Debugger.
Definition init : Debugger := {| breakpoints_ := ∅; single_step_ := false |}.
Definition add_breakpoint (addr : Z) (d : Debugger) : Debugger :=
  { d with breakpoints_ := {[addr]} ∪ d.(breakpoints_) }.
Definition remove_breakpoint (addr : Z) (d : Debugger) : Debugger :=
  { d with breakpoints_ := d.(breakpoints_) ∖ {[addr]} }.
Definition clear_breakpoints (d : Debugger) : Debugger := { d with breakpoints_ := ∅ }.
Definition has_breakpoint (d : Debugger) (addr : Z) : bool := bool_decide (addr ∈ d.(breakpoints_)).
Definition enable_single_step (d : Debugger) : Debugger := { d with single_step_ := true }.
Definition disable_single_step (d : Debugger) : Debugger := { d with single_step_ := false }.

Definition bool01 (b : bool) : string := (if b then "1" else "0")%string.
Definition nl : string := String "010"%char "".

(** [snprintf(fbuf, 16, "%6.1f ", x)]: at most 15 characters are kept. *)
Definition lane (x : Z) : string :=
  snprintf 16 (pad_left " "%char 6 (fixed_float 1 x) +:+ " ")%string.
Definition dump_registers (regs : RegisterFile) : string :=
  (String.concat "" (imap (fun i v => "r" +:+ udec (Z.of_nat i) +:+ "=0x" +:+ hex08 v +:+ " ") regs.(gpr))
   +:+ nl
   +:+ String.concat "" (imap (fun i v => "v" +:+ udec (Z.of_nat i) +:+ ": "
         +:+ String.concat "" (map lane v) +:+ nl)
         regs.(vr))
   +:+ "PC=0x" +:+ hex08 regs.(pc) +:+ "  Z=" +:+ bool01 regs.(status).(zero)
   +:+ " N=" +:+ bool01 regs.(status).(negative) +:+ " V=" +:+ bool01 regs.(status).(overflow) +:+ nl)%string.

(** 0.75, a large number that loses its end, and a negative NaN. *)
Example lanes : map lane [0x3F400000; 0x60AD78EC; 0xFFC00000] = ["   0.8 "; "100000002004087"; "  -nan "]%string.
Proof. vm_compute. reflexivity. Qed.

(** Sixteen bytes a line; a byte outside the memory is undefined. *)
Fixpoint dump_bytes (mem : VirtualSRAM) (addr : Z) (n : nat) : outcome string :=
  match n with
  | O => Ok ""%string
  | S n =>
      if Buffer.in_range mem addr 1 then
        match dump_bytes mem (u32 (addr + 1)) n with
        | Ok s => Ok (hex02 (Buffer.byte_at mem addr) +:+ " " +:+ s)%string
        | o => o
        end
      else Undefined (BufferOverrun addr 1)
  end.
Fixpoint dump_lines (mem : VirtualSRAM) (addr : Z) (count fuel : nat) : outcome string :=
  match fuel, count with
  | O, _ | _, O => Ok ""%string
  | S fuel, _ =>
      match dump_bytes mem addr (Nat.min 16 count) with
      | Ok l =>
          match dump_lines mem (u32 (addr + 16)) (count - 16) fuel with
          | Ok s => Ok (hex08 addr +:+ ": " +:+ l +:+ nl +:+ s)%string
          | o => o
          end
      | o => o
      end
  end.
Definition dump_memory (mem : VirtualSRAM) (addr : Z) (count : nat) : outcome string :=
  dump_lines mem addr count (S count).

Fixpoint disassemble_range (mem : VirtualSRAM) (start : Z) (count : nat) : outcome string :=
  match count with
  | O => Ok ""%string
  | S count =>
      match VirtualSRAM.read32 mem start with
      | Ok raw =>
          match disassemble_range mem (u32 (start + 4)) count with
          | Ok s => Ok (snprintf 128 (hex08 start +:+ ": " +:+ hex08 raw +:+ "  "
                          +:+ disassemble (mkInstruction raw) +:+ nl) +:+ s)%string
          | o => o
          end
      | Throw e => Throw e
      | Undefined u => Undefined u
      end
  end.

Lemma has_add d a b :
  has_breakpoint (add_breakpoint a d) b = (b =? a) || has_breakpoint d b.
Proof.
  unfold has_breakpoint, add_breakpoint. destruct d as [s x]. cbn.
  destruct (Z.eqb_spec b a) as [->|]; cbn; [by apply bool_decide_eq_true_2; set_solver|].
  apply bool_decide_ext. set_solver.
Qed.
Lemma has_remove d a b :
  has_breakpoint (remove_breakpoint a d) b = negb (b =? a) && has_breakpoint d b.
Proof.
  unfold has_breakpoint, remove_breakpoint. destruct d as [s x]. cbn.
  destruct (Z.eqb_spec b a) as [->|]; cbn; [by apply bool_decide_eq_false_2; set_solver|].
  apply bool_decide_ext. set_solver.
Qed.
End Debugger.

(** ** Theorems *)

(** The words of a memory from an address on. *)
Fixpoint words_at (mem : VirtualSRAM) (a : Z) (l : list Instruction) : Prop :=
  match l with
  | [] => True
  | i :: l => VirtualSRAM.read32 mem a = Ok i.(raw) /\ words_at mem (u32 (a + 4)) l
  end.

Definition plain (i : Instruction) : Prop := ends_block (Instruction.opcode i) = false.

Lemma decode_spec mem fuel cur blk blk' :
  BlockCache.decode mem fuel cur blk = Ok blk' ->
  exists new, ops blk' = ops blk ++ new /\ start_pc blk' = start_pc blk /\
    words_at mem cur new /\ (length new <= fuel)%nat /\
    (fits 32 cur -> end_pc blk' = u32 (cur + 4 * zlen new)) /\ (fuel <> 0%nat -> new <> []) /\
    (exists body, (new = body \/ exists last, new = body ++ [last] /\ ~ plain last) /\
       Forall plain body).
Proof.
  revert cur blk. induction fuel as [|fuel IH]; intros cur blk; cbn [BlockCache.decode].
  - intros [= <-]. exists []. destruct blk. cbn. rewrite app_nil_r.
    repeat split; try done; [|exists []; split; [by left|done]].
    intros. rewrite Z.add_0_r. symmetry. by apply u32_small.
  - destruct (VirtualSRAM.read32 mem cur) as [r| |] eqn:Hr; [|done|done].
    set (i := mkInstruction r). destruct blk as [s e o b h]. cbn [ops].
    assert (Hone : forall p, u32 (cur + 4) = p -> p = u32 (cur + 4 * zlen [i])).
    { intros p <-. done. }
    destruct (ends_block (Instruction.opcode i)) eqn:He.
    { intros <-%Ok_inj. exists [i]. cbn [ops start_pc end_pc apply_update constant].
      split; [done|]. split; [done|]. split; [done|]. split; [cbn; lia|]. split; [by intros|].
      split; [done|]. exists [].
      split; [|done]. right. exists i. split; [done|]. unfold plain. congruence. }
    destruct (Z.land (u32 (cur + 4)) 63 =? 0) eqn:Ha.
    { intros <-%Ok_inj. exists [i]. cbn [ops start_pc end_pc apply_update constant].
      split; [done|]. split; [done|]. split; [done|]. split; [cbn; lia|]. split; [by intros|].
      split; [done|]. exists [i].
      split; [by left|]. by repeat constructor. }
    intros H. destruct (IH _ _ H) as (new & -> & -> & Hw & Hl & Hend & _ & body & Hb & Hp).
    exists (i :: new). cbn in *. split; [by rewrite <- app_assoc|]. split; [done|].
    split; [done|]. split; [lia|]. split; [|split; [done|]].
    + intros _. rewrite Hend by apply u32_fits. rewrite u32_add_l. f_equal.
      unfold zlen. cbn [length]. lia.
    + exists (i :: body). split; [|by constructor].
      destruct Hb as [->|(last & -> & Hl')]; [by left|right]. by exists last.
Qed.

(** A decoded block is exactly the straight-line code at its address.
    A miss decodes between 1 and 32 consecutive words of the memory starting
    at the program counter; only the last can be a branch, jump or halt; the
    end address follows the last word; the block is cached under its address,
    so that the next translation of that address is a hit that returns the
    same block without reading the memory, even if the code has changed. *)
Theorem translate_block mem pc c blk c' :
  fits 32 pc -> c.(map_) !! pc = None -> BlockCache.translate mem pc c = (Ok blk, c') ->
  words_at mem pc blk.(ops) /\ 1 <= zlen blk.(ops) <= 32 /\
  (exists body last, blk.(ops) = body ++ [last] /\ Forall plain body) /\
  blk.(start_pc) = pc /\ blk.(end_pc) = u32 (pc + 4 * zlen blk.(ops)) /\
  c'.(misses_) = u64 (c.(misses_) + 1) /\
  (forall mem' , exists c'', BlockCache.translate mem' pc c' = (Ok blk, c'') /\
     c''.(hits_) = u64 (c.(hits_) + 1)).
Proof.
  intros Hpc Hm. unfold BlockCache.translate. rewrite Hm.
  destruct (BlockCache.decode _ _ _ _) as [b| |] eqn:Hd; [|done|done]. intros [= <- <-].
  destruct (decode_spec _ _ _ _ _ Hd) as (new & Ho & Hs & Hw & Hl & He & Hne & body & Hb & Hp).
  clear Hd. cbn in Ho, Hs. rewrite Ho. unfold BlockCache.max_len in *.
  assert (Hnew : new <> []) by (apply Hne; lia).
  split; [done|]. split; [destruct new; [done|]; unfold zlen; cbn [length] in *; lia|].
  split.
  { destruct Hb as [->|(last & -> & _)]; [|by exists body, last].
    destruct (exists_last Hnew) as (body' & last & ->). exists body', last.
    split; [done|]. by apply Forall_app in Hp as [? _]. }
  destruct c as [mm hh ms].
  split; [exact Hs|]. split; [exact (He Hpc)|]. split; [reflexivity|].
  intros mem'. cbn [map_ apply_update constant]. rewrite lookup_insert_eq. by eexists.
Qed.

Lemma translate_block_witness :
  let mem := Buffer.poke (Buffer.make 64) 0 (VirtualSRAM.words_bytes [enc.movi 1 5; enc.halt]) in
  exists blk c', BlockCache.translate mem 0 BlockCache.init = (Ok blk, c') /\
    words_at mem 0 blk.(ops) /\ zlen blk.(ops) = 2.
Proof.
  intros mem. eexists _, _.
  assert (H : BlockCache.translate mem 0 BlockCache.init
    = (Ok (mkBlock 0 8 [mkInstruction (enc.movi 1 5); mkInstruction enc.halt] false true),
       mkBlockCache {[0 := mkBlock 0 8 [mkInstruction (enc.movi 1 5); mkInstruction enc.halt] false true]} 0 1))
    by (vm_compute; reflexivity).
  split; [exact H|]. split; [|reflexivity].
  assert (Hpc : fits 32 0) by (unfold fits; lia).
  assert (Hm : map_ BlockCache.init !! 0 = None) by (vm_compute; reflexivity).
  destruct (translate_block _ _ _ _ _ Hpc Hm H) as [Hw _]. exact Hw.
Defined.
