(* ===== verification/Emulator.v ===== *)
(** * The emulator: emulator.h, emulator.cpp

    The state of [class Emulator], its instruction handlers, the fetch,
    execute and step functions, the two run loops, loading, reset, logging and
    state serialization.  Everything a member function can change is a field
    of the record [Emulator]; [shared_] is the memory behind the bus window of
    a core of a cluster (cluster.cpp), absent from an emulator of its own, and
    [stdout] collects what is printed.  The
    floating-point unit and the SIMD branch the build selected are parameters
    of the section. *)

From Stdlib Require Import Ascii.
From S2P Require Import Prelude Text Isa Memory Registers Interrupt Devices Bus Float Profiler Interconnect Target Host Mmu Translate.
#[local] Open Scope Z_scope.

#[local] Set Primitive Projections.
Record Emulator : Type := mkEmulator {
  scratchpad_ : VirtualSRAM;
  main_ram_ : MainRAM;
  regs_ : RegisterFile;
  csr_ : CSRFile;
  mmu_ : MMU;
  interconnect_ : Interconnect;
  axi_ : Interconnect;
  pcie_ : Interconnect;
  cxi_ : Interconnect;
  timer_ : TimerDevice;
  uart_ : UartDevice;
  profiler_ : Profiler;
  debugger_ : Debugger;
  intc_ : InterruptController;
  target_ : TargetProfile;
  block_cache_ : BlockCache;
  accel_ : bool;
  verbose_ : bool;
  tick_accum_ : Z;
  last_pc_ : Z;
  last_gpr_ : list Z;
  shared_ : option MainRAM;
  stdout : list string }.
#[local] Unset Primitive Projections.

Module Emulator.

(** ** Construction and configuration *)
Definition axi_config : InterconnectConfig := mkConfig AXI4 64 2 8 16.
Definition pcie_config : InterconnectConfig := mkConfig PCIe 64 4 4 8.
Definition cxi_config : InterconnectConfig := mkConfig CXI 64 3 16 16.

Definition create (scratchpad_bytes main_ram_bytes : Z) : Emulator := {|
  scratchpad_ := Buffer.make scratchpad_bytes;
  main_ram_ := Buffer.make main_ram_bytes;
  regs_ := RegisterFile.init;
  csr_ := CSRFile.reset CSRFile.init;
  mmu_ := MMU.init;
  interconnect_ := Interconnect.make axi_config;
  axi_ := Interconnect.make axi_config;
  pcie_ := Interconnect.make pcie_config;
  cxi_ := Interconnect.make cxi_config;
  timer_ := TimerDevice.init;
  uart_ := UartDevice.init;
  profiler_ := Profiler.init;
  debugger_ := Debugger.init;
  intc_ := InterruptController.init;
  target_ := make_asic_profile;
  block_cache_ := BlockCache.init;
  accel_ := true;
  verbose_ := false;
  tick_accum_ := 0;
  last_pc_ := 0;
  last_gpr_ := replicate 16 0;
  shared_ := None;
  stdout := [] |}.

Definition set_verbose (v : bool) (s : Emulator) : Emulator := { s with verbose_ := v }.
Definition set_acceleration (v : bool) (s : Emulator) : Emulator := { s with accel_ := v }.
Definition set_target (p : TargetProfile) (s : Emulator) : Emulator :=
  { s with target_ := p; block_cache_ := BlockCache.clear s.(block_cache_) }.
Definition set_target_kind (k : TargetKind) (s : Emulator) : Emulator :=
  { s with target_ := make_profile k; block_cache_ := BlockCache.clear s.(block_cache_) }.
Definition add_breakpoint (addr : Z) (s : Emulator) : Emulator :=
  { s with debugger_ := Debugger.add_breakpoint addr s.(debugger_) }.
Definition remove_breakpoint (addr : Z) (s : Emulator) : Emulator :=
  { s with debugger_ := Debugger.remove_breakpoint addr s.(debugger_) }.
Definition clear_breakpoints (s : Emulator) : Emulator :=
  { s with debugger_ := Debugger.clear_breakpoints s.(debugger_) }.
Definition enable_single_step (s : Emulator) : Emulator :=
  { s with debugger_ := Debugger.enable_single_step s.(debugger_) }.
Definition disable_single_step (s : Emulator) : Emulator :=
  { s with debugger_ := Debugger.disable_single_step s.(debugger_) }.
Definition halted (s : Emulator) : bool := s.(regs_).(halt).
Definition pc (s : Emulator) : Z := s.(regs_).(Registers.pc).

Definition reset (s : Emulator) : Emulator :=
  { s with
      regs_ := RegisterFile.reset s.(regs_);
      csr_ := CSRFile.reset s.(csr_);
      mmu_ := MMU.set_enabled false (MMU.tlb_flush s.(mmu_));
      axi_ := Interconnect.reset s.(axi_);
      pcie_ := Interconnect.reset s.(pcie_);
      cxi_ := Interconnect.reset s.(cxi_);
      interconnect_ := Interconnect.reset s.(interconnect_);
      intc_ := InterruptController.reset s.(intc_);
      scratchpad_ := VirtualSRAM.clear s.(scratchpad_);
      main_ram_ := MainRAM.clear s.(main_ram_);
      profiler_ := Profiler.reset s.(profiler_);
      debugger_ := Debugger.disable_single_step (Debugger.clear_breakpoints s.(debugger_));
      verbose_ := false;
      tick_accum_ := 0;
      last_pc_ := 0;
      last_gpr_ := replicate 16 0;
      block_cache_ := BlockCache.clear s.(block_cache_) }.

(** ** Access to the parts of the state *)
Definition put_scratchpad (m : VirtualSRAM) (s : Emulator) : Emulator := { s with scratchpad_ := m }.
Definition put_main_ram (m : MainRAM) (s : Emulator) : Emulator := { s with main_ram_ := m }.
Definition put_mmu (m : MMU) (s : Emulator) : Emulator := { s with mmu_ := m }.
Definition put_axi (f : Interconnect) (s : Emulator) : Emulator := { s with axi_ := f }.
Definition put_block_cache (c : BlockCache) (s : Emulator) : Emulator := { s with block_cache_ := c }.
Definition put_regs (r : RegisterFile) (s : Emulator) : Emulator := { s with regs_ := r }.

Definition set_pc (p : Z) : M Emulator unit :=
  modify (fun s => put_regs { s.(regs_) with Registers.pc := p } s).
Definition read_gpr (idx : Z) : M Emulator Z :=
  let! s := get in opt (GprIndex idx) (RegisterFile.read_gpr s.(regs_) idx).
Definition write_gpr (idx v : Z) : M Emulator unit :=
  let! s := get in
  let! r := opt (GprIndex idx) (RegisterFile.write_gpr s.(regs_) idx v) in
  modify (put_regs r).
(** [vr[idx].data()] *)
Definition vr_data (idx : Z) : M Emulator (list Z) :=
  let! s := get in opt (VrIndex idx) (RegisterFile.read_vr s.(regs_) idx).
Definition print (l : list string) : M Emulator unit :=
  modify (fun s => { s with stdout := s.(stdout) ++ l }).

(** ** The bus and its two devices *)
Definition timer_read (addr : Z) : M Emulator Z := fun s =>
  let '(v, t) := TimerDevice.read_reg (u32 (addr - MMIO_BASE)) s.(timer_) in
  (Ok v, { s with timer_ := t }).
Definition timer_write (addr v : Z) : M Emulator unit :=
  modify (fun s => { s with timer_ := TimerDevice.write_reg (u32 (addr - MMIO_BASE)) v s.(timer_) }).
Definition uart_read (addr : Z) : M Emulator Z :=
  gets (fun s => UartDevice.read_reg (u32 (u32 (addr - MMIO_BASE) - UART_BASE)) s.(uart_)).
Definition uart_write (addr v : Z) : M Emulator unit := fun s =>
  let '(u, out) := UartDevice.write_reg (u32 (u32 (addr - MMIO_BASE) - UART_BASE)) v s.(uart_) in
  (Ok tt, { s with uart_ := u; stdout := s.(stdout) ++ out }).

Definition devices_ : list (Device Emulator) :=
  Bus.add_device (u32 (MMIO_BASE + UART_BASE)) 0x1000 (Some uart_read) (Some uart_write)
    (Bus.add_device MMIO_BASE 0x1000 (Some timer_read) (Some timer_write) []).

(** The window a cluster adds to the bus of each of its cores: four bytes of
    the shared memory at [addr - 0x80000000], through unchecked pointers. *)
Definition WINDOW_BASE : Z := 0x80000000.
Definition WINDOW_SIZE : Z := 0x01000000.
Definition put_shared (m : option MainRAM) (s : Emulator) : Emulator := { s with shared_ := m }.
Definition window_read (m : MainRAM) (addr : Z) : M Emulator Z :=
  let off := u32 (addr - WINDOW_BASE) in
  if Buffer.in_range m off 4 then ret (le_val (Buffer.peek m off 4))
  else undef (BufferOverrun off 4).
Definition window_write (m : MainRAM) (addr v : Z) : M Emulator unit :=
  let off := u32 (addr - WINDOW_BASE) in
  if Buffer.in_range m off 4 then modify (put_shared (Some (Buffer.poke m off (le_bytes 4 v))))
  else undef (BufferOverrun off 4).

(** The device list of the bus; an emulator of its own has no window. *)
Definition bus_devices (shared : option MainRAM) : list (Device Emulator) :=
  match shared with
  | Some m => Bus.add_device WINDOW_BASE WINDOW_SIZE (Some (window_read m)) (Some (window_write m)) devices_
  | None => devices_
  end.

Definition bus_read32 (addr : Z) : M Emulator Z :=
  let! s := get in Bus.read32 scratchpad_ (bus_devices s.(shared_)) addr.
Definition bus_write32 (addr v : Z) : M Emulator unit :=
  let! s := get in Bus.write32 scratchpad_ put_scratchpad (bus_devices s.(shared_)) addr v.

(** ** Traps, translation and the interconnect *)
Definition take_trap (t : Trap) : M Emulator unit :=
  modify (fun s =>
    let '(_, csr, intc) := InterruptController.take_trap t (Some s.(csr_)) s.(intc_) in
    { s with csr_ := default s.(csr_) csr; intc_ := intc }).
(** [uint32_t(csr_.read(CSR_MTVEC) & ~0x3ULL)] *)
Definition mtvec_base (csr : CSRFile) : Z := u32 (Z.ldiff (CSRFile.read csr CSR_MTVEC) 3).
Definition trap_to_mtvec (t : Trap) : M Emulator unit :=
  do! take_trap t in
  let! s := get in
  set_pc (mtvec_base s.(csr_)).

(** [mmu_.translate(va, w, f, &c)] *)
Definition mmu_translate (va : Z) (w f : bool) : M Emulator (option Z) :=
  let! s := get in
  let! r := zoom mmu_ put_mmu (MMU.translate (Some s.(scratchpad_)) (Some s.(csr_)) true va w f) in
  ret r.1.

(** A transaction of the current profiler cycle on the AXI fabric. *)
Definition axi_issue (addr bytes : Z) (w : bool) : M Emulator bool :=
  let! s := get in
  let cyc := Profiler.cycles s.(profiler_) in
  zoom axi_ put_axi (Interconnect.issue (mkTransaction 0 addr bytes w cyc 0 AXI4) cyc).

Definition prev_pc : M Emulator Z := gets (fun s => u32 (s.(regs_).(Registers.pc) - 4)).

Section Execution.
Context `{FloatOps} (path : HostPath).

(** ** Instruction handlers: they return the cycles consumed *)
Definition op_nop (i : Instruction) : M Emulator Z := ret (cycle_weight (code NOP) 0).
Definition op_halt (i : Instruction) : M Emulator Z :=
  do! modify (fun s => put_regs { s.(regs_) with halt := true } s) in ret 0.
Definition op_jmp (i : Instruction) : M Emulator Z :=
  do! set_pc (Instruction.target i) in ret (cycle_weight (code JMP) 0).

(** [regs_.pc += instr.offset()] *)
Definition branch_if (taken : bool) (i : Instruction) (cycles : Z) : M Emulator Z :=
  if taken then
    do! modify (fun s => put_regs
          { s.(regs_) with Registers.pc := u32 (s.(regs_).(Registers.pc) + Instruction.offset i) } s) in
    ret (cycles + 1)
  else ret cycles.
Definition op_beq (i : Instruction) : M Emulator Z :=
  let! rs := read_gpr (Instruction.rd i) in
  let! rt := read_gpr (Instruction.ra i) in
  branch_if (rs =? rt) i (cycle_weight (code BEQ) 0).
Definition op_bne (i : Instruction) : M Emulator Z :=
  let! rs := read_gpr (Instruction.rd i) in
  let! rt := read_gpr (Instruction.ra i) in
  branch_if (negb (rs =? rt)) i (cycle_weight (code BNE) 0).

Definition set_overflow (b : bool) : M Emulator unit :=
  modify (fun s => put_regs
    { s.(regs_) with status := { s.(regs_).(status) with overflow := b } } s).
Definition update_flags (result : Z) : M Emulator unit :=
  modify (fun s => put_regs (RegisterFile.update_flags_u32 s.(regs_) result) s).
Definition neg32 (x : Z) : bool := s32 x <? 0.

Definition op_add (i : Instruction) : M Emulator Z :=
  let! a := read_gpr (Instruction.ra i) in
  let! b := read_gpr (Instruction.rb i) in
  let result := u32 (a + b) in
  do! write_gpr (Instruction.rd i) result in
  do! set_overflow (Bool.eqb (neg32 a) (neg32 b) && negb (Bool.eqb (neg32 a) (neg32 result))) in
  do! update_flags result in
  ret (cycle_weight (code ADD) 0).
Definition op_sub (i : Instruction) : M Emulator Z :=
  let! a := read_gpr (Instruction.ra i) in
  let! b := read_gpr (Instruction.rb i) in
  let result := u32 (a - b) in
  do! write_gpr (Instruction.rd i) result in
  do! set_overflow (negb (Bool.eqb (neg32 a) (neg32 b)) && negb (Bool.eqb (neg32 a) (neg32 result))) in
  do! update_flags result in
  ret (cycle_weight (code SUB) 0).
Definition op_mul (i : Instruction) : M Emulator Z :=
  let! a := read_gpr (Instruction.ra i) in
  let! b := read_gpr (Instruction.rb i) in
  let result := u32 (a * b) in
  do! write_gpr (Instruction.rd i) result in
  do! set_overflow false in
  do! update_flags result in
  ret (cycle_weight (code MUL) 0).

(** [base + static_cast<uint32_t>(simm16)] *)
Definition effective_address (i : Instruction) : M Emulator Z :=
  let! base := read_gpr (Instruction.ra i) in
  ret (u32 (base + Instruction.simm16 i)).

Definition op_load (i : Instruction) : M Emulator Z :=
  let! va := effective_address i in
  let! s := get in
  let! pa := if MMU.enabled s.(mmu_) then mmu_translate va false false else ret (Some va) in
  match pa with
  | None =>
      let! p := prev_pc in
      do! trap_to_mtvec (InterruptController.page_fault_trap p va false) in ret 2
  | Some addr =>
      do! axi_issue addr 4 false in
      let! value := bus_read32 addr in
      do! write_gpr (Instruction.rd i) value in
      ret (cycle_weight (code LOAD) 0)
  end.
Definition op_store (i : Instruction) : M Emulator Z :=
  let! va := effective_address i in
  let! s := get in
  let! pa := if MMU.enabled s.(mmu_) then mmu_translate va true false else ret (Some va) in
  match pa with
  | None =>
      let! p := prev_pc in
      do! trap_to_mtvec (InterruptController.page_fault_trap p va true) in ret 2
  | Some addr =>
      let! value := read_gpr (Instruction.rd i) in
      do! axi_issue addr 4 true in
      do! bus_write32 addr value in
      ret (cycle_weight (code STORE) 0)
  end.
Definition op_mov (i : Instruction) : M Emulator Z :=
  let! value := read_gpr (Instruction.ra i) in
  do! write_gpr (Instruction.rd i) value in
  ret (cycle_weight (code MOV) 0).
Definition op_movi (i : Instruction) : M Emulator Z :=
  do! write_gpr (Instruction.rd i) (Instruction.imm16 i) in
  ret (cycle_weight (code MOVI) 0).

(** A register as the bytes of its sixteen floats, and back. *)
Definition vr_bytes (v : list Z) : list Z := concat (map (le_bytes 4) v).
Fixpoint bytes_vr (n : nat) (l : list Z) : list Z :=
  match n with
  | O => []
  | S n => le_val (take 4 l) :: bytes_vr n (drop 4 l)
  end.

Definition op_load_vr (i : Instruction) : M Emulator Z :=
  let! addr := effective_address i in
  let vr_idx := Instruction.rd i in
  do! vr_data vr_idx in
  let! s := get in
  let! l := lift (VirtualSRAM.read_bytes s.(scratchpad_) addr VR_BYTE_SIZE) in
  do! modify (fun s => put_regs (RegisterFile.write_vr s.(regs_) vr_idx (bytes_vr 16 l)) s) in
  ret (cycle_weight (code LOAD_VR) 0).
Definition op_store_vr (i : Instruction) : M Emulator Z :=
  let! addr := effective_address i in
  let! src := vr_data (Instruction.rd i) in
  do! zoom scratchpad_ put_scratchpad (VirtualSRAM.write_bytes addr (vr_bytes src)) in
  ret (cycle_weight (code STORE_VR) 0).

Definition put_vrs (vrs : list (list Z)) (s : Emulator) : Emulator :=
  put_regs { s.(regs_) with vr := vrs } s.

Definition op_vec_add (i : Instruction) : M Emulator Z :=
  let '(vd, va, vb) := (Instruction.rd i, Instruction.ra i, Instruction.rb i) in
  do! vr_data vd in
  do! vr_data va in
  do! vr_data vb in
  let! s := get in
  let vrs := s.(regs_).(vr) in
  do! modify (put_vrs (if s.(accel_) then Host.vec_add_host path vrs vd va vb
                       else Host.vec_add_scalar vrs vd va vb)) in
  ret (profile_cycle_weight s.(target_) (code VEC_ADD) 0).

Definition op_matmul_tile (i : Instruction) : M Emulator Z :=
  let n := Z.land (Instruction.func i) 0xF in
  if (n =? 0) || (TILE_SIZE <? n) then throw (InvalidTileSize n)
  else
    let '(vd, va, vb) := (Instruction.rd i, Instruction.ra i, Instruction.rb i) in
    do! vr_data vd in
    do! vr_data va in
    do! vr_data vb in
    let! s := get in
    let vrs := s.(regs_).(vr) in
    let! vrs' := opt (VrIndex vd)
      (if s.(accel_) then Host.matmul_tile_host vrs vd va vb n
       else Host.matmul_loop vrs vd va vb n) in
    do! modify (put_vrs vrs') in
    ret (profile_cycle_weight s.(target_) (code MATMUL_TILE) n).

(** Both addresses of a DMA transfer, translated destination first: [None] is
    a fault, with the address and the kind of page fault the handler reports. *)
Definition dma_addresses (dest src : Z) (store_kind : bool -> bool)
    : M Emulator (option (Z * Z)) :=
  let! s := get in
  if MMU.enabled s.(mmu_) then
    let! pa_dest := mmu_translate dest true false in
    let! pa_src := mmu_translate src false false in
    match pa_dest, pa_src with
    | Some d, Some sr => ret (Some (d, sr))
    | _, _ =>
        let dest_fault := match pa_dest with None => true | Some _ => false end in
        let! p := prev_pc in
        do! trap_to_mtvec (InterruptController.page_fault_trap p
              (if dest_fault then dest else src) (store_kind dest_fault)) in
        ret None
    end
  else ret (Some (dest, src)).

(** [std::memcpy] between the two memories. *)
Definition copy_to_scratchpad (dest src bytes : Z) : M Emulator unit :=
  let! s := get in
  if Buffer.in_range s.(scratchpad_) dest bytes && Buffer.in_range s.(main_ram_) src bytes then
    modify (put_scratchpad (Buffer.poke s.(scratchpad_) dest
      (Buffer.peek s.(main_ram_) src (Z.to_nat bytes))))
  else undef (BufferOverrun dest bytes).
Definition copy_to_main_ram (dest src bytes : Z) : M Emulator unit :=
  let! s := get in
  if Buffer.in_range s.(main_ram_) dest bytes && Buffer.in_range s.(scratchpad_) src bytes then
    modify (put_main_ram (Buffer.poke s.(main_ram_) dest
      (Buffer.peek s.(scratchpad_) src (Z.to_nat bytes))))
  else undef (BufferOverrun dest bytes).

Definition op_dma_load (i : Instruction) : M Emulator Z :=
  let! dest0 := read_gpr (Instruction.rd i) in
  let! src0 := read_gpr (Instruction.ra i) in
  let bytes := Instruction.func i in
  let! pas := dma_addresses dest0 src0 (fun dest_fault => dest_fault) in
  match pas with
  | None => ret 2
  | Some (dest, src) =>
      let! s := get in
      if u32 (dest + bytes) >? s.(scratchpad_).(blen) then throw DmaLoadScratchpadBounds
      else if u32 (src + bytes) >? s.(main_ram_).(blen) then throw DmaLoadMainRamBounds
      else
        let! accepted := axi_issue dest bytes false in
        do! (if accepted then ret tt
             else modify (fun s => { s with profiler_ :=
                    Profiler.record (code DMA_LOAD) 1 0 s.(profiler_) })) in
        do! copy_to_scratchpad dest src bytes in
        ret (profile_cycle_weight s.(target_) (code DMA_LOAD) bytes)
  end.
Definition op_dma_store (i : Instruction) : M Emulator Z :=
  let! dest0 := read_gpr (Instruction.rd i) in
  let! src0 := read_gpr (Instruction.ra i) in
  let bytes := Instruction.func i in
  let! pas := dma_addresses dest0 src0 (fun _ => true) in
  match pas with
  | None => ret 2
  | Some (dest, src) =>
      let! s := get in
      if u32 (dest + bytes) >? s.(main_ram_).(blen) then throw DmaStoreMainRamBounds
      else if u32 (src + bytes) >? s.(scratchpad_).(blen) then throw DmaStoreScratchpadBounds
      else
        do! axi_issue src bytes true in
        do! copy_to_main_ram dest src bytes in
        ret (profile_cycle_weight s.(target_) (code DMA_STORE) bytes)
  end.

(** ** The pipeline *)
Definition dispatch_table_ (op : Z) : option (Instruction -> M Emulator Z) :=
  match opcode_of op with
  | Some NOP => Some op_nop
  | Some HALT => Some op_halt
  | Some JMP => Some op_jmp
  | Some BEQ => Some op_beq
  | Some BNE => Some op_bne
  | Some ADD => Some op_add
  | Some SUB => Some op_sub
  | Some MUL => Some op_mul
  | Some LOAD => Some op_load
  | Some STORE => Some op_store
  | Some MOV => Some op_mov
  | Some MOVI => Some op_movi
  | Some LOAD_VR => Some op_load_vr
  | Some STORE_VR => Some op_store_vr
  | Some VEC_ADD => Some op_vec_add
  | Some MATMUL_TILE => Some op_matmul_tile
  | Some DMA_LOAD => Some op_dma_load
  | Some DMA_STORE => Some op_dma_store
  | None => None
  end.

Definition advance_pc : M Emulator unit :=
  modify (fun s => put_regs { s.(regs_) with Registers.pc := u32 (s.(regs_).(Registers.pc) + 4) } s).

(** With the MMU on, the word is copied from the translated address without a
    bounds check. *)
Definition fetch : M Emulator Instruction :=
  let! s := get in
  let va := s.(regs_).(Registers.pc) in
  if MMU.enabled s.(mmu_) then
    let! pa := mmu_translate va false true in
    match pa with
    | None =>
        let trap := { InterruptController.page_fault_trap va va false with cause := InstPageFault } in
        do! trap_to_mtvec trap in
        ret (mkInstruction enc.nop)
    | Some a =>
        let! s := get in
        if Buffer.in_range s.(scratchpad_) a 4 then
          do! advance_pc in
          ret (mkInstruction (le_val (Buffer.peek s.(scratchpad_) a 4)))
        else undef (BufferOverrun a 4)
    end
  else
    let! raw := bus_read32 va in
    do! advance_pc in
    ret (mkInstruction raw).

Definition is_dma (op : Z) : bool := (op =? code DMA_LOAD) || (op =? code DMA_STORE).

Definition execute (i : Instruction) : M Emulator Z :=
  let op := Instruction.opcode i in
  match dispatch_table_ op with
  | None =>
      let! p := prev_pc in
      let! s := get in
      if negb (CSRFile.read s.(csr_) CSR_MTVEC =? 0) then
        do! trap_to_mtvec (InterruptController.illegal_inst_trap p i.(raw)) in
        ret 2
      else throw (UnknownOpcode op)
  | Some handler =>
      let! cycles := handler i in
      let dma_bytes := if is_dma op then Instruction.func i else 0 in
      do! modify (fun s => { s with
            profiler_ := Profiler.record op cycles dma_bytes s.(profiler_);
            tick_accum_ := u64 (s.(tick_accum_) + cycles) }) in
      ret cycles
  end.

(** One iteration of [tick_peripherals]. *)
Definition tick_once (s : Emulator) : Emulator :=
  let t := TimerDevice.tick CYCLES_PER_TICK s.(timer_) in
  { s with
      timer_ := t;
      uart_ := UartDevice.tick CYCLES_PER_TICK s.(uart_);
      intc_ := if TimerDevice.interrupt_pending t then InterruptController.raise_timer s.(intc_)
               else InterruptController.clear_timer s.(intc_);
      axi_ := Interconnect.tick CYCLES_PER_TICK s.(axi_);
      pcie_ := Interconnect.tick CYCLES_PER_TICK s.(pcie_);
      cxi_ := Interconnect.tick CYCLES_PER_TICK s.(cxi_);
      interconnect_ := Interconnect.tick CYCLES_PER_TICK s.(interconnect_);
      tick_accum_ := s.(tick_accum_) - CYCLES_PER_TICK }.
Fixpoint tick_loop (fuel : nat) (s : Emulator) : Emulator :=
  match fuel with
  | O => s
  | S fuel => if CYCLES_PER_TICK <=? s.(tick_accum_) then tick_loop fuel (tick_once s) else s
  end.
(** The quotient is the number of iterations the loop makes. *)
Definition tick_peripherals (s : Emulator) : Emulator :=
  tick_loop (Z.to_nat (s.(tick_accum_) / CYCLES_PER_TICK)) s.

(** ** Logging *)
Definition log_step (pc : Z) (i : Instruction) (cycles : Z) : M Emulator unit :=
  let! s := get in
  let line := snprintf 256 ("[0x" +:+ hex08 pc +:+ "] 0x" +:+ hex08 i.(raw) +:+ "  "
                +:+ pad_right 32 (disassemble i) +:+ " " +:+ udec cycles +:+ " cy") in
  let changed (k : nat) (old : Z) : list string :=
    let after := default 0 (RegisterFile.read_gpr s.(regs_) (Z.of_nat k)) in
    if after =? old then []
    else ["  r" +:+ udec (Z.of_nat k) +:+ "=0x" +:+ hex08 after]%string in
  let npc := s.(regs_).(Registers.pc) in
  let st := s.(regs_).(status) in
  print ([line] ++ concat (imap changed s.(last_gpr_))
    ++ (if npc =? u32 (pc + 4) then [] else ["  ->PC=0x" +:+ hex08 npc]%string)
    ++ (if is_dma (Instruction.opcode i)
        then ["  DMA=" +:+ udec (Instruction.func i) +:+ "B"]%string else [])
    ++ ["  [Z=" +:+ Debugger.bool01 st.(zero) +:+ " N=" +:+ Debugger.bool01 st.(negative)
        +:+ " V=" +:+ Debugger.bool01 st.(overflow) +:+ "]" +:+ Debugger.nl]%string).

(** [uint32_t(static_cast<uint16_t>(irq->cause) & 0xFF)] *)
Definition vector_slot (c : TrapCause) : Z := Z.land (cause_code c) 0xFF.

(** The interrupt check before the fetch. *)
Definition service_interrupt : M Emulator unit :=
  let! s := get in
  match InterruptController.pending_interrupt (Some s.(csr_)) s.(intc_) with
  | None => ret tt
  | Some irq =>
      do! take_trap irq in
      let! s := get in
      let mtvec := CSRFile.read s.(csr_) CSR_MTVEC in
      let base := u32 (Z.ldiff mtvec 3) in
      let vectored := negb (Z.land mtvec 1 =? 0) in
      set_pc (if vectored then u32 (base + vector_slot irq.(cause) * 4) else base)
  end.

(** The registers before the step, for the verbose diff. *)
Definition remember (pc_before : Z) : M Emulator unit :=
  modify (fun s => { s with
    last_pc_ := pc_before;
    last_gpr_ := imap (fun k _ => default 0 (RegisterFile.read_gpr s.(regs_) (Z.of_nat k)))
                   s.(last_gpr_) }).

Definition step : M Emulator unit :=
  let! s := get in
  if s.(regs_).(halt) then ret tt
  else
    do! service_interrupt in
    let! s := get in
    let pc_before := s.(regs_).(Registers.pc) in
    do! (if s.(verbose_) then remember pc_before else ret tt) in
    let! instr := fetch in
    let! cycles := execute instr in
    do! modify tick_peripherals in
    let! s := get in
    if s.(verbose_) then log_step pc_before instr cycles else ret tt.

(** ** The run loops: [false] when the fuel ran out before they ended *)
Definition stopped (s : Emulator) : bool :=
  s.(regs_).(halt) || Debugger.has_breakpoint s.(debugger_) s.(regs_).(Registers.pc).

Fixpoint run_loop (fuel : nat) : M Emulator bool :=
  let! s := get in
  if stopped s then ret true
  else
    match fuel with
    | O => ret false
    | S fuel => do! step in run_loop fuel
    end.

Definition flush_uart : M Emulator unit := fun s =>
  let '(u, out) := UartDevice.flush s.(uart_) in
  (Ok tt, { s with uart_ := u; stdout := s.(stdout) ++ out }).

Definition run (fuel : nat) : M Emulator bool :=
  let! done := run_loop fuel in
  if done then do! flush_uart in ret true else ret false.

(** One instruction of a decoded block, and the block: it is left on a halt, a
    breakpoint or a control transfer. *)
Fixpoint run_block (l : list Instruction) : M Emulator unit :=
  match l with
  | [] => ret tt
  | ins :: l =>
      let! s := get in
      if stopped s then ret tt
      else
        do! advance_pc in
        do! execute ins in
        do! modify tick_peripherals in
        if ends_block (Instruction.opcode ins) then ret tt else run_block l
  end.

Definition translate_block (pc : Z) : M Emulator DecodedBlock :=
  let! s := get in
  zoom block_cache_ put_block_cache (BlockCache.translate s.(scratchpad_) pc).

Fixpoint run_fast_loop (fuel : nat) : M Emulator bool :=
  let! s := get in
  if stopped s then ret true
  else
    match fuel with
    | O => ret false
    | S fuel =>
        if s.(verbose_) then do! step in run_fast_loop fuel
        else
          let! blk := translate_block s.(regs_).(Registers.pc) in
          do! run_block blk.(ops) in
          run_fast_loop fuel
    end.

Definition run_fast (fuel : nat) : M Emulator bool :=
  let! done := run_fast_loop fuel in
  if done then do! flush_uart in ret true else ret false.
End Execution.

(** ** Loading *)
Definition load_program_bytes (bytes : list Z) : M Emulator unit :=
  if zlen bytes >? TEXT_SIZE then throw (ProgramTooLarge (zlen bytes))
  else
    do! zoom scratchpad_ put_scratchpad (VirtualSRAM.load TEXT_BASE bytes) in
    modify (fun s => { s with block_cache_ := BlockCache.clear s.(block_cache_) }).
Definition load_program (instructions : list Z) : M Emulator unit :=
  load_program_bytes (VirtualSRAM.words_bytes instructions).
Definition load_data (addr : Z) (data : list Z) : M Emulator unit :=
  zoom scratchpad_ put_scratchpad (VirtualSRAM.load addr data).
Definition load_main_ram (addr : Z) (data : list Z) : M Emulator unit :=
  zoom main_ram_ put_main_ram (MainRAM.write addr data).
Definition load_tensor (addr : Z) (data : list Z) : M Emulator unit :=
  zoom scratchpad_ put_scratchpad (VirtualSRAM.load addr (VirtualSRAM.words_bytes data)).

Definition disassemble_at (s : Emulator) (addr : Z) : outcome string :=
  match VirtualSRAM.read32 s.(scratchpad_) addr with
  | Ok raw => Ok (disassemble (mkInstruction raw))
  | Throw e => Throw e
  | Undefined u => Undefined u
  end.

(** ** State serialization *)
#[local] Set Primitive Projections.
Record State : Type := mkState {
  s_status : StatusFlags;
  s_gpr : list Z;
  s_vr : list (list Z);
  s_pc : Z;
  s_tick_accum : Z;
  s_profiler : Profiler.State }.
#[local] Unset Primitive Projections.

Definition save_state (s : Emulator) : State :=
  {| s_status := s.(regs_).(status); s_gpr := s.(regs_).(gpr); s_vr := s.(regs_).(vr);
     s_pc := s.(regs_).(Registers.pc); s_tick_accum := s.(tick_accum_);
     s_profiler := Profiler.save s.(profiler_) |}.
Definition restore_state (st : State) (s : Emulator) : Emulator :=
  { s with
      regs_ := { s.(regs_) with status := st.(s_status); gpr := zset st.(s_gpr) 0 0;
                                vr := st.(s_vr); Registers.pc := st.(s_pc) };
      tick_accum_ := st.(s_tick_accum);
      profiler_ := Profiler.restore st.(s_profiler) s.(profiler_) }.
End Emulator.
