(* ===== verification/EmulatorWf.v ===== *)
(** * The invariant of the emulator

    Every field is well formed: memories hold bytes, registers 32-bit values
    with r0 zero, counters 64-bit values, the fabrics respect their bound.
    Every member function keeps the invariant, whatever its outcome. *)

From S2P Require Import Prelude Text Isa Memory Registers Interrupt Devices Bus Float Profiler Interconnect Target Host Mmu Translate Emulator.
#[local] Open Scope Z_scope.

(** The shared memory behind the window, when there is one, covers the window
    and the three bytes an access at its last address reads past it. *)
Definition window_ok (o : option MainRAM) : Prop :=
  forall m, o = Some m -> Buffer.wf m /\ Emulator.WINDOW_SIZE + 3 <= m.(blen).

Record emu_wf (s : Emulator) : Prop := {
  wf_scratchpad : Buffer.wf s.(scratchpad_);
  wf_main_ram : Buffer.wf s.(main_ram_);
  wf_regs : RegisterFile.wf s.(regs_);
  wf_csr : CSRFile.wf s.(csr_);
  wf_mmu : MMU.wf s.(mmu_);
  wf_interconnect : Interconnect.wf s.(interconnect_);
  wf_axi : Interconnect.wf s.(axi_);
  wf_pcie : Interconnect.wf s.(pcie_);
  wf_cxi : Interconnect.wf s.(cxi_);
  wf_timer : TimerDevice.wf s.(timer_);
  wf_profiler : Profiler.wf s.(profiler_);
  wf_intc : InterruptController.wf s.(intc_);
  wf_target : profile_wf s.(target_);
  wf_cache : BlockCache.wf s.(block_cache_);
  wf_accum : fits 64 s.(tick_accum_);
  wf_shared : window_ok s.(shared_) }.

Notation keepsE := (keeps emu_wf).

(** ** Replacing one part *)
#[local] Ltac put := intros Hs; intros; destruct Hs; split; cbn; auto.
Lemma put_scratchpad_wf s m : emu_wf s -> Buffer.wf m -> emu_wf (Emulator.put_scratchpad m s).
Proof. put. Qed.
Lemma put_main_ram_wf s m : emu_wf s -> Buffer.wf m -> emu_wf (Emulator.put_main_ram m s).
Proof. put. Qed.
Lemma put_regs_wf s r : emu_wf s -> RegisterFile.wf r -> emu_wf (Emulator.put_regs r s).
Proof. put. Qed.
Lemma put_mmu_wf s m : emu_wf s -> MMU.wf m -> emu_wf (Emulator.put_mmu m s).
Proof. put. Qed.
Lemma put_axi_wf s f : emu_wf s -> Interconnect.wf f -> emu_wf (Emulator.put_axi f s).
Proof. put. Qed.
Lemma put_block_cache_wf s c : emu_wf s -> BlockCache.wf c -> emu_wf (Emulator.put_block_cache c s).
Proof. put. Qed.
Lemma put_timer_wf s t : emu_wf s -> TimerDevice.wf t -> emu_wf { s with timer_ := t }.
Proof. put. Qed.
Lemma put_uart_wf s u l : emu_wf s -> emu_wf { s with uart_ := u; stdout := l }.
Proof. put. Qed.
Lemma put_trap_wf s c i : emu_wf s -> CSRFile.wf c -> InterruptController.wf i ->
  emu_wf { s with csr_ := c; intc_ := i }.
Proof. put. Qed.
Lemma put_profiler_wf s p : emu_wf s -> Profiler.wf p -> emu_wf { s with profiler_ := p }.
Proof. put. Qed.
Lemma put_record_wf s p t : emu_wf s -> Profiler.wf p -> fits 64 t ->
  emu_wf { s with profiler_ := p; tick_accum_ := t }.
Proof. put. Qed.
Lemma put_shared_wf s o : emu_wf s -> window_ok o -> emu_wf (Emulator.put_shared o s).
Proof. put. Qed.
Lemma put_stdout_wf s l : emu_wf s -> emu_wf { s with stdout := l }.
Proof. put. Qed.
Lemma put_last_wf s p l : emu_wf s -> emu_wf { s with last_pc_ := p; last_gpr_ := l }.
Proof. put. Qed.
Lemma put_vrs_wf s vrs :
  emu_wf s -> length vrs = 8%nat -> Forall RegisterFile.vec_ok vrs -> emu_wf (Emulator.put_vrs vrs s).
Proof. intros Hs H1 H2. apply put_regs_wf; [done|]. destruct (wf_regs s Hs). by split. Qed.

(** ** Primitive computations *)
Lemma set_pc_keeps p : fits 32 p -> keepsE (Emulator.set_pc p) (fun _ => True).
Proof.
  intros Hp. apply keeps_modify. intros s Hs. apply put_regs_wf; [done|].
  apply RegisterFile.set_pc_wf; [apply Hs|done].
Qed.
Lemma read_gpr_keeps i : keepsE (Emulator.read_gpr i) (fits 32).
Proof.
  eapply keeps_bind; [apply keeps_get|]. intros s Hs. apply keeps_opt. intros v Hv.
  eapply RegisterFile.read_gpr_fits; [apply Hs|done].
Qed.
Lemma write_gpr_keeps i v :
  0 <= i -> fits 32 v -> keepsE (Emulator.write_gpr i v) (fun _ => True).
Proof.
  intros Hi Hv. eapply keeps_bind; [apply keeps_get|]. intros s Hs.
  eapply (keeps_bind _ _ _ RegisterFile.wf).
  - apply keeps_opt. intros r Hr. eapply RegisterFile.write_gpr_wf; [apply Hs|done..].
  - intros r Hr. apply keeps_modify. intros s' Hs'. by apply put_regs_wf.
Qed.
Lemma vr_data_keeps i :
  keepsE (Emulator.vr_data i) (fun v => RegisterFile.vec_ok v /\ 0 <= i < 8).
Proof.
  eapply keeps_bind; [apply keeps_get|]. intros s Hs. apply keeps_opt. intros v Hv.
  split; [eapply RegisterFile.read_vr_ok; [apply Hs|done]|].
  apply zget_Some in Hv. unfold zlen in Hv. by rewrite RegisterFile.wf_vr_len in Hv by apply Hs.
Qed.
Lemma set_overflow_keeps b : keepsE (Emulator.set_overflow b) (fun _ => True).
Proof. apply keeps_modify. intros s Hs. apply put_regs_wf; [done|]. apply RegisterFile.set_status_wf, Hs. Qed.
Lemma update_flags_keeps v : keepsE (Emulator.update_flags v) (fun _ => True).
Proof. apply keeps_modify. intros s Hs. apply put_regs_wf; [done|]. apply RegisterFile.update_flags_wf, Hs. Qed.
Lemma print_keeps l : keepsE (Emulator.print l) (fun _ => True).
Proof. apply keeps_modify. intros. by apply put_stdout_wf. Qed.
Lemma prev_pc_keeps : keepsE Emulator.prev_pc (fits 32).
Proof. apply keeps_gets. intros. apply u32_fits. Qed.
Lemma advance_pc_keeps : keepsE Emulator.advance_pc (fun _ => True).
Proof.
  apply keeps_modify. intros s Hs. apply put_regs_wf; [done|].
  apply RegisterFile.set_pc_wf; [apply Hs|apply u32_fits].
Qed.

Lemma take_trap_keeps t :
  fits 64 t.(tval) -> fits 64 t.(trap_pc) -> keepsE (Emulator.take_trap t) (fun _ => True).
Proof.
  intros H1 H2. apply keeps_modify. intros s Hs.
  destruct (InterruptController.take_trap_wf t (csr_ s) (intc_ s)) as (c & i & -> & Hc & Hi);
    [apply Hs|apply Hs|done|done|]. by apply put_trap_wf.
Qed.
Lemma mtvec_base_fits c : fits 32 (Emulator.mtvec_base c).
Proof. apply u32_fits. Qed.
Lemma trap_to_mtvec_keeps t :
  fits 64 t.(tval) -> fits 64 t.(trap_pc) -> keepsE (Emulator.trap_to_mtvec t) (fun _ => True).
Proof.
  intros H1 H2. eapply keeps_bind; [by apply take_trap_keeps|]. intros _ _.
  eapply keeps_bind; [apply keeps_get|]. intros s _. apply set_pc_keeps, mtvec_base_fits.
Qed.
(** The trap constructors at 32-bit addresses. *)
Lemma fits_32_64 z : fits 32 z -> fits 64 z.
Proof. apply fits_mono. lia. Qed.
Lemma page_fault_keeps p va st :
  fits 32 p -> fits 32 va ->
  keepsE (Emulator.trap_to_mtvec (InterruptController.page_fault_trap p va st)) (fun _ => True).
Proof. intros. apply trap_to_mtvec_keeps; by apply fits_32_64. Qed.

Lemma mmu_translate_keeps va w f :
  fits 32 va -> keepsE (Emulator.mmu_translate va w f)
                  (fun r => match r with Some pa => fits 32 pa | None => True end).
Proof.
  intros Hva. eapply keeps_bind; [apply keeps_get|]. intros s Hs.
  eapply (keeps_bind _ _ _ (fun r => match r.1 with Some pa => fits 32 pa | None => True end)).
  - apply (keeps_zoom _ _ _ _ MMU.wf); [by intros ? []|intros; by apply put_mmu_wf|].
    intros m Hm. split; [by apply MMU.translate_wf|]. intros [[pa|] c] Hr; [|done].
    destruct (MMU.translate _ _ _ _ _ _ m) as [r m'] eqn:E. cbn in Hr. subst r.
    by eapply MMU.translate_fits.
  - intros r Hr. by apply keeps_ret.
Qed.

Lemma axi_issue_keeps a n w : keepsE (Emulator.axi_issue a n w) (fun _ => True).
Proof.
  eapply keeps_bind; [apply keeps_get|]. intros s Hs.
  apply (keeps_zoom _ _ _ _ Interconnect.wf); [by intros ? []|intros; by apply put_axi_wf|].
  intros f Hf. destruct (Interconnect.issue_total
    (mkTransaction 0 a n w (Profiler.cycles (profiler_ s)) 0 AXI4)
    (Profiler.cycles (profiler_ s)) f Hf) as (b & f' & -> & Hf' & _);
    [apply Hs|by split].
Qed.

(** ** The bus *)
(** An address in the window of the shared memory. *)
Definition in_window (a : Z) : bool :=
  (Emulator.WINDOW_BASE <=? a) && (a <? Emulator.WINDOW_BASE + Emulator.WINDOW_SIZE).

(** Every address goes to the timer, to the UART, to the shared memory behind
    the window or to the scratchpad. *)
Lemma bus_cases o a (rd := Bus.read32 scratchpad_ (Emulator.bus_devices o) a)
    (wr := Bus.write32 scratchpad_ Emulator.put_scratchpad (Emulator.bus_devices o) a) :
  (rd = Emulator.timer_read a /\ forall v, wr v = Emulator.timer_write a v) \/
  (rd = Emulator.uart_read a /\ forall v, wr v = Emulator.uart_write a v) \/
  (exists m, o = Some m /\ in_window a = true /\
    rd = Emulator.window_read m a /\ forall v, wr v = Emulator.window_write m a v) \/
  (rd = (let! s := get in lift (VirtualSRAM.read32 s.(scratchpad_) a)) /\
   forall v, wr v = zoom scratchpad_ Emulator.put_scratchpad (VirtualSRAM.write32 a v)).
Proof.
  subst rd wr. unfold Bus.read32, Bus.write32, Bus.route, Emulator.bus_devices,
    Emulator.devices_, Bus.add_device.
  destruct (Bus.is_mmio a); [|by do 3 right]. destruct o as [m|]; cbn [List.find app].
  - destruct (Bus.holds a _); [by left|]. destruct (Bus.holds a _); [by right; left|].
    destruct (Bus.holds a _) eqn:E; [right; right; left|by do 3 right]. exists m. by repeat split.
  - destruct (Bus.holds a _); [by left|]. destruct (Bus.holds a _); [by right; left|by do 3 right].
Qed.

(** Below the peripherals the bus is the scratchpad. *)
Lemma bus_read32_low a s :
  a < MMIO_BASE -> Emulator.bus_read32 a s = (VirtualSRAM.read32 s.(scratchpad_) a, s).
Proof. intros H. unfold Emulator.bus_read32. rewrite get_run. by apply Bus.read32_low. Qed.
Lemma bus_write32_low a v s :
  a < MMIO_BASE -> Emulator.bus_write32 a v s =
  zoom scratchpad_ Emulator.put_scratchpad (VirtualSRAM.write32 a v) s.
Proof. intros H. unfold Emulator.bus_write32. rewrite get_run. by apply Bus.write32_low. Qed.

(** An access of the window stays inside the shared memory. *)
Lemma window_in_range o m a :
  window_ok o -> o = Some m -> in_window a = true ->
  Buffer.in_range m (u32 (a - Emulator.WINDOW_BASE)) 4 = true.
Proof.
  intros Ho Hm [H1 H2]%andb_prop. destruct (Ho m Hm) as [_ Hl].
  apply Z.leb_le in H1. apply Z.ltb_lt in H2.
  unfold Emulator.WINDOW_SIZE, Emulator.WINDOW_BASE in *.
  rewrite u32_small by (unfold fits; lia). unfold Buffer.in_range.
  destruct (Z.leb_spec 0 (a - 0x80000000)), (Z.leb_spec (a - 0x80000000 + 4) (blen m)); (done || lia).
Qed.
Lemma window_read_run o m a s :
  window_ok o -> o = Some m -> in_window a = true ->
  Emulator.window_read m a s =
  (Ok (le_val (Buffer.peek m (u32 (a - Emulator.WINDOW_BASE)) 4)), s).
Proof. intros. unfold Emulator.window_read. by erewrite window_in_range. Qed.
Lemma window_write_run o m a v s :
  window_ok o -> o = Some m -> in_window a = true ->
  Emulator.window_write m a v s =
  (Ok tt, Emulator.put_shared
     (Some (Buffer.poke m (u32 (a - Emulator.WINDOW_BASE)) (le_bytes 4 v))) s).
Proof. intros. unfold Emulator.window_write. by erewrite window_in_range. Qed.

Lemma bus_read32_keeps a : fits 32 a -> keepsE (Emulator.bus_read32 a) (fits 32).
Proof.
  intros Ha. eapply keeps_bind; [apply keeps_get|]. intros s0 Hs0.
  destruct (bus_cases s0.(shared_) a) as [[-> _]|[[-> _]|[(m & Hm & Hw & -> & _)|[-> _]]]].
  - intros s Hs. unfold Emulator.timer_read.
    destruct (TimerDevice.read_reg (u32 (a - MMIO_BASE)) (timer_ s)) as [v t] eqn:E. cbn.
    pose proof (TimerDevice.read_reg_wf (u32 (a - MMIO_BASE)) (timer_ s) (wf_timer s Hs)) as H1.
    pose proof (TimerDevice.timer_read_reg_fits (u32 (a - MMIO_BASE)) (timer_ s) (wf_timer s Hs)) as H2.
    rewrite E in H1, H2. split; [by apply put_timer_wf|]. by intros ? [= <-].
  - apply keeps_gets. intros. apply UartDevice.uart_read_reg_fits.
  - intros s Hs. rewrite (window_read_run _ _ _ _ (wf_shared _ Hs0) Hm Hw). split; [done|].
    intros ? [= <-]. apply VirtualSRAM.peek_word_fits, (wf_shared _ Hs0 m Hm).
  - eapply keeps_bind; [apply keeps_get|]. intros s Hs. apply keeps_lift. intros v.
    apply VirtualSRAM.read32_fits, Hs.
Qed.

Lemma scratchpad_keeps (m : M VirtualSRAM unit) :
  preserves Buffer.wf m -> keepsE (zoom scratchpad_ Emulator.put_scratchpad m) (fun _ => True).
Proof.
  intros Hm. apply (keeps_zoom _ _ _ _ Buffer.wf); [by intros ? []|intros; by apply put_scratchpad_wf|].
  by apply keeps_true.
Qed.
Lemma bus_write32_keeps a v :
  fits 32 a -> fits 32 v -> keepsE (Emulator.bus_write32 a v) (fun _ => True).
Proof.
  intros Ha Hv. eapply keeps_bind; [apply keeps_get|]. intros s0 Hs0.
  destruct (bus_cases s0.(shared_) a) as [[_ ->]|[[_ ->]|[(m & Hm & Hw & _ & ->)|[_ ->]]]].
  - apply keeps_modify. intros s Hs. apply put_timer_wf; [done|].
    apply TimerDevice.write_reg_wf; [apply Hs|done].
  - intros s Hs. unfold Emulator.uart_write. destruct (UartDevice.write_reg _ _ _) as [u out].
    split; [by apply put_uart_wf|done].
  - intros s Hs. rewrite (window_write_run _ _ _ _ _ (wf_shared _ Hs0) Hm Hw). split; [|done].
    apply put_shared_wf; [done|]. intros ? [= <-]. destruct (wf_shared _ Hs0 m Hm) as [H1 H2].
    split; [apply Buffer.wf_poke; [done|exact (le_bytes_bytes 4 v)]|done].
  - apply scratchpad_keeps. apply VirtualSRAM.write_bytes_wf, le_bytes_bytes.
Qed.

Create HintDb emu.
#[export] Hint Resolve set_pc_keeps read_gpr_keeps write_gpr_keeps vr_data_keeps set_overflow_keeps
  update_flags_keeps print_keeps prev_pc_keeps advance_pc_keeps take_trap_keeps trap_to_mtvec_keeps
  page_fault_keeps mmu_translate_keeps axi_issue_keeps bus_read32_keeps bus_write32_keeps
  keeps_get keeps_throw keeps_undef : emu.
#[export] Hint Resolve u32_fits u64_fits fits_32_64 : emu.
#[export] Hint Extern 2 (0 <= _) => (first [apply Instruction.rd_range|apply Instruction.ra_range
  |apply Instruction.rb_range|lia]) : emu.
#[export] Hint Extern 2 (fits 32 _) => (unfold fits; lia) : emu.

(** Step through a computation, using the lemma of each primitive. *)
Ltac keeps_step :=
  lazymatch goal with
  | |- keeps _ (bind get _) _ => eapply keeps_bind; [apply keeps_get|intros ? ?]
  | |- keeps _ (bind _ _) _ => eapply keeps_bind; [|intros ? ?]
  | |- keeps _ (ret _) (fun _ => True) => by apply keeps_ret
  | |- keeps _ (ret _) _ => apply keeps_ret
  | |- keeps _ (let '(_, _) := _ in _) _ => cbv beta iota zeta
  | |- keeps _ (match _ with _ => _ end) _ => case_match
  | |- keeps _ _ _ => solve [eauto 4 with emu]
  | |- fits 32 (cycle_weight _ _) => apply cycle_weight_fits
  end.
Ltac keeps_tac := repeat keeps_step.

(** ** Bytes of a vector register *)
Lemma le_val_fits4 l : Forall is_byte l -> fits 32 (le_val (take 4 l)).
Proof.
  intros Hl. assert (Forall is_byte (take 4 l)) as [H1 H2]%le_val_range by by apply Forall_take.
  split; [done|]. apply Z.lt_le_trans with (1 := H2).
  change (2 ^ 32) with (256 ^ 4). apply Z.pow_le_mono_r; [lia|]. rewrite length_take. lia.
Qed.
Lemma bytes_vr_ok l : Forall is_byte l -> RegisterFile.vec_ok (Emulator.bytes_vr 16 l).
Proof.
  assert (Hgo : forall n l, Forall is_byte l ->
    length (Emulator.bytes_vr n l) = n /\ Forall (fits 32) (Emulator.bytes_vr n l)).
  { induction n as [|n IH]; intros k Hk; [by split|]. cbn [Emulator.bytes_vr length].
    destruct (IH (drop 4 k)) as [-> ?]; [by apply Forall_drop|]. split; [done|].
    constructor; [by apply le_val_fits4|done]. }
  apply Hgo.
Qed.
Lemma vr_bytes_bytes v : Forall is_byte (Emulator.vr_bytes v).
Proof.
  unfold Emulator.vr_bytes. apply Forall_concat, Forall_map, Forall_true.
  intros. apply le_bytes_bytes.
Qed.

(** ** Handlers *)
Section Handlers.
Context `{FloatOps} (path : HostPath).

Lemma branch_if_keeps b i c : fits 32 (c + 1) -> fits 32 c -> keepsE (Emulator.branch_if b i c) (fits 32).
Proof.
  intros H1 H2. unfold Emulator.branch_if. case_match; [|by apply keeps_ret].
  eapply keeps_bind; [|intros; by apply keeps_ret]. apply keeps_modify. intros s Hs.
  apply put_regs_wf; [done|]. apply RegisterFile.set_pc_wf; [apply Hs|apply u32_fits].
Qed.
Lemma effective_address_keeps i : keepsE (Emulator.effective_address i) (fits 32).
Proof. unfold Emulator.effective_address. keeps_tac. apply u32_fits. Qed.

#[local] Hint Resolve effective_address_keeps : emu.
#[local] Hint Extern 1 (fits 32 (cycle_weight _ _)) => apply cycle_weight_fits : emu.
#[local] Hint Extern 1 (fits 32 (Instruction.target _)) =>
  (eapply fits_mono; [|apply Instruction.target_range]; lia) : emu.
#[local] Hint Extern 1 (fits 32 (Instruction.imm16 _)) =>
  (eapply fits_mono; [|apply Instruction.imm16_range]; lia) : emu.

(** The address of a load or store, translated when the MMU is on. *)
Lemma maybe_translate_keeps (b : bool) va w :
  fits 32 va -> keepsE (if b then Emulator.mmu_translate va w false else ret (Some va))
    (fun r => match r with Some pa => fits 32 pa | None => True end).
Proof. intros. case_match; [by apply mmu_translate_keeps|by apply keeps_ret]. Qed.
#[local] Hint Resolve maybe_translate_keeps : emu.

Lemma op_load_keeps i : keepsE (Emulator.op_load i) (fits 32).
Proof.
  unfold Emulator.op_load. keeps_tac; eauto with emu.
Qed.
Lemma op_store_keeps i : keepsE (Emulator.op_store i) (fits 32).
Proof. unfold Emulator.op_store. keeps_tac; eauto with emu. Qed.

Lemma op_vec_add_keeps i : keepsE (Emulator.op_vec_add path i) (fits 32).
Proof.
  unfold Emulator.op_vec_add.
  eapply keeps_bind; [apply vr_data_keeps|]. intros _ [_ Hd].
  eapply keeps_bind; [apply vr_data_keeps|]. intros _ [_ Ha].
  eapply keeps_bind; [apply vr_data_keeps|]. intros _ [_ Hb].
  eapply keeps_bind; [apply keeps_get|]. intros s Hs.
  assert (Hok : vrs_ok (vr (regs_ s))) by (split; apply Hs).
  eapply keeps_bind.
  - apply keeps_modify. intros s' Hs'.
    assert (Hnew : vrs_ok (if accel_ s
      then Host.vec_add_host path (vr (regs_ s)) (Instruction.rd i) (Instruction.ra i) (Instruction.rb i)
      else Host.vec_add_scalar (vr (regs_ s)) (Instruction.rd i) (Instruction.ra i) (Instruction.rb i))).
    { rewrite vec_add_path, vec_add_scalar_sums;
        try (by apply vrs_ok_rows); try (unfold zlen; destruct Hok as [-> _]; done).
      case_match; (apply vrs_ok_set; [done|by apply vec_sums_ok]). }
    destruct Hnew. by apply put_vrs_wf.
  - intros _ _. apply keeps_ret. apply profile_cycle_weight_fits, Hs.
Qed.

Lemma op_matmul_tile_keeps i : keepsE (Emulator.op_matmul_tile i) (fits 32).
Proof.
  unfold Emulator.op_matmul_tile. case_match eqn:Hn; [apply keeps_throw|].
  apply orb_false_iff in Hn as [Hn0%Z.eqb_neq Hn4%Z.ltb_ge]. unfold TILE_SIZE in Hn4.
  assert (Hn : 1 <= Z.land (Instruction.func i) 15 <= 4).
  { split; [|done]. pose proof (land_fits (Instruction.func i) 15 4 ltac:(lia) ltac:(lia)) as []. lia. }
  eapply keeps_bind; [apply vr_data_keeps|]. intros _ [_ Hd].
  eapply keeps_bind; [apply vr_data_keeps|]. intros _ [_ Ha].
  eapply keeps_bind; [apply vr_data_keeps|]. intros _ [_ Hb].
  eapply keeps_bind; [apply keeps_get|]. intros s Hs.
  assert (Hok : vrs_ok (vr (regs_ s))) by (split; apply Hs).
  rewrite matmul_host_loop.
  destruct (matmul_loop_ok _ _ _ _ _ Hok Hd Ha Hb Hn) as (w & Hw & Hwok).
  rewrite Hw. eapply (keeps_bind _ _ _ vrs_ok).
  - apply keeps_opt. intros x. case_match; congruence.
  - intros x [H1 H2]. eapply keeps_bind.
    + apply keeps_modify. intros s' Hs'. by apply put_vrs_wf.
    + intros _ _. apply keeps_ret. apply profile_cycle_weight_fits, Hs.
Qed.

Lemma op_load_vr_keeps i : keepsE (Emulator.op_load_vr i) (fits 32).
Proof.
  unfold Emulator.op_load_vr. keeps_step; [keeps_step|].
  eapply keeps_bind; [apply vr_data_keeps|]. intros _ [_ Hd]. keeps_step.
  eapply (keeps_bind _ _ _ (Forall is_byte)).
  - apply keeps_lift. intros l. apply VirtualSRAM.read_bytes_bytes. by apply wf_scratchpad.
  - intros l Hl. eapply keeps_bind.
    + apply keeps_modify. intros s' Hs'. apply put_regs_wf; [done|].
      apply RegisterFile.write_vr_wf; [apply Hs'|by apply bytes_vr_ok].
    + intros _ _. apply keeps_ret, cycle_weight_fits.
Qed.
Lemma op_store_vr_keeps i : keepsE (Emulator.op_store_vr i) (fits 32).
Proof.
  unfold Emulator.op_store_vr. keeps_step; [keeps_step|]. keeps_step; [keeps_step|].
  eapply keeps_bind; [apply scratchpad_keeps, VirtualSRAM.write_bytes_wf, vr_bytes_bytes|].
  intros _ _. apply keeps_ret, cycle_weight_fits.
Qed.

Lemma dma_addresses_keeps d sr k :
  fits 32 d -> fits 32 sr ->
  keepsE (Emulator.dma_addresses d sr k)
    (fun r => match r with Some (a, b) => fits 32 a /\ fits 32 b | None => True end).
Proof.
  intros Hd Hsr. unfold Emulator.dma_addresses. keeps_step. case_match; [|by apply keeps_ret].
  eapply keeps_bind; [by apply mmu_translate_keeps|]. intros pd Hpd.
  eapply keeps_bind; [by apply mmu_translate_keeps|]. intros ps Hps.
  destruct pd, ps; [by apply keeps_ret|..];
    (eapply keeps_bind; [apply prev_pc_keeps|intros p Hp];
     eapply keeps_bind; [by apply page_fault_keeps|intros _ _; by apply keeps_ret]).
Qed.
Lemma copy_to_scratchpad_keeps d sr n : keepsE (Emulator.copy_to_scratchpad d sr n) (fun _ => True).
Proof.
  unfold Emulator.copy_to_scratchpad. keeps_step. case_match; [|apply keeps_undef].
  apply keeps_modify. intros s' Hs'. apply put_scratchpad_wf; [done|].
  apply Buffer.wf_poke; [by destruct H0|]. apply Buffer.peek_wf. by destruct H0.
Qed.
Lemma copy_to_main_ram_keeps d sr n : keepsE (Emulator.copy_to_main_ram d sr n) (fun _ => True).
Proof.
  unfold Emulator.copy_to_main_ram. keeps_step. case_match; [|apply keeps_undef].
  apply keeps_modify. intros s' Hs'. apply put_main_ram_wf; [done|].
  apply Buffer.wf_poke; [by destruct H0|]. apply Buffer.peek_wf. by destruct H0.
Qed.

Lemma op_dma_load_keeps i : keepsE (Emulator.op_dma_load i) (fits 32).
Proof.
  unfold Emulator.op_dma_load. keeps_step; [keeps_step|]. keeps_step; [keeps_step|].
  eapply keeps_bind; [by apply dma_addresses_keeps|]. intros [[xd xs]|] Hab; [|keeps_tac; eauto with emu].
  destruct Hab as [Hxd Hxs]. keeps_step. case_match; [apply keeps_throw|].
  case_match; [apply keeps_throw|]. keeps_step; [keeps_step|]. eapply (keeps_bind _ _ _ (fun _ => True)).
  - case_match; [by apply keeps_ret|]. apply keeps_modify. intros s' Hs'.
    apply put_profiler_wf; [done|]. apply Profiler.record_wf, Hs'.
  - intros _ _. eapply keeps_bind; [apply copy_to_scratchpad_keeps|]. intros _ _.
    apply keeps_ret, profile_cycle_weight_fits. by destruct H2.
Qed.
Lemma op_dma_store_keeps i : keepsE (Emulator.op_dma_store i) (fits 32).
Proof.
  unfold Emulator.op_dma_store. keeps_step; [keeps_step|]. keeps_step; [keeps_step|].
  eapply keeps_bind; [by apply dma_addresses_keeps|]. intros [[xd xs]|] Hab; [|keeps_tac; eauto with emu].
  destruct Hab as [Hxd Hxs]. keeps_step. case_match; [apply keeps_throw|].
  case_match; [apply keeps_throw|]. keeps_step; [keeps_step|].
  eapply keeps_bind; [apply copy_to_main_ram_keeps|]. intros _ _.
  apply keeps_ret, profile_cycle_weight_fits. by destruct H2.
Qed.

Lemma op_nop_keeps i : keepsE (Emulator.op_nop i) (fits 32).
Proof. apply keeps_ret, cycle_weight_fits. Qed.
Lemma op_halt_keeps i : keepsE (Emulator.op_halt i) (fits 32).
Proof.
  eapply keeps_bind; [|intros; apply keeps_ret; unfold fits; lia].
  apply keeps_modify. intros s Hs. apply put_regs_wf; [done|]. apply RegisterFile.set_halt_wf, Hs.
Qed.
Lemma op_jmp_keeps i : keepsE (Emulator.op_jmp i) (fits 32).
Proof. unfold Emulator.op_jmp. keeps_tac. Qed.
Lemma op_beq_keeps i : keepsE (Emulator.op_beq i) (fits 32).
Proof.
  unfold Emulator.op_beq. keeps_step; [keeps_step|]. keeps_step; [keeps_step|].
  apply branch_if_keeps; vm_compute; split; congruence.
Qed.
Lemma op_bne_keeps i : keepsE (Emulator.op_bne i) (fits 32).
Proof.
  unfold Emulator.op_bne. keeps_step; [keeps_step|]. keeps_step; [keeps_step|].
  apply branch_if_keeps; vm_compute; split; congruence.
Qed.
Lemma op_add_keeps i : keepsE (Emulator.op_add i) (fits 32).
Proof. unfold Emulator.op_add. keeps_tac. Qed.
Lemma op_sub_keeps i : keepsE (Emulator.op_sub i) (fits 32).
Proof. unfold Emulator.op_sub. keeps_tac. Qed.
Lemma op_mul_keeps i : keepsE (Emulator.op_mul i) (fits 32).
Proof. unfold Emulator.op_mul. keeps_tac. Qed.
Lemma op_mov_keeps i : keepsE (Emulator.op_mov i) (fits 32).
Proof. unfold Emulator.op_mov. keeps_tac. Qed.
Lemma op_movi_keeps i : keepsE (Emulator.op_movi i) (fits 32).
Proof. unfold Emulator.op_movi. keeps_tac. Qed.

(** Every entry of the dispatch table. *)
Lemma dispatch_keeps op handler i :
  Emulator.dispatch_table_ path op = Some handler -> keepsE (handler i) (fits 32).
Proof.
  unfold Emulator.dispatch_table_. destruct (opcode_of op) as [o|]; [|done].
  destruct o; intros [= <-].
  - apply op_nop_keeps. - apply op_halt_keeps. - apply op_jmp_keeps. - apply op_beq_keeps.
  - apply op_bne_keeps. - apply op_add_keeps. - apply op_sub_keeps. - apply op_mul_keeps.
  - apply op_load_keeps. - apply op_store_keeps. - apply op_mov_keeps. - apply op_movi_keeps.
  - apply op_load_vr_keeps. - apply op_store_vr_keeps. - apply op_vec_add_keeps.
  - apply op_matmul_tile_keeps. - apply op_dma_load_keeps. - apply op_dma_store_keeps.
Qed.

(** ** The pipeline *)
Lemma fetch_keeps : keepsE Emulator.fetch (fun i => fits 32 i.(raw)).
Proof.
  unfold Emulator.fetch. keeps_step.
  match goal with H : emu_wf ?s |- _ =>
    assert (Hpc : fits 32 (Registers.pc (regs_ s))) by apply H end.
  case_match.
  - eapply keeps_bind; [by apply mmu_translate_keeps|]. intros [pa|] Hpa.
    + keeps_step. case_match; [|apply keeps_undef].
      eapply keeps_bind; [apply advance_pc_keeps|]. intros _ _. apply keeps_ret. cbn [raw].
      apply VirtualSRAM.peek_word_fits. by apply wf_scratchpad.
    + eapply keeps_bind; [apply trap_to_mtvec_keeps; cbn; by apply fits_32_64|].
      intros _ _. apply keeps_ret. vm_compute. split; congruence.
  - eapply keeps_bind; [by apply bus_read32_keeps|]. intros v Hv.
    eapply keeps_bind; [apply advance_pc_keeps|]. intros _ _. by apply keeps_ret.
Qed.

Lemma execute_keeps i : fits 32 i.(raw) -> keepsE (Emulator.execute path i) (fits 32).
Proof.
  intros Hi. unfold Emulator.execute.
  destruct (Emulator.dispatch_table_ path (Instruction.opcode i)) as [h|] eqn:Hd.
  - eapply keeps_bind; [by eapply dispatch_keeps|]. intros c Hc. eapply keeps_bind.
    + apply keeps_modify. intros s Hs. apply put_record_wf; [done| |apply u64_fits].
      apply Profiler.record_wf, Hs.
    + intros _ _. by apply keeps_ret.
  - eapply keeps_bind; [apply prev_pc_keeps|]. intros p Hp. keeps_step.
    case_match; [|apply keeps_throw].
    eapply keeps_bind; [apply trap_to_mtvec_keeps; cbn; by apply fits_32_64|].
    intros _ _. apply keeps_ret. unfold fits. lia.
Qed.
End Handlers.

Lemma raise_timer_wf c : InterruptController.wf c -> InterruptController.wf (InterruptController.raise_timer c).
Proof. intros []. split; cbn; auto with novium. Qed.
Lemma clear_timer_wf c : InterruptController.wf c -> InterruptController.wf (InterruptController.clear_timer c).
Proof. intros []. split; cbn; auto with novium. Qed.

Lemma tick_once_wf s : emu_wf s -> 1000 <= s.(tick_accum_) -> emu_wf (Emulator.tick_once s).
Proof.
  intros [] Ha. unfold Emulator.tick_once.
  assert (fits 64 (tick_accum_ s - CYCLES_PER_TICK)) by (unfold fits, CYCLES_PER_TICK in *; lia).
  split; cbn; auto using Interconnect.fabric_tick_wf, TimerDevice.timer_tick_wf.
  case_match; [by apply raise_timer_wf|by apply clear_timer_wf].
Qed.
Lemma tick_loop_wf n s : emu_wf s -> emu_wf (Emulator.tick_loop n s).
Proof.
  revert s. induction n as [|n IH]; intros s Hs; [done|]. cbn [Emulator.tick_loop].
  unfold CYCLES_PER_TICK. destruct (Z.leb_spec 1000 (tick_accum_ s)); [|done].
  by apply IH, tick_once_wf.
Qed.
Lemma tick_peripherals_wf s : emu_wf s -> emu_wf (Emulator.tick_peripherals s).
Proof. apply tick_loop_wf. Qed.

Section Steps.
Context `{FloatOps} (path : HostPath).

Lemma log_step_keeps p i c : keepsE (Emulator.log_step p i c) (fun _ => True).
Proof. unfold Emulator.log_step. keeps_step. apply print_keeps. Qed.

Lemma service_interrupt_keeps : keepsE Emulator.service_interrupt (fun _ => True).
Proof.
  unfold Emulator.service_interrupt. keeps_step.
  destruct (InterruptController.pending_interrupt _ _) as [t|] eqn:Hp; [|by apply keeps_ret].
  apply InterruptController.pending_interrupt_async in Hp as (Hpc & Htv & _).
  eapply keeps_bind; [apply take_trap_keeps; rewrite ?Hpc, ?Htv; unfold fits; lia|].
  intros _ _. keeps_step. apply set_pc_keeps. case_match; apply u32_fits.
Qed.

Lemma step_keeps : keepsE (Emulator.step path) (fun _ => True).
Proof.
  unfold Emulator.step. keeps_step. case_match; [by apply keeps_ret|].
  eapply keeps_bind; [apply service_interrupt_keeps|]. intros _ _. keeps_step.
  eapply (keeps_bind _ _ _ (fun _ => True)).
  { case_match; [|by apply keeps_ret]. apply keeps_modify. intros s Hs. by apply put_last_wf. }
  intros _ _. eapply keeps_bind; [apply fetch_keeps|]. intros i Hi.
  eapply keeps_bind; [by apply execute_keeps|]. intros c Hc.
  eapply keeps_bind; [apply keeps_modify, tick_peripherals_wf|]. intros _ _. keeps_step.
  case_match; [apply log_step_keeps|by apply keeps_ret].
Qed.

Lemma run_loop_keeps n : keepsE (Emulator.run_loop path n) (fun _ => True).
Proof.
  induction n as [|n IH]; cbn [Emulator.run_loop]; keeps_step;
    (case_match; [by apply keeps_ret|]); [by apply keeps_ret|].
  eapply keeps_bind; [apply step_keeps|]. intros _ _. apply IH.
Qed.
Lemma flush_uart_keeps : keepsE Emulator.flush_uart (fun _ => True).
Proof.
  intros s Hs. unfold Emulator.flush_uart. destruct (UartDevice.flush (uart_ s)).
  split; [by apply put_uart_wf|done].
Qed.
Lemma run_keeps n : keepsE (Emulator.run path n) (fun _ => True).
Proof.
  eapply keeps_bind; [apply run_loop_keeps|]. intros d _. case_match; [|by apply keeps_ret].
  eapply keeps_bind; [apply flush_uart_keeps|]. intros. by apply keeps_ret.
Qed.

Lemma run_block_keeps l :
  Forall (fun i => fits 32 i.(raw)) l -> keepsE (Emulator.run_block path l) (fun _ => True).
Proof.
  induction 1 as [|i l Hi _ IH]; cbn [Emulator.run_block]; [by apply keeps_ret|].
  keeps_step. case_match; [by apply keeps_ret|].
  eapply keeps_bind; [apply advance_pc_keeps|]. intros _ _.
  eapply keeps_bind; [by apply execute_keeps|]. intros c _.
  eapply keeps_bind; [apply keeps_modify, tick_peripherals_wf|]. intros _ _.
  case_match; [by apply keeps_ret|apply IH].
Qed.
Lemma translate_block_keeps p : keepsE (Emulator.translate_block p) BlockCache.block_wf.
Proof.
  unfold Emulator.translate_block. keeps_step.
  apply (keeps_zoom _ _ _ _ BlockCache.wf); [by intros ? []|intros; by apply put_block_cache_wf|].
  apply BlockCache.translate_keeps. by apply wf_scratchpad.
Qed.
Lemma run_fast_loop_keeps n : keepsE (Emulator.run_fast_loop path n) (fun _ => True).
Proof.
  induction n as [|n IH]; cbn [Emulator.run_fast_loop]; keeps_step;
    (case_match; [by apply keeps_ret|]); [by apply keeps_ret|].
  case_match; [eapply keeps_bind; [apply step_keeps|intros _ _; apply IH]|].
  eapply keeps_bind; [apply translate_block_keeps|]. intros b Hb.
  eapply keeps_bind; [by apply run_block_keeps|]. intros _ _. apply IH.
Qed.
Lemma run_fast_keeps n : keepsE (Emulator.run_fast path n) (fun _ => True).
Proof.
  eapply keeps_bind; [apply run_fast_loop_keeps|]. intros d _. case_match; [|by apply keeps_ret].
  eapply keeps_bind; [apply flush_uart_keeps|]. intros. by apply keeps_ret.
Qed.
End Steps.

(** ** The other public operations *)
Lemma create_wf n m : fits 64 n -> fits 64 m -> emu_wf (Emulator.create n m).
Proof.
  intros Hn Hm.
  assert (Hfab : forall cfg, 0 <= max_outstanding cfg -> u32 (data_width cfg * burst_len cfg) <> 0 ->
    Interconnect.wf (Interconnect.make cfg)).
  { intros cfg H1 H2. split; cbn; auto with novium. unfold Interconnect.outstanding, zlen. cbn. lia. }
  split; cbn [Emulator.create scratchpad_ main_ram_ regs_ csr_ mmu_ interconnect_ axi_ pcie_ cxi_
    timer_ profiler_ intc_ target_ block_cache_ tick_accum_].
  - by apply Buffer.wf_make.
  - by apply Buffer.wf_make.
  - apply RegisterFile.regs_init_wf.
  - apply CSRFile.csr_reset_wf.
  - apply MMU.mmu_init_wf.
  - apply Hfab; vm_compute; congruence.
  - apply Hfab; vm_compute; congruence.
  - apply Hfab; vm_compute; congruence.
  - apply Hfab; vm_compute; congruence.
  - apply TimerDevice.timer_init_wf.
  - apply Profiler.prof_init_wf.
  - split; vm_compute; split; congruence.
  - apply (make_profile_wf ASIC).
  - apply map_Forall_empty.
  - unfold fits. lia.
  - intros ? [=].
Qed.

Lemma reset_wf s : emu_wf s -> emu_wf (Emulator.reset s).
Proof.
  intros []. split; try assumption.
  - by apply Buffer.wf_clear.
  - by apply Buffer.wf_clear.
  - apply RegisterFile.regs_init_wf.
  - apply CSRFile.csr_reset_wf.
  - apply MMU.set_enabled_wf, MMU.tlb_flush_wf. assumption.
  - by apply Interconnect.fabric_reset_wf.
  - by apply Interconnect.fabric_reset_wf.
  - by apply Interconnect.fabric_reset_wf.
  - by apply Interconnect.fabric_reset_wf.
  - apply Profiler.prof_init_wf.
  - split; cbn; unfold fits; lia.
  - apply map_Forall_empty.
  - cbn. unfold fits. lia.
Qed.

Lemma words_bytes_bytes ws : Forall is_byte (VirtualSRAM.words_bytes ws).
Proof. apply vr_bytes_bytes. Qed.

Lemma load_program_keeps ws : keepsE (Emulator.load_program ws) (fun _ => True).
Proof.
  unfold Emulator.load_program, Emulator.load_program_bytes. case_match; [apply keeps_throw|].
  eapply keeps_bind; [apply scratchpad_keeps, VirtualSRAM.write_bytes_wf, words_bytes_bytes|].
  intros _ _. apply keeps_modify. intros s Hs.
  exact (put_block_cache_wf s _ Hs (BlockCache.clear_wf _)).
Qed.
Lemma load_data_keeps a l : Forall is_byte l -> keepsE (Emulator.load_data a l) (fun _ => True).
Proof. intros. by apply scratchpad_keeps, VirtualSRAM.write_bytes_wf. Qed.
Lemma load_main_ram_keeps a l : Forall is_byte l -> keepsE (Emulator.load_main_ram a l) (fun _ => True).
Proof.
  intros. apply (keeps_zoom _ _ _ _ Buffer.wf); [by intros ? []|intros; by apply put_main_ram_wf|].
  by apply keeps_true, MainRAM.ram_write_wf.
Qed.
Lemma load_tensor_keeps a l : keepsE (Emulator.load_tensor a l) (fun _ => True).
Proof. apply scratchpad_keeps, VirtualSRAM.write_bytes_wf, words_bytes_bytes. Qed.
Lemma set_target_wf p s : emu_wf s -> profile_wf p -> emu_wf (Emulator.set_target p s).
Proof. intros [] Hp. split; cbn; auto. apply map_Forall_empty. Qed.
Lemma config_wf s v a d : emu_wf s -> emu_wf { s with verbose_ := v; accel_ := a; debugger_ := d }.
Proof. by intros []. Qed.
