(* ===== verification/Interface.v ===== *)
(** * What a client of the emulator can do: the public part of emulator.h

    The class hands out its parts by reference: [csr()], [mmu()], the four
    fabrics, [interrupt_controller()], [memory()], [main_ram()], [timer()],
    [uart()], [debugger()] and [block_cache()].  Each part has a relation of
    the calls a client can make on it, the public fields and the raw pointers
    included, and [api_step] is a call on the whole machine or on one of its
    parts.  Arguments are any values of their C++ types.

    Three kinds of call are not in the relation: the ones that connect a part
    to another object ([attach_ram], [set_csr], [attach_csr] and [add_device],
    whose pointers and callbacks the state has no field for), those on
    [translator()], which no other member reads, and those whose arguments are
    out of range of an array or a pointer. *)

From S2P Require Import Prelude Text Isa Memory Registers Interrupt Devices Bus Float Profiler Interconnect Target Host Mmu Translate Emulator EmulatorWf.
#[local] Open Scope Z_scope.

(** ** A part and its invariant *)

(** No call on the part breaks its invariant. *)
Class Component {S : Type} (call : S -> S -> Prop) (inv : S -> Prop) : Prop :=
  component_keeps s s' : inv s -> call s s' -> inv s'.
Lemma component_rtc {S} (call : S -> S -> Prop) inv `{!Component call inv} s s' :
  inv s -> rtc call s s' -> inv s'.
Proof. intros Hs Hr. induction Hr as [|x y z Hxy _ IH]; [done|]. by apply IH, (component_keeps x). Qed.

(** ** The parts *)

(** The registers and the privilege are public fields. *)
Inductive csr_call : CSRFile -> CSRFile -> Prop :=
  | csr_write a v c : fits 64 v -> csr_call c (CSRFile.write c a v)
  | csr_slot a v c : 0 <= a < 4096 -> fits 64 v -> csr_call c { c with regs := <[a := v]> c.(regs) }
  | csr_priv p c : p = User \/ p = Supervisor \/ p = Machine -> csr_call c { c with priv := p }
  | csr_reset c : csr_call c (CSRFile.reset c).
#[export] Instance csr_component : Component csr_call CSRFile.wf.
Proof.
  intros c c' Hc Hst. destruct Hst as [a v c Hv|a v c _ Hv|p c Hp|c].
  - by apply CSRFile.csr_write_wf.
  - destruct Hc as [Hr Hp]. split; cbn; [by apply map_Forall_insert_2|done].
  - apply CSRFile.set_priv_wf; [done|]. unfold User, Supervisor, Machine in Hp. lia.
  - apply CSRFile.csr_reset_wf.
Qed.

Inductive mmu_call (ram : VirtualSRAM) (csr : CSRFile) : MMU -> MMU -> Prop :=
  | mmu_enable b m : mmu_call ram csr m (MMU.set_enabled b m)
  | mmu_translate cause va w f m :
      mmu_call ram csr m (MMU.translate (Some ram) (Some csr) cause va w f m).2
  | mmu_flush m : mmu_call ram csr m (MMU.tlb_flush m)
  | mmu_flush_va va m : mmu_call ram csr m (MMU.tlb_flush_va va m)
  | mmu_map va pa n perms m : mmu_call ram csr m (MMU.identity_map va pa n perms m).
#[export] Instance mmu_component ram csr : Component (mmu_call ram csr) MMU.wf.
Proof.
  intros m m' Hm Hst. destruct Hst.
  - by apply MMU.set_enabled_wf.
  - by apply MMU.translate_wf.
  - by apply MMU.tlb_flush_wf.
  - destruct Hm as [H1 H2]. split; [exact (eq_trans (length_map _ _) H1)|exact H2].
  - by destruct Hm.
Qed.

(** The controller works on the CSRs it is attached to. *)
Inductive intc_call : CSRFile * InterruptController -> CSRFile * InterruptController -> Prop :=
  | intc_raise_timer c i : intc_call (c, i) (c, InterruptController.raise_timer i)
  | intc_raise_external n c i : intc_call (c, i) (c, InterruptController.raise_external n i)
  | intc_raise_soft c i : intc_call (c, i) (c, InterruptController.raise_soft i)
  | intc_clear_timer c i : intc_call (c, i) (c, InterruptController.clear_timer i)
  | intc_clear_external c i : intc_call (c, i) (c, InterruptController.clear_external i)
  | intc_clear_soft c i : intc_call (c, i) (c, InterruptController.clear_soft i)
  | intc_set_mip v c i : fits 32 v -> intc_call (c, i) (c, InterruptController.set_mip v i)
  | intc_reset c i : intc_call (c, i) (c, InterruptController.reset i)
  | intc_trap t b c i c' i' : fits 64 t.(tval) -> fits 64 t.(trap_pc) ->
      InterruptController.take_trap t (Some c) i = (b, Some c', i') -> intc_call (c, i) (c', i')
  | intc_mret v c i c' : InterruptController.mret (Some c) = (v, Some c') -> intc_call (c, i) (c', i)
  | intc_sret v c i c' : InterruptController.sret (Some c) = (v, Some c') -> intc_call (c, i) (c', i).
Definition traps_wf (p : CSRFile * InterruptController) : Prop :=
  CSRFile.wf p.1 /\ InterruptController.wf p.2.

Lemma land_range x n k : 0 <= n -> n < k -> 0 <= Z.land x n < k.
Proof.
  intros Hn Hk. split; [by apply Z.land_nonneg; right|].
  destruct (Z.eq_dec n 0) as [->|]; [by rewrite Z.land_0_r|].
  apply Z.le_lt_trans with n; [|done]. apply Z.ldiff_le; [done|].
  apply Z.bits_inj'. intros i Hi. rewrite Z.ldiff_spec, Z.land_spec, Z.bits_0. btauto.
Qed.
(** A return writes the status word and sets the privilege. *)
Lemma trap_return_wf c m p :
  CSRFile.wf c -> fits 64 m -> 0 <= p < 4 -> CSRFile.wf { (CSRFile.write c CSR_MSTATUS m) with priv := p }.
Proof. intros. apply CSRFile.set_priv_wf; [by apply CSRFile.csr_write_wf|done]. Qed.
Lemma mret_wf c :
  CSRFile.wf c -> exists v c', InterruptController.mret (Some c) = (v, Some c') /\ CSRFile.wf c'.
Proof.
  intros Hc. pose proof (CSRFile.read_fits c CSR_MSTATUS Hc) as Hm.
  do 2 eexists. split; [reflexivity|]. apply trap_return_wf; [done| |apply land_range; lia].
  unfold InterruptController.mret_mstatus. case_match; auto 10 with novium.
Qed.
Lemma sret_wf c :
  CSRFile.wf c -> exists v c', InterruptController.sret (Some c) = (v, Some c') /\ CSRFile.wf c'.
Proof.
  intros Hc. pose proof (CSRFile.read_fits c CSR_MSTATUS Hc) as Hm.
  do 2 eexists. split; [reflexivity|]. apply trap_return_wf; [done| |].
  - case_match; auto 10 with novium.
  - case_match; unfold User, Supervisor; lia.
Qed.
#[export] Instance intc_component : Component intc_call traps_wf.
Proof.
  intros [c i] [c' i'] [Hc Hi] Hst. cbn [fst snd] in *. pose proof Hi as [Hm Hn].
  inversion Hst as [| | | | | | | |t b ???? Ht Hp He|v ??? He|v ??? He]; subst;
    try (split; [done|]; split; cbn; auto with novium; unfold fits; lia).
  - destruct (InterruptController.take_trap_wf t c i Hc Hi Ht Hp) as (? & ? & Hr & ? & ?).
    rewrite He in Hr. by simplify_eq.
  - destruct (mret_wf c Hc) as (? & ? & Hr & ?). rewrite He in Hr. by simplify_eq.
  - destruct (sret_wf c Hc) as (? & ? & Hr & ?). rewrite He in Hr. by simplify_eq.
Qed.

(** [configure] checks nothing.  A client that keeps to these two conditions
    gives a beat of at least one byte, which the division of [issue] needs, and
    a limit the transactions in flight already respect. *)
Definition config_ok (cfg : InterconnectConfig) (f : Interconnect) : Prop :=
  u32 (cfg.(data_width) * cfg.(burst_len)) <> 0 /\
  Interconnect.outstanding f <= Z.max 0 cfg.(max_outstanding).
Inductive fabric_call : Interconnect -> Interconnect -> Prop :=
  | fabric_issue t now f : fits 64 now -> fabric_call f (Interconnect.issue t now f).2
  | fabric_tick n f : fabric_call f (Interconnect.tick n f)
  | fabric_reset f : fabric_call f (Interconnect.reset f)
  | fabric_configure cfg f : config_ok cfg f -> fabric_call f (Interconnect.configure cfg f).
#[export] Instance fabric_component : Component fabric_call Interconnect.wf.
Proof.
  intros f f' Hf Hst. destruct Hst as [t now f Hn|n f|f|cfg f [Hb Ho]].
  - by destruct (Interconnect.issue_total t now f Hf Hn) as (? & ? & -> & ? & _).
  - by apply Interconnect.fabric_tick_wf.
  - by apply Interconnect.fabric_reset_wf.
  - destruct Hf. by split.
Qed.

(** The scratchpad: [ptr] is the memory itself, for as long as the client
    stays inside it. *)
Inductive sram_call : VirtualSRAM -> VirtualSRAM -> Prop :=
  | sram_write_bytes a l m : Forall is_byte l -> sram_call m (VirtualSRAM.write_bytes a l m).2
  | sram_write32 a v m : sram_call m (VirtualSRAM.write32 a v m).2
  | sram_write `{TriviallyCopyable T} a (v : T) m :
      Forall is_byte (object_bytes v) -> sram_call m (VirtualSRAM.write a v m).2
  | sram_load a l m : Forall is_byte l -> sram_call m (VirtualSRAM.load a l m).2
  | sram_load_words a ws m : sram_call m (VirtualSRAM.load_words a ws m).2
  | sram_clear m : sram_call m (VirtualSRAM.clear m)
  | sram_ptr a l m : Buffer.in_range m a (zlen l) = true -> Forall is_byte l ->
      sram_call m (Buffer.poke m a l).
#[export] Instance sram_component : Component sram_call Buffer.wf.
Proof.
  intros m m' Hm Hst. destruct Hst as [a l m Hl|a v m|T ? a v m Hl|a l m Hl|a ws m|m|a l m _ Hl].
  - by apply VirtualSRAM.write_bytes_wf.
  - apply VirtualSRAM.write_bytes_wf; [apply le_bytes_bytes|done].
  - by apply VirtualSRAM.write_bytes_wf.
  - by apply VirtualSRAM.write_bytes_wf.
  - apply VirtualSRAM.write_bytes_wf; [apply words_bytes_bytes|done].
  - by apply Buffer.wf_clear.
  - by apply Buffer.wf_poke.
Qed.

Inductive ram_call : MainRAM -> MainRAM -> Prop :=
  | ram_write a l m : Forall is_byte l -> ram_call m (MainRAM.write a l m).2
  | ram_write_typed `{TriviallyCopyable T} a (v : T) m :
      Forall is_byte (object_bytes v) -> ram_call m (MainRAM.write_typed a v m).2
  | ram_clear m : ram_call m (MainRAM.clear m)
  | ram_ptr a l m : Buffer.in_range m a (zlen l) = true -> Forall is_byte l ->
      ram_call m (Buffer.poke m a l).
#[export] Instance ram_component : Component ram_call Buffer.wf.
Proof.
  intros m m' Hm Hst. destruct Hst as [a l m Hl|T ? a v m Hl|m|a l m _ Hl].
  - by apply MainRAM.ram_write_wf.
  - by apply MainRAM.ram_write_wf.
  - by apply Buffer.wf_clear.
  - by apply Buffer.wf_poke.
Qed.
(** No call resizes a memory. *)
Lemma ram_call_blen m m' : ram_call m m' -> m'.(blen) = m.(blen).
Proof.
  assert (Hw : forall a l (m : MainRAM), (MainRAM.write a l m).2.(blen) = m.(blen)).
  { intros. unfold MainRAM.write. by repeat case_match. }
  intros Hst. destruct Hst; try done; apply Hw.
Qed.

Inductive timer_call : TimerDevice -> TimerDevice -> Prop :=
  | timer_read o t : timer_call t (TimerDevice.read_reg o t).2
  | timer_write o v t : fits 32 v -> timer_call t (TimerDevice.write_reg o v t)
  | timer_tick n t : timer_call t (TimerDevice.tick n t)
  | timer_clear t : timer_call t (TimerDevice.clear_interrupt t)
  | timer_restore st t : fits 64 st.(TimerDevice.count) -> fits 64 st.(TimerDevice.limit) ->
      timer_call t (TimerDevice.restore st t).
#[export] Instance timer_component : Component timer_call TimerDevice.wf.
Proof.
  intros t t' Ht Hst. destruct Hst.
  - by apply TimerDevice.read_reg_wf.
  - by apply TimerDevice.write_reg_wf.
  - by apply TimerDevice.timer_tick_wf.
  - by destruct Ht.
  - by split.
Qed.

(** The device and what it prints. *)
Inductive uart_call : UartDevice -> UartDevice * list string -> Prop :=
  | uart_write o v u : uart_call u (UartDevice.write_reg o v u)
  | uart_tick n u : uart_call u (UartDevice.tick n u, [])
  | uart_flush u : uart_call u (UartDevice.flush u)
  | uart_restore st u : uart_call u (UartDevice.restore st u, []).

Inductive debugger_call : Debugger -> Debugger -> Prop :=
  | debug_add a d : debugger_call d (Debugger.add_breakpoint a d)
  | debug_remove a d : debugger_call d (Debugger.remove_breakpoint a d)
  | debug_clear d : debugger_call d (Debugger.clear_breakpoints d)
  | debug_step d : debugger_call d (Debugger.enable_single_step d)
  | debug_run d : debugger_call d (Debugger.disable_single_step d).

(** A client translates from any memory. *)
Inductive cache_call : BlockCache -> BlockCache -> Prop :=
  | cache_clear c : cache_call c (BlockCache.clear c)
  | cache_translate mem pc c : Buffer.wf mem -> cache_call c (BlockCache.translate mem pc c).2.
#[export] Instance cache_component : Component cache_call BlockCache.wf.
Proof.
  intros c c' Hc Hst. destruct Hst as [c|mem pc c Hm]; [apply BlockCache.clear_wf|].
  by apply (BlockCache.translate_keeps mem pc Hm).
Qed.

(** ** The machine *)

(** A snapshot of the C++ type: a client may build one, and [gpr[0]] of it is
    any word. *)
Record snapshot_ok (st : Emulator.State) : Prop := {
  sn_gpr_len : length st.(Emulator.s_gpr) = 16%nat;
  sn_gpr : Forall (fits 32) st.(Emulator.s_gpr);
  sn_vr_len : length st.(Emulator.s_vr) = 8%nat;
  sn_vr : Forall RegisterFile.vec_ok st.(Emulator.s_vr);
  sn_pc : fits 32 st.(Emulator.s_pc);
  sn_accum : fits 64 st.(Emulator.s_tick_accum);
  sn_profiler : Profiler.wf (Profiler.restore st.(Emulator.s_profiler) Profiler.init) }.

Inductive api_step `{FloatOps} (path : HostPath) : Emulator -> Emulator -> Prop :=
  (* Execution *)
  | api_step_step s : api_step path s (Emulator.step path s).2
  | api_run n s : api_step path s (Emulator.run path n s).2
  | api_run_fast n s : api_step path s (Emulator.run_fast path n s).2
  | api_reset s : api_step path s (Emulator.reset s)
  (* Loading *)
  | api_load_program ws s : api_step path s (Emulator.load_program ws s).2
  | api_load_program_bytes l s : Forall is_byte l -> api_step path s (Emulator.load_program_bytes l s).2
  | api_load_data a l s : Forall is_byte l -> api_step path s (Emulator.load_data a l s).2
  | api_load_main_ram a l s : Forall is_byte l -> api_step path s (Emulator.load_main_ram a l s).2
  | api_load_tensor a l s : api_step path s (Emulator.load_tensor a l s).2
  (* Configuration *)
  | api_verbose v s : api_step path s (Emulator.set_verbose v s)
  | api_acceleration v s : api_step path s (Emulator.set_acceleration v s)
  | api_target p s : profile_wf p -> api_step path s (Emulator.set_target p s)
  | api_target_kind k s : api_step path s (Emulator.set_target_kind k s)
  | api_write_gpr i v s : 0 <= i -> fits 32 v -> api_step path s (Emulator.write_gpr i v s).2
  | api_debugger d s : debugger_call s.(debugger_) d -> api_step path s { s with debugger_ := d }
  | api_restore st s : snapshot_ok st -> api_step path s (Emulator.restore_state st s)
  (* The parts *)
  | api_csr c s : csr_call s.(csr_) c -> api_step path s { s with csr_ := c }
  | api_mmu m s : mmu_call s.(scratchpad_) s.(csr_) s.(mmu_) m -> api_step path s (Emulator.put_mmu m s)
  | api_interrupts c i s : intc_call (s.(csr_), s.(intc_)) (c, i) ->
      api_step path s { s with csr_ := c; intc_ := i }
  | api_interconnect f s : fabric_call s.(interconnect_) f -> api_step path s { s with interconnect_ := f }
  | api_axi f s : fabric_call s.(axi_) f -> api_step path s (Emulator.put_axi f s)
  | api_pcie f s : fabric_call s.(pcie_) f -> api_step path s { s with pcie_ := f }
  | api_cxi f s : fabric_call s.(cxi_) f -> api_step path s { s with cxi_ := f }
  | api_memory m s : sram_call s.(scratchpad_) m -> api_step path s (Emulator.put_scratchpad m s)
  | api_main_ram m s : ram_call s.(main_ram_) m -> api_step path s (Emulator.put_main_ram m s)
  | api_bus_write a v s : fits 32 a -> fits 32 v -> api_step path s (Emulator.bus_write32 a v s).2
  | api_bus_read a s : fits 32 a -> api_step path s (Emulator.bus_read32 a s).2
  | api_timer t s : timer_call s.(timer_) t -> api_step path s { s with timer_ := t }
  | api_uart u out s : uart_call s.(uart_) (u, out) ->
      api_step path s { s with uart_ := u; stdout := s.(stdout) ++ out }
  | api_block_cache c s : cache_call s.(block_cache_) c -> api_step path s (Emulator.put_block_cache c s).

(** [restore_state] forces r0 to zero, whatever the snapshot holds. *)
Lemma restore_wf st s : emu_wf s -> snapshot_ok st -> emu_wf (Emulator.restore_state st s).
Proof.
  intros [] [Hl Hg Hvl Hv Hp Ha Hpr]. split; try assumption.
  split; cbn; try assumption.
  - unfold zset. by rewrite length_insert.
  - apply Forall_zset; [done|]. unfold fits. lia.
  - apply list_lookup_insert_eq. lia.
Qed.

(** Replacing a part by one that is well formed. *)
#[local] Ltac part := intros []; intros; split; cbn; auto.
Lemma put_csr_wf s c : emu_wf s -> CSRFile.wf c -> emu_wf { s with csr_ := c }.
Proof. part. Qed.
Lemma put_interconnect_wf s f : emu_wf s -> Interconnect.wf f -> emu_wf { s with interconnect_ := f }.
Proof. part. Qed.
Lemma put_pcie_wf s f : emu_wf s -> Interconnect.wf f -> emu_wf { s with pcie_ := f }.
Proof. part. Qed.
Lemma put_cxi_wf s f : emu_wf s -> Interconnect.wf f -> emu_wf { s with cxi_ := f }.
Proof. part. Qed.

Lemma load_program_bytes_keeps l :
  Forall is_byte l -> keepsE (Emulator.load_program_bytes l) (fun _ => True).
Proof.
  intros Hl. unfold Emulator.load_program_bytes. case_match; [apply keeps_throw|].
  eapply keeps_bind; [by apply scratchpad_keeps, VirtualSRAM.write_bytes_wf|].
  intros _ _. apply keeps_modify. intros s Hs.
  exact (put_block_cache_wf s _ Hs (BlockCache.clear_wf _)).
Qed.

#[export] Instance api_component `{FloatOps} path : Component (api_step path) emu_wf.
Proof.
  intros s s' Hs Hst. destruct Hst;
    try match goal with Hc : ?call ?x ?y |- _ =>
      lazymatch type of Hc with
      | csr_call _ _ => pose proof (component_keeps x y (wf_csr _ Hs) Hc)
      | mmu_call _ _ _ _ => pose proof (component_keeps x y (wf_mmu _ Hs) Hc)
      | intc_call _ _ => destruct (component_keeps x y (conj (wf_csr _ Hs) (wf_intc _ Hs)) Hc)
      | fabric_call _ _ => pose proof (fun Hf => component_keeps x y Hf Hc) as Hk
      | sram_call _ _ => pose proof (component_keeps x y (wf_scratchpad _ Hs) Hc)
      | ram_call _ _ => pose proof (component_keeps x y (wf_main_ram _ Hs) Hc)
      | timer_call _ _ => pose proof (component_keeps x y (wf_timer _ Hs) Hc)
      | cache_call _ _ => pose proof (component_keeps x y (wf_cache _ Hs) Hc)
      end end.
  - by apply (step_keeps path).
  - by apply (run_keeps path).
  - by apply (run_fast_keeps path).
  - by apply reset_wf.
  - by apply load_program_keeps.
  - by apply load_program_bytes_keeps.
  - by apply load_data_keeps.
  - by apply load_main_ram_keeps.
  - by apply load_tensor_keeps.
  - exact (config_wf s _ _ _ Hs).
  - exact (config_wf s _ _ _ Hs).
  - by apply set_target_wf.
  - apply set_target_wf; [done|apply make_profile_wf].
  - by apply write_gpr_keeps.
  - exact (config_wf s _ _ _ Hs).
  - by apply restore_wf.
  - by apply put_csr_wf.
  - by apply put_mmu_wf.
  - by apply put_trap_wf.
  - apply put_interconnect_wf; [done|]. apply Hk, Hs.
  - apply put_axi_wf; [done|]. apply Hk, Hs.
  - apply put_pcie_wf; [done|]. apply Hk, Hs.
  - apply put_cxi_wf; [done|]. apply Hk, Hs.
  - by apply put_scratchpad_wf.
  - by apply put_main_ram_wf.
  - by apply bus_write32_keeps.
  - by apply bus_read32_keeps.
  - by apply put_timer_wf.
  - by apply put_uart_wf.
  - by apply put_block_cache_wf.
Qed.

(** The two conditions on [configure] are needed: a fabric with a transaction
    in flight and then a limit of none exceeds its limit, and one whose beat is
    zero bytes divides by zero at the next transaction. *)
Example configure_unchecked :
  let t := mkTransaction 0 0 4 false 0 0 AXI4 in
  let f := (Interconnect.issue t 0 (Interconnect.make Emulator.axi_config)).2 in
  let shrunk := Interconnect.configure (mkConfig AXI4 64 2 0 16) f in
  let zero := Interconnect.configure (mkConfig AXI4 64 2 8 0) f in
  max_outstanding shrunk.(cfg_) < Interconnect.outstanding shrunk /\
  (Interconnect.issue t 0 zero).1 = Undefined DivideByZero.
Proof. vm_compute. done. Qed.

(** ** Theorems *)

(** C1: type safety of the machine state. In every state reachable from a
    freshly created emulator by any sequence of public calls (steps, both run
    loops, loads, configuration with any target profile, reset, restoring any
    snapshot whatever its r0, accesses on the bus, and calls on the CSR file,
    the MMU, the interrupt controller, the four fabrics, both memories, the
    timer, the UART, the debugger and the block cache), whichever of them
    throw, the register file has 16 general registers of 32 bits with r0 equal
    to zero and 8 vectors of 16 lanes, memories hold bytes and keep a 64-bit
    size, CSRs and counters are 64-bit, no fabric exceeds its bound, and the
    cached blocks are 32-bit words. Not among the calls are those that attach
    another object or a callback and those on the translator, and a fabric is only configured with a beat
    of at least one byte and a limit not below what it has in flight, neither
    of which configure checks. *)
Theorem reachable_wf `{FloatOps} path n m s :
  fits 64 n -> fits 64 m -> rtc (api_step path) (Emulator.create n m) s ->
  emu_wf s /\ RegisterFile.read_gpr s.(regs_) 0 = Some 0 /\
  s.(regs_).(gpr) !! 0%nat = Some 0.
Proof.
  intros Hn Hm Hr.
  assert (Hw : emu_wf s).
  { apply (component_rtc (api_step path) emu_wf (Emulator.create n m)); [by apply create_wf|done]. }
  split; [done|]. split; [done|]. apply Hw.
Qed.

(** Paging switched on from outside, a snapshot whose r0 is 7 restored, the
    AXI fabric narrowed, and a step that faults. *)
Lemma reachable_wf_witness :
  let s0 := Emulator.create 4096 4096 in
  let s1 : Emulator := { s0 with csr_ := CSRFile.write s0.(csr_) CSR_SATP 1 } in
  let s2 := Emulator.put_mmu (MMU.set_enabled true s1.(mmu_)) s1 in
  let st := Emulator.save_state s2 in
  let st : Emulator.State := { st with Emulator.s_gpr := 7 :: replicate 15 0 } in
  let s3 := Emulator.restore_state st s2 in
  let s4 := Emulator.put_axi (Interconnect.configure (mkConfig AXI4 4 2 1 1) s3.(axi_)) s3 in
  emu_wf (Emulator.step PathScalar s4).2.
Proof.
  intros s0 s1 s2 st0 st s3 s4. apply (reachable_wf PathScalar 4096 4096); [vm_compute; split; congruence..|].
  apply rtc_l with s1; [apply api_csr, csr_write; vm_compute; split; congruence|].
  apply rtc_l with s2; [apply api_mmu, mmu_enable|].
  apply rtc_l with s3.
  { apply api_restore. split; try done.
    - repeat constructor; vm_compute; congruence.
    - apply Forall_replicate. split; [done|]. apply Forall_replicate. vm_compute; split; congruence.
    - apply Profiler.prof_init_wf. }
  apply rtc_l with s4; [|apply rtc_once, api_step_step].
  apply api_axi, fabric_configure. split; vm_compute; congruence.
Defined.
