(* ===== verification/Execute.v ===== *)
(** * What the instructions do

    The functional behaviour of the arithmetic, branch, load and store
    handlers on a well-formed state with paging off, each with its frame. DMA
    is in [Dma], the illegal-instruction path in [Traps], undefined behaviour
    in [Safety]. *)

From S2P Require Import Prelude Text Isa Memory Registers Interrupt Devices Bus Float Profiler Interconnect Target Host Mmu Translate Emulator EmulatorWf.
#[local] Open Scope Z_scope.

(** ** Evaluation of the primitives *)
Lemma read_gpr_run s i v :
  RegisterFile.read_gpr s.(regs_) i = Some v -> Emulator.read_gpr i s = (Ok v, s).
Proof. intros H. unfold Emulator.read_gpr, bind, get, opt. by rewrite H. Qed.
Lemma write_gpr_run s i v r :
  RegisterFile.write_gpr s.(regs_) i v = Some r ->
  Emulator.write_gpr i v s = (Ok tt, Emulator.put_regs r s).
Proof. intros H. unfold Emulator.write_gpr, bind, get, opt. by rewrite H. Qed.
Lemma regs_put_regs r s : regs_ (Emulator.put_regs r s) = r.
Proof. done. Qed.
Lemma put_put_regs r r' s : Emulator.put_regs r (Emulator.put_regs r' s) = Emulator.put_regs r s.
Proof. done. Qed.

(** The state after a handler has returned [c] cycles: the profiler and the
    tick accumulator. *)
Definition retire (op c bytes : Z) (s : Emulator) : Emulator :=
  { s with profiler_ := Profiler.record op c bytes s.(profiler_);
           tick_accum_ := u64 (s.(tick_accum_) + c) }.

Lemma retire_wf op c n s : emu_wf s -> emu_wf (retire op c n s).
Proof. intros Hs. apply put_record_wf; [done|apply Profiler.record_wf, Hs|apply u64_fits]. Qed.

Lemma execute_run `{FloatOps} path i handler s c s' :
  Emulator.dispatch_table_ path (Instruction.opcode i) = Some handler ->
  handler i s = (Ok c, s') ->
  Emulator.execute path i s =
    (Ok c, retire (Instruction.opcode i) c
             (if Emulator.is_dma (Instruction.opcode i) then Instruction.func i else 0) s').
Proof. intros Hd Hh. unfold Emulator.execute. rewrite Hd. unfold bind. by rewrite Hh. Qed.

Lemma execute_fail `{FloatOps} path i handler s r s' :
  Emulator.dispatch_table_ path (Instruction.opcode i) = Some handler ->
  handler i s = (r, s') -> (forall c, r <> Ok c) ->
  exists r', Emulator.execute path i s = (r', s') /\
    match r with Throw e => r' = Throw e | Undefined u => r' = Undefined u | Ok _ => True end.
Proof.
  intros Hd Hh Hr. unfold Emulator.execute. rewrite Hd. unfold bind. rewrite Hh.
  destruct r; [by destruct (Hr a)|by eexists..].
Qed.

(** ** Arithmetic *)
Definition alu (op : Opcode) (x y : Z) : Z :=
  match op with ADD => u32 (x + y) | SUB => u32 (x - y) | _ => u32 (x * y) end.

Definition alu_flags (r : Z) : StatusFlags :=
  {| zero := r =? 0; negative := Z.land (Z.shiftr r 31) 1 =? 1; overflow := false |}.

Definition fields (i : Instruction) (op : Opcode) (d a b : Z) : Prop :=
  Instruction.opcode i = code op /\ Instruction.rd i = d /\ Instruction.ra i = a /\
  Instruction.rb i = b.

Lemma alu_handler_run op i d a b s x y r :
  op = ADD \/ op = SUB \/ op = MUL -> fields i op d a b ->
  RegisterFile.read_gpr s.(regs_) a = Some x -> RegisterFile.read_gpr s.(regs_) b = Some y ->
  RegisterFile.write_gpr s.(regs_) d (alu op x y) = Some r ->
  match op with ADD => Emulator.op_add | SUB => Emulator.op_sub | _ => Emulator.op_mul end i s
  = (Ok (cycle_weight (code op) 0),
     Emulator.put_regs { r with status := alu_flags (alu op x y) } s).
Proof.
  intros Hop (_ & Hd & Ha & Hb) Hx Hy Hr.
  destruct Hop as [->|[->| ->]]; cbn [alu] in Hr |- *;
    unfold Emulator.op_add, Emulator.op_sub, Emulator.op_mul; rewrite Hd, Ha, Hb;
    rewrite (bind_ok _ _ _ _ _ (read_gpr_run _ _ _ Hx));
    rewrite (bind_ok _ _ _ _ _ (read_gpr_run _ _ _ Hy));
    rewrite (bind_ok _ _ _ _ _ (write_gpr_run _ _ _ _ Hr)); reflexivity.
Qed.

(** The sign bit of a 32-bit value. *)
Lemma sign_bit_spec r : fits 32 r -> (Z.land (Z.shiftr r 31) 1 =? 1) = (2 ^ 31 <=? r).
Proof.
  intros [H0 H1]. rewrite (land_mask_mod _ 1 1) by done. rewrite Z.shiftr_div_pow2 by lia.
  change (2 ^ 1) with 2. change (2 ^ 31) with 2147483648 in *. change (2 ^ 32) with 4294967296 in *.
  destruct (Z.leb_spec 2147483648 r); [apply Z.eqb_eq|apply Z.eqb_neq];
    Z.div_mod_to_equations; lia.
Qed.
Lemma alu_fits op x y : fits 32 (alu op x y).
Proof. destruct op; apply u32_fits. Qed.

(** ADD, SUB and MUL. On registers below 16 the destination receives the
    32-bit result of the two sources (r0 stays zero), every other register, the
    program counter and both memories are unchanged, the zero and negative
    flags describe the result, one instruction of the opcode's weight is
    recorded. The overflow flag is false after every one of them, signed
    overflow or not: the value computed for it is overwritten by the flag
    update that follows. *)
Theorem alu_exact `{FloatOps} path op i d a b s x y :
  op = ADD \/ op = SUB \/ op = MUL -> fields i op d a b ->
  d < 16 -> a < 16 -> b < 16 -> emu_wf s ->
  RegisterFile.read_gpr s.(regs_) a = Some x -> RegisterFile.read_gpr s.(regs_) b = Some y ->
  exists s', Emulator.execute path i s = (Ok (cycle_weight (code op) 0), s') /\
    (forall j, 0 <= j < 16 -> RegisterFile.read_gpr s'.(regs_) j =
       if j =? 0 then Some 0 else if j =? d then Some (alu op x y)
       else RegisterFile.read_gpr s.(regs_) j) /\
    s'.(regs_).(status) = {| zero := alu op x y =? 0; negative := 2 ^ 31 <=? alu op x y;
                             overflow := false |} /\
    s'.(regs_).(pc) = s.(regs_).(pc) /\ s'.(regs_).(vr) = s.(regs_).(vr) /\
    s'.(regs_).(halt) = s.(regs_).(halt) /\
    s'.(scratchpad_) = s.(scratchpad_) /\ s'.(main_ram_) = s.(main_ram_) /\
    s'.(profiler_) = Profiler.record (code op) (cycle_weight (code op) 0) 0 s.(profiler_).
Proof.
  intros Hop Hf Hd Ha Hb Hs Hx Hy. pose proof Hf as (Ho & Hfd & _).
  assert (Hd0 : 0 <= d) by (rewrite <- Hfd; apply Instruction.rd_range).
  assert (Hreg : RegisterFile.wf (regs_ s)) by apply Hs.
  destruct (RegisterFile.write_gpr_some (regs_ s) d (alu op x y) Hreg ltac:(lia)) as [r Hr].
  pose proof (alu_handler_run op i d a b s x y r Hop Hf Hx Hy Hr) as Hrun.
  eexists. split.
  { erewrite execute_run; [|..|exact Hrun].
    - rewrite Ho. reflexivity.
    - rewrite Ho. unfold Emulator.dispatch_table_. rewrite opcode_of_code.
      by destruct Hop as [->|[->| ->]]. }
  destruct (RegisterFile.write_gpr_frame _ _ _ _ Hr) as (Hv & Hpc & Hh & _).
  rewrite <- sign_bit_spec by apply alu_fits.
  split; [intros j Hj; exact (RegisterFile.read_write_gpr _ _ _ _ j Hreg Hd0 ltac:(lia) Hr)|].
  split; [reflexivity|]. split; [exact Hpc|]. split; [exact Hv|]. split; [exact Hh|].
  split; [reflexivity|]. split; [reflexivity|]. by destruct Hop as [->|[->| ->]].
Qed.

(** 0x7FFFFFFF + 1: the result is negative and the overflow flag is clear. *)
Definition overflow_state : Emulator :=
  let s := Emulator.create 64 64 in
  Emulator.put_regs { s.(regs_) with gpr := [0; 0x7FFFFFFF; 1] ++ replicate 13 0 } s.
Lemma overflow_state_wf : emu_wf overflow_state.
Proof.
  apply put_regs_wf; [apply create_wf; vm_compute; split; congruence|].
  split; try reflexivity; [repeat constructor; unfold fits; lia| |unfold fits; cbn; lia].
  repeat constructor; unfold fits; cbn; lia.
Qed.

Lemma alu_exact_witness :
  exists s', Emulator.execute PathScalar (mkInstruction (enc.add 3 1 2)) overflow_state = (Ok 1, s') /\
    RegisterFile.read_gpr s'.(regs_) 3 = Some 0x80000000 /\
    s'.(regs_).(status) = {| zero := false; negative := true; overflow := false |}.
Proof.
  destruct (alu_exact PathScalar ADD (mkInstruction (enc.add 3 1 2)) 3 1 2 overflow_state
    0x7FFFFFFF 1) as (s' & H1 & H2 & H3 & _);
    [by left|repeat split; reflexivity|lia|lia|lia|exact overflow_state_wf|reflexivity|reflexivity|].
  exists s'. split; [exact H1|]. split; [exact (H2 3 ltac:(lia))|exact H3].
Defined.

(** ** Control transfers *)

(** Control transfers. JMP goes to its 26-bit target; BEQ and BNE
    add their signed offset to the (already advanced) program counter, modulo
    2^32, exactly when the two registers are equal, respectively different, at
    one cycle more than the untaken branch; no register, flag or memory
    changes. *)
Theorem branch_exact `{FloatOps} path op i d a s x y :
  op = BEQ \/ op = BNE ->
  Instruction.opcode i = code op -> Instruction.rd i = d -> Instruction.ra i = a ->
  RegisterFile.read_gpr s.(regs_) d = Some x -> RegisterFile.read_gpr s.(regs_) a = Some y ->
  let taken := if bool_decide (op = BEQ) then x =? y else negb (x =? y) in
  (exists s', Emulator.execute path i s = (Ok (if taken then 3 else 2), s') /\
    s'.(regs_) = { s.(regs_) with pc :=
      if taken then u32 (s.(regs_).(pc) + Instruction.offset i) else s.(regs_).(pc) } /\
    s'.(scratchpad_) = s.(scratchpad_) /\ s'.(main_ram_) = s.(main_ram_)) /\
  (forall t, fits 26 t -> exists s',
     Emulator.execute path (mkInstruction (enc.jmp t)) s = (Ok 2, s') /\
     s'.(regs_) = { s.(regs_) with pc := t } /\
     s'.(scratchpad_) = s.(scratchpad_) /\ s'.(main_ram_) = s.(main_ram_)).
Proof.
  intros Hop Ho Hd Ha Hx Hy taken. split.
  - assert (Hrun : match op with BEQ => Emulator.op_beq | _ => Emulator.op_bne end i s =
      (Ok (if taken then 3 else 2),
       if taken then Emulator.put_regs { s.(regs_) with pc := u32 (s.(regs_).(pc) + Instruction.offset i) } s
       else s)).
    { subst taken. destruct Hop as [->| ->]; unfold Emulator.op_beq, Emulator.op_bne; rewrite Hd, Ha;
        rewrite (bind_ok _ _ _ _ _ (read_gpr_run _ _ _ Hx));
        rewrite (bind_ok _ _ _ _ _ (read_gpr_run _ _ _ Hy)); unfold Emulator.branch_if;
        by destruct (x =? y). }
    eexists. split.
    { erewrite execute_run; [reflexivity| |exact Hrun]. rewrite Ho.
      unfold Emulator.dispatch_table_. rewrite opcode_of_code. by destruct Hop as [->| ->]. }
    destruct taken; (split; [reflexivity|split; reflexivity]).
  - intros t Ht. destruct (jtype_fields JMP t) as [Hj1 Hj2]. cbn zeta in Hj1, Hj2.
    fold (enc.jmp t) in Hj1, Hj2. eexists. split.
    { erewrite (execute_run _ _ Emulator.op_jmp); [| |reflexivity].
      - reflexivity.
      - rewrite Hj1. unfold Emulator.dispatch_table_. by rewrite opcode_of_code. }
    split; [|split; reflexivity]. rewrite Hj2, Z.mod_small by done. reflexivity.
Qed.

Lemma branch_exact_witness :
  exists s', Emulator.execute PathScalar (mkInstruction (enc.bne 1 2 (-12)))
      (Emulator.put_regs { overflow_state.(regs_) with pc := 0x1C } overflow_state) = (Ok 3, s') /\
    s'.(regs_).(pc) = 0x10.
Proof.
  destruct (branch_exact PathScalar BNE (mkInstruction (enc.bne 1 2 (-12))) 1 2
    (Emulator.put_regs { overflow_state.(regs_) with pc := 0x1C } overflow_state) 0x7FFFFFFF 1)
    as [(s' & H1 & H2 & _) _]; [by right|reflexivity..|].
  exists s'. split; [exact H1|]. rewrite H2. reflexivity.
Defined.

(** ** Loads and stores *)
Lemma axi_issue_run s a n w :
  emu_wf s -> exists b f, Emulator.axi_issue a n w s = (Ok b, Emulator.put_axi f s) /\
    Interconnect.wf f /\ b = (Interconnect.outstanding s.(axi_) <? max_outstanding (cfg_ s.(axi_))).
Proof.
  intros Hs. destruct (Interconnect.issue_total
    (mkTransaction 0 a n w (Profiler.cycles (profiler_ s)) 0 AXI4)
    (Profiler.cycles (profiler_ s)) (axi_ s)) as (b & f & Hi & Hf & _ & Hb & _); [apply Hs|apply Hs|].
  exists b, f. split; [|done].
  exact (f_equal (fun p => let '(r, t) := p in (r, Emulator.put_axi t s)) Hi).
Qed.

Lemma effective_address_run s i base :
  RegisterFile.read_gpr s.(regs_) (Instruction.ra i) = Some base ->
  Emulator.effective_address i s = (Ok (u32 (base + Instruction.simm16 i)), s).
Proof.
  intros H. unfold Emulator.effective_address.
  by rewrite (bind_ok _ _ _ _ _ (read_gpr_run _ _ _ H)).
Qed.


(** The access of a load or a store once its physical address is known: a
    transaction on the fabric, then the bus. *)
Definition load_at (i : Instruction) (addr : Z) : M Emulator Z :=
  do! Emulator.axi_issue addr 4 false in
  let! value := Emulator.bus_read32 addr in
  do! Emulator.write_gpr (Instruction.rd i) value in
  ret (cycle_weight (code LOAD) 0).
Definition store_at (i : Instruction) (addr : Z) : M Emulator Z :=
  let! value := Emulator.read_gpr (Instruction.rd i) in
  do! Emulator.axi_issue addr 4 true in
  do! Emulator.bus_write32 addr value in
  ret (cycle_weight (code STORE) 0).

Lemma load_at_run s i addr :
  emu_wf s -> addr < MMIO_BASE ->
  exists f, Interconnect.wf f /\
    load_at i addr s =
      match VirtualSRAM.read32 s.(scratchpad_) addr with
      | Ok v => (do! Emulator.write_gpr (Instruction.rd i) v in ret 3) (Emulator.put_axi f s)
      | Throw e => (Throw e, Emulator.put_axi f s)
      | Undefined u => (Undefined u, Emulator.put_axi f s)
      end.
Proof.
  intros Hs Hlow. destruct (axi_issue_run s addr 4 false Hs) as (b & f & Hi & Hf & _).
  exists f. split; [done|]. unfold load_at. rewrite (bind_ok _ _ _ _ _ Hi).
  unfold bind at 1. rewrite bus_read32_low by done.
  change (scratchpad_ (Emulator.put_axi f s)) with (scratchpad_ s).
  by destruct (VirtualSRAM.read32 (scratchpad_ s) addr).
Qed.
Lemma store_at_run s i addr v :
  emu_wf s -> addr < MMIO_BASE -> RegisterFile.read_gpr s.(regs_) (Instruction.rd i) = Some v ->
  exists f, Interconnect.wf f /\
    store_at i addr s =
      (match (VirtualSRAM.write32 addr v s.(scratchpad_)).1 with
       | Ok _ => Ok 3 | Throw e => Throw e | Undefined u => Undefined u end,
       Emulator.put_scratchpad (VirtualSRAM.write32 addr v s.(scratchpad_)).2 (Emulator.put_axi f s)).
Proof.
  intros Hs Hlow Hv. destruct (axi_issue_run s addr 4 true Hs) as (b & f & Hi & Hf & _).
  exists f. split; [done|]. unfold store_at.
  rewrite (bind_ok _ _ _ _ _ (read_gpr_run _ _ _ Hv)), (bind_ok _ _ _ _ _ Hi). unfold bind.
  rewrite bus_write32_low by done. unfold zoom.
  change (scratchpad_ (Emulator.put_axi f s)) with (scratchpad_ s).
  by destruct (VirtualSRAM.write32 addr v (scratchpad_ s)) as [[] m].
Qed.

(** With the MMU off the physical address is the effective one. *)
Lemma op_load_run s i base ea r' v :
  emu_wf s -> MMU.enabled s.(mmu_) = false ->
  RegisterFile.read_gpr s.(regs_) (Instruction.ra i) = Some base ->
  ea = u32 (base + Instruction.simm16 i) -> ea < MMIO_BASE ->
  VirtualSRAM.read32 s.(scratchpad_) ea = Ok v ->
  RegisterFile.write_gpr s.(regs_) (Instruction.rd i) v = Some r' ->
  exists f, Interconnect.wf f /\
    Emulator.op_load i s = (Ok 3, Emulator.put_regs r' (Emulator.put_axi f s)).
Proof.
  intros Hs Hm Hb He Hlow Hr Hw. destruct (load_at_run s i ea Hs Hlow) as (f & Hf & Hl).
  exists f. split; [done|]. unfold Emulator.op_load.
  rewrite (bind_ok _ _ _ _ _ (effective_address_run _ _ _ Hb)), <- He, get_run, Hm.
  unfold bind at 1, ret at 1. change (load_at i ea s = (Ok 3, Emulator.put_regs r' (Emulator.put_axi f s))).
  rewrite Hl, Hr. by rewrite (bind_ok _ _ _ _ _ (write_gpr_run (Emulator.put_axi f s) _ _ r' Hw)).
Qed.
Lemma op_store_run s i base ea v :
  emu_wf s -> MMU.enabled s.(mmu_) = false ->
  RegisterFile.read_gpr s.(regs_) (Instruction.ra i) = Some base ->
  ea = u32 (base + Instruction.simm16 i) -> ea < MMIO_BASE ->
  RegisterFile.read_gpr s.(regs_) (Instruction.rd i) = Some v ->
  exists f, Interconnect.wf f /\
    Emulator.op_store i s =
      (match (VirtualSRAM.write32 ea v s.(scratchpad_)).1 with
       | Ok _ => Ok 3 | Throw e => Throw e | Undefined u => Undefined u end,
       Emulator.put_scratchpad (VirtualSRAM.write32 ea v s.(scratchpad_)).2 (Emulator.put_axi f s)).
Proof.
  intros Hs Hm Hb He Hlow Hv. destruct (store_at_run s i ea v Hs Hlow Hv) as (f & Hf & Hl).
  exists f. split; [done|]. unfold Emulator.op_store.
  rewrite (bind_ok _ _ _ _ _ (effective_address_run _ _ _ Hb)), <- He, get_run, Hm. exact Hl.
Qed.

(** C11: loads return what stores wrote. With paging off and an effective
    address (base plus sign-extended offset, modulo 2^32) below the MMIO
    window, a STORE either throws, exactly when the word does not fit in the
    scratchpad, leaving registers and both memories as they were; or it changes
    those four bytes only, and a LOAD through the same base register and offset
    then puts the stored value in its destination, and changes nothing else in
    the registers. *)
Theorem store_load `{FloatOps} path st ld d base v s :
  emu_wf s -> MMU.enabled s.(mmu_) = false ->
  Instruction.opcode st = code STORE -> Instruction.opcode ld = code LOAD ->
  Instruction.ra st = Instruction.ra ld -> Instruction.simm16 st = Instruction.simm16 ld ->
  Instruction.rd ld = d -> 0 < d < 16 ->
  RegisterFile.read_gpr s.(regs_) (Instruction.ra st) = Some base ->
  RegisterFile.read_gpr s.(regs_) (Instruction.rd st) = Some v ->
  let ea := u32 (base + Instruction.simm16 st) in ea < MMIO_BASE ->
  if ea + 4 <=? s.(scratchpad_).(blen) then
    exists s1 s2, Emulator.execute path st s = (Ok 3, s1) /\ s1.(regs_) = s.(regs_) /\
      s1.(main_ram_) = s.(main_ram_) /\
      (forall k, k < ea \/ ea + 4 <= k ->
         Buffer.byte_at s1.(scratchpad_) k = Buffer.byte_at s.(scratchpad_) k) /\
      Emulator.execute path ld s1 = (Ok 3, s2) /\ s2.(scratchpad_) = s1.(scratchpad_) /\
      (forall j, 0 <= j < 16 -> RegisterFile.read_gpr s2.(regs_) j =
         if j =? 0 then Some 0 else if j =? d then Some v else RegisterFile.read_gpr s.(regs_) j)
  else
    exists s', Emulator.execute path st s = (Throw (SramOutOfBounds ea 4), s') /\
      s'.(regs_) = s.(regs_) /\ s'.(scratchpad_) = s.(scratchpad_) /\ s'.(main_ram_) = s.(main_ram_).
Proof.
  intros Hs Hm Hst Hld Hra Hsi Hd Hd16 Hb Hv ea Hlow.
  assert (Hreg : RegisterFile.wf (regs_ s)) by apply Hs.
  assert (Hea : fits 32 ea) by apply u32_fits.
  pose proof (RegisterFile.read_gpr_fits _ _ _ Hreg Hv) as Hv32.
  destruct (op_store_run s st base ea v Hs Hm Hb eq_refl Hlow Hv) as (f & Hf & Hop).
  assert (Hdst : Emulator.dispatch_table_ path (Instruction.opcode st) = Some Emulator.op_store)
    by (rewrite Hst; reflexivity).
  destruct (Z.leb_spec (ea + 4) (blen (scratchpad_ s))) as [Hin|Hout].
  - destruct (write32_ok (scratchpad_ s) ea v Hea Hv32 (wf_scratchpad s Hs) Hin)
      as (m & Hwr & Hmwf & Hlen & Hrd & Hfr). rewrite Hwr in Hop. cbn [fst snd] in Hop.
    set (s1 := retire (code STORE) 3 0 (Emulator.put_scratchpad m (Emulator.put_axi f s))).
    assert (Hex : Emulator.execute path st s = (Ok 3, s1))
      by (rewrite (execute_run _ _ _ _ _ _ Hdst Hop), Hst; reflexivity).
    assert (Hs1 : emu_wf s1) by (by apply retire_wf, put_scratchpad_wf, Hmwf; apply put_axi_wf).
    destruct (RegisterFile.write_gpr_some (regs_ s) d v Hreg ltac:(lia)) as [r' Hw'].
    destruct (op_load_run s1 ld base ea r' v Hs1) as (f2 & _ & Hop2);
      [exact Hm|by rewrite <- Hra|by rewrite <- Hsi|done|exact Hrd|by rewrite Hd|].
    assert (Hdld : Emulator.dispatch_table_ path (Instruction.opcode ld) = Some Emulator.op_load)
      by (rewrite Hld; reflexivity).
    exists s1. eexists. split; [exact Hex|]. split; [reflexivity|]. split; [reflexivity|].
    split; [exact Hfr|]. split; [exact (execute_run _ _ _ _ _ _ Hdld Hop2)|].
    split; [reflexivity|]. intros j Hj.
    exact (RegisterFile.read_write_gpr _ d v _ j Hreg ltac:(lia) ltac:(lia) Hw').
  - rewrite (write32_throws (scratchpad_ s) ea v Hea Hout) in Hop. cbn [fst snd] in Hop.
    destruct (execute_fail _ _ _ _ _ _ Hdst Hop) as (r' & Hex & ->); [done|].
    eexists. split; [exact Hex|]. split; [reflexivity|split; reflexivity].
Qed.

Lemma store_load_witness :
  exists s1 s2,
    Emulator.execute PathScalar (mkInstruction (enc.store 1 0 16)) overflow_state = (Ok 3, s1) /\
    Emulator.execute PathScalar (mkInstruction (enc.load 5 0 16)) s1 = (Ok 3, s2) /\
    RegisterFile.read_gpr s2.(regs_) 5 = Some 0x7FFFFFFF.
Proof.
  pose proof (store_load PathScalar (mkInstruction (enc.store 1 0 16))
    (mkInstruction (enc.load 5 0 16)) 5 0 0x7FFFFFFF overflow_state overflow_state_wf eq_refl
    eq_refl eq_refl eq_refl eq_refl eq_refl ltac:(lia) eq_refl eq_refl eq_refl) as H.
  destruct H as (s1 & s2 & H1 & _ & _ & _ & H2 & _ & H3).
  exists s1, s2. split; [exact H1|]. split; [exact H2|exact (H3 5 ltac:(lia))].
Defined.
