(* ===== verification/Dma.v ===== *)
(** * DMA transfers: op_dma_load and op_dma_store of emulator.cpp

    With paging off, or from translated addresses.  The bounds checks of both handlers add two 32-bit
    numbers, so they are exact only while the sum does not wrap. *)

From S2P Require Import Prelude Text Isa Memory Registers Interrupt Devices Bus Float Profiler Interconnect Target Host Mmu Translate Emulator EmulatorWf Execute.
#[local] Open Scope Z_scope.

(** The bounds checks, as the code computes them. *)
Definition out_of_bounds (m : buffer) (a n : Z) : bool := u32 (a + n) >? m.(blen).

Lemma in_bounds_range m a n :
  0 <= a -> a + n < 2 ^ 32 -> 0 <= n -> out_of_bounds m a n = negb (Buffer.in_range m a n).
Proof.
  intros Ha Hs Hn. unfold out_of_bounds, Buffer.in_range. rewrite u32_small by (unfold fits; lia).
  rewrite Z.gtb_ltb. destruct (Z.leb_spec 0 a); [|lia]. cbn [andb]. apply Z.ltb_antisym.
Qed.

Section Dma.
Context `{FloatOps} (path : HostPath).

(** What the two handlers leave before the copy: a transaction, and an extra
    profiler record when a load was refused. *)
Definition after_issue (load : bool) (f : Interconnect) (accepted : bool) (s : Emulator) : Emulator :=
  let s := Emulator.put_axi f s in
  if load && negb accepted
  then { s with profiler_ := Profiler.record (code DMA_LOAD) 1 0 s.(profiler_) } else s.

Lemma dma_off s d sr k :
  MMU.enabled s.(mmu_) = false -> Emulator.dma_addresses d sr k s = (Ok (Some (d, sr)), s).
Proof. intros Hm. unfold Emulator.dma_addresses. by rewrite get_run, Hm. Qed.

(** The rest of a handler once its addresses are known. *)
Definition dma_load_at (i : Instruction) (dest src : Z) : M Emulator Z :=
  let bytes := Instruction.func i in
  let! s := get in
  if out_of_bounds s.(scratchpad_) dest bytes then throw DmaLoadScratchpadBounds
  else if out_of_bounds s.(main_ram_) src bytes then throw DmaLoadMainRamBounds
  else
    let! accepted := Emulator.axi_issue dest bytes false in
    do! (if accepted then ret tt
         else modify (fun s : Emulator => { s with profiler_ :=
                Profiler.record (code DMA_LOAD) 1 0 s.(profiler_) })) in
    do! Emulator.copy_to_scratchpad dest src bytes in
    ret (profile_cycle_weight s.(target_) (code DMA_LOAD) bytes).
Definition dma_store_at (i : Instruction) (dest src : Z) : M Emulator Z :=
  let bytes := Instruction.func i in
  let! s := get in
  if out_of_bounds s.(main_ram_) dest bytes then throw DmaStoreMainRamBounds
  else if out_of_bounds s.(scratchpad_) src bytes then throw DmaStoreScratchpadBounds
  else
    do! Emulator.axi_issue src bytes true in
    do! Emulator.copy_to_main_ram dest src bytes in
    ret (profile_cycle_weight s.(target_) (code DMA_STORE) bytes).

Definition op_dma (load : bool) : Instruction -> M Emulator Z :=
  if load then Emulator.op_dma_load else Emulator.op_dma_store.
Definition dma_at (load : bool) := if load then dma_load_at else dma_store_at.
(** Whether a fault is reported as one of a store: [dest_fault] says which side
    faulted. *)
Definition dma_kind (load dest_fault : bool) : bool := if load then dest_fault else true.

Lemma op_dma_at (load : bool) i d0 sr0 s :
  RegisterFile.read_gpr s.(regs_) (Instruction.rd i) = Some d0 ->
  RegisterFile.read_gpr s.(regs_) (Instruction.ra i) = Some sr0 ->
  op_dma load i s =
    (let! pas := Emulator.dma_addresses d0 sr0 (dma_kind load) in
     match pas with Some (d, sr) => dma_at load i d sr | None => ret 2 end) s.
Proof.
  intros Hd Hsr. destruct load; cbn [op_dma];
    [unfold Emulator.op_dma_load|unfold Emulator.op_dma_store];
    rewrite (bind_ok _ _ _ _ _ (read_gpr_run _ _ _ Hd)), (bind_ok _ _ _ _ _ (read_gpr_run _ _ _ Hsr));
    reflexivity.
Qed.

Lemma dma_load_at_run i d sr s n :
  emu_wf s -> n = Instruction.func i ->
  exists f b, Interconnect.wf f /\
    dma_load_at i d sr s =
      if out_of_bounds s.(scratchpad_) d n then (Throw DmaLoadScratchpadBounds, s)
      else if out_of_bounds s.(main_ram_) sr n then (Throw DmaLoadMainRamBounds, s)
      else if Buffer.in_range s.(scratchpad_) d n && Buffer.in_range s.(main_ram_) sr n then
        (Ok (profile_cycle_weight s.(target_) (code DMA_LOAD) n),
         Emulator.put_scratchpad
           (Buffer.poke s.(scratchpad_) d (Buffer.peek s.(main_ram_) sr (Z.to_nat n)))
           (after_issue true f b s))
      else (Undefined (BufferOverrun d n), after_issue true f b s).
Proof.
  intros Hs ->. destruct (axi_issue_run s d (Instruction.func i) false Hs) as (b & f & Hi & Hf & _).
  exists f, b. split; [done|]. unfold dma_load_at. rewrite get_run.
  set (n := Instruction.func i) in *.
  destruct (out_of_bounds (scratchpad_ s) d n); [done|].
  destruct (out_of_bounds (main_ram_ s) sr n); [done|].
  rewrite (bind_ok _ _ _ _ _ Hi).
  assert (Hrec : (if b then ret tt else modify (fun s : Emulator =>
      { s with profiler_ := Profiler.record (code DMA_LOAD) 1 0 s.(profiler_) }))
    (Emulator.put_axi f s) = (Ok tt, after_issue true f b s)) by (by destruct b).
  rewrite (bind_ok _ _ _ _ _ Hrec). unfold bind at 1, Emulator.copy_to_scratchpad at 1.
  rewrite get_run.
  assert (Hsame : scratchpad_ (after_issue true f b s) = scratchpad_ s /\
                  main_ram_ (after_issue true f b s) = main_ram_ s) by (by destruct b).
  destruct Hsame as [-> ->]. by destruct (_ && _).
Qed.

Lemma dma_store_at_run i d sr s n :
  emu_wf s -> n = Instruction.func i ->
  exists f b, Interconnect.wf f /\
    dma_store_at i d sr s =
      if out_of_bounds s.(main_ram_) d n then (Throw DmaStoreMainRamBounds, s)
      else if out_of_bounds s.(scratchpad_) sr n then (Throw DmaStoreScratchpadBounds, s)
      else if Buffer.in_range s.(main_ram_) d n && Buffer.in_range s.(scratchpad_) sr n then
        (Ok (profile_cycle_weight s.(target_) (code DMA_STORE) n),
         Emulator.put_main_ram
           (Buffer.poke s.(main_ram_) d (Buffer.peek s.(scratchpad_) sr (Z.to_nat n)))
           (after_issue false f b s))
      else (Undefined (BufferOverrun d n), after_issue false f b s).
Proof.
  intros Hs ->. destruct (axi_issue_run s sr (Instruction.func i) true Hs) as (b & f & Hi & Hf & _).
  exists f, b. split; [done|]. unfold dma_store_at. rewrite get_run.
  set (n := Instruction.func i) in *.
  destruct (out_of_bounds (main_ram_ s) d n); [done|].
  destruct (out_of_bounds (scratchpad_ s) sr n); [done|].
  rewrite (bind_ok _ _ _ _ _ Hi). unfold bind at 1, Emulator.copy_to_main_ram at 1.
  rewrite get_run. change (scratchpad_ (Emulator.put_axi f s)) with (scratchpad_ s).
  change (main_ram_ (Emulator.put_axi f s)) with (main_ram_ s). by destruct (_ && _).
Qed.

(** Paging off: the registers are the addresses. *)
Lemma op_dma_off (load : bool) i d sr s :
  MMU.enabled s.(mmu_) = false ->
  RegisterFile.read_gpr s.(regs_) (Instruction.rd i) = Some d ->
  RegisterFile.read_gpr s.(regs_) (Instruction.ra i) = Some sr ->
  op_dma load i s = dma_at load i d sr s.
Proof.
  intros Hm Hd Hsr. rewrite (op_dma_at load i d sr s Hd Hsr). by rewrite (bind_ok _ _ _ _ _ (dma_off s d sr _ Hm)).
Qed.

(** The copied block, byte by byte. *)
Definition copied (m m' src : buffer) (d sr n : Z) : Prop :=
  m'.(blen) = m.(blen) /\
  (forall k, 0 <= k < n -> Buffer.byte_at m' (d + k) = Buffer.byte_at src (sr + k)) /\
  (forall k, k < d \/ d + n <= k -> Buffer.byte_at m' k = Buffer.byte_at m k).

Lemma poke_peek_copied m src d sr n :
  0 <= n -> copied m (Buffer.poke m d (Buffer.peek src sr (Z.to_nat n))) src d sr n.
Proof.
  intros Hn. assert (Hl : zlen (Buffer.peek src sr (Z.to_nat n)) = n).
  { unfold zlen. rewrite Buffer.peek_length. lia. }
  split; [done|]. split.
  - intros k Hk. rewrite Buffer.byte_at_poke_in by lia.
    rewrite Buffer.peek_lookup by lia. cbn. f_equal. lia.
  - intros k Hk. apply Buffer.byte_at_poke_out. lia.
Qed.

End Dma.

(** ** Theorems *)

Definition dma_target (load : bool) (s : Emulator) : buffer :=
  if load then s.(scratchpad_) else s.(main_ram_).
Definition dma_bounds_error (load dest : bool) : EmulatorError :=
  match load, dest with
  | true, true => DmaLoadScratchpadBounds
  | true, false => DmaLoadMainRamBounds
  | false, true => DmaStoreMainRamBounds
  | false, false => DmaStoreScratchpadBounds
  end.

(** Either handler, with the two bounds checks in the order the code makes them. *)
Lemma dma_at_run (load : bool) i d sr s n :
  emu_wf s -> n = Instruction.func i -> 0 <= d -> 0 <= sr -> d + n < 2 ^ 32 -> sr + n < 2 ^ 32 ->
  let dst := dma_target load s in let src := dma_target (negb load) s in
  exists f b, dma_at load i d sr s =
    if negb (Buffer.in_range dst d n) then (Throw (dma_bounds_error load true), s)
    else if negb (Buffer.in_range src sr n) then (Throw (dma_bounds_error load false), s)
    else (Ok (profile_cycle_weight s.(target_) (code (if load then DMA_LOAD else DMA_STORE)) n),
      let m := Buffer.poke dst d (Buffer.peek src sr (Z.to_nat n)) in
      if load then Emulator.put_scratchpad m (after_issue load f b s)
      else Emulator.put_main_ram m (after_issue load f b s)).
Proof.
  intros Hs Hn Hd0 Hs0 Hdn Hsn dst src. subst dst src.
  assert (Hn0 : 0 <= n) by (subst n; apply Instruction.func_range).
  destruct load; cbn [dma_target negb dma_bounds_error dma_at].
  - destruct (dma_load_at_run i d sr s n Hs Hn) as (f & b & _ & Hr). exists f, b.
    rewrite Hr, !in_bounds_range by lia. by do 2 destruct (Buffer.in_range _ _ _).
  - destruct (dma_store_at_run i d sr s n Hs Hn) as (f & b & _ & Hr). exists f, b.
    rewrite Hr, !in_bounds_range by lia. by do 2 destruct (Buffer.in_range _ _ _).
Qed.

Lemma record_dma_bytes s p op c n :
  emu_wf s -> 0 <= n -> dma_bytes_ p = dma_bytes_ s.(profiler_) ->
  dma_bytes_ (Profiler.record op c n p) = u64 (dma_bytes_ s.(profiler_) + n).
Proof.
  intros Hs Hn Hp. unfold Profiler.record. destruct p as [pi pc pd pdc ph]. cbn in Hp. subst pd.
  destruct (Z.ltb_spec 0 n) as [|Hz]; [reflexivity|].
  assert (n = 0) as -> by lia. cbn. rewrite Z.add_0_r. symmetry. apply u64_small.
  exact (Profiler.wf_dma _ (wf_profiler s Hs)).
Qed.

Lemma dma_dispatch `{FloatOps} path (load : bool) i :
  Instruction.opcode i = code (if load then DMA_LOAD else DMA_STORE) ->
  Emulator.dispatch_table_ path (Instruction.opcode i) = Some (op_dma load).
Proof. intros ->. unfold Emulator.dispatch_table_. rewrite opcode_of_code. by destruct load. Qed.

(** What a DMA of [n] bytes from [sr] to [d] does to the machine. *)
Definition dma_outcome `{FloatOps} (path : HostPath) (load : bool) (i : Instruction) (d sr n : Z)
    (s : Emulator) : Prop :=
  let dst := dma_target load s in let src := dma_target (negb load) s in
  exists s', s'.(regs_) = s.(regs_) /\ dma_target (negb load) s' = src /\
  if negb (Buffer.in_range dst d n) then
    Emulator.execute path i s = (Throw (dma_bounds_error load true), s') /\ dma_target load s' = dst
  else if negb (Buffer.in_range src sr n) then
    Emulator.execute path i s = (Throw (dma_bounds_error load false), s') /\ dma_target load s' = dst
  else
    (exists c, Emulator.execute path i s = (Ok c, s')) /\
    copied dst (dma_target load s') src d sr n /\
    s'.(profiler_).(dma_bytes_) = u64 (s.(profiler_).(dma_bytes_) + n).

(** The copy from the state [s1] that the address translation left. *)
Lemma dma_at_outcome `{FloatOps} path (load : bool) i d sr s m n :
  let s1 := Emulator.put_mmu m s in
  emu_wf s1 -> n = Instruction.func i -> 0 <= d -> 0 <= sr -> d + n < 2 ^ 32 -> sr + n < 2 ^ 32 ->
  Instruction.opcode i = code (if load then DMA_LOAD else DMA_STORE) ->
  op_dma load i s = dma_at load i d sr s1 -> dma_outcome path load i d sr n s.
Proof.
  intros s1 Hs Hn Hd0 Hs0 Hdn Hsn Ho Hop. pose proof (dma_dispatch path load i Ho) as Hdisp.
  assert (Hn0 : 0 <= n) by (subst n; apply Instruction.func_range).
  destruct (dma_at_run load i d sr s1 n Hs Hn Hd0 Hs0 Hdn Hsn) as (f & b & Hrun). rewrite <- Hop in Hrun.
  assert (Ht : forall l, dma_target l s1 = dma_target l s) by (by intros []). rewrite !Ht in Hrun.
  unfold dma_outcome. destruct (Buffer.in_range (dma_target load s) d n); cbn [negb] in *.
  2: { destruct (execute_fail _ _ _ _ _ _ Hdisp Hrun) as (r & He & ->); [done|]. exists s1. by rewrite !Ht. }
  destruct (Buffer.in_range (dma_target (negb load) s) sr n); cbn [negb] in *.
  2: { destruct (execute_fail _ _ _ _ _ _ Hdisp Hrun) as (r & He & ->); [done|]. exists s1. by rewrite !Ht. }
  assert (Hdma : Emulator.is_dma (Instruction.opcode i) = true) by (rewrite Ho; by destruct load).
  pose proof (execute_run _ _ _ _ _ _ Hdisp Hrun) as Hex. rewrite Hdma, <- Hn in Hex.
  set (c := profile_cycle_weight _ _ _) in Hex.
  destruct load; cbn [dma_target negb]; eexists (retire _ c n _).
  - split; [|split; [|split; [exists c; exact Hex|split]]].
    + by destruct b.
    + by destruct b.
    + exact (poke_peek_copied _ _ _ _ _ Hn0).
    + apply (record_dma_bytes s1); [done|done|by destruct b].
  - split; [|split; [|split; [exists c; exact Hex|split]]].
    + reflexivity.
    + reflexivity.
    + exact (poke_peek_copied _ _ _ _ _ Hn0).
    + by apply (record_dma_bytes s1).
Qed.

(** C10: DMA is an exact, bounded copy. With paging off, for either direction
    and a transfer whose two ranges end below 2^32: if the destination, or else
    the source, is not inside its memory, the instruction throws the error of
    that side and registers and memories are unchanged; otherwise exactly the
    [n] bytes named by the instruction are copied, every other byte of the
    destination memory, the other memory and the registers are unchanged, and
    [n] is added to the DMA byte counter. *)
Theorem dma_exact `{FloatOps} path (load : bool) i d sr s n :
  emu_wf s -> MMU.enabled s.(mmu_) = false ->
  Instruction.opcode i = code (if load then DMA_LOAD else DMA_STORE) -> n = Instruction.func i ->
  RegisterFile.read_gpr s.(regs_) (Instruction.rd i) = Some d ->
  RegisterFile.read_gpr s.(regs_) (Instruction.ra i) = Some sr ->
  d + n < 2 ^ 32 -> sr + n < 2 ^ 32 -> dma_outcome path load i d sr n s.
Proof.
  intros Hs Hm Ho Hn Hd Hsr Hdn Hsn. assert (Hreg : RegisterFile.wf (regs_ s)) by apply Hs.
  pose proof (RegisterFile.read_gpr_fits _ _ _ Hreg Hd) as [Hd0 _].
  pose proof (RegisterFile.read_gpr_fits _ _ _ Hreg Hsr) as [Hs0 _].
  assert (Hsame : Emulator.put_mmu s.(mmu_) s = s) by (by destruct s).
  apply (dma_at_outcome path load i d sr s s.(mmu_) n); rewrite ?Hsame; try done.
  by apply op_dma_off.
Qed.

(** A machine with 64 bytes in each memory and the word 0xAB at main address 8. *)
Definition dma_state : Emulator :=
  (Emulator.load_main_ram 8 [0xAB; 0xCD] (Emulator.create 64 64)).2.
Lemma dma_state_wf : emu_wf dma_state.
Proof.
  apply load_main_ram_keeps; [repeat constructor; unfold is_byte; lia|].
  apply create_wf; vm_compute; split; congruence.
Qed.
Definition set_gprs (l : list Z) (s : Emulator) : Emulator :=
  Emulator.put_regs { s.(regs_) with gpr := l } s.
Lemma set_gprs_wf l s : length l = 15%nat -> Forall (fits 32) l -> emu_wf s -> emu_wf (set_gprs (0 :: l) s).
Proof.
  intros Hl Hf Hs. apply put_regs_wf; [done|]. destruct (wf_regs s Hs).
  split; cbn; auto. constructor; [unfold fits; lia|done].
Qed.

Lemma dma_exact_witness :
  let s := set_gprs ([0; 20; 8] ++ replicate 13 0) dma_state in
  exists s' c, Emulator.execute PathScalar (mkInstruction (enc.dma_load 1 2 2)) s = (Ok c, s') /\
    Buffer.byte_at s'.(scratchpad_) 21 = 0xCD.
Proof.
  intros s. assert (Hs : emu_wf s).
  { apply set_gprs_wf; [done|repeat constructor; unfold fits; lia|exact dma_state_wf]. }
  destruct (dma_exact PathScalar true (mkInstruction (enc.dma_load 1 2 2)) 20 8 s 2 Hs eq_refl eq_refl
    eq_refl eq_refl eq_refl ltac:(lia) ltac:(lia)) as (s' & _ & _ & [c Hc] & (_ & Hb & _) & _).
  exists s', c. split; [exact Hc|]. exact (Hb 1 ltac:(lia)).
Defined.

(** C25: the DMA bounds checks overflow. The sums [dest + bytes] and
    [src + bytes] are 32-bit: a transfer that starts in the last bytes below
    2^32 and ends past them passes the check, because the wrapped sum is
    small, and the copy runs outside the memory. For every well-formed state
    with paging off, such a DMA_LOAD whose source is inside main RAM is
    undefined behaviour, and so is such a DMA_STORE with a source inside the
    scratchpad. *)
Theorem dma_bounds_wrap `{FloatOps} path (load : bool) i d sr s n :
  emu_wf s -> MMU.enabled s.(mmu_) = false ->
  Instruction.opcode i = code (if load then DMA_LOAD else DMA_STORE) -> n = Instruction.func i ->
  RegisterFile.read_gpr s.(regs_) (Instruction.rd i) = Some d ->
  RegisterFile.read_gpr s.(regs_) (Instruction.ra i) = Some sr ->
  2 ^ 32 <= d + n -> d + n - 2 ^ 32 <= (dma_target load s).(blen) < d + n ->
  sr + n < 2 ^ 32 -> Buffer.in_range (dma_target (negb load) s) sr n = true ->
  (Emulator.execute path i s).1 = Undefined (BufferOverrun d n).
Proof.
  intros Hs Hm Ho Hn Hd Hsr Hwrap Hlen Hsn Hsrc.
  assert (Hreg : RegisterFile.wf (regs_ s)) by apply Hs.
  assert (Hn0 : 0 <= n < 2048) by (subst n; apply Instruction.func_range).
  pose proof (RegisterFile.read_gpr_fits _ _ _ Hreg Hd) as Hd0. unfold fits in Hd0.
  pose proof (RegisterFile.read_gpr_fits _ _ _ Hreg Hsr) as Hs0. unfold fits in Hs0.
  assert (Hpass : out_of_bounds (dma_target load s) d n = false).
  { unfold out_of_bounds, u32. replace (d + n) with (d + n - 2 ^ 32 + 1 * 2 ^ 32) by lia.
    rewrite Z.mod_add, Z.mod_small, Z.gtb_ltb by lia. apply Z.ltb_ge. lia. }
  assert (Hout : Buffer.in_range (dma_target load s) d n = false).
  { unfold Buffer.in_range. destruct (Z.leb_spec (d + n) (blen (dma_target load s))); [lia|].
    apply andb_false_r. }
  assert (Hsrc' : out_of_bounds (dma_target (negb load) s) sr n = false)
    by (rewrite in_bounds_range, Hsrc by lia; done).
  pose proof (dma_dispatch path load i Ho) as Hdisp.
  assert (Hrun : exists s', op_dma load i s = (Undefined (BufferOverrun d n), s')).
  { rewrite (op_dma_off load i d sr s Hm Hd Hsr). destruct load; cbn [dma_target negb dma_at] in *.
    - destruct (dma_load_at_run i d sr s n Hs Hn) as (f & b & _ & Hr).
      rewrite Hpass, Hsrc', Hout in Hr. eexists. exact Hr.
    - destruct (dma_store_at_run i d sr s n Hs Hn) as (f & b & _ & Hr).
      rewrite Hpass, Hsrc', Hout in Hr. eexists. exact Hr. }
  destruct Hrun as [s' Hrun].
  destruct (execute_fail _ _ _ _ _ _ Hdisp Hrun) as (r & -> & Hr); done.
Qed.

Lemma dma_bounds_wrap_witness :
  (Emulator.execute PathScalar (mkInstruction (enc.dma_load 1 2 16))
     (set_gprs ([0; 0xFFFFFFF8; 8] ++ replicate 13 0) dma_state)).1
  = Undefined (BufferOverrun 0xFFFFFFF8 16).
Proof.
  apply (dma_bounds_wrap PathScalar true _ 0xFFFFFFF8 8); try reflexivity;
    try (vm_compute; split; congruence); try (vm_compute; congruence).
  apply set_gprs_wf; [done|repeat constructor; unfold fits; lia|exact dma_state_wf].
Defined.
