(* ===== verification/Traps.v ===== *)
(** * Traps, interrupts, peripheral ticks and whole-state operations

    What the emulator does around the handlers: the illegal-instruction path of
    [execute], the interrupt check of [step], the drain of the tick
    accumulator, reset and the two serialization functions. *)

From S2P Require Import Prelude Text Isa Memory Registers Interrupt Devices Bus Float Profiler Interconnect Target Host Mmu Translate Emulator EmulatorWf Execute.
#[local] Open Scope Z_scope.

(** ** Trap entry through mtvec *)

(** The CSRs a trap leaves, as far as the emulator looks at them. *)
Definition trapped (t : Trap) (s s' : Emulator) : Prop :=
  priv s'.(csr_) = Machine /\
  CSRFile.read s'.(csr_) CSR_MEPC = t.(trap_pc) /\
  CSRFile.read s'.(csr_) CSR_MTVAL = t.(tval) /\
  CSRFile.read s'.(csr_) CSR_MCAUSE =
    Z.lor (cause_code t.(cause)) (if t.(is_interrupt) then bit 63 else 0) /\
  has_bit (CSRFile.mstatus s'.(csr_)) 3 = false /\
  CSRFile.read s'.(csr_) CSR_MTVEC = CSRFile.read s.(csr_) CSR_MTVEC /\
  s'.(scratchpad_) = s.(scratchpad_) /\ s'.(main_ram_) = s.(main_ram_) /\
  s'.(profiler_) = s.(profiler_) /\ s'.(tick_accum_) = s.(tick_accum_).

Lemma take_trap_run t s :
  0 <= priv s.(csr_) < 4 ->
  exists s', Emulator.take_trap t s = (Ok tt, s') /\ trapped t s s' /\ s'.(regs_) = s.(regs_) /\
    forall p, Emulator.take_trap t (Emulator.put_regs { s.(regs_) with pc := p } s)
              = (Ok tt, Emulator.put_regs { s.(regs_) with pc := p } s').
Proof.
  intros Hp. destruct (take_trap_spec t (csr_ s) (intc_ s)) as (c1 & i1 & Ht & Hpriv & Hr).
  exists { s with csr_ := c1; intc_ := i1 }. split; [|split; [|split; [done|]]].
  - unfold Emulator.take_trap, modify. by rewrite Ht.
  - unfold trapped, CSRFile.mstatus. cbn [csr_ regs_ scratchpad_ main_ram_ profiler_ tick_accum_].
    rewrite !Hr. cbn [Z.eqb Pos.eqb]. repeat (split; [done|]). split; [|done].
    rewrite InterruptController.has_bit_testbit by lia.
    change (Z.testbit (InterruptController.trap_mstatus
      (CSRFile.read (csr_ s) CSR_MSTATUS) (priv (csr_ s))) 3 = false).
    by rewrite trap_mstatus_bits by lia.
  - intros p. exact (f_equal (fun x => let '(_, c, i) := x in
      (Ok tt, { Emulator.put_regs { s.(regs_) with pc := p } s with
                  csr_ := default s.(csr_) c; intc_ := i })) Ht).
Qed.

Lemma trap_to_mtvec_run t s :
  0 <= priv s.(csr_) < 4 ->
  exists s', Emulator.trap_to_mtvec t s = (Ok tt, s') /\ trapped t s s' /\
    s'.(regs_) = { s.(regs_) with pc := Emulator.mtvec_base s.(csr_) }.
Proof.
  intros Hp. destruct (take_trap_run t s Hp) as (s1 & H1 & H2 & H3 & _).
  eexists. split; [|split].
  - unfold Emulator.trap_to_mtvec. rewrite (bind_ok _ _ _ _ _ H1). reflexivity.
  - exact H2.
  - cbn. rewrite H3. destruct H2 as (_ & _ & _ & _ & _ & Hv & _).
    unfold Emulator.mtvec_base. by rewrite Hv.
Qed.

(** an opcode with no handler. When mtvec is zero, [execute] throws
    the unknown-opcode error and nothing changes; otherwise it enters the trap
    handler: machine mode with interrupts off, MEPC the address of the
    instruction (the advanced pc less 4), MTVAL its word, MCAUSE 2, the program
    counter at mtvec without its two low bits, registers and memories
    unchanged, and the instruction is not counted: neither the profiler nor
    the tick accumulator sees the two cycles it returns. *)
Theorem illegal_instruction `{FloatOps} path i s :
  emu_wf s -> opcode_of (Instruction.opcode i) = None ->
  if CSRFile.read s.(csr_) CSR_MTVEC =? 0 then
    Emulator.execute path i s = (Throw (UnknownOpcode (Instruction.opcode i)), s)
  else exists s', Emulator.execute path i s = (Ok 2, s') /\
    trapped (InterruptController.illegal_inst_trap (u32 (s.(regs_).(pc) - 4)) i.(raw)) s s' /\
    s'.(regs_) = { s.(regs_) with pc := Emulator.mtvec_base s.(csr_) }.
Proof.
  intros Hs Hi. unfold Emulator.execute, Emulator.dispatch_table_. rewrite Hi.
  rewrite (bind_ok Emulator.prev_pc _ s (u32 (pc (regs_ s) - 4)) s eq_refl), get_run.
  destruct (CSRFile.read (csr_ s) CSR_MTVEC =? 0); [done|]. cbn [negb].
  destruct (trap_to_mtvec_run (InterruptController.illegal_inst_trap
    (u32 (pc (regs_ s) - 4)) (raw i)) s) as (s' & H1 & H2 & H3).
  { destruct (wf_csr s Hs) as [_ Hp]. exact Hp. }
  exists s'. by rewrite (bind_ok _ _ _ _ _ H1).
Qed.

(** A machine stopped at 0x10 with an mtvec of 0x81. *)
Definition trap_state : Emulator :=
  let s := Emulator.create 256 64 in
  { s with csr_ := CSRFile.write s.(csr_) CSR_MTVEC 0x81;
           regs_ := { s.(regs_) with pc := 0x10 } }.
Lemma create_small_wf : emu_wf (Emulator.create 256 64).
Proof. apply create_wf; vm_compute; split; congruence. Qed.
Lemma trap_state_wf : emu_wf trap_state.
Proof.
  destruct create_small_wf. split; try assumption.
  - apply RegisterFile.set_pc_wf; [done|unfold fits; lia].
  - apply CSRFile.csr_write_wf; [done|unfold fits; lia].
Qed.

Lemma illegal_instruction_witness :
  exists s', Emulator.execute PathScalar (mkInstruction 0xFC000000) trap_state = (Ok 2, s') /\
    CSRFile.read s'.(csr_) CSR_MEPC = 0xC /\ s'.(regs_).(pc) = 0x80.
Proof.
  destruct (illegal_instruction PathScalar (mkInstruction 0xFC000000) trap_state trap_state_wf
    eq_refl) as (s' & H1 & (_ & H2 & _) & H3).
  exists s'. split; [exact H1|]. split; [exact H2|]. rewrite H3. reflexivity.
Defined.

(** ** Interrupts *)
Definition at_pc (p : Z) (s : Emulator) : Emulator := Emulator.put_regs { s.(regs_) with pc := p } s.

(** C19: interrupt delivery. With an interrupt to deliver, the check of
    [step] enters machine mode with interrupts off and moves to the base of
    mtvec, in vectored mode plus four times the cause number, registers and
    memories unchanged. MEPC is zero and the machine reached does not depend on
    where it was interrupted: the pc is lost, so no handler can return to the
    interrupted program. With none to deliver nothing changes. *)
Theorem interrupt_delivery s :
  emu_wf s ->
  match InterruptController.pending_interrupt (Some s.(csr_)) s.(intc_) with
  | None => Emulator.service_interrupt s = (Ok tt, s)
  | Some irq =>
      exists s', Emulator.service_interrupt s = (Ok tt, s') /\ trapped irq s s' /\
        CSRFile.read s'.(csr_) CSR_MEPC = 0 /\
        (let mtvec := CSRFile.read s.(csr_) CSR_MTVEC in
         let base := Emulator.mtvec_base s.(csr_) in
         s'.(regs_) = { s.(regs_) with pc :=
           if Z.testbit mtvec 0 then u32 (base + 4 * (cause_code irq.(cause) mod 256)) else base }) /\
        (forall p, Emulator.service_interrupt (at_pc p s) = (Ok tt, s'))
  end.
Proof.
  intros Hs. unfold Emulator.service_interrupt.
  destruct (InterruptController.pending_interrupt (Some (csr_ s)) (intc_ s)) as [irq|] eqn:Hi.
  2: { by rewrite get_run, Hi. }
  destruct (InterruptController.pending_interrupt_async _ _ _ Hi) as (Hpc & _ & _ & _).
  destruct (take_trap_run irq s) as (s1 & H1 & H2 & H3 & H4).
  { destruct (wf_csr s Hs) as [_ Hp]. exact Hp. }
  assert (Hv : CSRFile.read (csr_ s1) CSR_MTVEC = CSRFile.read (csr_ s) CSR_MTVEC).
  { destruct H2 as (_ & _ & _ & _ & _ & Hv & _). exact Hv. }
  assert (Hme : CSRFile.read (csr_ s1) CSR_MEPC = 0).
  { destruct H2 as (_ & He & _). by rewrite He. }
  set (tgt := fun m => if negb (Z.land m 1 =? 0)
    then u32 (u32 (Z.ldiff m 3) + Emulator.vector_slot (cause irq) * 4) else u32 (Z.ldiff m 3)).
  exists (Emulator.put_regs { s.(regs_) with pc := tgt (CSRFile.read (csr_ s) CSR_MTVEC) } s1).
  split; [|split; [exact H2|split; [exact Hme|split]]].
  - rewrite get_run, Hi, (bind_ok _ _ _ _ _ H1), <- Hv, <- H3. reflexivity.
  - rewrite regs_put_regs. subst tgt. cbn beta. f_equal. unfold Emulator.vector_slot.
    assert (Hb : negb (Z.land (CSRFile.read (csr_ s) CSR_MTVEC) 1 =? 0)
                 = Z.testbit (CSRFile.read (csr_ s) CSR_MTVEC) 0)
      by (apply (InterruptController.has_bit_testbit _ 0); lia).
    rewrite Hb, (land_mask_mod _ 255 8) by done. change (2 ^ 8) with 256.
    by rewrite (Z.mul_comm _ 4).
  - intros p. rewrite get_run. change (csr_ (at_pc p s)) with (csr_ s).
    change (intc_ (at_pc p s)) with (intc_ s).
    rewrite Hi, (bind_ok _ _ _ _ _ (H4 p)), <- Hv. reflexivity.
Qed.

(** The timer line raised and enabled, vectored mode, at two different pcs. *)
Definition irq_state : Emulator :=
  { trap_state with
      csr_ := CSRFile.write (CSRFile.write trap_state.(csr_) CSR_MIE 0x80) CSR_MSTATUS 8;
      intc_ := InterruptController.raise_timer trap_state.(intc_) }.
Lemma irq_state_wf : emu_wf irq_state.
Proof.
  destruct trap_state_wf. split; try assumption.
  - do 2 (apply CSRFile.csr_write_wf; [|unfold fits; lia]). done.
  - by apply raise_timer_wf.
Qed.
Lemma interrupt_delivery_witness :
  exists s', Emulator.service_interrupt irq_state = (Ok tt, s') /\
    Emulator.service_interrupt (at_pc 0x40 irq_state) = (Ok tt, s') /\
    CSRFile.read s'.(csr_) CSR_MEPC = 0 /\ s'.(regs_).(pc) = 0x9C.
Proof.
  destruct (interrupt_delivery irq_state irq_state_wf) as (s' & H1 & _ & H2 & H3 & H4).
  exists s'. split; [exact H1|]. split; [apply H4|]. split; [exact H2|].
  rewrite H3. reflexivity.
Defined.

(** ** Peripheral ticks *)

(** The timer line of the controller set to [b]. *)
Definition timer_line (b : bool) (c : InterruptController) : InterruptController :=
  if b then InterruptController.raise_timer c else InterruptController.clear_timer c.

(** The state after [n] periods of 1000 cycles. *)
Definition ticked (n : nat) (s : Emulator) : Emulator :=
  let timer := Nat.iter n (TimerDevice.tick 1000) s.(timer_) in
  { s with
      timer_ := timer;
      axi_ := Nat.iter n (Interconnect.tick 1000) s.(axi_);
      pcie_ := Nat.iter n (Interconnect.tick 1000) s.(pcie_);
      cxi_ := Nat.iter n (Interconnect.tick 1000) s.(cxi_);
      interconnect_ := Nat.iter n (Interconnect.tick 1000) s.(interconnect_);
      intc_ := if (n =? 0)%nat then s.(intc_) else timer_line timer.(irq_pending_) s.(intc_);
      tick_accum_ := s.(tick_accum_) - 1000 * Z.of_nat n }.

Lemma timer_line_line b b' c : timer_line b (timer_line b' c) = timer_line b c.
Proof.
  assert (H : forall x y, InterruptController.set_mip x (InterruptController.set_mip y c)
                          = InterruptController.set_mip x c) by done.
  assert (Hor : forall x, Z.lor (Z.lor x (bit 7)) (bit 7) = Z.lor x (bit 7))
    by (intros; rewrite <- Z.lor_assoc, Z.lor_diag; done).
  assert (Hod : forall x, Z.lor (Z.ldiff x (bit 7)) (bit 7) = Z.lor x (bit 7)).
  { intros. apply Z.bits_inj'. intros. rewrite !tb_lor, tb_ldiff. btauto. }
  assert (Hdo : forall x, Z.ldiff (Z.lor x (bit 7)) (bit 7) = Z.ldiff x (bit 7)).
  { intros. apply Z.bits_inj'. intros. rewrite !tb_ldiff, tb_lor. btauto. }
  assert (Hdd : forall x, Z.ldiff (Z.ldiff x (bit 7)) (bit 7) = Z.ldiff x (bit 7)).
  { intros. apply Z.bits_inj'. intros. rewrite !tb_ldiff. btauto. }
  destruct b, b';
    [exact (f_equal (fun x => InterruptController.set_mip x c) (Hor _))
    |exact (f_equal (fun x => InterruptController.set_mip x c) (Hod _))
    |exact (f_equal (fun x => InterruptController.set_mip x c) (Hdo _))
    |exact (f_equal (fun x => InterruptController.set_mip x c) (Hdd _))].
Qed.

Lemma ticked_0 s : ticked 0 s = s.
Proof. unfold ticked. cbn -[Z.mul]. by rewrite Z.mul_0_r, Z.sub_0_r. Qed.
Lemma ticked_S n s : ticked (S n) s = ticked n (Emulator.tick_once s).
Proof.
  unfold ticked. rewrite !Nat.iter_succ_r. cbn [Nat.eqb].
  assert (Ha : tick_accum_ s - 1000 * Z.of_nat (S n)
               = tick_accum_ (Emulator.tick_once s) - 1000 * Z.of_nat n)
    by (cbn -[Z.mul Z.of_nat]; unfold CYCLES_PER_TICK; lia).
  rewrite Ha. set (t1 := TimerDevice.tick 1000 (timer_ s)).
  assert (Hi : timer_line (irq_pending_ (Nat.iter n (TimerDevice.tick 1000) t1)) (intc_ s)
    = if (n =? 0)%nat then intc_ (Emulator.tick_once s)
      else timer_line (irq_pending_ (Nat.iter n (TimerDevice.tick 1000) t1))
             (intc_ (Emulator.tick_once s))).
  { change (intc_ (Emulator.tick_once s)) with (timer_line (irq_pending_ t1) (intc_ s)).
    destruct (Nat.eqb_spec n 0) as [->|]; [done|]. by rewrite timer_line_line. }
  rewrite Hi. reflexivity.
Qed.

Lemma tick_loop_ticked n s m :
  1000 * Z.of_nat n <= s.(tick_accum_) < 1000 * Z.of_nat n + 1000 -> (n <= m)%nat ->
  Emulator.tick_loop m s = ticked n s.
Proof.
  revert s m. induction n as [|n IH]; intros s m Hn Hm.
  - rewrite ticked_0. destruct m; [done|]. cbn [Emulator.tick_loop]. unfold CYCLES_PER_TICK.
    destruct (Z.leb_spec 1000 (tick_accum_ s)); [lia|done].
  - destruct m as [|m]; [lia|]. cbn [Emulator.tick_loop]. unfold CYCLES_PER_TICK at 1.
    destruct (Z.leb_spec 1000 (tick_accum_ s)); [|lia].
    rewrite ticked_S. apply IH; [cbn -[Z.mul Z.of_nat]; unfold CYCLES_PER_TICK; lia|lia].
Qed.

Lemma whole_periods a :
  0 <= a ->
  let n := Z.to_nat (a / 1000) in
  1000 * Z.of_nat n <= a < 1000 * Z.of_nat n + 1000 /\ a - 1000 * Z.of_nat n = a mod 1000.
Proof.
  intros Ha n. subst n. rewrite Z2Nat.id by (apply Z.div_pos; lia).
  Z.div_mod_to_equations. lia.
Qed.

(** C20: the peripheral loop terminates with the accumulator below 1000 and
    its remainder kept: every full 1000 cycles accumulated are handed, in order,
    to the timer and to the four fabrics, the timer line of the interrupt
    controller follows the timer's pending flag (when at least one period
    elapsed), and nothing else changes; any fuel at or above the number of
    periods gives the same state. *)
Theorem tick_peripherals_exact s m :
  emu_wf s ->
  let n := Z.to_nat (s.(tick_accum_) / 1000) in
  Emulator.tick_peripherals s = ticked n s /\
  (Emulator.tick_peripherals s).(tick_accum_) = s.(tick_accum_) mod 1000 /\
  ((n <= m)%nat -> Emulator.tick_loop m s = Emulator.tick_peripherals s).
Proof.
  intros Hs n. pose proof (wf_accum s Hs) as [H0 _].
  assert (Hn : 1000 * Z.of_nat n <= tick_accum_ s < 1000 * Z.of_nat n + 1000).
  { exact (proj1 (whole_periods _ H0)). }
  assert (Ht : Emulator.tick_peripherals s = ticked n s) by (apply tick_loop_ticked; [done|apply Nat.le_refl]).
  split; [done|]. rewrite Ht. split; [|intros; by apply tick_loop_ticked].
  exact (proj2 (whole_periods _ H0)).
Qed.

Lemma tick_peripherals_exact_witness :
  let s := { trap_state with tick_accum_ := 2500; timer_ := { trap_state.(timer_) with ctrl_ := true } } in
  (Emulator.tick_peripherals s).(tick_accum_) = 500 /\
  (Emulator.tick_peripherals s).(timer_).(count_) = 2000.
Proof.
  intros s. assert (Hs : emu_wf s).
  { pose proof trap_state_wf as []. subst s. split; try assumption.
    all: vm_compute; repeat split; congruence. }
  destruct (tick_peripherals_exact s 9 Hs) as (H1 & H2 & _).
  split; [exact H2|]. rewrite H1. reflexivity.
Defined.

(** ** Reset and serialization *)

(** Reset brings the machine back to the state the constructor makes
    for the same memory sizes, except for what it does not touch: the timer,
    the UART, the memory behind a cluster's bus window, the target, the acceleration flag, the fabric configurations,
    and the MMU's linear map and counters. So the program, the memories, the
    CSRs, the registers, the counters, the breakpoints and every TLB entry are
    gone, and a second reset changes nothing; a timer that was running keeps
    running. *)
Theorem reset_power_on s :
  let fresh := Emulator.create s.(scratchpad_).(blen) s.(main_ram_).(blen) in
  Emulator.reset s = { fresh with
    timer_ := s.(timer_); uart_ := s.(uart_); target_ := s.(target_); accel_ := s.(accel_);
    shared_ := s.(shared_); stdout := s.(stdout);
    axi_ := Interconnect.make s.(axi_).(cfg_); pcie_ := Interconnect.make s.(pcie_).(cfg_);
    cxi_ := Interconnect.make s.(cxi_).(cfg_);
    interconnect_ := Interconnect.make s.(interconnect_).(cfg_);
    mmu_ := (Emulator.reset s).(mmu_) } /\
  MMU.enabled (Emulator.reset s).(mmu_) = false /\
  Forall (fun e => e.(e_valid) = false) (Emulator.reset s).(mmu_).(tlb_) /\
  Emulator.reset (Emulator.reset s) = Emulator.reset s.
Proof.
  intros fresh. split; [reflexivity|]. split; [reflexivity|].
  assert (Hm : forall m, MMU.set_enabled false (MMU.tlb_flush (MMU.set_enabled false (MMU.tlb_flush m)))
                         = MMU.set_enabled false (MMU.tlb_flush m)).
  { intros m. set (off := fun e : TLBEntry => { e with e_valid := false }).
    exact (f_equal (fun t => mkMMU false t 0 (Mmu.hits_ m) (Mmu.misses_ m) (last_fault_ m)
             (last_fault_va_ m) (simple_map_ m)) (map_map off off (tlb_ m))). }
  split.
  - apply Forall_map, Forall_true. done.
  - exact (f_equal (fun m => Emulator.put_mmu m (Emulator.reset s)) (Hm (mmu_ s))).
Qed.

(** C21: saving and restoring. Restoring into any machine the state saved
    from a well-formed one gives that machine the saved registers, flags,
    program counter, tick accumulator and profiler, and saving again gives the
    same snapshot; its halt flag, CSRs, MMU, memories, devices, fabrics and
    block cache stay its own, so a snapshot does not bring back a halted or a
    trapped machine. *)
Theorem save_restore s s' :
  emu_wf s ->
  let r := Emulator.restore_state (Emulator.save_state s) s' in
  r = { s' with regs_ := { s.(regs_) with halt := s'.(regs_).(halt) };
                tick_accum_ := s.(tick_accum_); profiler_ := s.(profiler_) } /\
  Emulator.save_state r = Emulator.save_state s.
Proof.
  intros Hs r.
  assert (Hr : r = { s' with regs_ := { s.(regs_) with halt := s'.(regs_).(halt) };
                             tick_accum_ := s.(tick_accum_); profiler_ := s.(profiler_) }).
  { assert (Hg : zset (gpr (regs_ s)) 0 0 = gpr (regs_ s)) by apply zset_zget, (wf_regs s Hs).
    set (put_gpr := fun g => { s' with
      regs_ := { s.(regs_) with halt := s'.(regs_).(halt); gpr := g };
      tick_accum_ := s.(tick_accum_); profiler_ := s.(profiler_) }).
    exact (f_equal put_gpr Hg). }
  rewrite Hr. done.
Qed.

Lemma save_restore_witness :
  let s := at_pc 0x24 overflow_state in
  let s' := Emulator.put_regs { trap_state.(regs_) with halt := true } trap_state in
  let r := Emulator.restore_state (Emulator.save_state s) s' in
  Emulator.pc r = 0x24 /\ Emulator.halted r = true.
Proof.
  intros s s' r. assert (Hs : emu_wf s).
  { apply put_regs_wf; [exact overflow_state_wf|].
    apply RegisterFile.set_pc_wf; [apply overflow_state_wf|unfold fits; lia]. }
  destruct (save_restore s s' Hs) as [H1 _]. fold r in H1. rewrite H1. split; reflexivity.
Defined.
