(* ===== verification/Effects.v ===== *)
(** * The effects instructions share

    What an instruction does besides writing memory: it reads and writes
    registers, issues transactions and reads the bus.  A property of the machine
    that does not speak of those parts is kept by every such computation, and
    so by every instruction that writes no memory. *)

From S2P Require Import Prelude Text Isa Memory Registers Interrupt Devices Bus Float Profiler Interconnect Target Host Mmu Translate Emulator EmulatorWf Execute.
#[local] Open Scope Z_scope.

(** A property that does not depend on the registers, the AXI fabric, the timer
    and the profiler. *)
Class Closed (P : Emulator -> Prop) : Prop := {
  closed_regs r s : P s -> P (Emulator.put_regs r s);
  closed_axi f s : P s -> P (Emulator.put_axi f s);
  closed_timer t s : P s -> P { s with timer_ := t };
  closed_profiler p s : P s -> P { s with profiler_ := p } }.

Notation keepsC P m := (keeps P m (fun _ => True)).
Create HintDb effects.

Section Effects.
Context (P : Emulator -> Prop) `{!Closed P}.

Lemma e_regs (f : Emulator -> RegisterFile) : keepsC P (modify (fun s => Emulator.put_regs (f s) s)).
Proof using All. apply keeps_modify. intros s Hs. by apply closed_regs. Qed.
Lemma e_read_gpr i : keepsC P (Emulator.read_gpr i).
Proof using Type. eapply keeps_bind; [apply keeps_get|]. intros s Hs. by apply keeps_opt. Qed.
Lemma e_write_gpr i v : keepsC P (Emulator.write_gpr i v).
Proof using All.
  intros s Hs. split; [|done]. unfold Emulator.write_gpr, bind, get, opt. cbn.
  by destruct (RegisterFile.write_gpr (regs_ s) i v) as [r|]; [apply closed_regs|].
Qed.
Lemma e_vr_data i : keepsC P (Emulator.vr_data i).
Proof using Type. eapply keeps_bind; [apply keeps_get|]. intros s Hs. by apply keeps_opt. Qed.
Lemma e_axi_issue a b w : keepsC P (Emulator.axi_issue a b w).
Proof using All.
  intros s Hs. split; [|done]. unfold Emulator.axi_issue. rewrite get_run. unfold zoom.
  destruct (Interconnect.issue _ _ _) as [r f]. by apply closed_axi.
Qed.
Lemma e_bus_read32 a : keepsC P (Emulator.bus_read32 a).
Proof using All.
  unfold Emulator.bus_read32. eapply keeps_bind; [apply keeps_get|]. intros s1 _.
  destruct (bus_cases (shared_ s1) a) as [[-> _]|[[-> _]|[(m & _ & _ & -> & _)|[-> _]]]].
  - intros s Hs. split; [|done]. unfold Emulator.timer_read.
    destruct (TimerDevice.read_reg _ _) as [v t]. by apply closed_timer.
  - by apply keeps_gets.
  - unfold Emulator.window_read. case_match; [by apply keeps_ret|apply keeps_undef].
  - eapply keeps_bind; [apply keeps_get|]. intros s Hs. by apply keeps_lift.
Qed.
Lemma e_branch b i c : keepsC P (Emulator.branch_if b i c).
Proof using All.
  unfold Emulator.branch_if. case_match; [|by apply keeps_ret].
  eapply keeps_bind; [apply (e_regs (fun s => _))|]. intros. by apply keeps_ret.
Qed.
Lemma e_set_pc p : keepsC P (Emulator.set_pc p).
Proof using All. apply (e_regs (fun s => _)). Qed.
Lemma e_set_overflow b : keepsC P (Emulator.set_overflow b).
Proof using All. apply (e_regs (fun s => _)). Qed.
Lemma e_update_flags v : keepsC P (Emulator.update_flags v).
Proof using All. apply (e_regs (fun s => _)). Qed.
Lemma e_effective_address i : keepsC P (Emulator.effective_address i).
Proof using Type. eapply keeps_bind; [apply e_read_gpr|]. intros. by apply keeps_ret. Qed.
End Effects.
#[export] Hint Resolve e_set_pc e_set_overflow e_update_flags e_effective_address e_read_gpr e_write_gpr
  e_vr_data e_axi_issue e_bus_read32 e_branch keeps_throw keeps_undef : effects.

Ltac e_step :=
  lazymatch goal with
  | |- keeps _ (bind get _) _ => eapply keeps_bind; [apply keeps_get|intros ? ?]
  | |- keeps _ (bind _ _) _ => eapply (keeps_bind _ _ _ (fun _ => True)); [|intros ? _]
  | |- keeps _ (ret _) _ => by apply keeps_ret
  | |- keeps _ (lift _) _ => by apply keeps_lift
  | |- keeps _ (opt _ _) _ => by apply keeps_opt
  | |- keeps _ (let '(_, _) := _ in _) _ => cbv beta iota zeta
  | |- keeps _ (match _ with _ => _ end) _ => case_match
  | |- keeps _ (modify _) _ => apply keeps_modify; intros; by first [apply closed_regs|apply closed_profiler]
  | |- keeps _ _ _ => solve [eauto with effects typeclass_instances]
  end.

(** A load, once its address is translated. *)
Lemma e_load_at P `{!Closed P} i a : keepsC P (load_at i a).
Proof. unfold load_at. repeat e_step. Qed.

(** Instructions that touch no memory. *)
Definition pure_op (o : Opcode) : bool :=
  match o with LOAD | STORE | STORE_VR | DMA_LOAD | DMA_STORE => false | _ => true end.
Lemma e_pure `{FloatOps} P `{!Closed P} path o h i :
  pure_op o = true -> Emulator.dispatch_table_ path (code o) = Some h -> keepsC P (h i).
Proof.
  unfold Emulator.dispatch_table_. rewrite opcode_of_code. intros Ho Hh.
  destruct o; try done; injection Hh as <-;
    [by apply keeps_ret|unfold Emulator.op_halt|unfold Emulator.op_jmp|unfold Emulator.op_beq|unfold Emulator.op_bne
    |unfold Emulator.op_add|unfold Emulator.op_sub|unfold Emulator.op_mul|unfold Emulator.op_mov
    |unfold Emulator.op_movi|unfold Emulator.op_load_vr|unfold Emulator.op_vec_add|unfold Emulator.op_matmul_tile];
    repeat e_step.
Qed.
