(* ===== verification/Paging.v ===== *)
(** * Instructions with paging on

    What fetches, loads, stores and DMA transfers do when the MMU is enabled: the page walk
    of [Mmu], the bus of [Bus] and the traps of [Interrupt] composed by the
    handlers of the emulator, in every privilege level, with a TLB that agrees with
    the page table. *)

From S2P Require Import Prelude Text Isa Memory Registers Interrupt Devices Bus Float Profiler Interconnect Target Host Mmu Translate Emulator EmulatorWf Execute Dma Traps.
#[local] Open Scope Z_scope.

Record paged (s : Emulator) : Prop := {
  pg_on : s.(mmu_).(enabled_) = true;
  pg_satp : CSRFile.satp s.(csr_) <> 0;
  pg_tlb : coherent s.(scratchpad_) s.(csr_) s.(mmu_) }.

(** The physical address of an access, by the walk alone. *)
Definition page_of (s : Emulator) (va : Z) (w f : bool) : option Z :=
  (walk_answer s.(scratchpad_) s.(csr_) va w f).1.

Lemma mmu_translate_run s va w f :
  emu_wf s -> paged s -> w && f = false ->
  exists m', Emulator.mmu_translate va w f s = (Ok (page_of s va w f), Emulator.put_mmu m' s) /\
    MMU.wf m' /\ paged (Emulator.put_mmu m' s).
Proof.
  intros Hs [Hon Hsatp Htlb] Hwf.
  destruct (translate_transparent _ _ va w f _ Hwf Htlb Hon Hsatp) as (m' & Ht & Hc & He).
  exists m'. split; [|split; [|by split]].
  - exact (f_equal (fun x : outcome (option Z * option PageFaultCause) * MMU =>
      bind (fun _ => let '(r, t) := x in (r, Emulator.put_mmu t s)) (fun r => ret r.1) s) Ht).
  - pose proof (MMU.translate_wf (Some (scratchpad_ s)) (Some (csr_ s)) true va w f (mmu_ s)
      (wf_mmu s Hs)) as Hm. by rewrite Ht in Hm.
Qed.

(** From here on a translation is what [mmu_translate_run] says of it. *)
Ltac seal_translation := let tr := fresh "tr" in set (tr := Emulator.mmu_translate) in *; clearbody tr.

(** The registers and CSRs after a page fault at [va] by the instruction at
    [at]. *)
Definition page_faulted (c : TrapCause) (at_ va : Z) (s s' : Emulator) : Prop :=
  priv s'.(csr_) = Machine /\ CSRFile.read s'.(csr_) CSR_MEPC = at_ /\
  CSRFile.read s'.(csr_) CSR_MTVAL = va /\ CSRFile.read s'.(csr_) CSR_MCAUSE = cause_code c /\
  has_bit (CSRFile.mstatus s'.(csr_)) 3 = false /\
  s'.(regs_) = { s.(regs_) with pc := Emulator.mtvec_base s.(csr_) } /\
  s'.(scratchpad_) = s.(scratchpad_) /\ s'.(main_ram_) = s.(main_ram_).

Lemma fault_run t s m :
  emu_wf s -> t.(is_interrupt) = false ->
  exists s', Emulator.trap_to_mtvec t (Emulator.put_mmu m s) = (Ok tt, s') /\
    page_faulted t.(cause) t.(trap_pc) t.(tval) s s'.
Proof.
  intros Hs Hi. destruct (trap_to_mtvec_run t (Emulator.put_mmu m s)) as (s' & H1 & H2 & H3).
  { destruct (wf_csr s Hs) as [_ Hp]. exact Hp. }
  destruct H2 as (A & B & C & D & E & _ & F & G & _). exists s'. split; [done|].
  split; [done|]. split; [done|]. split; [done|].
  split; [by rewrite D, Hi, Z.lor_0_r|]. by repeat (split; [done|]).
Qed.

(** ** Loads and stores *)

(** The handler is the access at the page's address, or the fault. *)
Lemma op_access_run (st : bool) i base s (op := if st then Emulator.op_store else Emulator.op_load)
    (va := u32 (base + Instruction.simm16 i)) :
  emu_wf s -> paged s ->
  RegisterFile.read_gpr s.(regs_) (Instruction.ra i) = Some base ->
  exists m', MMU.wf m' /\ paged (Emulator.put_mmu m' s) /\
    match page_of s va st false with
    | Some pa => op i s = (if st then store_at i pa else load_at i pa) (Emulator.put_mmu m' s)
    | None => exists s', op i s = (Ok 2, s') /\
        page_faulted (if st then Interrupt.StorePageFault else Interrupt.LoadPageFault)
          (u32 (s.(regs_).(pc) - 4)) va s s'
    end.
Proof.
  intros Hs Hp Hb. destruct (mmu_translate_run s va st false Hs Hp) as (m' & Ht & Hm & Hp');
    [apply andb_false_r|].
  exists m'. split; [done|]. split; [done|].
  assert (Hon : MMU.enabled s.(mmu_) = true) by apply Hp.
  destruct (fault_run (InterruptController.page_fault_trap (u32 (s.(regs_).(pc) - 4)) va st) s m' Hs eq_refl)
    as (s' & Hf & Hpf).
  subst op. destruct st; [unfold Emulator.op_store|unfold Emulator.op_load];
    rewrite (bind_ok _ _ _ _ _ (effective_address_run _ _ _ Hb)), get_run, Hon;
    fold va; seal_translation; rewrite (bind_ok _ _ _ _ _ Ht);
    (destruct (page_of s va _ false) as [pa|]; [reflexivity|]);
    exists s'; rewrite (bind_ok Emulator.prev_pc _ (Emulator.put_mmu m' s) (u32 (s.(regs_).(pc) - 4)) _ eq_refl),
      (bind_ok _ _ _ _ _ Hf); by split.
Qed.

(** Overwriting [n] bytes at [a]. *)
Definition overwritten (b b' : buffer) (a : Z) (l : list Z) : Prop :=
  b'.(blen) = b.(blen) /\
  forall k, Buffer.byte_at b' k =
    if (a <=? k) && (k <? a + zlen l) then default 0 (l !! Z.to_nat (k - a)) else Buffer.byte_at b k.

Lemma page_of_fits s va w f pa : page_of s va w f = Some pa -> fits 32 pa.
Proof.
  unfold page_of, walk_answer, MMU.walk_result_of.
  destruct (MMU.walk_from _ _ _ _ _ _ _) as [pa' e|c r] eqn:Hw; [|done]. intros [= <-].
  apply walk_from_mapped in Hw as (raw & _ & _ & -> & _). apply u32_fits.
Qed.

(** A load and a store that reach the scratchpad; [s1] is the machine after the
    translation. *)
Lemma load_hit i pa s1 :
  emu_wf s1 -> fits 32 pa -> pa < MMIO_BASE -> 0 <= Instruction.rd i < 16 ->
  pa + 4 <= s1.(scratchpad_).(blen) ->
  exists f r, load_at i pa s1 = (Ok 3, Emulator.put_regs r (Emulator.put_axi f s1)) /\
    forall j, 0 <= j -> RegisterFile.read_gpr r j =
      if j =? 0 then Some 0
      else if j =? Instruction.rd i then Some (le_val (Buffer.peek s1.(scratchpad_) pa 4))
      else RegisterFile.read_gpr s1.(regs_) j.
Proof.
  intros Hs [Hpa _] Hlow Hd Hin. destruct (load_at_run s1 i pa Hs Hlow) as (f & _ & Hl).
  destruct (wf_scratchpad s1 Hs) as [[_ Hlen] _].
  rewrite VirtualSRAM.read32_ok in Hl by lia.
  destruct (RegisterFile.write_gpr_some (regs_ s1) (Instruction.rd i)
    (le_val (Buffer.peek (scratchpad_ s1) pa 4)) (wf_regs s1 Hs) Hd) as (r & Hr).
  exists f, r. split.
  - by rewrite Hl, (bind_ok _ _ _ _ _ (write_gpr_run (Emulator.put_axi f s1) _ _ r Hr)).
  - intros j Hj. apply (RegisterFile.read_write_gpr (regs_ s1)); [apply Hs|lia|done|done].
Qed.
Lemma store_hit i pa s1 v :
  emu_wf s1 -> fits 32 pa -> pa < MMIO_BASE -> pa + 4 <= s1.(scratchpad_).(blen) ->
  RegisterFile.read_gpr s1.(regs_) (Instruction.rd i) = Some v ->
  exists f, store_at i pa s1 =
    (Ok 3, Emulator.put_scratchpad (Buffer.poke s1.(scratchpad_) pa (le_bytes 4 v)) (Emulator.put_axi f s1)).
Proof.
  intros Hs [Hpa _] Hlow Hin Hv. destruct (store_at_run s1 i pa v Hs Hlow Hv) as (f & _ & Hl).
  destruct (wf_scratchpad s1 Hs) as [[_ Hlen] _]. exists f. rewrite Hl.
  unfold VirtualSRAM.write32. by rewrite VirtualSRAM.write_bytes_ok by (change (zlen (le_bytes 4 v)) with 4; lia).
Qed.
(** An access past the scratchpad throws. *)
Lemma access_miss (st : bool) i pa s1 :
  emu_wf s1 -> fits 32 pa -> pa < MMIO_BASE -> 0 <= Instruction.rd i < 16 ->
  s1.(scratchpad_).(blen) < pa + 4 ->
  exists f, (if st then store_at i pa else load_at i pa) s1 =
    (Throw (SramOutOfBounds pa 4), Emulator.put_axi f s1).
Proof.
  intros Hs Hpa Hlow Hd Hout. destruct st.
  - destruct (RegisterFile.read_gpr_some (regs_ s1) (Instruction.rd i) (wf_regs s1 Hs) Hd) as (v & Hv & _).
    destruct (store_at_run s1 i pa v Hs Hlow Hv) as (f & _ & Hl). exists f. rewrite Hl.
    by rewrite (write32_throws (scratchpad_ s1) pa v Hpa Hout).
  - destruct (load_at_run s1 i pa Hs Hlow) as (f & _ & Hl). exists f. rewrite Hl.
    by rewrite VirtualSRAM.read32_throws by (unfold fits, MMIO_BASE in *; lia).
Qed.

(** C15: paged loads and stores. In any privilege level, with paging on, a non-zero
    satp and a TLB that agrees with the page table: when the page walk of the
    effective address faults, the instruction enters the trap handler as a
    load or store page fault (MEPC its own address, MTVAL the effective
    address) with registers and memories unchanged; otherwise, for a physical
    address below the peripherals, a load puts the word at that address in
    its destination and a store replaces exactly its four bytes, and an
    address outside the scratchpad throws with registers and memory
    unchanged. After a load the TLB still agrees with the page table. *)
Theorem paged_access `{FloatOps} path (st : bool) i base s :
  emu_wf s -> paged s -> Instruction.opcode i = code (if st then STORE else LOAD) ->
  Instruction.rd i < 16 -> RegisterFile.read_gpr s.(regs_) (Instruction.ra i) = Some base ->
  let va := u32 (base + Instruction.simm16 i) in
  match page_of s va st false with
  | None => exists s', Emulator.execute path i s = (Ok 2, s') /\
      page_faulted (if st then Interrupt.StorePageFault else Interrupt.LoadPageFault)
        (u32 (s.(regs_).(pc) - 4)) va s s'
  | Some pa => pa < MMIO_BASE ->
      if pa + 4 <=? s.(scratchpad_).(blen) then
        exists s', Emulator.execute path i s = (Ok 3, s') /\ s'.(main_ram_) = s.(main_ram_) /\
          if st then s'.(regs_) = s.(regs_) /\
            forall v, RegisterFile.read_gpr s.(regs_) (Instruction.rd i) = Some v ->
              overwritten s.(scratchpad_) s'.(scratchpad_) pa (le_bytes 4 v)
          else s'.(scratchpad_) = s.(scratchpad_) /\ paged s' /\
            forall j, 0 <= j < 16 -> RegisterFile.read_gpr s'.(regs_) j =
              if j =? 0 then Some 0
              else if j =? Instruction.rd i then Some (le_val (Buffer.peek s.(scratchpad_) pa 4))
              else RegisterFile.read_gpr s.(regs_) j
      else exists s', Emulator.execute path i s = (Throw (SramOutOfBounds pa 4), s') /\
        s'.(regs_) = s.(regs_) /\ s'.(scratchpad_) = s.(scratchpad_) /\ s'.(main_ram_) = s.(main_ram_)
  end.
Proof.
  intros Hs Hp Ho Hd Hb va.
  set (op := if st then Emulator.op_store else Emulator.op_load).
  assert (Hdisp : Emulator.dispatch_table_ path (Instruction.opcode i) = Some op).
  { rewrite Ho. unfold Emulator.dispatch_table_. rewrite opcode_of_code. by destruct st. }
  destruct (op_access_run st i base s Hs Hp Hb) as (m' & Hm & Hp' & Hop).
  change (u32 (base + Instruction.simm16 i)) with va in Hop.
  destruct (page_of s va st false) as [pa|] eqn:Hpage.
  2: { destruct Hop as (s' & Hrun & Hf). fold op in Hrun.
       eexists. split; [exact (execute_run _ _ _ _ _ _ Hdisp Hrun)|exact Hf]. }
  intros Hlow. set (s1 := Emulator.put_mmu m' s) in *. fold op in Hop.
  assert (Hs1 : emu_wf s1) by by apply put_mmu_wf.
  pose proof (page_of_fits _ _ _ _ _ Hpage) as Hpa.
  pose proof (Instruction.rd_range i) as Hrd.
  destruct (Z.leb_spec (pa + 4) (blen (scratchpad_ s))) as [Hin|Hout].
  2: { destruct (access_miss st i pa s1 Hs1 Hpa Hlow ltac:(lia) Hout) as (f & Hf). rewrite Hf in Hop.
       destruct (execute_fail _ _ _ _ _ _ Hdisp Hop) as (r' & He & ->); [done|].
       eexists. split; [exact He|]. by repeat (split; [reflexivity|]). }
  destruct st.
  - destruct (RegisterFile.read_gpr_some (regs_ s) (Instruction.rd i) (wf_regs s Hs) ltac:(lia)) as (v & Hv & _).
    destruct (store_hit i pa s1 v Hs1 Hpa Hlow Hin Hv) as (f & Hf). rewrite Hf in Hop.
    eexists. split; [exact (execute_run _ _ _ _ _ _ Hdisp Hop)|]. split; [done|]. split; [done|].
    intros v' Hv'. assert (v' = v) as -> by congruence. split; [done|].
    intros k. apply (Buffer.byte_at_poke (scratchpad_ s)).
  - destruct (load_hit i pa s1 Hs1 Hpa Hlow ltac:(lia) Hin) as (f & r & Hf & Hr). rewrite Hf in Hop.
    eexists. split; [exact (execute_run _ _ _ _ _ _ Hdisp Hop)|]. split; [done|]. split; [done|].
    split; [destruct Hp'; by split|]. intros j Hj. apply Hr. lia.
Qed.

(** ** DMA addresses *)
Lemma dma_addresses_run s d0 sr0 k :
  emu_wf s -> paged s ->
  exists m, MMU.wf m /\ paged (Emulator.put_mmu m s) /\
    let fault (c va : Z) (store : bool) := exists s', Emulator.dma_addresses d0 sr0 k s = (Ok None, s') /\
      page_faulted (if store then Interrupt.StorePageFault else Interrupt.LoadPageFault) c va s s' in
    let at_ := u32 (s.(regs_).(pc) - 4) in
    match page_of s d0 true false, page_of s sr0 false false with
    | Some d, Some sr => Emulator.dma_addresses d0 sr0 k s = (Ok (Some (d, sr)), Emulator.put_mmu m s)
    | None, _ => fault at_ d0 (k true)
    | Some _, None => fault at_ sr0 (k false)
    end.
Proof.
  intros Hs Hp. destruct (mmu_translate_run s d0 true false Hs Hp eq_refl) as (m1 & H1 & Hm1 & Hp1).
  assert (Hs1 : emu_wf (Emulator.put_mmu m1 s)) by by apply put_mmu_wf.
  destruct (mmu_translate_run _ sr0 false false Hs1 Hp1 eq_refl) as (m & H2 & Hm & Hp2).
  change (page_of (Emulator.put_mmu m1 s) sr0 false false) with (page_of s sr0 false false) in H2.
  change (Emulator.put_mmu m (Emulator.put_mmu m1 s)) with (Emulator.put_mmu m s) in H2.
  exists m. split; [done|]. split; [by destruct Hp2|]. cbv zeta.
  assert (Hon : MMU.enabled s.(mmu_) = true) by apply Hp.
  assert (Hfault : forall va store, exists s',
    (let! p := Emulator.prev_pc in
     do! Emulator.trap_to_mtvec (InterruptController.page_fault_trap p va store) in
     ret (@None (Z * Z))) (Emulator.put_mmu m s) = (Ok None, s') /\
    page_faulted (if store then Interrupt.StorePageFault else Interrupt.LoadPageFault)
      (u32 (s.(regs_).(pc) - 4)) va s s').
  { intros va store.
    destruct (fault_run (InterruptController.page_fault_trap (u32 (s.(regs_).(pc) - 4)) va store) s m Hs eq_refl)
      as (s' & Hf & Hpf).
    exists s'. split; [|exact Hpf]. rewrite (bind_ok Emulator.prev_pc _ (Emulator.put_mmu m s) (u32 (s.(regs_).(pc) - 4)) _ eq_refl).
    by rewrite (bind_ok _ _ _ _ _ Hf). }
  unfold Emulator.dma_addresses. rewrite get_run, Hon. seal_translation.
  rewrite (bind_ok _ _ _ _ _ H1), (bind_ok _ _ _ _ _ H2).
  destruct (page_of s d0 true false) as [d|]; [destruct (page_of s sr0 false false) as [sr|]|];
    [done|apply Hfault|apply Hfault].
Qed.

(** C16: paged DMA. In any privilege level, with paging on, a non-zero satp and a
    TLB that agrees with the page table, both register values are translated,
    the destination as a write and the source as a read: if the destination
    faults the instruction traps as a store page fault at the destination,
    else if the source faults it traps at the source, as a load page fault
    for DMA_LOAD and as a store page fault for DMA_STORE; in both cases
    memories are unchanged. Otherwise the transfer is the exact bounded copy
    between the two physical addresses, as without paging: only the first byte
    of each range is translated, so the copy is contiguous even across a page
    boundary. *)
Theorem paged_dma `{FloatOps} path (load : bool) i d0 sr0 s n :
  emu_wf s -> paged s -> n = Instruction.func i ->
  Instruction.opcode i = code (if load then DMA_LOAD else DMA_STORE) ->
  RegisterFile.read_gpr s.(regs_) (Instruction.rd i) = Some d0 ->
  RegisterFile.read_gpr s.(regs_) (Instruction.ra i) = Some sr0 ->
  match page_of s d0 true false, page_of s sr0 false false with
  | Some d, Some sr => d + n < 2 ^ 32 -> sr + n < 2 ^ 32 -> dma_outcome path load i d sr n s
  | None, _ => exists s', Emulator.execute path i s = (Ok 2, s') /\
      page_faulted Interrupt.StorePageFault (u32 (s.(regs_).(pc) - 4)) d0 s s'
  | Some _, None => exists s', Emulator.execute path i s = (Ok 2, s') /\
      page_faulted (if load then Interrupt.LoadPageFault else Interrupt.StorePageFault)
        (u32 (s.(regs_).(pc) - 4)) sr0 s s'
  end.
Proof.
  intros Hs Hp Hn Ho Hd Hsr. pose proof (dma_dispatch path load i Ho) as Hdisp.
  pose proof (op_dma_at load i d0 sr0 s Hd Hsr) as Hop.
  destruct (dma_addresses_run s d0 sr0 (dma_kind load) Hs Hp) as (m & Hm & _ & Hrun).
  destruct (page_of s d0 true false) as [d|] eqn:Hpd; [destruct (page_of s sr0 false false) as [sr|] eqn:Hps|].
  - rewrite (bind_ok _ _ _ _ _ Hrun) in Hop. intros Hdn Hsn.
    pose proof (page_of_fits _ _ _ _ _ Hpd) as [Hd0 _]. pose proof (page_of_fits _ _ _ _ _ Hps) as [Hs0 _].
    by apply (dma_at_outcome path load i d sr s m n); [by apply put_mmu_wf|..].
  - destruct Hrun as (s' & Hrun & Hf). rewrite (bind_ok _ _ _ _ _ Hrun) in Hop.
    eexists. split; [exact (execute_run _ _ _ _ _ _ Hdisp Hop)|]. by destruct load.
  - destruct Hrun as (s' & Hrun & Hf). rewrite (bind_ok _ _ _ _ _ Hrun) in Hop.
    eexists. split; [exact (execute_run _ _ _ _ _ _ Hdisp Hop)|]. by destruct load.
Qed.

(** ** Fetches *)

Lemma fetch_paged s :
  emu_wf s -> paged s ->
  let va := s.(regs_).(pc) in
  match page_of s va false true with
  | None => exists s', Emulator.fetch s = (Ok (mkInstruction enc.nop), s') /\
      page_faulted InstPageFault va va s s'
  | Some pa =>
      if Buffer.in_range s.(scratchpad_) pa 4 then
        exists s', Emulator.fetch s = (Ok (mkInstruction (le_val (Buffer.peek s.(scratchpad_) pa 4))), s') /\
          s'.(regs_) = { s.(regs_) with pc := u32 (va + 4) } /\ s'.(scratchpad_) = s.(scratchpad_) /\
          s'.(main_ram_) = s.(main_ram_) /\ s'.(csr_) = s.(csr_) /\ paged s'
      else exists s', Emulator.fetch s = (Undefined (BufferOverrun pa 4), s')
  end.
Proof.
  intros Hs Hp va. destruct (mmu_translate_run s va false true Hs Hp eq_refl) as (m' & Ht & Hm & Hp').
  assert (Hon : MMU.enabled s.(mmu_) = true) by apply Hp.
  unfold Emulator.fetch. rewrite get_run, Hon. fold va. seal_translation. rewrite (bind_ok _ _ _ _ _ Ht).
  destruct (page_of s va false true) as [pa|].
  - rewrite get_run. change (scratchpad_ (Emulator.put_mmu m' s)) with (scratchpad_ s).
    destruct (Buffer.in_range (scratchpad_ s) pa 4); [|by eexists].
    eexists. do 5 (split; [reflexivity|]). destruct Hp'. by split.
  - destruct (fault_run (mkTrap InstPageFault va va false) s m' Hs eq_refl) as (s' & Hf & Hpf).
    exists s'. split; [|exact Hpf]. cbv zeta. by rewrite (bind_ok _ _ _ _ _ Hf).
Qed.

(** C17: paged fetches. In any privilege level, with paging on, a non-zero satp and
    a TLB that agrees with the page table: when the walk of the program
    counter maps it, the word at the physical address is fetched and the
    program counter advances, through an unchecked pointer, so that a page
    past the scratchpad is undefined behaviour; when it faults, the machine
    enters the trap handler as an instruction page fault with MEPC and MTVAL
    the program counter, and the fetch yields a NOP, so no instruction of the
    interrupted program is lost. *)
Theorem paged_fetch s :
  emu_wf s -> paged s ->
  let va := s.(regs_).(pc) in
  match page_of s va false true with
  | None => exists s', Emulator.fetch s = (Ok (mkInstruction enc.nop), s') /\
      page_faulted InstPageFault va va s s'
  | Some pa =>
      if Buffer.in_range s.(scratchpad_) pa 4 then
        exists s', Emulator.fetch s = (Ok (mkInstruction (le_val (Buffer.peek s.(scratchpad_) pa 4))), s') /\
          s'.(regs_) = { s.(regs_) with pc := u32 (va + 4) } /\ s'.(scratchpad_) = s.(scratchpad_) /\
          s'.(main_ram_) = s.(main_ram_) /\ s'.(csr_) = s.(csr_) /\ paged s'
      else exists s', Emulator.fetch s = (Undefined (BufferOverrun pa 4), s')
  end.
Proof. apply fetch_paged. Qed.

(** A machine whose page table maps every page of [0, 2^30) read-write to page
    0, with the word 0x2A at address 0x120 and a trap vector at 0x80. *)
Definition paged_state : Emulator :=
  let s := Emulator.create 8192 64 in
  { s with
      scratchpad_ := Buffer.poke (root_leaf_ram 0x07) 0x120 [0x2A];
      csr_ := CSRFile.write (paged_csr Machine) CSR_MTVEC 0x80;
      mmu_ := MMU.set_enabled true MMU.init;
      regs_ := { s.(regs_) with gpr := <[1%nat := 0x3120]> s.(regs_).(gpr); pc := 0x44 } }.
Lemma paged_state_wf : emu_wf paged_state.
Proof.
  assert (Hs : emu_wf (Emulator.create 8192 64)) by (apply create_wf; vm_compute; split; congruence).
  destruct Hs. split; try assumption.
  - apply Buffer.wf_poke; [apply Buffer.wf_poke|]; [|exact (le_bytes_bytes 8 0x07)|by repeat constructor].
    apply Buffer.wf_make. vm_compute; split; congruence.
  - apply RegisterFile.set_pc_wf; [|unfold fits; lia].
    by apply (RegisterFile.write_gpr_wf (regs_ (Emulator.create 8192 64)) 1 0x3120);
      [|lia|vm_compute; split; congruence|].
  - apply CSRFile.csr_write_wf; [|unfold fits; lia].
    by apply (CSRFile.set_priv_wf (CSRFile.write CSRFile.init CSR_SATP 1));
      [apply CSRFile.csr_write_wf; [apply CSRFile.csr_init_wf|unfold fits; lia]|].
  - by apply MMU.set_enabled_wf, MMU.mmu_init_wf.
Qed.
Lemma paged_state_paged : paged paged_state.
Proof.
  split; [done|by vm_compute|].
  exact (coherent_flushed _ _ (MMU.set_enabled true MMU.init)).
Qed.
Lemma paged_access_witness :
  (exists s', Emulator.execute PathScalar (mkInstruction (enc.load 5 1 0)) paged_state = (Ok 3, s') /\
     RegisterFile.read_gpr s'.(regs_) 5 = Some 0x2A) /\
  (exists s', Emulator.execute PathScalar (mkInstruction (enc.store 1 1 8)) paged_state = (Ok 3, s') /\
     s'.(regs_) = paged_state.(regs_)).
Proof.
  split.
  - pose proof (paged_access PathScalar false (mkInstruction (enc.load 5 1 0)) 0x3120 paged_state
      paged_state_wf paged_state_paged eq_refl eq_refl eq_refl) as H. cbv zeta in H.
    replace (page_of _ _ _ _) with (Some 0x120) in H by (vm_compute; reflexivity).
    destruct (H eq_refl) as (s' & H1 & _ & _ & _ & H2).
    exists s'. split; [exact H1|]. exact (H2 5 ltac:(lia)).
  - pose proof (paged_access PathScalar true (mkInstruction (enc.store 1 1 8)) 0x3120 paged_state
      paged_state_wf paged_state_paged eq_refl eq_refl eq_refl) as H. cbv zeta in H.
    replace (page_of _ _ _ _) with (Some 0x128) in H by (vm_compute; reflexivity).
    destruct (H eq_refl) as (s' & H1 & _ & H2 & _). exists s'. split; [exact H1|exact H2].
Defined.
Lemma paged_dma_witness :
  exists s' c, Emulator.execute PathScalar (mkInstruction (enc.dma_load 1 0 4)) paged_state = (Ok c, s') /\
    Buffer.byte_at s'.(scratchpad_) 0x120 = 0.
Proof.
  pose proof (paged_dma PathScalar true (mkInstruction (enc.dma_load 1 0 4)) 0x3120 0 paged_state 4
    paged_state_wf paged_state_paged eq_refl eq_refl eq_refl eq_refl) as H. cbv zeta in H.
  replace (page_of _ 0x3120 _ _) with (Some 0x120) in H by (vm_compute; reflexivity).
  replace (page_of _ 0 _ _) with (Some 0) in H by (vm_compute; reflexivity).
  destruct (H eq_refl eq_refl) as (s' & _ & _ & (c & Hc) & (_ & Hb & _) & _).
  exists s', c. split; [exact Hc|]. exact (Hb 0 ltac:(lia)).
Defined.
Lemma paged_fetch_witness : exists s', Emulator.fetch paged_state = (Ok (mkInstruction enc.nop), s') /\
  CSRFile.read s'.(csr_) CSR_MEPC = 0x44 /\ s'.(regs_).(pc) = 0x80.
Proof.
  pose proof (paged_fetch paged_state paged_state_wf paged_state_paged) as H. cbv zeta in H.
  replace (page_of _ _ _ _) with (@None Z) in H by (vm_compute; reflexivity).
  destruct H as (s' & H1 & _ & H2 & _ & _ & _ & H3 & _).
  exists s'. split; [exact H1|]. split; [exact H2|]. by rewrite H3.
Defined.
