(* ===== verification/Frame.v ===== *)
(** * What an instruction leaves alone

    With paging off: the parts of the machine no handler touches, and the
    handlers that keep the program counter. *)

From S2P Require Import Prelude Text Isa Memory Registers Interrupt Devices Bus Float Profiler Interconnect Target Host Mmu Translate Emulator EmulatorWf Execute Dma.
#[local] Open Scope Z_scope.

(** The control state of a machine is that of [s0]; and so are its program
    counter and halt flag. *)
Definition same_control (s0 s : Emulator) : Prop :=
  s.(mmu_) = s0.(mmu_) /\ s.(csr_) = s0.(csr_) /\ s.(verbose_) = s0.(verbose_) /\
  s.(debugger_) = s0.(debugger_) /\ s.(target_) = s0.(target_) /\ s.(accel_) = s0.(accel_) /\
  s.(intc_) = s0.(intc_).
Definition same_flow (s0 s : Emulator) : Prop :=
  same_control s0 s /\ s.(regs_).(pc) = s0.(regs_).(pc) /\ s.(regs_).(halt) = s0.(regs_).(halt).

Lemma same_flow_refl s : same_flow s s.
Proof. by repeat split. Qed.
Lemma same_control_trans s0 s1 s2 : same_control s0 s1 -> same_control s1 s2 -> same_control s0 s2.
Proof. intros (?&?&?&?&?&?&?) (?&?&?&?&?&?&?). repeat split; congruence. Qed.

Notation keepsF s0 m := (keeps (same_flow s0) m (fun _ => True)).

Create HintDb frame.

Section Flow.
Context `{FloatOps} (path : HostPath) (s0 : Emulator).

(** Replacing the registers by ones with the same pc and halt flag, or a part
    that is not of the control state. *)
Lemma flow_regs r s :
  same_flow s0 s -> r.(pc) = s.(regs_).(pc) -> r.(halt) = s.(regs_).(halt) ->
  same_flow s0 (Emulator.put_regs r s).
Proof. intros (Hc & Hp & Hh) H1 H2. split; [exact Hc|]. cbn. by rewrite H1, H2. Qed.

Lemma flow_modify f :
  (forall s, regs_ (f s) = regs_ s /\ same_control s (f s)) -> keepsF s0 (modify f).
Proof.
  intros Hf. apply keeps_modify. intros s (Hc & Hp & Hh). destruct (Hf s) as [Hr Hs].
  split; [by eapply same_control_trans|]. by rewrite Hr.
Qed.
Lemma flow_read_gpr i : keepsF s0 (Emulator.read_gpr i).
Proof. eapply keeps_bind; [apply keeps_get|]. intros s Hs. by apply keeps_opt. Qed.
Lemma flow_write_gpr i v : keepsF s0 (Emulator.write_gpr i v).
Proof.
  intros s Hs. split; [|done]. unfold Emulator.write_gpr, bind, get, opt. cbn.
  destruct (RegisterFile.write_gpr (regs_ s) i v) as [r|] eqn:E; [|done].
  destruct (RegisterFile.write_gpr_frame _ _ _ _ E) as (_ & Hp & Hh & _). by apply flow_regs.
Qed.
Lemma flow_vr_data i : keepsF s0 (Emulator.vr_data i).
Proof. eapply keeps_bind; [apply keeps_get|]. intros s Hs. by apply keeps_opt. Qed.
Lemma flow_set_overflow b : keepsF s0 (Emulator.set_overflow b).
Proof. apply keeps_modify. intros s Hs. by apply flow_regs. Qed.
Lemma flow_update_flags v : keepsF s0 (Emulator.update_flags v).
Proof. apply keeps_modify. intros s Hs. by apply flow_regs. Qed.
Lemma flow_put_vrs l : keepsF s0 (modify (Emulator.put_vrs l)).
Proof. apply keeps_modify. intros s Hs. by apply flow_regs. Qed.
Lemma flow_zoom {T} (pi : Emulator -> T) put (m : M T unit) :
  (forall t s, regs_ (put t s) = regs_ s /\ same_control s (put t s)) -> keepsF s0 (zoom pi put m).
Proof.
  intros Hp s (Hc & Hpc & Hh). split; [|done]. unfold zoom.
  destruct (m (pi s)) as [r t]. cbn. destruct (Hp t s) as [Hr Hs].
  split; [by eapply same_control_trans|]. by rewrite Hr.
Qed.
Lemma flow_axi_issue a n w : keepsF s0 (Emulator.axi_issue a n w).
Proof.
  intros s Hs. split; [|done]. unfold Emulator.axi_issue. rewrite get_run. unfold zoom.
  destruct (Interconnect.issue _ _ _) as [r f]. exact Hs.
Qed.
Lemma flow_bus_read32 a : keepsF s0 (Emulator.bus_read32 a).
Proof.
  unfold Emulator.bus_read32. eapply keeps_bind; [apply keeps_get|]. intros s1 _.
  destruct (bus_cases (shared_ s1) a) as [[-> _]|[[-> _]|[(m & _ & _ & -> & _)|[-> _]]]].
  - intros s Hs. split; [|done]. unfold Emulator.timer_read.
    destruct (TimerDevice.read_reg _ _) as [v t]. exact Hs.
  - by apply keeps_gets.
  - unfold Emulator.window_read. case_match; [by apply keeps_ret|apply keeps_undef].
  - eapply keeps_bind; [apply keeps_get|]. intros s Hs. by apply keeps_lift.
Qed.
Lemma flow_bus_write32 a v : keepsF s0 (Emulator.bus_write32 a v).
Proof.
  unfold Emulator.bus_write32. eapply keeps_bind; [apply keeps_get|]. intros s1 _.
  destruct (bus_cases (shared_ s1) a) as [[_ ->]|[[_ ->]|[(m & _ & _ & _ & ->)|[_ ->]]]].
  - by apply flow_modify.
  - intros s Hs. split; [|done]. unfold Emulator.uart_write.
    destruct (UartDevice.write_reg _ _ _) as [u l]. exact Hs.
  - unfold Emulator.window_write. case_match; [by apply flow_modify|apply keeps_undef].
  - by apply flow_zoom.
Qed.
Lemma flow_copy_in d sr n : keepsF s0 (Emulator.copy_to_scratchpad d sr n).
Proof.
  unfold Emulator.copy_to_scratchpad. eapply keeps_bind; [apply keeps_get|]. intros s Hs.
  case_match; [by apply flow_modify|apply keeps_undef].
Qed.
Lemma flow_copy_out d sr n : keepsF s0 (Emulator.copy_to_main_ram d sr n).
Proof.
  unfold Emulator.copy_to_main_ram. eapply keeps_bind; [apply keeps_get|]. intros s Hs.
  case_match; [by apply flow_modify|apply keeps_undef].
Qed.
Lemma flow_effective_address i : keepsF s0 (Emulator.effective_address i).
Proof.
  unfold Emulator.effective_address. eapply keeps_bind; [apply flow_read_gpr|].
  intros. by apply keeps_ret.
Qed.
End Flow.
#[export] Hint Resolve flow_read_gpr flow_write_gpr flow_vr_data flow_set_overflow flow_update_flags
  flow_put_vrs flow_axi_issue flow_bus_read32 flow_bus_write32 flow_copy_in flow_copy_out
  flow_effective_address keeps_throw keeps_undef : frame.

Ltac flow_step :=
  lazymatch goal with
  | |- keeps _ (bind get _) _ => eapply keeps_bind; [apply keeps_get|intros ? ?]
  | |- keeps _ (bind (if _ then _ else _) _) _ =>
      eapply (keeps_bind _ _ _ (fun _ => True)); [|intros ? _]
  | |- keeps _ (bind _ _) _ => eapply (keeps_bind _ _ _ (fun _ => True)); [|intros ? _]
  | |- keeps _ (ret _) _ => by apply keeps_ret
  | |- keeps _ (lift _) _ => by apply keeps_lift
  | |- keeps _ (opt _ _) _ => by apply keeps_opt
  | |- keeps _ (let '(_, _) := _ in _) _ => cbv beta iota zeta
  | |- keeps _ (match _ with _ => _ end) _ => case_match
  | |- keeps _ (zoom _ _ _) _ => by apply flow_zoom
  | |- keeps _ (modify _) _ => first [by apply flow_put_vrs | by apply flow_modify
        | apply keeps_modify; intros; by apply flow_regs]
  | |- keeps _ _ _ => solve [eauto with frame]
  end.

Section Handlers.
Context `{FloatOps} (path : HostPath) (s0 : Emulator).
Hypothesis paging_off : MMU.enabled s0.(mmu_) = false.

Lemma flow_off s : same_flow s0 s -> MMU.enabled s.(mmu_) = false.
Proof using Type*. intros ((-> & _) & _). done. Qed.

Lemma flow_dma_addresses d sr k :
  keeps (same_flow s0) (Emulator.dma_addresses d sr k) (fun r => r = Some (d, sr)).
Proof using Type*.
  unfold Emulator.dma_addresses. eapply keeps_bind; [apply keeps_get|]. intros s Hs.
  rewrite (flow_off s Hs). by apply keeps_ret.
Qed.
Lemma flow_op_load i : keepsF s0 (Emulator.op_load i).
Proof using Type*.
  unfold Emulator.op_load. flow_step; [flow_step|]. flow_step. rewrite flow_off by done.
  eapply (keeps_bind _ _ _ (fun r => r = Some a)); [by apply keeps_ret|]. intros ? ->.
  repeat flow_step.
Qed.
Lemma flow_op_store i : keepsF s0 (Emulator.op_store i).
Proof using Type*.
  unfold Emulator.op_store. flow_step; [flow_step|]. flow_step. rewrite flow_off by done.
  eapply (keeps_bind _ _ _ (fun r => r = Some a)); [by apply keeps_ret|]. intros ? ->.
  repeat flow_step.
Qed.
Lemma flow_op_dma_load i : keepsF s0 (Emulator.op_dma_load i).
Proof using Type*.
  unfold Emulator.op_dma_load. flow_step; [flow_step|]. flow_step; [flow_step|]. cbv zeta.
  eapply keeps_bind; [apply flow_dma_addresses|]. intros ? ->. repeat flow_step.
Qed.
Lemma flow_op_dma_store i : keepsF s0 (Emulator.op_dma_store i).
Proof using Type*.
  unfold Emulator.op_dma_store. flow_step; [flow_step|]. flow_step; [flow_step|]. cbv zeta.
  eapply keeps_bind; [apply flow_dma_addresses|]. intros ? ->. repeat flow_step.
Qed.

(** A handler of an opcode that does not end a block. *)
Lemma flow_dispatch op h :
  Emulator.dispatch_table_ path op = Some h -> ends_block op = false -> forall i, keepsF s0 (h i).
Proof using Type*.
  unfold Emulator.dispatch_table_. intros Hh He i.
  destruct (opcode_of op) as [o|] eqn:Ho; [|done]. apply opcode_of_Some in Ho. subst op.
  destruct o; try done; injection Hh as <-;
    [by apply keeps_ret|unfold Emulator.op_add|unfold Emulator.op_sub|unfold Emulator.op_mul|apply flow_op_load
    |apply flow_op_store|unfold Emulator.op_mov|unfold Emulator.op_movi|unfold Emulator.op_load_vr
    |unfold Emulator.op_store_vr|unfold Emulator.op_vec_add|unfold Emulator.op_matmul_tile
    |apply flow_op_dma_load|apply flow_op_dma_store]; repeat flow_step.
Qed.
End Handlers.

(** ** The whole instruction *)
Section Execute.
Context `{FloatOps} (path : HostPath).

Lemma control_modify_regs (f : Emulator -> RegisterFile) s0 :
  keeps (same_control s0) (modify (fun s => Emulator.put_regs (f s) s)) (fun _ => True).
Proof. apply keeps_modify. intros s Hs. exact Hs. Qed.
Lemma control_read_gpr s0 i : keeps (same_control s0) (Emulator.read_gpr i) (fun _ => True).
Proof. eapply keeps_bind; [apply keeps_get|]. intros s Hs. by apply keeps_opt. Qed.
Lemma control_branch s0 b i c :
  keeps (same_control s0) (Emulator.branch_if b i c) (fun _ => True).
Proof.
  unfold Emulator.branch_if. case_match; [|by apply keeps_ret].
  eapply keeps_bind; [apply control_modify_regs|]. intros. by apply keeps_ret.
Qed.

Lemma handler_control op h i s :
  MMU.enabled s.(mmu_) = false -> Emulator.dispatch_table_ path op = Some h ->
  same_control s (h i s).2 /\
  (ends_block op = false -> (h i s).2.(regs_).(pc) = s.(regs_).(pc) /\
                            (h i s).2.(regs_).(halt) = s.(regs_).(halt)).
Proof.
  intros Hm Hh. destruct (ends_block op) eqn:He.
  2: { destruct (flow_dispatch path s Hm op h Hh He i s (same_flow_refl s)) as [[Hc Hf] _]. by split. }
  split; [|done]. unfold Emulator.dispatch_table_ in Hh.
  destruct (opcode_of op) as [o|] eqn:Ho; [|done]. apply opcode_of_Some in Ho. subst op.
  assert (Hk : keeps (same_control s) (h i) (fun _ => True)); [|by apply Hk; repeat split].
  destruct o; try done; injection Hh as <-.
  - eapply keeps_bind; [apply control_modify_regs|]. intros. by apply keeps_ret.
  - eapply keeps_bind; [apply control_modify_regs|]. intros. by apply keeps_ret.
  - do 2 (eapply keeps_bind; [apply control_read_gpr|]; intros ? _). apply control_branch.
  - do 2 (eapply keeps_bind; [apply control_read_gpr|]; intros ? _). apply control_branch.
Qed.
End Execute.

Lemma execute_frame_core `{FloatOps} path i s :
  MMU.enabled s.(mmu_) = false -> opcode_of (Instruction.opcode i) <> None ->
  let s' := (Emulator.execute path i s).2 in
  same_control s s' /\
  (ends_block (Instruction.opcode i) = false ->
   s'.(regs_).(pc) = s.(regs_).(pc) /\ s'.(regs_).(halt) = s.(regs_).(halt)).
Proof.
  intros Hm Ho s'. destruct (Emulator.dispatch_table_ path (Instruction.opcode i)) as [h|] eqn:Hd.
  2: { unfold Emulator.dispatch_table_ in Hd. by destruct (opcode_of _) as [[]|]. }
  pose proof (handler_control path _ h i s Hm Hd) as Hc. subst s'.
  destruct (h i s) as [[c|e|u] s1] eqn:Hh.
  - rewrite (execute_run _ _ _ _ _ _ Hd Hh). exact Hc.
  - destruct (execute_fail _ _ _ _ _ _ Hd Hh) as (r & -> & _); done.
  - destruct (execute_fail _ _ _ _ _ _ Hd Hh) as (r & -> & _); done.
Qed.

(** what an instruction cannot touch. With paging off and an opcode
    that has a handler, whatever the outcome, no instruction changes the MMU,
    the CSRs, the interrupt controller, the debugger, the target profile or
    the two mode flags; and one that is not HALT, JMP, BEQ or BNE leaves the
    program counter and the halt flag as they were. *)
Theorem execute_frame `{FloatOps} path i s :
  MMU.enabled s.(mmu_) = false -> opcode_of (Instruction.opcode i) <> None ->
  let s' := (Emulator.execute path i s).2 in
  same_control s s' /\
  (ends_block (Instruction.opcode i) = false ->
   s'.(regs_).(pc) = s.(regs_).(pc) /\ s'.(regs_).(halt) = s.(regs_).(halt)).
Proof. apply execute_frame_core. Qed.

Lemma execute_frame_witness :
  let i := mkInstruction (enc.store 1 2 8) in
  same_control overflow_state (Emulator.execute PathScalar i overflow_state).2.
Proof. intros i. apply (execute_frame PathScalar i overflow_state); [reflexivity|done]. Defined.
