(* ===== verification/Safety.v ===== *)
(** * Undefined behaviour of one instruction

    The code indexes its register arrays with five-bit fields and copies DMA
    blocks through raw pointers.  This file says which instruction words are
    safe and which are not. *)

From S2P Require Import Prelude Text Isa Memory Registers Interrupt Devices Bus Float Profiler Interconnect Target Host Mmu Translate Emulator EmulatorWf Execute Dma.
#[local] Open Scope Z_scope.

(** The register fields of an instruction are in range. *)
Definition gpr_ok (r : Z) : bool := r <? NUM_GPR.
Definition vr_ok (r : Z) : bool := r <? NUM_VR.
Definition safe_operands (i : Instruction) : bool :=
  let '(d, a, b) := (Instruction.rd i, Instruction.ra i, Instruction.rb i) in
  match opcode_of (Instruction.opcode i) with
  | Some (BEQ | BNE | LOAD | STORE | MOV | DMA_LOAD | DMA_STORE) => gpr_ok d && gpr_ok a
  | Some (ADD | SUB | MUL) => gpr_ok d && gpr_ok a && gpr_ok b
  | Some MOVI => gpr_ok d
  | Some (LOAD_VR | STORE_VR) => vr_ok d && gpr_ok a
  | Some (VEC_ADD | MATMUL_TILE) => vr_ok d && vr_ok a && vr_ok b
  | Some (NOP | HALT | JMP) | None => true
  end.

(** The two ranges of a DMA transfer, once translated, end below 2^32. *)
Definition dma_in_range (i : Instruction) (s : Emulator) : Prop :=
  Emulator.is_dma (Instruction.opcode i) = true ->
  forall d0 a0 d a s1, RegisterFile.read_gpr s.(regs_) (Instruction.rd i) = Some d0 ->
    RegisterFile.read_gpr s.(regs_) (Instruction.ra i) = Some a0 ->
    Emulator.dma_addresses d0 a0 (dma_kind (Instruction.opcode i =? code DMA_LOAD)) s = (Ok (Some (d, a)), s1) ->
    d + Instruction.func i < 2 ^ 32 /\ a + Instruction.func i < 2 ^ 32.

(** ** Computations without undefined behaviour *)
Definition sound {A} (P : Emulator -> Prop) (m : M Emulator A) : Prop :=
  forall s u, P s -> (m s).1 <> Undefined u.

Lemma sound_bind {A B} P (m : M Emulator A) (k : A -> M Emulator B) Q :
  keeps P m Q -> sound P m -> (forall a, Q a -> sound P (k a)) -> sound P (bind m k).
Proof.
  intros Hk Hm Hs s u HP. unfold bind. destruct (Hk s HP) as [H1 H2].
  pose proof (Hm s u HP) as H3. destruct (m s) as [[a|e|v] s']; cbn in *; [|done|congruence].
  apply Hs; auto.
Qed.
Lemma sound_bind_any {A B} P (m : M Emulator A) (k : A -> M Emulator B) :
  sound P m -> (forall a, sound (fun _ => True) (k a)) -> sound P (bind m k).
Proof.
  intros Hm Hk s u HP. unfold bind. pose proof (Hm s u HP) as H.
  destruct (m s) as [[a|e|v] s']; cbn in *; [by apply Hk|done|congruence].
Qed.
Lemma sound_at {A} P (m : M Emulator A) s u : sound P m -> P s -> (m s).1 <> Undefined u.
Proof. intros Hm. apply Hm. Qed.
Lemma sound_get P : sound P get.
Proof. by intros s u _. Qed.
Lemma sound_ret {A} P (a : A) : sound P (ret a).
Proof. by intros s u _. Qed.
Lemma sound_throw {A} P e : sound (A := A) P (throw e).
Proof. by intros s u _. Qed.
Lemma sound_modify P f : sound P (modify f).
Proof. by intros s u _. Qed.
Lemma sound_zoom {T A} P (pi : Emulator -> T) put (m : M T A) :
  (forall s u, P s -> (m (pi s)).1 <> Undefined u) -> sound P (zoom pi put m).
Proof. intros Hm s u Hs. unfold zoom. specialize (Hm s u Hs). by destruct (m (pi s)). Qed.

Create HintDb sound.
#[export] Hint Resolve sound_get sound_ret sound_throw sound_modify : sound.

Section Sound.
Context `{FloatOps} (path : HostPath).

Lemma sound_read_gpr i : 0 <= i -> gpr_ok i = true -> sound emu_wf (Emulator.read_gpr i).
Proof.
  intros Hi Ho s u Hs. apply Z.ltb_lt in Ho.
  destruct (RegisterFile.read_gpr_some (regs_ s) i (wf_regs s Hs) ltac:(done)) as (v & Hv & _).
  by rewrite (read_gpr_run _ _ _ Hv).
Qed.
Lemma sound_write_gpr i v : 0 <= i -> gpr_ok i = true -> sound emu_wf (Emulator.write_gpr i v).
Proof.
  intros Hi Ho s u Hs. apply Z.ltb_lt in Ho.
  destruct (RegisterFile.write_gpr_some (regs_ s) i v (wf_regs s Hs) ltac:(done)) as (r & Hr).
  by rewrite (write_gpr_run _ _ _ _ Hr).
Qed.
Lemma sound_vr_data i : 0 <= i -> vr_ok i = true -> sound emu_wf (Emulator.vr_data i).
Proof.
  intros Hi Ho s u Hs. apply Z.ltb_lt in Ho.
  destruct (RegisterFile.read_vr_some (regs_ s) i (wf_regs s Hs) ltac:(done)) as (v & Hv & _).
  unfold Emulator.vr_data. rewrite get_run. by rewrite Hv.
Qed.
Lemma sound_axi_issue a n w : sound emu_wf (Emulator.axi_issue a n w).
Proof. intros s u Hs. destruct (axi_issue_run s a n w Hs) as (b & f & -> & _). done. Qed.
Lemma sound_bus_read32 a : fits 32 a -> sound emu_wf (Emulator.bus_read32 a).
Proof.
  intros Ha s u Hs. unfold Emulator.bus_read32. rewrite get_run.
  destruct (bus_cases (shared_ s) a) as [[-> _]|[[-> _]|[(m & Hm & Hw & -> & _)|[-> _]]]]; [..|done| |].
  - unfold Emulator.timer_read. by destruct (TimerDevice.read_reg _ _).
  - by rewrite (window_read_run _ _ _ _ (wf_shared _ Hs) Hm Hw).
  - rewrite get_run. by apply VirtualSRAM.read32_no_ub.
Qed.
Lemma sound_bus_write32 a v : fits 32 a -> sound emu_wf (Emulator.bus_write32 a v).
Proof.
  intros Ha s u Hs. unfold Emulator.bus_write32. rewrite get_run.
  destruct (bus_cases (shared_ s) a) as [[_ ->]|[[_ ->]|[(m & Hm & Hw & _ & ->)|[_ ->]]]]; [done|..].
  - unfold Emulator.uart_write. by destruct (UartDevice.write_reg _ _ _).
  - by rewrite (window_write_run _ _ _ _ _ (wf_shared _ Hs) Hm Hw).
  - refine (sound_zoom (fun _ => True) _ _ _ _ s u I). intros s' u' _.
    apply VirtualSRAM.write_bytes_no_ub; [done|]. unfold zlen. rewrite le_bytes_length. lia.
Qed.
Lemma sound_effective_address i :
  gpr_ok (Instruction.ra i) = true -> sound emu_wf (Emulator.effective_address i).
Proof.
  intros Ha. eapply sound_bind; [|apply sound_read_gpr; [apply Instruction.ra_range|done]|].
  - apply read_gpr_keeps.
  - intros. apply sound_ret.
Qed.
Lemma sound_read_bytes s a n : fits 32 a -> 0 <= n < 2 ^ 32 ->
  sound emu_wf (lift (VirtualSRAM.read_bytes (scratchpad_ s) a n)).
Proof.
  intros [Ha Ha'] Hn s' u _. unfold VirtualSRAM.read_bytes, lift.
  rewrite VirtualSRAM.check_bounds_small by lia. by destruct (Buffer.in_range _ a n).
Qed.
Lemma sound_write_bytes a l : fits 32 a -> zlen l < 2 ^ 32 ->
  sound emu_wf (zoom scratchpad_ Emulator.put_scratchpad (VirtualSRAM.write_bytes a l)).
Proof. intros Ha Hl. apply sound_zoom. intros s u _. by apply VirtualSRAM.write_bytes_no_ub. Qed.
End Sound.
#[export] Hint Resolve sound_read_gpr sound_write_gpr sound_vr_data sound_axi_issue sound_bus_read32
  sound_bus_write32 sound_effective_address sound_read_bytes sound_write_bytes : sound.
#[export] Hint Extern 1 (0 <= Instruction.rd _) => apply Instruction.rd_range : sound.
#[export] Hint Extern 1 (0 <= Instruction.ra _) => apply Instruction.ra_range : sound.
#[export] Hint Extern 1 (0 <= Instruction.rb _) => apply Instruction.rb_range : sound.

Lemma vr_bytes_length v : RegisterFile.vec_ok v -> zlen (Emulator.vr_bytes v) = 64.
Proof.
  intros [Hl _]. assert (Hgo : forall w, length (Emulator.vr_bytes w) = (4 * length w)%nat).
  { induction w as [|x w IH]; [done|]. unfold Emulator.vr_bytes in *. cbn [map concat].
    rewrite length_app, IH, le_bytes_length. cbn [length]. lia. }
  unfold zlen. rewrite Hgo, Hl. done.
Qed.

(** Sequence a computation, proving the postcondition the library knows. *)
Ltac sound_step :=
  lazymatch goal with
  | |- sound _ (bind get _) =>
      eapply sound_bind; [apply keeps_get|apply sound_get|intros ? ?]
  | |- sound _ (bind (Emulator.read_gpr _) _) =>
      eapply sound_bind; [apply read_gpr_keeps
        |eauto with sound|intros ? ?]
  | |- sound _ (bind (Emulator.write_gpr _ _) _) =>
      eapply (sound_bind _ _ _ (fun _ => True));
        [apply write_gpr_keeps; [auto with sound|]
        |eauto with sound|intros ? ?]
  | |- sound _ (bind (Emulator.vr_data _) _) =>
      eapply sound_bind; [apply vr_data_keeps
        |eauto with sound|intros ? [? ?]]
  | |- sound _ (bind (Emulator.effective_address _) _) =>
      eapply sound_bind; [apply effective_address_keeps
        |eauto with sound|intros ? ?]
  | |- sound _ (bind (Emulator.axi_issue _ _ _) _) =>
      eapply (sound_bind _ _ _ (fun _ => True));
        [apply axi_issue_keeps|eauto with sound|intros ? ?]
  | |- sound _ (match _ with _ => _ end) => case_match
  | |- sound _ _ => solve [eauto with sound]
  end.

Section Handlers.
Context `{FloatOps} (path : HostPath).
Notation soundC := (sound emu_wf).

(** Translation is always given a cause pointer and both memories. *)
Lemma sound_mmu_translate va w f : soundC (Emulator.mmu_translate va w f).
Proof using Type.
  intros s u Hs. unfold Emulator.mmu_translate. rewrite get_run.
  pose proof (MMU.translate_no_ub (scratchpad_ s) (csr_ s) va w f (mmu_ s) u) as Hu.
  unfold bind, zoom. destruct (MMU.translate _ _ _ _ _ _ _) as [[r|e|v] t]; [done|done|intros E; apply Hu; injection E as ->; reflexivity].
Qed.
Lemma sound_translated (on : bool) va w f :
  soundC (if on then Emulator.mmu_translate va w f else ret (Some va)).
Proof using Type. destruct on; [apply sound_mmu_translate|apply sound_ret]. Qed.
Lemma sound_page_fault P va st :
  sound P (let! p := Emulator.prev_pc in
    do! Emulator.trap_to_mtvec (InterruptController.page_fault_trap p va st) in ret 2).
Proof using Type. by intros s u _. Qed.

Lemma sound_op_load i :
  gpr_ok (Instruction.rd i) = true -> gpr_ok (Instruction.ra i) = true -> soundC (Emulator.op_load i).
Proof using Type.
  intros Hd Ha. unfold Emulator.op_load. sound_step. sound_step.
  eapply sound_bind; [by apply maybe_translate_keeps|apply sound_translated|intros [pa|] Hpa; [|apply sound_page_fault]].
  sound_step. eapply sound_bind; [by apply bus_read32_keeps|by apply sound_bus_read32|intros v Hv].
  sound_step; [done|apply sound_ret].
Qed.
Lemma sound_op_store i :
  gpr_ok (Instruction.rd i) = true -> gpr_ok (Instruction.ra i) = true -> soundC (Emulator.op_store i).
Proof using Type.
  intros Hd Ha. unfold Emulator.op_store. sound_step. sound_step.
  eapply sound_bind; [by apply maybe_translate_keeps|apply sound_translated|intros [pa|] Hpa; [|apply sound_page_fault]].
  sound_step. sound_step.
  eapply (sound_bind _ _ _ (fun _ => True)); [by apply bus_write32_keeps|by apply sound_bus_write32|intros; apply sound_ret].
Qed.
Lemma sound_op_load_vr i :
  vr_ok (Instruction.rd i) = true -> gpr_ok (Instruction.ra i) = true -> soundC (Emulator.op_load_vr i).
Proof using Type.
  intros Hd Ha. unfold Emulator.op_load_vr. sound_step. sound_step. sound_step.
  eapply (sound_bind _ _ _ (fun _ => True)); [by apply keeps_lift
    |apply sound_read_bytes; [done|vm_compute; split; congruence]|intros l _].
  apply sound_bind_any; [apply sound_modify|intros; apply sound_ret].
Qed.
Lemma sound_op_store_vr i :
  vr_ok (Instruction.rd i) = true -> gpr_ok (Instruction.ra i) = true -> soundC (Emulator.op_store_vr i).
Proof using Type.
  intros Hd Ha. unfold Emulator.op_store_vr. sound_step. sound_step.
  apply sound_bind_any; [|intros; apply sound_ret].
  apply sound_write_bytes; [done|]. by rewrite vr_bytes_length.
Qed.
Lemma sound_op_vec_add i :
  vr_ok (Instruction.rd i) = true -> vr_ok (Instruction.ra i) = true ->
  vr_ok (Instruction.rb i) = true -> soundC (Emulator.op_vec_add path i).
Proof using Type.
  intros Hd Ha Hb. unfold Emulator.op_vec_add. do 4 sound_step.
  apply sound_bind_any; [apply sound_modify|intros; apply sound_ret].
Qed.
Lemma sound_op_matmul_tile i :
  vr_ok (Instruction.rd i) = true -> vr_ok (Instruction.ra i) = true ->
  vr_ok (Instruction.rb i) = true -> soundC (Emulator.op_matmul_tile i).
Proof using Type.
  intros Hd Ha Hb. unfold Emulator.op_matmul_tile. case_match eqn:Hn; [apply sound_throw|].
  apply orb_false_iff in Hn as [Hn0%Z.eqb_neq Hn4%Z.ltb_ge]. unfold TILE_SIZE in Hn4.
  assert (Hn : 1 <= Z.land (Instruction.func i) 15 <= 4).
  { split; [|done]. pose proof (land_fits (Instruction.func i) 15 4 ltac:(lia) ltac:(lia)) as []. lia. }
  do 4 sound_step.
  match goal with Hs : emu_wf ?s |- _ => 
    assert (Hok : vrs_ok (vr (regs_ s))) by (split; apply Hs) end.
  rewrite matmul_host_loop. destruct (matmul_loop_ok (vr (regs_ a2)) (Instruction.rd i)
    (Instruction.ra i) (Instruction.rb i) (Z.land (Instruction.func i) 15)) as (w & Hw & _); try done.
  rewrite Hw. apply sound_bind_any.
  - by destruct (accel_ a2).
  - intros x. apply sound_bind_any; [apply sound_modify|intros; apply sound_ret].
Qed.
End Handlers.

(** ** DMA *)
Lemma sound_dma_addresses `{FloatOps} d a k : fits 32 d -> fits 32 a -> sound emu_wf (Emulator.dma_addresses d a k).
Proof.
  intros Hd Ha. unfold Emulator.dma_addresses. sound_step. case_match; [|apply sound_ret].
  eapply sound_bind; [by apply mmu_translate_keeps|apply sound_mmu_translate|intros pd _].
  eapply sound_bind; [by apply mmu_translate_keeps|apply sound_mmu_translate|intros pa _].
  destruct pd, pa; first [apply sound_ret|by intros s u _].
Qed.
Lemma sound_dma `{FloatOps} (load : bool) i s u :
  emu_wf s -> Instruction.opcode i = code (if load then DMA_LOAD else DMA_STORE) ->
  gpr_ok (Instruction.rd i) = true -> gpr_ok (Instruction.ra i) = true ->
  dma_in_range i s -> (op_dma load i s).1 <> Undefined u.
Proof.
  intros Hs Ho Hd%Z.ltb_lt Ha%Z.ltb_lt Hr.
  destruct (RegisterFile.read_gpr_some (regs_ s) (Instruction.rd i) (wf_regs s Hs)) as (d & Ed & Fd).
  { split; [apply Instruction.rd_range|done]. }
  destruct (RegisterFile.read_gpr_some (regs_ s) (Instruction.ra i) (wf_regs s Hs)) as (a & Ea & Fa).
  { split; [apply Instruction.ra_range|done]. }
  rewrite (op_dma_at load i d a s Ed Ea). unfold bind.
  pose proof (sound_dma_addresses d a (dma_kind load) Fd Fa s) as Hu.
  pose proof (dma_addresses_keeps d a (dma_kind load) Fd Fa s Hs) as [Hs1 Hf].
  assert (Hkind : (Instruction.opcode i =? code DMA_LOAD) = load) by (rewrite Ho; by destruct load).
  unfold dma_in_range in Hr. rewrite Hkind in Hr.
  destruct (Emulator.dma_addresses d a (dma_kind load) s) as [[[[xd xa]|]|e|v] s1] eqn:E; cbn [fst snd] in *;
    [|done|done|by destruct (Hu v Hs)].
  destruct (Hr ltac:(rewrite Ho; by destruct load) d a xd xa s1 Ed Ea E) as [H1 H2].
  destruct (Hf _ eq_refl) as [[Hxd _] [Hxa _]].
  destruct (dma_at_run load i xd xa s1 _ Hs1 eq_refl ltac:(lia) ltac:(lia) H1 H2) as (f & b & ->).
  cbv zeta. by do 2 destruct (Buffer.in_range _ _ _).
Qed.

(** ** Out-of-range registers *)
Lemma bad_gpr s r : emu_wf s -> gpr_ok r = false -> RegisterFile.read_gpr s.(regs_) r = None.
Proof. intros Hs Hr%Z.ltb_ge. by apply RegisterFile.read_gpr_ub; [apply Hs|]. Qed.
Lemma bad_gpr_write s r v : emu_wf s -> gpr_ok r = false -> RegisterFile.write_gpr s.(regs_) r v = None.
Proof. intros Hs Hr%Z.ltb_ge. by apply RegisterFile.write_gpr_ub; [apply Hs|]. Qed.
Lemma bad_vr s r : emu_wf s -> vr_ok r = false -> RegisterFile.read_vr s.(regs_) r = None.
Proof. intros Hs Hr%Z.ltb_ge. by apply RegisterFile.read_vr_ub; [apply Hs|]. Qed.

(** A computation that starts by reading registers is undefined when the first
    of them is out of range, and otherwise goes on in the same state. *)
Lemma read_gpr_else {A} r (k : Z -> M Emulator A) s :
  0 <= r -> emu_wf s -> (gpr_ok r = true -> forall v, exists u, (k v s).1 = Undefined u) ->
  exists u, (bind (Emulator.read_gpr r) k s).1 = Undefined u.
Proof.
  intros Hr Hs Hk. unfold Emulator.read_gpr, bind, get, opt. destruct (gpr_ok r) eqn:Ho.
  - apply Z.ltb_lt in Ho. destruct (RegisterFile.read_gpr_some (regs_ s) r (wf_regs s Hs)) as (v & -> & _);
      [done|]. by apply Hk.
  - rewrite bad_gpr by done. by eexists.
Qed.
Lemma vr_data_else {A} r (k : list Z -> M Emulator A) s :
  0 <= r -> emu_wf s -> (vr_ok r = true -> forall v, exists u, (k v s).1 = Undefined u) ->
  exists u, (bind (Emulator.vr_data r) k s).1 = Undefined u.
Proof.
  intros Hr Hs Hk. unfold Emulator.vr_data, bind, get, opt. destruct (vr_ok r) eqn:Ho.
  - apply Z.ltb_lt in Ho. destruct (RegisterFile.read_vr_some (regs_ s) r (wf_regs s Hs)) as (v & -> & _);
      [done|]. by apply Hk.
  - rewrite bad_vr by done. by eexists.
Qed.
Lemma write_gpr_else {A} r v (k : unit -> M Emulator A) s :
  emu_wf s -> gpr_ok r = false -> exists u, (bind (Emulator.write_gpr r v) k s).1 = Undefined u.
Proof.
  intros Hs Hr. unfold Emulator.write_gpr, bind, get, opt. rewrite bad_gpr_write by done. by eexists.
Qed.

Lemma address_else {A} i (k : Z -> M Emulator A) s :
  emu_wf s ->
  (gpr_ok (Instruction.ra i) = true -> forall v, exists u, (k v s).1 = Undefined u) ->
  exists u, (bind (Emulator.effective_address i) k s).1 = Undefined u.
Proof.
  intros Hs Hk. destruct (read_gpr_else (Instruction.ra i)
    (fun b => bind (ret (u32 (b + Instruction.simm16 i))) k) s) as [u Hu].
  - apply Instruction.ra_range.
  - done.
  - intros Ho v. by apply Hk.
  - exists u. rewrite <- Hu. unfold Emulator.effective_address, bind. by destruct (Emulator.read_gpr _ s) as [[]].
Qed.

#[local] Ltac ub :=
  repeat match goal with
  | |- exists u, (bind (Emulator.read_gpr _) _ _).1 = _ =>
      apply read_gpr_else; [auto with sound|done|intros ? ?]
  | |- exists u, (bind (Emulator.vr_data _) _ _).1 = _ =>
      apply vr_data_else; [auto with sound|done|intros ? ?]
  | |- exists u, (bind (Emulator.effective_address _) _ _).1 = _ =>
      apply address_else; [done|intros ? ?]
  | |- exists u, (bind (Emulator.write_gpr _ _) _ _).1 = _ =>
      apply write_gpr_else; [done|]
  | H : ?b = true, H' : context [?b] |- _ => rewrite H in H'
  end;
  match goal with H' : _ = false |- _ => rewrite ?andb_true_r in H' end; try done.

Lemma unsafe_handler `{FloatOps} path i h s :
  emu_wf s -> (Instruction.opcode i = code STORE -> MMU.enabled s.(mmu_) = false) ->
  Emulator.dispatch_table_ path (Instruction.opcode i) = Some h ->
  safe_operands i = false -> Instruction.opcode i <> code LOAD ->
  Instruction.opcode i <> code MATMUL_TILE -> exists u, (h i s).1 = Undefined u.
Proof.
  intros Hs Hm Hh Hsafe Hl Hmm. unfold safe_operands in Hsafe. unfold Emulator.dispatch_table_ in Hh.
  destruct (opcode_of (Instruction.opcode i)) as [o|] eqn:Ho; [|done].
  apply opcode_of_Some in Ho. destruct o; try done; injection Hh as <-;
    unfold Emulator.op_beq, Emulator.op_bne, Emulator.op_add, Emulator.op_sub, Emulator.op_mul,
      Emulator.op_store, Emulator.op_mov, Emulator.op_movi, Emulator.op_load_vr, Emulator.op_store_vr,
      Emulator.op_vec_add, Emulator.op_dma_load, Emulator.op_dma_store; ub.
  rewrite get_run, Hm by done. change (exists u, (bind (ret (Some v)) ?k s).1 = Undefined u)
    with (exists u, (k (Some v) s).1 = Undefined u). cbv beta iota. ub.
Qed.

Lemma sound_branch_if P b i c : sound P (Emulator.branch_if b i c).
Proof.
  unfold Emulator.branch_if. case_match; [|apply sound_ret].
  apply sound_bind_any; [apply sound_modify|intros; apply sound_ret].
Qed.
#[local] Ltac sound_reads :=
  repeat match goal with |- sound _ (bind (Emulator.read_gpr _) _) => sound_step end.
#[local] Ltac sound_write :=
  apply sound_bind_any; [by apply sound_write_gpr; auto with sound|intros];
  repeat (apply sound_bind_any; [apply sound_modify|intros]); apply sound_ret.

Lemma safe_handler `{FloatOps} path i h s u :
  emu_wf s -> Emulator.dispatch_table_ path (Instruction.opcode i) = Some h ->
  safe_operands i = true -> dma_in_range i s -> (h i s).1 <> Undefined u.
Proof.
  intros Hs Hh Hsafe Hr. unfold safe_operands in Hsafe. unfold Emulator.dispatch_table_ in Hh.
  destruct (opcode_of (Instruction.opcode i)) as [o|] eqn:Ho; [|done].
  apply opcode_of_Some in Ho.
  destruct o; try done; injection Hh as <-; rewrite ?andb_true_iff in Hsafe; destruct_and?; try done.
  - apply (sound_at emu_wf); [|done]. unfold Emulator.op_beq.
    sound_reads. apply sound_branch_if.
  - apply (sound_at emu_wf); [|done]. unfold Emulator.op_bne.
    sound_reads. apply sound_branch_if.
  - apply (sound_at emu_wf); [|done]. unfold Emulator.op_add.
    sound_reads. sound_write.
  - apply (sound_at emu_wf); [|done]. unfold Emulator.op_sub.
    sound_reads. sound_write.
  - apply (sound_at emu_wf); [|done]. unfold Emulator.op_mul.
    sound_reads. sound_write.
  - by apply sound_op_load.
  - by apply sound_op_store.
  - apply (sound_at emu_wf); [|done]. unfold Emulator.op_mov.
    sound_reads. sound_write.
  - apply (sound_at emu_wf); [|done]. unfold Emulator.op_movi.
    sound_write.
  - by apply sound_op_load_vr.
  - by apply sound_op_store_vr.
  - by apply (sound_op_vec_add path).
  - by apply sound_op_matmul_tile.
  - by apply (sound_dma true).
  - by apply (sound_dma false).
Qed.

(** C9: where one instruction meets undefined behaviour, in any mode of the
    machine, with paging on or off. On a well-formed machine an instruction
    whose register fields are in range for their files (below 16 for scalars,
    below 8 for vectors) and whose DMA ranges, once translated, end below 2^32
    never does, whatever its opcode, operands and addresses: it completes,
    traps or throws. Conversely the five-bit fields are not checked by the
    code: with a field out of range every opcode but LOAD and MATMUL_TILE, and
    STORE when paging is on, indexes past a register array (those may trap or
    throw first). *)
Theorem execute_safe `{FloatOps} path i s :
  emu_wf s ->
  (safe_operands i = true -> dma_in_range i s ->
   forall u, (Emulator.execute path i s).1 <> Undefined u) /\
  (safe_operands i = false -> Instruction.opcode i <> code LOAD ->
   Instruction.opcode i <> code MATMUL_TILE ->
   (Instruction.opcode i = code STORE -> MMU.enabled s.(mmu_) = false) ->
   exists u, (Emulator.execute path i s).1 = Undefined u).
Proof.
  intros Hs. destruct (Emulator.dispatch_table_ path (Instruction.opcode i)) as [h|] eqn:Hd.
  - split.
    + intros Hsafe Hr u.
      assert (Hh : forall v, (h i s).1 <> Undefined v).
      { intros v. by apply (safe_handler path). }
      destruct (h i s) as [[c|e|v] s'] eqn:Hhi.
      * by rewrite (execute_run _ _ _ _ _ _ Hd Hhi).
      * destruct (execute_fail _ _ _ _ _ _ Hd Hhi) as (r & -> & ->); done.
      * by destruct (Hh v).
    + intros Hsafe Hl Hmm Hm. destruct (unsafe_handler path i h s Hs Hm Hd Hsafe Hl Hmm) as [u Hu].
      destruct (h i s) as [r s'] eqn:Hhi. cbn in Hu. subst r. exists u.
      destruct (execute_fail _ _ _ _ _ _ Hd Hhi) as (r & -> & ->); done.
  - unfold Emulator.dispatch_table_ in Hd. unfold safe_operands.
    destruct (opcode_of (Instruction.opcode i)) as [[]|] eqn:Ho; try done. split; [|done].
    intros _ _ u. unfold Emulator.execute, Emulator.dispatch_table_. rewrite Ho.
    rewrite (bind_ok Emulator.prev_pc _ s (u32 (pc (regs_ s) - 4)) s eq_refl), get_run.
    by destruct (negb _).
Qed.

(** A transfer of sixteen bytes with a valid and with an invalid register. *)
Lemma execute_safe_witness :
  (forall u, (Emulator.execute PathScalar (mkInstruction (enc.dma_load 1 2 16)) dma_state).1 <> Undefined u) /\
  (exists u, (Emulator.execute PathScalar (mkInstruction (enc.dma_load 17 2 16)) dma_state).1 = Undefined u).
Proof.
  split.
  - apply (execute_safe PathScalar _ dma_state dma_state_wf); [reflexivity|].
    intros _ d0 a0 d a s1 [= <-] [= <-] [= <- <- _]. split; reflexivity.
  - apply (execute_safe PathScalar _ dma_state dma_state_wf); [reflexivity|done|done|done].
Defined.
