(* ===== verification/Fast.v ===== *)
(** * The two run loops: run and run_fast of emulator.cpp

    [run_fast] replays cached blocks where [run] fetches every instruction.
    With paging and interrupts off, no trap vector, and a program that does not
    modify itself, both reach the same outcome and the same machine (the block
    cache apart). Without these conditions they differ. *)

From S2P Require Import Prelude Text Isa Memory Registers Interrupt Devices Bus Float Profiler Interconnect Target Host Mmu Translate Emulator EmulatorWf Execute Dma Traps Frame.
#[local] Open Scope Z_scope.

(** ** Computations that do not look at the block cache *)
Definition cacheless {A} (m : M Emulator A) : Prop :=
  forall c s, m (Emulator.put_block_cache c s) = ((m s).1, Emulator.put_block_cache c (m s).2).

Lemma cacheless_ret {A} (a : A) : cacheless (ret a).
Proof. done. Qed.
Lemma cacheless_throw {A} e : cacheless (A := A) (throw e).
Proof. done. Qed.
Lemma cacheless_undef {A} u : cacheless (A := A) (undef u).
Proof. done. Qed.
Lemma cacheless_lift {A} (o : outcome A) : cacheless (lift o).
Proof. done. Qed.
Lemma cacheless_opt {A} u (o : option A) : cacheless (opt u o).
Proof. by destruct o. Qed.
Lemma cacheless_modify f :
  (forall c s, f (Emulator.put_block_cache c s) = Emulator.put_block_cache c (f s)) ->
  cacheless (modify f).
Proof. intros Hf c s. unfold modify. by rewrite Hf. Qed.
Lemma cacheless_gets {A} (f : Emulator -> A) :
  (forall c s, f (Emulator.put_block_cache c s) = f s) -> cacheless (gets f).
Proof. intros Hf c s. unfold gets. by rewrite Hf. Qed.
Lemma cacheless_bind {A B} (m : M Emulator A) (k : A -> M Emulator B) :
  cacheless m -> (forall a, cacheless (k a)) -> cacheless (bind m k).
Proof.
  intros Hm Hk c s. unfold bind. rewrite Hm. destruct (m s) as [[a| |] s1]; [|done|done]. apply Hk.
Qed.
Lemma cacheless_get {B} (k : Emulator -> M Emulator B) :
  (forall c s, k (Emulator.put_block_cache c s) = k s) -> (forall s, cacheless (k s)) ->
  cacheless (bind get k).
Proof. intros Hg Hk c s. rewrite !get_run, Hg. apply Hk. Qed.
Lemma cacheless_zoom {T A} (pi : Emulator -> T) put (m : M T A) :
  (forall c s, pi (Emulator.put_block_cache c s) = pi s) ->
  (forall c t s, put t (Emulator.put_block_cache c s) = Emulator.put_block_cache c (put t s)) ->
  cacheless (zoom pi put m).
Proof. intros Hp Hq c s. unfold zoom. rewrite Hp. destruct (m (pi s)) as [r t]. exact (f_equal (pair r) (Hq c t s)). Qed.

Create HintDb cacheless.
Ltac cacheless_step :=
  lazymatch goal with
  | |- cacheless (bind get _) => apply cacheless_get; [reflexivity|intros]
  | |- cacheless (bind _ _) => apply cacheless_bind; [|intros]
  | |- cacheless (ret _) => apply cacheless_ret
  | |- cacheless (throw _) => apply cacheless_throw
  | |- cacheless (undef _) => apply cacheless_undef
  | |- cacheless (lift _) => apply cacheless_lift
  | |- cacheless (opt _ _) => apply cacheless_opt
  | |- cacheless (modify _) => apply cacheless_modify; reflexivity
  | |- cacheless (gets _) => apply cacheless_gets; reflexivity
  | |- cacheless (zoom _ _ _) => apply cacheless_zoom; reflexivity
  | |- cacheless (let '(_, _) := _ in _) => first [progress cbv beta iota zeta | case_match]
  | |- cacheless (match _ with _ => _ end) => case_match
  | |- cacheless _ => solve [auto with cacheless]
  end.
Ltac cacheless_tac := repeat cacheless_step.

Section Cacheless.
Context `{FloatOps} (path : HostPath).

Lemma cacheless_read_gpr i : cacheless (Emulator.read_gpr i).
Proof. unfold Emulator.read_gpr. cacheless_tac. Qed.
Lemma cacheless_write_gpr i v : cacheless (Emulator.write_gpr i v).
Proof. unfold Emulator.write_gpr. cacheless_tac. Qed.
Lemma cacheless_vr_data i : cacheless (Emulator.vr_data i).
Proof. unfold Emulator.vr_data. cacheless_tac. Qed.
Lemma cacheless_bus_read32 a : cacheless (Emulator.bus_read32 a).
Proof.
  unfold Emulator.bus_read32. cacheless_step.
  destruct (bus_cases (shared_ s) a) as [[-> _]|[[-> _]|[(m & _ & _ & -> & _)|[-> _]]]];
    [|unfold Emulator.uart_read, Emulator.window_read; cacheless_tac..].
  intros c ?. unfold Emulator.timer_read. cbn. by destruct (TimerDevice.read_reg _ _).
Qed.
Lemma cacheless_bus_write32 a v : cacheless (Emulator.bus_write32 a v).
Proof.
  unfold Emulator.bus_write32. cacheless_step.
  destruct (bus_cases (shared_ s) a) as [[_ ->]|[[_ ->]|[(m & _ & _ & _ & ->)|[_ ->]]]];
    [unfold Emulator.timer_write; cacheless_tac| |unfold Emulator.window_write; cacheless_tac..].
  intros c ?. unfold Emulator.uart_write. cbn. by destruct (UartDevice.write_reg _ _ _).
Qed.
Lemma cacheless_take_trap t : cacheless (Emulator.take_trap t).
Proof.
  intros c s. unfold Emulator.take_trap, modify.
  change (csr_ (Emulator.put_block_cache c s)) with (csr_ s).
  change (intc_ (Emulator.put_block_cache c s)) with (intc_ s).
  by destruct (InterruptController.take_trap t _ _) as [[? ?] ?].
Qed.
Lemma cacheless_trap_to_mtvec t : cacheless (Emulator.trap_to_mtvec t).
Proof.
  unfold Emulator.trap_to_mtvec, Emulator.set_pc. cacheless_step; [apply cacheless_take_trap|].
  cacheless_tac.
Qed.
Lemma cacheless_mmu_translate va w f : cacheless (Emulator.mmu_translate va w f).
Proof. unfold Emulator.mmu_translate. cacheless_tac. Qed.
Lemma cacheless_axi_issue a n w : cacheless (Emulator.axi_issue a n w).
Proof. unfold Emulator.axi_issue. cacheless_tac. Qed.
#[local] Hint Resolve cacheless_read_gpr cacheless_write_gpr cacheless_vr_data cacheless_bus_read32
  cacheless_bus_write32 cacheless_trap_to_mtvec cacheless_mmu_translate cacheless_axi_issue : cacheless.
Lemma cacheless_effective_address i : cacheless (Emulator.effective_address i).
Proof. unfold Emulator.effective_address. cacheless_tac. Qed.
Lemma cacheless_prev_pc : cacheless Emulator.prev_pc.
Proof. unfold Emulator.prev_pc. cacheless_tac. Qed.
Lemma cacheless_dma_addresses d sr k : 
  cacheless (Emulator.dma_addresses d sr k).
Proof. unfold Emulator.dma_addresses, Emulator.prev_pc. cacheless_tac. Qed.
Lemma cacheless_branch_if b i c : cacheless (Emulator.branch_if b i c).
Proof. unfold Emulator.branch_if. cacheless_tac. Qed.
#[local] Hint Resolve cacheless_effective_address cacheless_prev_pc cacheless_dma_addresses
  cacheless_branch_if : cacheless.

Lemma cacheless_dispatch op h i :
  Emulator.dispatch_table_ path op = Some h -> cacheless (h i).
Proof.
  unfold Emulator.dispatch_table_. intros Hh. destruct (opcode_of op) as [[]|]; [..|done];
    injection Hh as <-;
    unfold Emulator.op_nop, Emulator.op_halt, Emulator.op_jmp, Emulator.op_beq, Emulator.op_bne,
      Emulator.op_add, Emulator.op_sub, Emulator.op_mul, Emulator.op_load, Emulator.op_store,
      Emulator.op_mov, Emulator.op_movi, Emulator.op_load_vr, Emulator.op_store_vr,
      Emulator.op_vec_add, Emulator.op_matmul_tile, Emulator.op_dma_load, Emulator.op_dma_store,
      Emulator.set_pc, Emulator.set_overflow, Emulator.update_flags, Emulator.copy_to_scratchpad,
      Emulator.copy_to_main_ram; cacheless_tac.
Qed.
Lemma cacheless_execute i : cacheless (Emulator.execute path i).
Proof.
  unfold Emulator.execute. destruct (Emulator.dispatch_table_ _ _) as [h|] eqn:Hd.
  - cacheless_step; [by eapply cacheless_dispatch|]. cacheless_tac.
  - cacheless_tac.
Qed.
Lemma cacheless_tick n c s :
  Emulator.tick_loop n (Emulator.put_block_cache c s) = Emulator.put_block_cache c (Emulator.tick_loop n s).
Proof.
  revert s. induction n as [|n IH]; intros s; [done|]. cbn [Emulator.tick_loop].
  change (tick_accum_ (Emulator.put_block_cache c s)) with (tick_accum_ s). case_match; [|done].
  change (Emulator.tick_once (Emulator.put_block_cache c s))
    with (Emulator.put_block_cache c (Emulator.tick_once s)). apply IH.
Qed.
End Cacheless.

(** ** One instruction of either loop *)
Section Loops.
Context `{FloatOps} (path : HostPath).

(** The pc advance, the instruction and the ticks. *)
Definition advanced (s : Emulator) : Emulator :=
  Emulator.put_regs { s.(regs_) with pc := u32 (s.(regs_).(pc) + 4) } s.
Definition exec_one (ins : Instruction) : M Emulator unit :=
  do! Emulator.advance_pc in
  do! Emulator.execute path ins in
  modify Emulator.tick_peripherals.

(** Paging, interrupts, verbose mode and the trap vector are off. *)
Record quiet (s : Emulator) : Prop := {
  quiet_mmu : MMU.enabled s.(mmu_) = false;
  quiet_log : s.(verbose_) = false;
  quiet_mie : has_bit (CSRFile.read s.(csr_) CSR_MSTATUS) 3 = false;
  quiet_mtvec : CSRFile.read s.(csr_) CSR_MTVEC = 0 }.

(** The first [L] bytes of the scratchpad are those of [m0], and the program
    counter is at least 128 bytes (the longest block) below [L]. *)
Record code_ok (m0 : buffer) (L : Z) (s : Emulator) : Prop := {
  code_pc : 0 <= s.(regs_).(pc) /\ s.(regs_).(pc) + 128 <= L;
  code_len : s.(scratchpad_).(blen) = m0.(blen);
  code_bytes : forall a, 0 <= a < L -> Buffer.byte_at s.(scratchpad_) a = Buffer.byte_at m0 a }.

(** At most [k] steps of [run]'s loop. *)
Fixpoint steps (k : nat) : M Emulator unit :=
  match k with
  | O => ret tt
  | S k => let! s := get in
           if Emulator.stopped s then ret tt else do! Emulator.step path in steps k
  end.

(** The program run from [s] never modifies the code it executes. *)
Definition steady_code (m0 : buffer) (L : Z) (s : Emulator) : Prop :=
  forall k s1, steps k s = (Ok tt, s1) -> Emulator.stopped s1 = false -> code_ok m0 L s1.

(** Every cached block in the code region is the code at its address. *)
Definition cache_ok (m0 : buffer) (L : Z) (c : BlockCache) : Prop :=
  forall p b, 0 <= p -> p + 128 <= L -> c.(map_) !! p = Some b ->
    words_at m0 p b.(ops) /\ b.(ops) <> [].

Lemma cacheless_exec_one i : cacheless (exec_one i).
Proof.
  unfold exec_one, Emulator.advance_pc. cacheless_step; [cacheless_tac|].
  cacheless_step; [apply cacheless_execute|]. apply cacheless_modify. intros c s.
  apply cacheless_tick.
Qed.

Lemma tick_loop_same n s :
  let s' := Emulator.tick_loop n s in
  regs_ s' = regs_ s /\ mmu_ s' = mmu_ s /\ csr_ s' = csr_ s /\ verbose_ s' = verbose_ s /\
  debugger_ s' = debugger_ s.
Proof.
  revert s. induction n as [|n IH]; intros s; [done|]. cbn [Emulator.tick_loop].
  case_match; [|done]. apply (IH (Emulator.tick_once s)).
Qed.

Lemma quiet_eq s s' :
  mmu_ s' = mmu_ s -> csr_ s' = csr_ s -> verbose_ s' = verbose_ s -> quiet s -> quiet s'.
Proof. intros H1 H2 H3 []. split; congruence. Qed.

Lemma exec_one_run ins s :
  exec_one ins s =
    match Emulator.execute path ins (advanced s) with
    | (Ok _, s2) => (Ok tt, Emulator.tick_peripherals s2)
    | (Throw e, s2) => (Throw e, s2)
    | (Undefined u, s2) => (Undefined u, s2)
    end.
Proof.
  unfold exec_one. rewrite (bind_ok Emulator.advance_pc _ s tt (advanced s) eq_refl).
  unfold bind. by destruct (Emulator.execute path ins (advanced s)) as [[]].
Qed.

Lemma exec_one_quiet ins s s' :
  quiet s -> exec_one ins s = (Ok tt, s') ->
  quiet s' /\ (ends_block (Instruction.opcode ins) = false ->
               s'.(regs_).(pc) = u32 (s.(regs_).(pc) + 4)).
Proof.
  intros Hq. rewrite exec_one_run. set (s1 := advanced s).
  assert (Hq1 : quiet s1) by (by apply (quiet_eq s)).
  destruct (opcode_of (Instruction.opcode ins)) as [o|] eqn:Ho.
  - pose proof (execute_frame_core path ins s1 (quiet_mmu s1 Hq1) ltac:(congruence)) as [Hc Hf].
    destruct (Emulator.execute path ins s1) as [[c| |] s2]; intros [= <-].
    destruct (tick_loop_same (Z.to_nat (tick_accum_ s2 / CYCLES_PER_TICK)) s2) as (Hr & Hm & Hcs & Hv & _).
    fold (Emulator.tick_peripherals s2) in Hr, Hm, Hcs, Hv. cbn [snd] in Hc, Hf.
    destruct Hc as (Hm2 & Hc2 & Hv2 & _). split.
    + apply (quiet_eq s1); [congruence..|done].
    + intros He. rewrite Hr. apply Hf in He as [He _]. rewrite He. reflexivity.
  - unfold Emulator.execute, Emulator.dispatch_table_. rewrite Ho.
    rewrite (bind_ok Emulator.prev_pc _ s1 _ s1 eq_refl), get_run.
    rewrite (quiet_mtvec s1 Hq1). done.
Qed.

(** A quiet machine that is not stopped fetches from the code and executes. *)
Lemma step_exec_one s m0 L raw :
  quiet s -> code_ok m0 L s -> L <= MMIO_BASE -> L <= m0.(blen) ->
  Emulator.stopped s = false -> VirtualSRAM.read32 m0 s.(regs_).(pc) = Ok raw ->
  Emulator.step path s = exec_one (mkInstruction raw) s.
Proof.
  intros Hq [[Hp0 Hp1] Hlen Hb] HL HL' Hst Hr.
  assert (Hread : VirtualSRAM.read32 (scratchpad_ s) (pc (regs_ s)) = Ok raw).
  { rewrite <- Hr. apply read32_frame; [unfold fits, MMIO_BASE in *; lia|exact Hlen|].
    intros k Hk. apply Hb. lia. }
  apply orb_false_elim in Hst as [Hh _].
  unfold Emulator.step. rewrite get_run, Hh.
  rewrite (bind_ok Emulator.service_interrupt _ s tt s), get_run.
  2: { unfold Emulator.service_interrupt. rewrite get_run.
       by rewrite (InterruptController.pending_interrupt_masked _ _ (quiet_mie s Hq)). }
  cbv zeta. rewrite (quiet_log s Hq). rewrite (bind_ok (ret tt) _ s tt s eq_refl).
  assert (Hf : Emulator.fetch s = (Ok (mkInstruction raw), advanced s)).
  { unfold Emulator.fetch. rewrite get_run. cbv zeta. rewrite (quiet_mmu s Hq).
    rewrite (bind_ok _ _ s raw s); [reflexivity|].
    rewrite bus_read32_low by lia. exact (f_equal (fun o => (o, s)) Hread). }
  rewrite (bind_ok _ _ _ _ _ Hf), exec_one_run.
  set (s1 := advanced s). unfold bind at 1.
  destruct (Emulator.execute path (mkInstruction raw) s1) as [[c| |] s2] eqn:He; [|done|done].
  rewrite (bind_ok (modify Emulator.tick_peripherals) _ s2 tt _ eq_refl), get_run.
  assert (Hone : exec_one (mkInstruction raw) s = (Ok tt, Emulator.tick_peripherals s2))
    by (rewrite exec_one_run; fold s1; by rewrite He).
  apply exec_one_quiet in Hone as [Hq2 _]; [|done]. by rewrite (quiet_log _ Hq2).
Qed.

Lemma steady_step m0 L s s1 :
  steady_code m0 L s -> Emulator.stopped s = false -> Emulator.step path s = (Ok tt, s1) ->
  steady_code m0 L s1.
Proof.
  intros Hs Hst H1 k s2 Hk. apply (Hs (S k)). cbn [steps].
  by rewrite get_run, Hst, (bind_ok _ _ _ _ _ H1).
Qed.
Lemma steady_here m0 L s : steady_code m0 L s -> Emulator.stopped s = false -> code_ok m0 L s.
Proof. intros Hs. by apply (Hs 0%nat s). Qed.

(** [run]'s loop after [k] more steps reached outcome [r] and machine [s']. *)
Definition runs (k : nat) (s : Emulator) (r : outcome bool) (s' : Emulator) : Prop :=
  Emulator.run_loop path k s = (r, s') /\ r <> Ok false.

Lemma runs_step k s r s' :
  runs k s r s' -> Emulator.stopped s = false ->
  exists k', k = S k' /\ bind (Emulator.step path) (fun _ => Emulator.run_loop path k') s = (r, s').
Proof.
  intros [Hr Hne] Hst. destruct k as [|k]; cbn [Emulator.run_loop] in Hr;
    rewrite get_run, Hst in Hr; [by inversion Hr; subst|]. by exists k.
Qed.
Lemma runs_stopped k s r s' :
  runs k s r s' -> Emulator.stopped s = true -> r = Ok true /\ s' = s.
Proof.
  intros [Hr _] Hst. destruct k as [|k]; cbn [Emulator.run_loop] in Hr;
    rewrite get_run, Hst in Hr; by inversion Hr.
Qed.

(** Outcomes of a block and of the whole loop that fail in the same way. *)
Definition same_failure (r : outcome unit) (r' : outcome bool) : Prop :=
  match r, r' with
  | Throw e, Throw e' => e = e'
  | Undefined u, Undefined u' => u = u'
  | _, _ => False
  end.

Section Region.
Context (m0 : buffer) (L : Z) (HL : L <= MMIO_BASE) (Hlen : L <= m0.(blen)).

(** A block replayed from the code makes the first steps of [run]: it fails as
    [run] does, or leaves a machine from which [run] goes on, with fewer steps
    to make unless it did nothing. *)
Lemma block_sim l : forall k s c r s',
  quiet s -> steady_code m0 L s -> words_at m0 s.(regs_).(pc) l -> runs k s r s' ->
  (exists rb, Emulator.run_block path l (Emulator.put_block_cache c s)
                = (rb, Emulator.put_block_cache c s') /\ same_failure rb r) \/
  (exists s1 k1, Emulator.run_block path l (Emulator.put_block_cache c s)
                   = (Ok tt, Emulator.put_block_cache c s1) /\
     quiet s1 /\ steady_code m0 L s1 /\ runs k1 s1 r s' /\ (k1 <= k)%nat /\
     (l <> [] -> Emulator.stopped s = false -> (k1 < k)%nat)).
Proof using Type*.
  induction l as [|i l IH]; intros k s c r s' Hq Hs Hw Hr.
  { right. exists s, k. split; [done|]. by repeat (split; [done|]). }
  destruct (Emulator.stopped s) eqn:Hst.
  { right. exists s, k. cbn [Emulator.run_block]. rewrite get_run.
    change (Emulator.stopped (Emulator.put_block_cache c s)) with (Emulator.stopped s). rewrite Hst.
    split; [done|]. by repeat (split; [done|]). }
  destruct (runs_step k s r s' Hr Hst) as (k' & -> & Hk). destruct Hw as [Hw0 Hw].
  assert (Hstep : Emulator.step path s = exec_one i s).
  { rewrite (step_exec_one s m0 L _ Hq (steady_here _ _ _ Hs Hst) HL Hlen Hst Hw0).
    by destruct i. }
  assert (Hblk : Emulator.run_block path (i :: l) (Emulator.put_block_cache c s) =
    bind (exec_one i) (fun _ => if ends_block (Instruction.opcode i) then ret tt
                                else Emulator.run_block path l) (Emulator.put_block_cache c s)).
  { cbn [Emulator.run_block]. rewrite get_run.
    change (Emulator.stopped (Emulator.put_block_cache c s)) with (Emulator.stopped s). rewrite Hst.
    unfold exec_one, bind, Emulator.advance_pc, modify.
    by destruct (Emulator.execute path i _) as [[]]. }
  rewrite Hblk. unfold bind in Hk |- *. rewrite (cacheless_exec_one i c s), <- Hstep.
  destruct (Emulator.step path s) as [[[]|e|u] s1] eqn:H1; cbn [fst snd].
  - assert (Hone : exec_one i s = (Ok tt, s1)) by (by rewrite <- Hstep).
    destruct (exec_one_quiet i s s1 Hq Hone) as [Hq1 Hpc].
    pose proof (steady_step _ _ _ _ Hs Hst H1) as Hs1.
    assert (Hr1 : runs k' s1 r s') by (split; [exact Hk|apply Hr]).
    destruct (ends_block (Instruction.opcode i)) eqn:He.
    { right. exists s1, k'. split; [done|]. do 3 (split; [done|]). split; [lia|]. intros. lia. }
    rewrite <- Hpc in Hw by done.
    destruct (IH k' s1 c r s' Hq1 Hs1 Hw Hr1) as [?|(s2 & k2 & H2 & Hq2 & Hs2 & Hr2 & Hle & _)]; [by left|].
    right. exists s2, k2. split; [done|]. do 3 (split; [done|]). split; [lia|]. intros. lia.
  - left. inversion Hk; subst. by eexists.
  - left. inversion Hk; subst. by eexists.
Qed.

Lemma words_at_frame (m m' : buffer) l : forall a,
  m'.(blen) = m.(blen) -> 0 <= a -> a + 4 * zlen l <= L ->
  (forall k, 0 <= k < L -> Buffer.byte_at m' k = Buffer.byte_at m k) ->
  words_at m' a l -> words_at m a l.
Proof using HL.
  induction l as [|i l IH]; intros a Hl Ha Hlim Hb Hw; [done|]. destruct Hw as [H1 H2].
  assert (Hz : zlen (i :: l) = zlen l + 1) by (unfold zlen; cbn [length]; lia).
  assert (Hl0 : 0 <= zlen l) by (unfold zlen; lia). unfold MMIO_BASE in HL. split.
  - rewrite <- H1. symmetry. apply read32_frame; [unfold fits; lia|done|]. intros. apply Hb. lia.
  - rewrite u32_small in * by (unfold fits; lia). apply IH; [done|lia|lia|done|done].
Qed.

Lemma decode_total (m : buffer) fuel : forall cur blk,
  0 <= cur -> cur + 4 * Z.of_nat fuel <= m.(blen) -> cur + 4 * Z.of_nat fuel < 2 ^ 32 ->
  exists b, BlockCache.decode m fuel cur blk = Ok b.
Proof using Type.
  induction fuel as [|fuel IH]; intros cur blk Hc Hm Hf; cbn [BlockCache.decode]; [by eexists|].
  assert (Hr : exists v, VirtualSRAM.read32 m cur = Ok v).
  { unfold VirtualSRAM.read32, VirtualSRAM.read_bytes.
    rewrite VirtualSRAM.check_bounds_small by lia. unfold Buffer.in_range.
    destruct (Z.leb_spec 0 cur); [|lia]. destruct (Z.leb_spec (cur + 4) (blen m)); [|lia].
    by eexists. }
  destruct Hr as [v ->]. case_match; [by eexists|]. case_match; [by eexists|].
  rewrite u32_small by (unfold fits; lia). apply IH; lia.
Qed.

Lemma translate_ok s c :
  code_ok m0 L s -> cache_ok m0 L c ->
  exists b c', Emulator.translate_block s.(regs_).(pc) (Emulator.put_block_cache c s)
                 = (Ok b, Emulator.put_block_cache c' s) /\
    words_at m0 s.(regs_).(pc) b.(ops) /\ b.(ops) <> [] /\ cache_ok m0 L c'.
Proof using Type*.
  intros [[Hp0 Hp1] Hl Hb] Hc. unfold MMIO_BASE in HL.
  assert (Ht : exists b c', BlockCache.translate (scratchpad_ s) (pc (regs_ s)) c = (Ok b, c') /\
    words_at m0 s.(regs_).(pc) b.(ops) /\ b.(ops) <> [] /\ cache_ok m0 L c').
  { unfold BlockCache.translate. destruct (map_ c !! pc (regs_ s)) as [b|] eqn:Hm.
    - destruct (Hc _ _ Hp0 Hp1 Hm) as [Hw Hne]. eexists _, _. by repeat (split; [done|]).
    - destruct (decode_total (scratchpad_ s) 32 (pc (regs_ s)) (mkBlock (pc (regs_ s)) 0 [] false false))
        as [b Hd]; [done|lia|lia|]. unfold BlockCache.max_len. rewrite Hd.
      destruct (decode_spec _ _ _ _ _ Hd) as (new & Ho & _ & Hw & Hln & _ & Hne & _).
      cbn [ops app] in Ho. specialize (Hne ltac:(done)).
      assert (Hw0 : words_at m0 (pc (regs_ s)) (ops b)).
      { rewrite Ho. apply (words_at_frame m0 (scratchpad_ s)); [done|done|unfold zlen; lia|done|done]. }
      rewrite <- Ho in Hne. eexists _, _. do 3 (split; [done|]). intros p b' H0 H1.
      destruct c as [mm hh ms]. cbn [map_ apply_update constant]. rewrite lookup_insert_Some.
      intros [[<- <-]|[_ Hb']]; [done|]. by apply (Hc p b'). }
  destruct Ht as (b & c' & Ht & Hw). exists b, c'. split; [|done].
  exact (f_equal (fun p => let '(r, t) := p in (r, Emulator.put_block_cache t s)) Ht).
Qed.

(** The loops: fuel enough for [run] is enough for [run_fast]. *)
Lemma loop_sim k : forall fuel s c r s',
  (k <= fuel)%nat -> quiet s -> steady_code m0 L s -> cache_ok m0 L c -> runs k s r s' ->
  exists c', Emulator.run_fast_loop path fuel (Emulator.put_block_cache c s)
             = (r, Emulator.put_block_cache c' s').
Proof using Type*.
  induction k as [k IH] using lt_wf_ind. intros fuel s c r s' Hf Hq Hs Hc Hr.
  destruct (Emulator.stopped s) eqn:Hst.
  { destruct (runs_stopped _ _ _ _ Hr Hst) as [-> ->]. exists c.
    destruct fuel; cbn [Emulator.run_fast_loop]; rewrite get_run;
      change (Emulator.stopped (Emulator.put_block_cache c s)) with (Emulator.stopped s);
      by rewrite Hst. }
  destruct (runs_step _ _ _ _ Hr Hst) as (k' & -> & _). destruct fuel as [|fuel]; [lia|].
  cbn [Emulator.run_fast_loop]. rewrite get_run.
  change (Emulator.stopped (Emulator.put_block_cache c s)) with (Emulator.stopped s). rewrite Hst.
  change (verbose_ (Emulator.put_block_cache c s)) with (verbose_ s). rewrite (quiet_log s Hq).
  change (regs_ (Emulator.put_block_cache c s)) with (regs_ s).
  destruct (translate_ok s c (steady_here _ _ _ Hs Hst) Hc) as (b & c1 & Ht & Hw & Hne & Hc1).
  rewrite (bind_ok _ _ _ _ _ Ht).
  destruct (block_sim (ops b) _ s c1 r s' Hq Hs Hw Hr)
    as [(rb & Hb & Hfail)|(s1 & k1 & Hb & Hq1 & Hs1 & Hr1 & _ & Hlt)].
  - exists c1. unfold bind. rewrite Hb. destruct rb, r; cbn in Hfail; by subst.
  - rewrite (bind_ok _ _ _ _ _ Hb). apply (IH k1); try done; [by apply Hlt|].
    specialize (Hlt Hne Hst). lia.
Qed.
End Region.
End Loops.

(** The loops and the flush that ends them. *)
Lemma run_fast_sim `{FloatOps} path m0 L s k r s' :
  L <= MMIO_BASE -> L <= m0.(blen) -> quiet s -> steady_code path m0 L s ->
  cache_ok m0 L s.(block_cache_) ->
  Emulator.run path k s = (r, s') -> r <> Ok false ->
  exists c', Emulator.run_fast path k s = (r, Emulator.put_block_cache c' s').
Proof.
  intros HL Hlen Hq Hs Hc Hr Hne. unfold Emulator.run, bind in Hr.
  destruct (Emulator.run_loop path k s) as [r1 s1] eqn:Hloop.
  assert (Hr1 : runs path k s r1 s1).
  { split; [done|]. intros ->. by inversion Hr; subst. }
  destruct (loop_sim path m0 L HL Hlen k k s (block_cache_ s) r1 s1) as [c' Hf]; [done..|].
  change (Emulator.put_block_cache (block_cache_ s) s) with s in Hf.
  exists c'. unfold Emulator.run_fast, bind. rewrite Hf.
  destruct r1 as [[]|e|u]; [|by inversion Hr; subst..].
  unfold Emulator.flush_uart in *.
  change (uart_ (Emulator.put_block_cache c' s1)) with (uart_ s1).
  destruct (UartDevice.flush (uart_ s1)) as [u out]. by inversion Hr.
Qed.

(** C7: [run_fast] refines [run]. From a machine with paging, interrupts and
    verbose mode off and no trap vector, whose run never modifies the code it
    executes nor leaves it, and whose block cache agrees with that code:
    whenever [run] ends within [k] steps, by halting, at a breakpoint or with
    an error, [run_fast] ends within [k] blocks with the same outcome, and the
    machines are equal in every part but the block cache. *)
Theorem run_fast_refines_run `{FloatOps} path m0 L s k r s' :
  L <= MMIO_BASE -> L <= m0.(blen) -> quiet s -> steady_code path m0 L s ->
  cache_ok m0 L s.(block_cache_) ->
  Emulator.run path k s = (r, s') -> r <> Ok false ->
  exists c', Emulator.run_fast path k s = (r, Emulator.put_block_cache c' s').
Proof. apply run_fast_sim. Qed.

(** A machine with a program in a 256-byte scratchpad. *)
Definition with_program (l : list Z) : Emulator :=
  (Emulator.load_program l (Emulator.create 256 64)).2.

Section Steps.
Context `{FloatOps} (path : HostPath).
Lemma steps_stopped k s : Emulator.stopped s = true -> steps path k s = (Ok tt, s).
Proof. intros Hs. destruct k; [done|]. cbn [steps]. by rewrite get_run, Hs. Qed.
Lemma steps_next k s :
  (Emulator.step path s).1 = Ok tt -> Emulator.stopped s = false ->
  steps path (S k) s = steps path k (Emulator.step path s).2.
Proof.
  intros H1 Hst. cbn [steps]. rewrite get_run, Hst. unfold bind.
  destruct (Emulator.step path s) as [r s1]. cbn in *. by subst r.
Qed.
End Steps.

(** MOVI r1, 5; HALT. *)
Definition tiny : Emulator := with_program [enc.movi 1 5; enc.halt].

Lemma tiny_steady : steady_code PathScalar (scratchpad_ tiny) 256 tiny.
Proof.
  set (s1 := (Emulator.step PathScalar tiny).2).
  intros [|[|k]] s Hk Hst.
  - apply (f_equal snd) in Hk. change (tiny = s) in Hk. subst s.
    split; [vm_compute; split; congruence|reflexivity|reflexivity].
  - rewrite steps_next in Hk by (vm_compute; reflexivity).
    apply (f_equal snd) in Hk. change (s1 = s) in Hk. subst s. split.
    + vm_compute. split; congruence.
    + vm_compute. reflexivity.
    + assert (Hm : scratchpad_ s1 = scratchpad_ tiny) by (vm_compute; reflexivity).
      intros a _. exact (f_equal (fun m => Buffer.byte_at m a) Hm).
  - rewrite steps_next in Hk by (vm_compute; reflexivity). fold s1 in Hk.
    rewrite steps_next in Hk by (vm_compute; reflexivity).
    set (s2 := (Emulator.step PathScalar s1).2) in Hk.
    assert (H2 : Emulator.stopped s2 = true) by (vm_compute; reflexivity).
    rewrite steps_stopped in Hk by exact H2.
    apply (f_equal snd) in Hk. change (s2 = s) in Hk. subst s. congruence.
Qed.

Lemma run_fast_refines_run_witness :
  exists c', Emulator.run_fast PathScalar 2 tiny
    = (Ok true, Emulator.put_block_cache c' (Emulator.run PathScalar 2 tiny).2).
Proof.
  apply (run_fast_refines_run PathScalar (scratchpad_ tiny) 256).
  - vm_compute. congruence.
  - vm_compute. congruence.
  - split; vm_compute; reflexivity.
  - exact tiny_steady.
  - intros p b _ _ Hb. vm_compute in Hb. discriminate Hb.
  - vm_compute. reflexivity.
  - done.
Defined.

(** The word of a register after a run, and whether it halted. *)
Definition outcome_of (m : M Emulator bool) (s : Emulator) : outcome bool * option Z * bool :=
  let '(r, s') := m s in (r, RegisterFile.read_gpr s'.(regs_) 1, s'.(regs_).(halt)).

(** Word 20 is copied over the MOVI at 8 before it is reached. *)
Definition self_modifying : Emulator := with_program
  [enc.load 2 0 20; enc.store 2 0 8; enc.movi 1 2; enc.halt; enc.nop; enc.movi 1 1].
(** An illegal word, with a handler at 0x80 that halts. *)
Definition illegal_first : Emulator :=
  let s := with_program ([0xFC000000; enc.movi 1 7; enc.halt] ++ replicate 29 0 ++ [enc.halt]) in
  { s with csr_ := CSRFile.write s.(csr_) CSR_MTVEC 0x80 }.
(** A timer interrupt pending and enabled, with the same handler. *)
Definition interrupted : Emulator :=
  let s := with_program ([enc.movi 1 7; enc.halt] ++ replicate 30 0 ++ [enc.halt]) in
  { s with csr_ := CSRFile.write (CSRFile.write (CSRFile.write s.(csr_) CSR_MTVEC 0x80) CSR_MIE 0x80)
                     CSR_MSTATUS 8;
           intc_ := InterruptController.raise_timer s.(intc_) }.

(** The fast loop does not have the semantics of the plain one.
    Each condition of the refinement is needed: a program that rewrites a later
    instruction of its own block runs the old instruction in [run_fast]; after
    an illegal instruction [run_fast] goes on with the rest of the block
    instead of the trap handler; and it never takes a pending interrupt. *)
Theorem run_fast_differs :
  outcome_of (Emulator.run PathScalar 10) self_modifying = (Ok true, Some 1, true) /\
  outcome_of (Emulator.run_fast PathScalar 10) self_modifying = (Ok true, Some 2, true) /\
  outcome_of (Emulator.run PathScalar 10) illegal_first = (Ok true, Some 0, true) /\
  outcome_of (Emulator.run_fast PathScalar 10) illegal_first = (Ok true, Some 7, true) /\
  outcome_of (Emulator.run PathScalar 10) interrupted = (Ok true, Some 0, true) /\
  outcome_of (Emulator.run_fast PathScalar 10) interrupted = (Ok true, Some 7, true).
Proof. vm_compute. repeat split. Qed.
