(* ===== verification/Arch.v ===== *)
(** * The instruction set as a specification

    What a programmer of the accelerator may rely on: a machine of registers
    and two byte memories, an instruction type with its decoder, and one step
    of it.  No fabrics, profiler, peripherals, page tables, caches or host
    kernels.  [step] and [run] of emulator.cpp implement this machine, from any
    state without paging, enabled interrupts or a trap vector. *)

From S2P Require Import Prelude Text Isa Memory Registers Interrupt Devices Bus Float Profiler Interconnect Target Host Mmu Translate Emulator EmulatorWf Execute Dma Traps Frame Safety Fast.
#[local] Open Scope Z_scope.

(** ** The architectural state *)
Record Arch : Type := mkArch { a_regs : RegisterFile; a_mem : buffer; a_ram : buffer }.

Definition abs (s : Emulator) : Arch := mkArch s.(regs_) s.(scratchpad_) s.(main_ram_).

Module ISA.
Definition with_regs (r : RegisterFile) (a : Arch) : Arch := mkArch r a.(a_mem) a.(a_ram).
Definition with_mem (m : buffer) (a : Arch) : Arch := mkArch a.(a_regs) m a.(a_ram).
Definition with_ram (m : buffer) (a : Arch) : Arch := mkArch a.(a_regs) a.(a_mem) m.

(** Register 0 reads as zero and ignores writes. *)
Definition reg (a : Arch) (r : Z) : Z := if r =? 0 then 0 else default 0 (zget a.(a_regs).(gpr) r).
Definition set_reg (d v : Z) (a : Arch) : Arch :=
  if d =? 0 then a else with_regs { a.(a_regs) with gpr := zset a.(a_regs).(gpr) d v } a.
Definition vreg (a : Arch) (r : Z) : list Z := Host.row a.(a_regs).(vr) r.
Definition set_vreg (d : Z) (v : list Z) (a : Arch) : Arch :=
  with_regs { a.(a_regs) with vr := zset a.(a_regs).(vr) d v } a.
Definition jump (t : Z) (a : Arch) : Arch := with_regs { a.(a_regs) with pc := t } a.
Definition set_flags (r : Z) (a : Arch) : Arch :=
  with_regs { a.(a_regs) with status := {| zero := r =? 0; negative := 2 ^ 31 <=? r; overflow := false |} } a.
Definition stop (a : Arch) : Arch := with_regs { a.(a_regs) with halt := true } a.

(** ** Instructions *)
Inductive Instr : Type :=
  | INop
  | IHalt
  | IJump (t : Z)
  | IBranch (eq : bool) (a b off : Z)
  | IAlu (op : Opcode) (d a b : Z)
  | ILoad (d base off : Z)
  | IStore (s base off : Z)
  | IMove (d a : Z)
  | IMoveImm (d v : Z)
  | ILoadV (d base off : Z)
  | IStoreV (s base off : Z)
  | IAddV (d a b : Z)
  | ITile (d a b n : Z)
  | IDma (load : bool) (d a n : Z).

(** Scalar fields name one of 16 registers and vector fields one of 8. *)
Definition scalar (r : Z) : bool := r <? 16.
Definition vector (r : Z) : bool := r <? 8.
Definition given (b : bool) (i : Instr) : option Instr := if b then Some i else None.

Definition decode (i : Instruction) : option Instr :=
  let '(d, a, b) := (Instruction.rd i, Instruction.ra i, Instruction.rb i) in
  let off := Instruction.simm16 i in let n := Instruction.func i in
  match opcode_of (Instruction.opcode i) with
  | Some NOP => Some INop
  | Some HALT => Some IHalt
  | Some JMP => Some (IJump (Instruction.target i))
  | Some BEQ => given (scalar d && scalar a) (IBranch true d a (Instruction.offset i))
  | Some BNE => given (scalar d && scalar a) (IBranch false d a (Instruction.offset i))
  | Some ADD => given (scalar d && scalar a && scalar b) (IAlu ADD d a b)
  | Some SUB => given (scalar d && scalar a && scalar b) (IAlu SUB d a b)
  | Some MUL => given (scalar d && scalar a && scalar b) (IAlu MUL d a b)
  | Some LOAD => given (scalar d && scalar a) (ILoad d a off)
  | Some STORE => given (scalar d && scalar a) (IStore d a off)
  | Some MOV => given (scalar d && scalar a) (IMove d a)
  | Some MOVI => given (scalar d) (IMoveImm d (Instruction.imm16 i))
  | Some LOAD_VR => given (vector d && scalar a) (ILoadV d a off)
  | Some STORE_VR => given (vector d && scalar a) (IStoreV d a off)
  | Some VEC_ADD => given (vector d && vector a && vector b) (IAddV d a b)
  | Some MATMUL_TILE => given (vector d && vector a && vector b) (ITile d a b (Z.land n 0xF))
  | Some DMA_LOAD => given (scalar d && scalar a) (IDma true d a n)
  | Some DMA_STORE => given (scalar d && scalar a) (IDma false d a n)
  | None => None
  end.

(** ** One instruction *)
Inductive Outcome : Type :=
  | Next (a : Arch)                          (* completed *)
  | Fault (e : EmulatorError) (a : Arch)     (* stopped by an error *)
  | Halted
  | Outside.                                 (* not specified here: peripherals, bad register numbers *)

Section Exec.
Context `{FloatOps}.

(** [n] bytes of a memory at [a], or the error. *)
Definition accessed (m : buffer) (a n : Z) (e : EmulatorError) (s s' : Arch) : Outcome :=
  if a + n <=? m.(blen) then Next s' else Fault e s.

(** The machine after the instruction, its program counter already advanced. *)
Definition exec (i : Instr) (s : Arch) : Outcome :=
  let address base off := u32 (reg s base + off) in
  match i with
  | INop => Next s
  | IHalt => Next (stop s)
  | IJump t => Next (jump t s)
  | IBranch eq a b off =>
      Next (if Bool.eqb (reg s a =? reg s b) eq then jump (u32 (s.(a_regs).(pc) + off)) s else s)
  | IAlu op d a b => let r := alu op (reg s a) (reg s b) in Next (set_flags r (set_reg d r s))
  | ILoad d base off =>
      let ea := address base off in
      if MMIO_BASE <=? ea then Outside
      else accessed s.(a_mem) ea 4 (SramOutOfBounds ea 4) s
             (set_reg d (le_val (Buffer.peek s.(a_mem) ea 4)) s)
  | IStore r base off =>
      let ea := address base off in
      if MMIO_BASE <=? ea then Outside
      else accessed s.(a_mem) ea 4 (SramOutOfBounds ea 4) s
             (with_mem (Buffer.poke s.(a_mem) ea (le_bytes 4 (reg s r))) s)
  | IMove d a => Next (set_reg d (reg s a) s)
  | IMoveImm d v => Next (set_reg d v s)
  | ILoadV d base off =>
      let ea := address base off in
      accessed s.(a_mem) ea 64 (SramOutOfBounds ea 64) s
        (set_vreg d (Emulator.bytes_vr 16 (Buffer.peek s.(a_mem) ea 64)) s)
  | IStoreV r base off =>
      let ea := address base off in
      accessed s.(a_mem) ea 64 (SramOutOfBounds ea 64) s
        (with_mem (Buffer.poke s.(a_mem) ea (Emulator.vr_bytes (vreg s r))) s)
  | IAddV d a b => Next (set_vreg d (zip_with fadd (vreg s a) (vreg s b)) s)
  | ITile d a b n =>
      if (n =? 0) || (TILE_SIZE <? n) then Fault (InvalidTileSize n) s
      else match Host.matmul_loop s.(a_regs).(vr) d a b n with
           | Some vrs => Next (with_regs { s.(a_regs) with vr := vrs } s)
           | None => Outside
           end
  | IDma load dr ar n =>
      let '(d, sr) := (reg s dr, reg s ar) in
      let '(dst, src) := if load then (s.(a_mem), s.(a_ram)) else (s.(a_ram), s.(a_mem)) in
      if (2 ^ 32 <=? d + n) || (2 ^ 32 <=? sr + n) then Outside
      else if dst.(blen) <? d + n then Fault (dma_bounds_error load true) s
      else if src.(blen) <? sr + n then Fault (dma_bounds_error load false) s
      else let m := Buffer.poke dst d (Buffer.peek src sr (Z.to_nat n)) in
           Next (if load then with_mem m s else with_ram m s)
  end.

Lemma exec_not_halted i s : exec i s <> Halted.
Proof. destruct i; cbn [exec]; unfold accessed; by repeat case_match. Qed.

Definition advance (s : Arch) : Arch := jump (u32 (s.(a_regs).(pc) + 4)) s.

(** Fetch, decode, execute. *)
Definition istep (s : Arch) : Outcome :=
  let p := s.(a_regs).(pc) in
  if s.(a_regs).(halt) then Halted
  else if MMIO_BASE <=? p then Outside
  else if s.(a_mem).(blen) <? p + 4 then Fault (SramOutOfBounds p 4) s
  else
    let w := mkInstruction (le_val (Buffer.peek s.(a_mem) p 4)) in
    match opcode_of (Instruction.opcode w), decode w with
    | None, _ => Fault (UnknownOpcode (Instruction.opcode w)) (advance s)
    | Some _, Some i => exec i (advance s)
    | Some _, None => Outside
    end.

(** The instruction at the program counter. *)
Definition current (a : Arch) : option Instr :=
  let p := a.(a_regs).(pc) in
  if a.(a_regs).(halt) || (MMIO_BASE <=? p) || (a.(a_mem).(blen) <? p + 4) then None
  else decode (mkInstruction (le_val (Buffer.peek a.(a_mem) p 4))).

Lemma istep_current a ins : current a = Some ins -> istep a = exec ins (advance a).
Proof.
  unfold current, istep. intros Hc. destruct (halt (a_regs a)); [done|].
  destruct (MMIO_BASE <=? _); [done|]. destruct (_ <? _); [done|]. cbn [orb] in Hc. rewrite Hc.
  unfold decode in Hc. by destruct (opcode_of _).
Qed.

Lemma current_word a ins :
  current a = Some ins ->
  let p := a.(a_regs).(pc) in
  a.(a_regs).(halt) = false /\ p < MMIO_BASE /\ p + 4 <= a.(a_mem).(blen) /\
  decode (mkInstruction (le_val (Buffer.peek a.(a_mem) p 4))) = Some ins.
Proof.
  unfold current. destruct (halt (a_regs a)); [done|]. destruct (Z.leb_spec MMIO_BASE (pc (a_regs a))); [done|].
  by destruct (Z.ltb_spec (blen (a_mem a)) (pc (a_regs a) + 4)); [|repeat split].
Qed.

(** Instructions keep the sizes of the memories. *)
Lemma exec_blen i a a' : exec i a = Next a' ->
  a'.(a_mem).(blen) = a.(a_mem).(blen) /\ a'.(a_ram).(blen) = a.(a_ram).(blen).
Proof.
  assert (Hset : forall d v, a_mem (set_reg d v a) = a_mem a /\ a_ram (set_reg d v a) = a_ram a)
    by (intros d v; unfold set_reg; by case_match).
  destruct i; cbn [exec]; unfold accessed; repeat case_match; intros [= <-];
    first [done|by simplify_eq|split; apply (f_equal blen); apply Hset].
Qed.

(** Steps of the machine as a relation, and the machines where it stops. *)
Definition steps_to (s s' : Arch) : Prop := istep s = Next s'.
Lemma istep_det s s1 s2 : steps_to s s1 -> steps_to s s2 -> s1 = s2.
Proof. unfold steps_to. congruence. Qed.
End Exec.

(** The fields of a decoded scalar access. *)
Lemma decode_scalar i op x b off :
  decode i = Some (if op : bool then ILoad x b off else IStore x b off) ->
  Instruction.opcode i = code (if op then LOAD else STORE) /\ x = Instruction.rd i /\ b = Instruction.ra i /\
  off = Instruction.simm16 i /\ scalar x = true /\ scalar b = true.
Proof.
  unfold decode. destruct (opcode_of (Instruction.opcode i)) as [o|] eqn:Ho; [|by destruct op].
  apply opcode_of_Some in Ho. unfold given.
  destruct o; cbv beta iota zeta; repeat case_match; destruct op; intros Hd; try done; injection Hd as <- <- <-;
    match goal with E : _ = true |- _ => apply andb_true_iff in E as [? ?] end; by repeat split.
Qed.

End ISA.
Import ISA.

(** ** The handlers implement the instructions *)

(** The result of a computation from [s], seen by the architecture. *)
Definition implements {A} (m : M Emulator A) (s : Emulator) (o : ISA.Outcome) : Prop :=
  match o with
  | Next a => exists c s', m s = (Ok c, s') /\ abs s' = a
  | Fault e a => exists s', m s = (Throw e, s') /\ abs s' = a
  | Halted | Outside => True
  end.

(** Registers, when their numbers are in range. *)
Lemma reg_read s r :
  emu_wf s -> 0 <= r -> scalar r = true -> Emulator.read_gpr r s = (Ok (reg (abs s) r), s).
Proof.
  intros Hs Hr Hlt%Z.ltb_lt. apply read_gpr_run.
  destruct (RegisterFile.read_gpr_some (regs_ s) r (wf_regs s Hs) ltac:(lia)) as (v & Hv & _).
  rewrite Hv. unfold reg. cbn. unfold RegisterFile.read_gpr in Hv. case_match; [done|]. by rewrite Hv.
Qed.
Lemma reg_value s r :
  emu_wf s -> 0 <= r -> scalar r = true ->
  RegisterFile.read_gpr s.(regs_) r = Some (reg (abs s) r) /\ fits 32 (reg (abs s) r).
Proof.
  intros Hs Hr Hlt%Z.ltb_lt.
  destruct (RegisterFile.read_gpr_some (regs_ s) r (wf_regs s Hs) ltac:(lia)) as (v & Hv & Hf).
  assert (reg (abs s) r = v) as ->; [|done].
  unfold reg. cbn. unfold RegisterFile.read_gpr in Hv. case_match; [congruence|]. by rewrite Hv.
Qed.
Lemma reg_write s d v :
  emu_wf s -> 0 <= d -> scalar d = true ->
  exists r, RegisterFile.write_gpr s.(regs_) d v = Some r /\
    abs (Emulator.put_regs r s) = set_reg d v (abs s).
Proof.
  intros Hs Hd Hlt%Z.ltb_lt. unfold set_reg, RegisterFile.write_gpr.
  assert (H0 : zget (gpr (regs_ s)) 0 = Some 0) by apply (wf_regs s Hs).
  assert (Hlen : zlen (gpr (regs_ s)) = 16) by (unfold zlen; by rewrite RegisterFile.wf_gpr_len by apply Hs).
  destruct (Z.eqb_spec d 0) as [->|Hne].
  - eexists. split; [reflexivity|].
    exact (f_equal (fun l => abs (Emulator.put_regs { s.(regs_) with gpr := l } s)) (zset_zget _ _ _ H0)).
  - destruct (Z.ltb_spec d (zlen (gpr (regs_ s)))); [|lia]. eexists. split; [reflexivity|].
    assert (Hz : zset (zset (gpr (regs_ s)) d v) 0 0 = zset (gpr (regs_ s)) d v)
      by (apply zset_zget; by rewrite zget_zset_ne by lia).
    exact (f_equal (fun l => with_regs { s.(regs_) with gpr := l } (abs s)) Hz).
Qed.
Lemma vreg_read s r :
  emu_wf s -> 0 <= r -> vector r = true ->
  Emulator.vr_data r s = (Ok (vreg (abs s) r), s) /\ RegisterFile.vec_ok (vreg (abs s) r) /\
  zget s.(regs_).(vr) r = Some (vreg (abs s) r).
Proof.
  intros Hs Hr Hlt%Z.ltb_lt.
  destruct (RegisterFile.read_vr_some (regs_ s) r (wf_regs s Hs) ltac:(lia)) as (v & Hv & Hok).
  unfold Emulator.vr_data. rewrite get_run, Hv. unfold vreg, Host.row.
  unfold RegisterFile.read_vr in Hv. cbn. rewrite Hv. done.
Qed.

(** A machine with enough room for the access completes, another stops. *)
Lemma accessed_cases m a n e s s' :
  accessed m a n e s s' = if a + n <=? m.(blen) then Next s' else Fault e s.
Proof. done. Qed.

#[local] Hint Extern 1 (0 <= Instruction.rd _) => apply Instruction.rd_range : core.
#[local] Hint Extern 1 (0 <= Instruction.ra _) => apply Instruction.ra_range : core.
#[local] Hint Extern 1 (0 <= Instruction.rb _) => apply Instruction.rb_range : core.

Section Handlers.
Context `{FloatOps} (path : HostPath).

Lemma branch_implements (eq : bool) i s c a b :
  emu_wf s -> 0 <= a -> 0 <= b -> scalar a = true -> scalar b = true ->
  implements (let! x := Emulator.read_gpr a in let! y := Emulator.read_gpr b in
              Emulator.branch_if (if eq then x =? y else negb (x =? y)) i c) s
    (exec (IBranch eq a b (Instruction.offset i)) (abs s)).
Proof.
  intros Hs Ha0 Hb0 Ha Hb. cbn [exec implements].
  rewrite (bind_ok _ _ _ _ _ (reg_read s a Hs Ha0 Ha)), (bind_ok _ _ _ _ _ (reg_read s b Hs Hb0 Hb)).
  unfold Emulator.branch_if.
  destruct (reg (abs s) a =? reg (abs s) b), eq; cbn [Bool.eqb negb]; by do 2 eexists.
Qed.

Lemma alu_implements op i s (h : Instruction -> M Emulator Z) d a b :
  h = match op return Instruction -> M Emulator Z with ADD => Emulator.op_add | SUB => Emulator.op_sub | _ => Emulator.op_mul end ->
  op = ADD \/ op = SUB \/ op = MUL -> fields i op d a b ->
  emu_wf s -> 0 <= d -> 0 <= a -> 0 <= b -> scalar d = true -> scalar a = true -> scalar b = true ->
  implements (h i) s (exec (IAlu op d a b) (abs s)).
Proof.
  intros -> Hop Ho Hs Hd0 Ha0 Hb0 Hd Ha Hb. cbn [exec implements].
  destruct (reg_value s a Hs Ha0 Ha) as [Hx _]. destruct (reg_value s b Hs Hb0 Hb) as [Hy _].
  destruct (reg_write s d (alu op (reg (abs s) a) (reg (abs s) b)) Hs Hd0 Hd) as (r & Hr & Habs).
  do 2 eexists. split; [exact (alu_handler_run op i d a b s _ _ r Hop Ho Hx Hy Hr)|].
  rewrite <- Habs. unfold set_flags. rewrite <- sign_bit_spec by apply alu_fits. reflexivity.
Qed.

Lemma move_implements s d v (m : M Emulator Z) c :
  emu_wf s -> 0 <= d -> scalar d = true ->
  m s = (do! Emulator.write_gpr d v in ret c) s -> implements m s (Next (set_reg d v (abs s))).
Proof.
  intros Hs Hd0 Hd Hm. destruct (reg_write s d v Hs Hd0 Hd) as (r & Hr & <-).
  cbn [implements]. rewrite Hm, (bind_ok _ _ _ _ _ (write_gpr_run _ _ _ _ Hr)). by do 2 eexists.
Qed.

(** The address of an access, below 2^32. *)
Lemma address_run s i :
  emu_wf s -> scalar (Instruction.ra i) = true ->
  Emulator.effective_address i s = (Ok (u32 (reg (abs s) (Instruction.ra i) + Instruction.simm16 i)), s).
Proof.
  intros Hs Ha. apply effective_address_run. by apply reg_value; [|apply Instruction.ra_range|].
Qed.

Section Access.
Context (i : Instruction) (s : Emulator) (Hs : emu_wf s) (Ha : scalar (Instruction.ra i) = true).
Let ea := u32 (reg (abs s) (Instruction.ra i) + Instruction.simm16 i).

Lemma load_implements :
  MMU.enabled s.(mmu_) = false -> scalar (Instruction.rd i) = true ->
  implements (Emulator.op_load i) s
    (exec (ILoad (Instruction.rd i) (Instruction.ra i) (Instruction.simm16 i)) (abs s)).
Proof using Type*.
  intros Hm Hd. cbn [exec]. fold ea. destruct (Z.leb_spec MMIO_BASE ea) as [|Hlow]; [done|].
  destruct (wf_scratchpad s Hs) as [[_ Hlen] _]. pose proof (proj1 (u32_fits _ : fits 32 ea)) as Hea.
  destruct (load_at_run s i ea Hs Hlow) as (f & _ & Hl).
  assert (Hrun : Emulator.op_load i s = load_at i ea s).
  { unfold Emulator.op_load. by rewrite (bind_ok _ _ _ _ _ (address_run s i Hs Ha)), get_run, Hm. }
  unfold accessed. cbn [abs a_mem]. destruct (Z.leb_spec (ea + 4) (blen (scratchpad_ s))).
  - rewrite VirtualSRAM.read32_ok in Hl by lia.
    destruct (reg_write s (Instruction.rd i) (le_val (Buffer.peek (scratchpad_ s) ea 4)) Hs) as (r & Hr & <-);
      [apply Instruction.rd_range|done|].
    exists 3, (Emulator.put_regs r (Emulator.put_axi f s)). split; [|reflexivity].
    by rewrite Hrun, Hl, (bind_ok _ _ _ _ _ (write_gpr_run (Emulator.put_axi f s) _ _ r Hr)).
  - rewrite VirtualSRAM.read32_throws in Hl by (unfold MMIO_BASE in *; lia).
    eexists. split; [by rewrite Hrun, Hl|done].
Qed.

Lemma store_implements :
  MMU.enabled s.(mmu_) = false -> scalar (Instruction.rd i) = true ->
  implements (Emulator.op_store i) s
    (exec (IStore (Instruction.rd i) (Instruction.ra i) (Instruction.simm16 i)) (abs s)).
Proof using Type*.
  intros Hm Hd. cbn [exec]. fold ea. destruct (Z.leb_spec MMIO_BASE ea) as [|Hlow]; [done|].
  destruct (wf_scratchpad s Hs) as [[_ Hlen] _]. pose proof (u32_fits _ : fits 32 ea) as Hea.
  destruct (reg_value s (Instruction.rd i) Hs) as [Hv _]; [apply Instruction.rd_range|done|].
  destruct (store_at_run s i ea _ Hs Hlow Hv) as (f & _ & Hl).
  assert (Hrun : Emulator.op_store i s = store_at i ea s).
  { unfold Emulator.op_store. by rewrite (bind_ok _ _ _ _ _ (address_run s i Hs Ha)), get_run, Hm. }
  unfold accessed. cbn [abs a_mem]. destruct (Z.leb_spec (ea + 4) (blen (scratchpad_ s))).
  - unfold VirtualSRAM.write32 in Hl.
    rewrite VirtualSRAM.write_bytes_ok in Hl by (change (zlen (le_bytes 4 _)) with 4; destruct Hea; lia).
    do 2 eexists. split; [by rewrite Hrun, Hl|done].
  - rewrite (write32_throws (scratchpad_ s) ea) in Hl by (done || lia).
    eexists. split; [by rewrite Hrun, Hl|done].
Qed.

(** Vector accesses go to the scratchpad directly, past the bus and the MMU. *)
Lemma load_vr_implements :
  vector (Instruction.rd i) = true ->
  implements (Emulator.op_load_vr i) s
    (exec (ILoadV (Instruction.rd i) (Instruction.ra i) (Instruction.simm16 i)) (abs s)).
Proof using Type*.
  intros Hd. cbn [exec]. fold ea. destruct (wf_scratchpad s Hs) as [[_ Hlen] _].
  pose proof (u32_fits _ : fits 32 ea) as [Hea Hea'].
  destruct (vreg_read s (Instruction.rd i) Hs) as (Hv & _ & _); [apply Instruction.rd_range|done|].
  assert (Hrun : Emulator.op_load_vr i s =
    (let! l := lift (VirtualSRAM.read_bytes s.(scratchpad_) ea 64) in
     do! modify (fun s => Emulator.put_regs
           (RegisterFile.write_vr s.(regs_) (Instruction.rd i) (Emulator.bytes_vr 16 l)) s) in ret (cycle_weight (code LOAD_VR) 0)) s).
  { unfold Emulator.op_load_vr.
    by rewrite (bind_ok _ _ _ _ _ (address_run s i Hs Ha)), (bind_ok _ _ _ _ _ Hv), get_run. }
  unfold accessed. cbn [abs a_mem]. destruct (Z.leb_spec (ea + 64) (blen (scratchpad_ s))).
  - rewrite VirtualSRAM.read_bytes_ok in Hrun by lia. do 2 eexists. by split; [exact Hrun|].
  - rewrite VirtualSRAM.read_bytes_throws in Hrun by lia. eexists. by split; [exact Hrun|].
Qed.

Lemma store_vr_implements :
  vector (Instruction.rd i) = true ->
  implements (Emulator.op_store_vr i) s
    (exec (IStoreV (Instruction.rd i) (Instruction.ra i) (Instruction.simm16 i)) (abs s)).
Proof using Type*.
  intros Hd. cbn [exec]. fold ea. destruct (wf_scratchpad s Hs) as [[_ Hlen] _].
  pose proof (u32_fits _ : fits 32 ea) as [Hea Hea'].
  destruct (vreg_read s (Instruction.rd i) Hs) as (Hv & Hok & _); [apply Instruction.rd_range|done|].
  set (l := Emulator.vr_bytes (vreg (abs s) (Instruction.rd i))).
  assert (Hz : zlen l = 64) by by apply vr_bytes_length.
  assert (Hrun : Emulator.op_store_vr i s =
    (do! zoom scratchpad_ Emulator.put_scratchpad (VirtualSRAM.write_bytes ea l) in ret (cycle_weight (code STORE_VR) 0)) s).
  { unfold Emulator.op_store_vr.
    by rewrite (bind_ok _ _ _ _ _ (address_run s i Hs Ha)), (bind_ok _ _ _ _ _ Hv). }
  unfold accessed. cbn [abs a_mem]. unfold zoom, bind in Hrun.
  destruct (Z.leb_spec (ea + 64) (blen (scratchpad_ s))).
  - rewrite VirtualSRAM.write_bytes_ok in Hrun by lia. do 2 eexists. by split; [exact Hrun|].
  - rewrite VirtualSRAM.write_bytes_throws, Hz in Hrun by lia. eexists. by split; [exact Hrun|].
Qed.
End Access.

Section Vectors.
Context (i : Instruction) (s : Emulator) (Hs : emu_wf s).
Let d := Instruction.rd i.
Let a := Instruction.ra i.
Let b := Instruction.rb i.
Context (Hd : vector d = true) (Ha : vector a = true) (Hb : vector b = true).

Lemma vrs_range : vrs_ok s.(regs_).(vr) /\ 0 <= d < 8 /\ 0 <= a < 8 /\ 0 <= b < 8.
Proof using Hs Hd Ha Hb.
  apply Z.ltb_lt in Hd, Ha, Hb. pose proof (Instruction.rd_range i). pose proof (Instruction.ra_range i).
  pose proof (Instruction.rb_range i). split; [split; apply Hs|]. subst d a b. lia.
Qed.
(** The three unused accesses to the registers succeed. *)
Lemma vr_accesses {A} (k : M Emulator A) :
  (do! Emulator.vr_data d in do! Emulator.vr_data a in do! Emulator.vr_data b in k) s = k s.
Proof using Hs Hd Ha Hb.
  destruct vrs_range as (_ & ? & ? & ?).
  destruct (vreg_read s d Hs ltac:(lia) Hd) as (E1 & _ & _).
  destruct (vreg_read s a Hs ltac:(lia) Ha) as (E2 & _ & _).
  destruct (vreg_read s b Hs ltac:(lia) Hb) as (E3 & _ & _).
  by rewrite (bind_ok _ _ _ _ _ E1), (bind_ok _ _ _ _ _ E2), (bind_ok _ _ _ _ _ E3).
Qed.

(** Any host kernel, or the scalar loop, is the lane-wise sum. *)
Lemma vec_add_implements : implements (Emulator.op_vec_add path i) s (exec (IAddV d a b) (abs s)).
Proof using Hs Hd Ha Hb.
  destruct vrs_range as (Hok & Hd' & Ha' & Hb'). pose proof (vrs_ok_rows _ Hok) as Hrows.
  assert (Hl : zlen (vr (regs_ s)) = 8) by (unfold zlen; by rewrite RegisterFile.wf_vr_len by apply Hs).
  cbn [exec implements]. do 2 eexists. split.
  - unfold Emulator.op_vec_add. fold d a b. rewrite vr_accesses, get_run.
    rewrite vec_add_path, vec_add_scalar_sums by (done || lia). reflexivity.
  - by destruct (accel_ s).
Qed.

Lemma matmul_implements :
  implements (Emulator.op_matmul_tile i) s (exec (ITile d a b (Z.land (Instruction.func i) 0xF)) (abs s)).
Proof using Hs Hd Ha Hb.
  unfold Emulator.op_matmul_tile. cbn [exec]. set (n := Z.land _ _).
  destruct ((n =? 0) || (TILE_SIZE <? n)); [by eexists|].
  fold d a b. cbn [abs a_regs].
  destruct (Host.matmul_loop (vr (regs_ s)) d a b n) as [vrs|] eqn:Hm; [|done].
  exists (profile_cycle_weight s.(target_) (code MATMUL_TILE) n), (Emulator.put_vrs vrs s). split; [|done].
  rewrite vr_accesses, get_run, matmul_host_loop, Hm. by destruct (accel_ s).
Qed.
End Vectors.

Lemma dma_implements (load : bool) i s :
  emu_wf s -> MMU.enabled s.(mmu_) = false ->
  scalar (Instruction.rd i) = true -> scalar (Instruction.ra i) = true ->
  implements (op_dma load i) s
    (exec (IDma load (Instruction.rd i) (Instruction.ra i) (Instruction.func i)) (abs s)).
Proof.
  intros Hs Hm Hd Ha. cbn [exec].
  destruct (reg_value s (Instruction.rd i) Hs) as [Hdv Hdf]; [apply Instruction.rd_range|done|].
  destruct (reg_value s (Instruction.ra i) Hs) as [Hav Haf]; [apply Instruction.ra_range|done|].
  pose proof (op_dma_off load i _ _ s Hm Hdv Hav) as Hop.
  set (da := reg (abs s) (Instruction.rd i)) in *. set (sa := reg (abs s) (Instruction.ra i)) in *.
  set (n := Instruction.func i) in *. destruct Hdf as [Hdf _], Haf as [Haf _].
  assert (Hsel : (if load then (a_mem (abs s), a_ram (abs s)) else (a_ram (abs s), a_mem (abs s)))
                 = (dma_target load s, dma_target (negb load) s)) by by destruct load.
  rewrite Hsel. destruct (Z.leb_spec (2 ^ 32) (da + n)); [done|].
  destruct (Z.leb_spec (2 ^ 32) (sa + n)); [done|]. cbn [orb].
  destruct (dma_at_run load i da sa s n Hs eq_refl Hdf Haf ltac:(done) ltac:(done)) as (f & b & Hr).
  rewrite <- Hop in Hr. unfold Buffer.in_range in Hr.
  destruct (Z.leb_spec 0 da); [|lia]. destruct (Z.leb_spec 0 sa); [|lia]. cbn [andb] in Hr.
  rewrite <- !Z.ltb_antisym in Hr.
  destruct (blen (dma_target load s) <? da + n); [eexists; split; [exact Hr|done]|].
  destruct (blen (dma_target (negb load) s) <? sa + n); [eexists; split; [exact Hr|done]|].
  do 2 eexists. split; [exact Hr|]. destruct load, b; reflexivity.
Qed.

#[local] Hint Resolve load_implements store_implements load_vr_implements store_vr_implements
  vec_add_implements matmul_implements : arch.
#[local] Ltac in_range :=
  repeat match goal with
  | H : given ?b _ = Some _ |- _ => destruct b eqn:?; [injection H as <-|done]
  | H : (_ && _) = true |- _ => apply andb_true_iff in H as [? ?]
  end.
(** Instructions whose addresses are translated. *)
Definition translates (ins : Instr) : bool :=
  match ins with ILoad _ _ _ | IStore _ _ _ | IDma _ _ _ _ => true | _ => false end.
Lemma handler_implements i ins h s :
  emu_wf s -> (translates ins = true -> MMU.enabled s.(mmu_) = false) -> decode i = Some ins ->
  Emulator.dispatch_table_ path (Instruction.opcode i) = Some h ->
  implements (h i) s (exec ins (abs s)).
Proof.
  intros Hs Hm. unfold decode, Emulator.dispatch_table_.
  destruct (opcode_of (Instruction.opcode i)) as [o|] eqn:Ho; [|done]. apply opcode_of_Some in Ho.
  assert (Hf : fields i o (Instruction.rd i) (Instruction.ra i) (Instruction.rb i)) by done.
  destruct o; intros Hi [= <-]; cbv beta iota zeta in Hi; in_range; try specialize (Hm eq_refl); auto with arch.
  - injection Hi as <-. by do 2 eexists.
  - injection Hi as <-. by do 2 eexists.
  - injection Hi as <-. by do 2 eexists.
  - apply (branch_implements true); auto.
  - apply (branch_implements false); auto.
  - eapply alu_implements; eauto.
  - eapply alu_implements; eauto.
  - eapply alu_implements; eauto.
  - apply (move_implements s _ _ _ (cycle_weight (code MOV) 0)); auto. unfold Emulator.op_mov.
    rewrite (bind_ok _ _ _ _ _ (reg_read s (Instruction.ra i) Hs ltac:(auto) ltac:(done))). done.
  - by apply (move_implements s _ _ _ (cycle_weight (code MOVI) 0)); auto.
  - by apply (dma_implements true).
  - by apply (dma_implements false).
Qed.
End Handlers.

(** ** A step of the machine *)

(** Nothing interferes with the program: no paging, no interrupts, no trap
    vector. *)
Record bare (s : Emulator) : Prop := {
  bare_mmu : MMU.enabled s.(mmu_) = false;
  bare_mie : has_bit (CSRFile.read s.(csr_) CSR_MSTATUS) 3 = false;
  bare_mtvec : CSRFile.read s.(csr_) CSR_MTVEC = 0 }.
Lemma bare_eq s s' : mmu_ s' = mmu_ s -> csr_ s' = csr_ s -> bare s -> bare s'.
Proof. intros H1 H2 []. split; congruence. Qed.

Lemma tick_loop_abs n s : abs (Emulator.tick_loop n s) = abs s.
Proof.
  revert s. induction n as [|n IH]; intros s; [done|]. cbn [Emulator.tick_loop].
  case_match; [|done]. apply (IH (Emulator.tick_once s)).
Qed.

Lemma tick_loop_shared n s : shared_ (Emulator.tick_loop n s) = shared_ s.
Proof.
  revert s. induction n as [|n IH]; intros s; [done|]. cbn [Emulator.tick_loop].
  case_match; [|done]. apply (IH (Emulator.tick_once s)).
Qed.

Section Step.
Context `{FloatOps} (path : HostPath).

(** What a step keeps besides the architectural state. *)
Definition kept (s s' : Emulator) : Prop := bare s' /\ s'.(debugger_) = s.(debugger_).

Lemma execute_implements raw s (i := mkInstruction raw) :
  emu_wf s -> bare s ->
  match opcode_of (Instruction.opcode i), decode i with
  | None, _ => Emulator.execute path i s = (Throw (UnknownOpcode (Instruction.opcode i)), s)
  | Some _, Some ins => implements (Emulator.execute path i) s (exec ins (abs s)) /\
      kept s (Emulator.execute path i s).2
  | Some _, None => True
  end.
Proof.
  intros Hs Hb. destruct (opcode_of (Instruction.opcode i)) as [o|] eqn:Ho.
  - destruct (decode i) as [ins|] eqn:Hi; [|done].
    destruct (execute_frame_core path i s (bare_mmu s Hb)) as [(H1 & H2 & _ & H3 & _) _]; [congruence|].
    split; [|split; [by apply (bare_eq s)|done]].
    destruct (Emulator.dispatch_table_ path (Instruction.opcode i)) as [h|] eqn:Hd.
    2: { unfold Emulator.dispatch_table_ in Hd. rewrite Ho in Hd. by destruct o. }
    pose proof (handler_implements path i ins h s Hs (fun _ => bare_mmu s Hb) Hi Hd) as Him.
    destruct (exec ins (abs s)); try exact Him; cbn [implements] in *.
    + destruct Him as (c & s' & Hh & <-). do 2 eexists. split; [exact (execute_run _ _ _ _ _ _ Hd Hh)|done].
    + destruct Him as (s' & Hh & <-).
      destruct (execute_fail _ _ _ _ _ _ Hd Hh) as (r & He & ->); [done|]. by eexists.
  - unfold Emulator.execute, Emulator.dispatch_table_. rewrite Ho.
    rewrite (bind_ok Emulator.prev_pc _ s _ s eq_refl), get_run. by rewrite (bare_mtvec s Hb).
Qed.

(** The interrupt check and the bookkeeping of the verbose mode. *)
Definition noted (s : Emulator) : Emulator :=
  if s.(verbose_) then (Emulator.remember s.(regs_).(pc) s).2 else s.
Lemma noted_same s : emu_wf s -> bare s -> emu_wf (noted s) /\ bare (noted s) /\ abs (noted s) = abs s /\
  (noted s).(debugger_) = s.(debugger_) /\ (noted s).(shared_) = s.(shared_).
Proof.
  intros Hs Hb. unfold noted. destruct (verbose_ s); [|done].
  split; [by apply put_last_wf|]. split; [by apply (bare_eq s)|done].
Qed.

(** The rest of a step, from the fetch on. *)
Definition body (p : Z) : M Emulator unit :=
  let! instr := Emulator.fetch in
  let! cycles := Emulator.execute path instr in
  do! modify Emulator.tick_peripherals in
  let! s := get in
  if s.(verbose_) then Emulator.log_step p instr cycles else ret tt.

Lemma step_body s :
  has_bit (CSRFile.read s.(csr_) CSR_MSTATUS) 3 = false -> s.(regs_).(halt) = false -> Emulator.step path s = body s.(regs_).(pc) (noted s).
Proof.
  intros Hb Hh. unfold Emulator.step. rewrite get_run, Hh.
  rewrite (bind_ok Emulator.service_interrupt _ s tt s), get_run.
  2: { unfold Emulator.service_interrupt. rewrite get_run.
       by rewrite (InterruptController.pending_interrupt_masked _ _ Hb). }
  cbv zeta. rewrite (bind_ok _ _ s tt (noted s)); [done|]. unfold noted. by destruct (verbose_ s).
Qed.

Lemma fetch_run s :
  emu_wf s -> bare s -> s.(regs_).(pc) < MMIO_BASE ->
  Emulator.fetch s =
    if s.(scratchpad_).(blen) <? s.(regs_).(pc) + 4 then (Throw (SramOutOfBounds s.(regs_).(pc) 4), s)
    else (Ok (mkInstruction (le_val (Buffer.peek s.(scratchpad_) s.(regs_).(pc) 4))), advanced s).
Proof.
  intros Hs Hb Hlow. unfold Emulator.fetch. rewrite get_run, (bare_mmu s Hb).
  destruct (wf_scratchpad s Hs) as [[_ Hlen] _]. destruct (RegisterFile.wf_pc _ (wf_regs s Hs)) as [Hp _].
  set (p := pc (regs_ s)) in *. unfold bind at 1. rewrite bus_read32_low by done.
  destruct (Z.ltb_spec (blen (scratchpad_ s)) (p + 4)).
  - by rewrite VirtualSRAM.read32_throws by (unfold MMIO_BASE in *; lia).
  - by rewrite VirtualSRAM.read32_ok by lia.
Qed.

(** After the instruction: the peripherals and the log. *)
Lemma finish_step p i c s :
  exists s', (do! modify Emulator.tick_peripherals in
    let! s := get in
    if s.(verbose_) then Emulator.log_step p i c else ret tt) s = (Ok tt, s') /\
    abs s' = abs s /\ (bare s -> bare s') /\ s'.(debugger_) = s.(debugger_) /\ s'.(shared_) = s.(shared_).
Proof.
  rewrite (bind_ok (modify Emulator.tick_peripherals) _ s tt _ eq_refl), get_run.
  destruct (tick_loop_same (Z.to_nat (tick_accum_ s / CYCLES_PER_TICK)) s) as (_ & Hm & Hc & _ & Hd).
  pose proof (tick_loop_abs (Z.to_nat (tick_accum_ s / CYCLES_PER_TICK)) s) as Ha.
  pose proof (tick_loop_shared (Z.to_nat (tick_accum_ s / CYCLES_PER_TICK)) s) as Hsh.
  fold (Emulator.tick_peripherals s) in *. set (s1 := Emulator.tick_peripherals s) in *.
  assert (Hlog : exists l, Emulator.log_step p i c s1 = (Ok tt, { s1 with stdout := l })).
  { unfold Emulator.log_step. rewrite get_run. by eexists. }
  destruct Hlog as [l Hlog]. destruct (verbose_ s1); [rewrite Hlog|];
    (eexists; split; [reflexivity|]; split; [exact Ha|]; split; [by apply bare_eq|]; split; [exact Hd|exact Hsh]).
Qed.

(** The machine that executes the instruction at the program counter. *)
Definition fetched (s : Emulator) : Emulator := advanced (noted s).
Lemma fetched_same s : emu_wf s -> bare s ->
  emu_wf (fetched s) /\ bare (fetched s) /\ abs (fetched s) = advance (abs s) /\
  (fetched s).(debugger_) = s.(debugger_) /\ (fetched s).(shared_) = s.(shared_).
Proof.
  intros Hs Hb. destruct (noted_same s Hs Hb) as (Hs1 & Hb1 & Ha1 & Hd1 & Hsh1).
  split; [apply put_regs_wf; [done|]; apply RegisterFile.set_pc_wf; [apply Hs1|apply u32_fits]|].
  split; [by apply (bare_eq (noted s))|]. split; [|done]. rewrite <- Ha1. reflexivity.
Qed.
(** The word fetched, or the error. *)
Lemma body_fetch s :
  emu_wf s -> bare s -> s.(regs_).(halt) = false -> s.(regs_).(pc) < MMIO_BASE ->
  body s.(regs_).(pc) (noted s) =
    if s.(scratchpad_).(blen) <? s.(regs_).(pc) + 4 then (Throw (SramOutOfBounds s.(regs_).(pc) 4), noted s)
    else let i := mkInstruction (le_val (Buffer.peek s.(scratchpad_) s.(regs_).(pc) 4)) in
      (let! cycles := Emulator.execute path i in
       do! modify Emulator.tick_peripherals in
       let! s' := get in
       if s'.(verbose_) then Emulator.log_step s.(regs_).(pc) i cycles else ret tt) (fetched s).
Proof.
  intros Hs Hb Hh Hlow. destruct (noted_same s Hs Hb) as (Hs1 & Hb1 & Ha1 & _).
  assert (Hr : regs_ (noted s) = regs_ s) by exact (f_equal a_regs Ha1).
  assert (Hm : scratchpad_ (noted s) = scratchpad_ s) by exact (f_equal a_mem Ha1).
  pose proof (fetch_run (noted s) Hs1 Hb1 ltac:(by rewrite Hr)) as Hf. rewrite Hr, Hm in Hf.
  unfold body. destruct (_ <? _); [unfold bind at 1; by rewrite Hf|]. by rewrite (bind_ok _ _ _ _ _ Hf).
Qed.
(** A step whose instruction completes. *)
Lemma step_completes s c s3 :
  emu_wf s -> bare s -> s.(regs_).(halt) = false -> s.(regs_).(pc) < MMIO_BASE ->
  s.(regs_).(pc) + 4 <= s.(scratchpad_).(blen) ->
  Emulator.execute path (mkInstruction (le_val (Buffer.peek s.(scratchpad_) s.(regs_).(pc) 4))) (fetched s) = (Ok c, s3) ->
  exists s', Emulator.step path s = (Ok tt, s') /\ abs s' = abs s3 /\ emu_wf s' /\ (bare s3 -> bare s') /\
    s'.(debugger_) = s3.(debugger_) /\ s'.(shared_) = s3.(shared_).
Proof.
  intros Hs Hb Hh Hlow Hin He. pose proof (step_body s (bare_mie s Hb) Hh) as Hst. rewrite body_fetch in Hst by done.
  destruct (Z.ltb_spec (blen (scratchpad_ s)) (pc (regs_ s) + 4)) as [|_]; [lia|]. cbv zeta in Hst.
  rewrite (bind_ok _ _ _ _ _ He) in Hst.
  destruct (finish_step (pc (regs_ s)) (mkInstruction (le_val (Buffer.peek s.(scratchpad_) s.(regs_).(pc) 4))) c s3)
    as (s' & Hfin & Ha & Hbb & Hdd & Hsh).
  rewrite Hfin in Hst. exists s'. split; [done|]. split; [done|]. split; [|done].
  pose proof (step_keeps path s Hs) as [Hk _]. by rewrite Hst in Hk.
Qed.

Lemma step_implements s :
  emu_wf s -> bare s ->
  match istep (abs s) with
  | Next a => exists s', Emulator.step path s = (Ok tt, s') /\ abs s' = a /\ emu_wf s' /\ kept s s'
  | Fault e a => exists s', Emulator.step path s = (Throw e, s') /\ abs s' = a
  | Halted => Emulator.step path s = (Ok tt, s)
  | Outside => True
  end.
Proof.
  intros Hs Hb. unfold istep. cbn [abs a_regs a_mem].
  destruct (halt (regs_ s)) eqn:Hh; [unfold Emulator.step; by rewrite get_run, Hh|].
  destruct (Z.leb_spec MMIO_BASE (pc (regs_ s))) as [|Hlow]; [done|].
  destruct (fetched_same s Hs Hb) as (Hs2 & Hb2 & Ha2 & Hd2 & _).
  pose proof (step_body s (bare_mie s Hb) Hh) as Hst. rewrite body_fetch in Hst by done.
  destruct (Z.ltb_spec (blen (scratchpad_ s)) (pc (regs_ s) + 4)) as [|Hin].
  { exists (noted s). split; [done|]. by apply noted_same. }
  set (raw := le_val _) in *. cbv zeta in Hst.
  pose proof (execute_implements raw (fetched s) Hs2 Hb2) as He. cbv zeta in He.
  destruct (opcode_of (Instruction.opcode (mkInstruction raw))).
  2: { exists (fetched s). split; [|exact Ha2]. rewrite Hst. unfold bind at 1. by rewrite He. }
  destruct (decode (mkInstruction raw)) as [ins|]; [|done]. destruct He as [He [Hb3 Hd3]].
  rewrite Ha2 in He. pose proof (exec_not_halted ins (advance (abs s))) as Hnh.
  destruct (exec ins (advance (abs s))) as [a|e a| |]; [| |done|done].
  - destruct He as (c & s3 & He & <-). rewrite He in Hb3, Hd3. cbn [snd] in Hb3, Hd3.
    destruct (step_completes s c s3 Hs Hb Hh Hlow Hin He) as (s' & H1 & H2 & H3 & H4 & H5 & _).
    exists s'. split; [done|]. split; [done|]. split; [done|]. split; [by apply H4|congruence].
  - destruct He as (s3 & He & <-). exists s3. split; [|done]. rewrite Hst. unfold bind at 1. by rewrite He.
Qed.
End Step.

(** ** Whole runs *)
Lemma halted_iff `{FloatOps} a : istep a = Halted <-> a.(a_regs).(halt) = true.
Proof.
  unfold istep. split; [|by intros ->]. destruct (halt (a_regs a)); [done|].
  destruct (MMIO_BASE <=? _); [done|]. destruct (_ <? _); [done|].
  destruct (opcode_of _); [|done]. destruct (decode _); [|done]. intros He. by apply exec_not_halted in He.
Qed.

Section Run.
Context `{FloatOps} (path : HostPath).

Definition unwatched (s : Emulator) : Prop := forall p, Debugger.has_breakpoint s.(debugger_) p = false.
Record ready (s : Emulator) : Prop := {
  ready_wf : emu_wf s; ready_bare : bare s; ready_unwatched : unwatched s }.

Lemma stopped_halted s : unwatched s -> Emulator.stopped s = s.(regs_).(halt).
Proof. intros Hu. unfold Emulator.stopped. by rewrite Hu, orb_false_r. Qed.

Lemma step_ready s a :
  ready s -> steps_to (abs s) a ->
  exists s', Emulator.step path s = (Ok tt, s') /\ abs s' = a /\ ready s'.
Proof.
  intros [Hs Hb Hu] Hst. pose proof (step_implements path s Hs Hb) as Hi. unfold steps_to in Hst.
  rewrite Hst in Hi. destruct Hi as (s' & H1 & H2 & H3 & H4 & H5). exists s'.
  split; [done|]. split; [done|]. split; [done|done|]. intros p. rewrite H5. apply Hu.
Qed.

(** Steps of the architecture are iterations of [run]'s loop. *)
Lemma run_loop_steps n s a :
  ready s -> nsteps steps_to n (abs s) a ->
  exists s1, abs s1 = a /\ ready s1 /\
    forall k, Emulator.run_loop path (n + k) s = Emulator.run_loop path k s1.
Proof.
  intros Hr. remember (abs s) as a0 eqn:Ha0. intros Hn. revert s Hr Ha0.
  induction Hn as [|n a0 a1 a Hst Hn IH]; intros s Hr ->; [by exists s|].
  destruct (step_ready s a1 Hr Hst) as (s1 & H1 & <- & Hr1).
  destruct (IH s1 Hr1 eq_refl) as (s2 & Ha2 & Hr2 & Hk). exists s2. split; [done|]. split; [done|].
  intros k. cbn [Nat.add Emulator.run_loop]. rewrite get_run, stopped_halted by apply Hr.
  assert (Hh : halt (regs_ s) = false).
  { apply not_true_is_false. intros Hh. apply (halted_iff (abs s)) in Hh. unfold steps_to in Hst. congruence. }
  by rewrite Hh, (bind_ok _ _ _ _ _ H1).
Qed.

(** What one iteration does at the end of those steps. *)
Lemma run_loop_halted k s : ready s -> istep (abs s) = Halted -> Emulator.run_loop path k s = (Ok true, s).
Proof.
  intros Hr Hh%halted_iff. cbn in Hh.
  destruct k; cbn [Emulator.run_loop]; by rewrite get_run, stopped_halted, Hh by apply Hr.
Qed.
Lemma run_loop_fault k s e a :
  ready s -> istep (abs s) = Fault e a ->
  exists s', Emulator.run_loop path (S k) s = (Throw e, s') /\ abs s' = a.
Proof.
  intros Hr Hf. pose proof (step_implements path s (ready_wf s Hr) (ready_bare s Hr)) as Hi. rewrite Hf in Hi.
  destruct Hi as (s' & Hs' & <-). exists s'. split; [|done]. cbn [Emulator.run_loop].
  rewrite get_run, stopped_halted by apply Hr.
  assert (Hh : halt (regs_ s) = false).
  { apply not_true_is_false. intros Hh. apply (halted_iff (abs s)) in Hh. congruence. }
  rewrite Hh. unfold bind. by rewrite Hs'.
Qed.

Lemma run_of_loop k s r s' :
  Emulator.run_loop path k s = (r, s') -> r <> Ok false ->
  exists s'', Emulator.run path k s = (r, s'') /\ abs s'' = abs s'.
Proof.
  intros Hl Hr. unfold Emulator.run, bind at 1. rewrite Hl.
  destruct r as [[]| |]; [|done|by eexists|by eexists].
  unfold Emulator.flush_uart, bind. destruct (UartDevice.flush (uart_ s')). by eexists.
Qed.

(** A loop that ended has followed the architecture as far as it is specified. *)
Lemma run_loop_follows k : forall s s',
  ready s -> Emulator.run_loop path k s = (Ok true, s') ->
  exists n b, (n <= k)%nat /\ nsteps steps_to n (abs s) b /\
    (istep b = Outside \/ istep b = Halted /\ abs s' = b).
Proof.
  induction k as [|k IH]; intros s s' Hr Hl; pose proof Hl as Hl'; cbn [Emulator.run_loop] in Hl;
    rewrite get_run, stopped_halted in Hl by apply Hr;
    (destruct (halt (regs_ s)) eqn:Hh;
      [injection Hl as <-; exists 0%nat, (abs s); split; [lia|]; split; [constructor|];
       right; split; [by apply halted_iff|done]|]); [done|].
  destruct (istep (abs s)) as [a|e a| |] eqn:Hi.
  - destruct (step_ready s a Hr Hi) as (s1 & H1 & <- & Hr1). rewrite (bind_ok _ _ _ _ _ H1) in Hl.
    destruct (IH s1 s' Hr1 Hl) as (n & b & Hn & Hsteps & Hb). exists (S n), b. split; [lia|].
    split; [by eapply nsteps_l|done].
  - destruct (run_loop_fault k s e a Hr Hi) as (s1 & He & _). congruence.
  - apply halted_iff in Hi. cbn in Hi. congruence.
  - exists 0%nat, (abs s). split; [lia|]. split; [constructor|by left].
Qed.
End Run.

(** ** Theorems *)

(** C3: one step implements the instruction set. From a well-formed machine
    without paging, enabled interrupts or trap vector, in silent or verbose
    mode: when the instruction at the program counter is defined by the
    architecture, [step] completes in the architectural state it prescribes,
    and the machine can be stepped again; when it prescribes an error (a fetch,
    an access, a transfer or a tile size out of range, an unknown opcode),
    [step] throws that very error with the prescribed registers and memories;
    a halted machine does nothing. *)
Theorem step_refines_isa `{FloatOps} path s :
  emu_wf s -> bare s ->
  match istep (abs s) with
  | Next a => exists s', Emulator.step path s = (Ok tt, s') /\ abs s' = a /\ emu_wf s' /\ bare s'
  | Fault e a => exists s', Emulator.step path s = (Throw e, s') /\ abs s' = a
  | Halted => Emulator.step path s = (Ok tt, s)
  | Outside => True
  end.
Proof.
  intros Hs Hb. pose proof (step_implements path s Hs Hb) as Hi.
  destruct (istep (abs s)); [|exact Hi..]. destruct Hi as (s' & H1 & H2 & H3 & H4 & _). by exists s'.
Qed.

(** C2: runs implement the instruction set. From such a machine without
    breakpoints: if the architecture halts after [n] instructions, [run] ends
    with any bound on its iterations of at least [n], in the same registers and
    memories; if it stops with an error after [n] instructions, [run] throws
    that error there; and conversely a run that ends has followed the
    architecture to a halt, or to a point the architecture leaves open. *)
Theorem run_refines_isa `{FloatOps} path s :
  ready s ->
  (forall n a fuel, nsteps steps_to n (abs s) a -> istep a = Halted -> (n <= fuel)%nat ->
     exists s', Emulator.run path fuel s = (Ok true, s') /\ abs s' = a) /\
  (forall n a e a' fuel, nsteps steps_to n (abs s) a -> istep a = Fault e a' -> (n < fuel)%nat ->
     exists s', Emulator.run path fuel s = (Throw e, s') /\ abs s' = a') /\
  (forall fuel s', Emulator.run path fuel s = (Ok true, s') ->
     exists n a, (n <= fuel)%nat /\ nsteps steps_to n (abs s) a /\
       (istep a = Outside \/ istep a = Halted /\ abs s' = a)).
Proof.
  intros Hr. split; [|split].
  - intros n a fuel Hn Hh Hle. destruct (run_loop_steps path n s a Hr Hn) as (s1 & <- & Hr1 & Hk).
    specialize (Hk (fuel - n)%nat). replace (n + (fuel - n))%nat with fuel in Hk by lia.
    rewrite (run_loop_halted path _ s1 Hr1 Hh) in Hk.
    by destruct (run_of_loop path _ _ _ _ Hk) as (s' & Hs' & <-); [|exists s'].
  - intros n a e a' fuel Hn Hf Hlt. destruct (run_loop_steps path n s a Hr Hn) as (s1 & <- & Hr1 & Hk).
    specialize (Hk (S (fuel - n - 1))). replace (n + S (fuel - n - 1))%nat with fuel in Hk by lia.
    destruct (run_loop_fault path (fuel - n - 1) s1 e a' Hr1 Hf) as (s2 & Hs2 & <-). rewrite Hs2 in Hk.
    by destruct (run_of_loop path _ _ _ _ Hk) as (s' & Hs' & <-); [|exists s'].
  - intros fuel s' Hrun. unfold Emulator.run in Hrun. unfold bind at 1 in Hrun.
    destruct (Emulator.run_loop path fuel s) as [[[]| |] s1] eqn:Hl; try done.
    destruct (run_loop_follows path fuel s s1 Hr Hl) as (n & a & Hn & Hst & Ha).
    exists n, a. split; [done|]. split; [done|]. destruct Ha as [|[Hh <-]]; [by left|right].
    split; [done|]. unfold Emulator.flush_uart, bind in Hrun.
    destruct (UartDevice.flush (uart_ s1)). by injection Hrun as <-.
Qed.

(** r1 = 5; r2 = r1 + r1; halt, on a new machine. *)
Definition tiny : Emulator :=
  (Emulator.load_program [enc.movi 1 5; enc.add 2 1 1; enc.halt] (Emulator.create 256 64)).2.
Lemma tiny_ready : ready tiny.
Proof.
  split; [|by split; vm_compute|done].
  apply load_program_keeps. apply create_wf; vm_compute; split; congruence.
Qed.

Lemma step_refines_isa_witness :
  exists s', Emulator.step PathScalar tiny = (Ok tt, s') /\ reg (abs s') 1 = 5.
Proof.
  pose proof (step_refines_isa PathScalar tiny (ready_wf _ tiny_ready) (ready_bare _ tiny_ready)) as Hst.
  assert (Hv : exists a, istep (abs tiny) = Next a /\ reg a 1 = 5) by (eexists; split; by vm_compute).
  destruct Hv as (a & Ha & Hv). rewrite Ha in Hst. destruct Hst as (s' & H1 & <- & _).
  exists s'. split; [exact H1|exact Hv].
Defined.

Lemma run_refines_isa_witness :
  exists s', Emulator.run PathScalar 3 tiny = (Ok true, s') /\ reg (abs s') 2 = 10.
Proof.
  destruct (run_refines_isa PathScalar tiny tiny_ready) as (Hhalt & _ & _).
  assert (Hn : exists a, nsteps steps_to 3 (abs tiny) a /\ istep a = Halted /\ reg a 2 = 10).
  { eexists. split; [do 3 (eapply nsteps_l; [by vm_compute|]); apply nsteps_O|]. split; by vm_compute. }
  destruct Hn as (a & Hn & Hh & Hv). destruct (Hhalt 3%nat a 3%nat Hn Hh ltac:(lia)) as (s' & H1 & <-).
  exists s'. split; [exact H1|exact Hv].
Defined.
