(* ===== verification/Replay.v ===== *)
(** * The fast loop and the instruction set

    [run_fast] replays decoded blocks.  Where [Fast] compares it with [run] on
    machines whose code stays put, here the condition is on the program alone:
    its run by the instruction set of [Arch] stays inside code it does not
    change.  Then [run_fast] implements that run. *)

From S2P Require Import Prelude Text Isa Memory Registers Interrupt Devices Bus Float Profiler Interconnect Target Host Mmu Translate Emulator EmulatorWf Execute Dma Traps Frame Safety Fast Arch.
#[local] Open Scope Z_scope.
Import ISA.

(** The program counter is a block below [L], and the memory up to there is
    that of [m0]. *)
Record in_code (m0 : buffer) (L : Z) (a : Arch) : Prop := {
  in_pc : 0 <= a.(a_regs).(pc) /\ a.(a_regs).(pc) + 128 <= L;
  in_len : a.(a_mem).(blen) = m0.(blen);
  in_bytes : forall k, 0 <= k < L -> Buffer.byte_at a.(a_mem) k = Buffer.byte_at m0 k }.
Definition code_step `{FloatOps} (m0 : buffer) (L : Z) (a a' : Arch) : Prop := in_code m0 L a /\ steps_to a a'.

Section Replay.
Context `{FloatOps} (path : HostPath) (m0 : buffer) (L : Z).

Lemma code_steps n a a' : nsteps (code_step m0 L) n a a' -> nsteps steps_to n a a'.
Proof using Type. induction 1 as [|n a a1 a' [_ Hst] _ IH]; [constructor|by eapply nsteps_l]. Qed.

(** Such a run is steady, in the sense of [Fast]. *)
Lemma code_steady n a a' :
  nsteps (code_step m0 L) n a a' -> istep a' = Halted -> forall s, ready s -> abs s = a -> steady_code path m0 L s.
Proof using Type.
  induction 1 as [a|n a a1 a' [Hin Hst] Hn IH]; intros Hh s Hr <- k s1 Hk Hrun.
  - apply halted_iff in Hh. cbn [abs a_regs] in Hh.
    assert (Hs : Emulator.stopped s = true) by (by rewrite stopped_halted by apply Hr).
    rewrite steps_stopped in Hk by exact Hs. injection Hk as <-. congruence.
  - destruct k as [|k].
    { injection Hk as <-. destruct Hin as [H1 H2 H3]. by split. }
    destruct (step_ready path s a1 Hr Hst) as (s2 & E & Ha & Hr2).
    assert (Hns : Emulator.stopped s = false).
    { rewrite stopped_halted by apply Hr. apply not_true_is_false. intros Hx. apply (halted_iff (abs s)) in Hx.
      unfold steps_to in Hst. congruence. }
    rewrite steps_next, E in Hk by (by rewrite ?E). exact (IH Hh s2 Hr2 Ha k s1 Hk Hrun).
Qed.
End Replay.

(** C8: the fast loop implements the instruction set. From a machine in
    silent mode without paging, enabled interrupts, trap vector or breakpoints,
    whose cached blocks, if any, agree with its code: if the program's run by the instruction
    set halts after [n] instructions, and before each of them the program
    counter is at least a block (128 bytes) below [L] and the memory below [L]
    as at the start, then [run_fast] ends with any bound on its blocks of at
    least [n], in the same registers and memories. *)
Theorem run_fast_implements_isa `{FloatOps} path L s n a fuel :
  ready s -> s.(verbose_) = false -> L <= MMIO_BASE -> L <= s.(scratchpad_).(blen) ->
  cache_ok s.(scratchpad_) L s.(block_cache_) ->
  nsteps (code_step s.(scratchpad_) L) n (abs s) a -> istep a = Halted -> (n <= fuel)%nat ->
  exists s', Emulator.run_fast path fuel s = (Ok true, s') /\ abs s' = a.
Proof.
  intros Hr Hv HL Hlen Hc Hn Hh Hle.
  destruct (run_loop_steps path n s a Hr (code_steps _ _ _ _ _ Hn)) as (s1 & <- & Hr1 & Hk).
  specialize (Hk (fuel - n)%nat). replace (n + (fuel - n))%nat with fuel in Hk by lia.
  rewrite (run_loop_halted path _ s1 Hr1 Hh) in Hk.
  destruct (run_of_loop path _ _ _ _ Hk) as (s2 & Hrun & Ha); [done|].
  assert (Hq : quiet s) by (destruct Hr as [_ [? ? ?] _]; by split).
  destruct (run_fast_sim path s.(scratchpad_) L s fuel _ s2 HL Hlen Hq
    (code_steady path _ _ n _ _ Hn Hh s Hr eq_refl) Hc Hrun) as (c & Hf); [done|].
  eexists. split; [exact Hf|exact Ha].
Qed.

Lemma run_fast_implements_isa_witness :
  exists s', Emulator.run_fast PathScalar 3 tiny = (Ok true, s') /\ reg (abs s') 2 = 10.
Proof.
  assert (Hn : exists a, nsteps (code_step tiny.(scratchpad_) 256) 3 (abs tiny) a /\ istep a = Halted /\ reg a 2 = 10).
  { eexists. split.
    - do 3 (eapply nsteps_l; [split; [|by vm_compute]; split; [vm_compute; split; congruence|done|done]|]). apply nsteps_O.
    - split; by vm_compute. }
  destruct Hn as (a & Hn & Hh & Hv).
  destruct (run_fast_implements_isa PathScalar 256 tiny 3 a 3 tiny_ready eq_refl) as (s' & H1 & <-);
    [vm_compute; congruence|vm_compute; congruence| |exact Hn|exact Hh|lia|].
  - intros p b _ _ Hb. vm_compute in Hb. discriminate Hb.
  - exists s'. split; [exact H1|exact Hv].
Defined.
