(* ===== verification/Protect.v ===== *)
(** * Memory protection

    What a program in user mode can change with paging on: the bytes of the
    pages its page table lets it write, provided it uses no vector store and no
    access that crosses a page.  Both provisos are needed: STORE_VR is not
    translated, and only the first byte of an access is. *)

From S2P Require Import Prelude Text Isa Memory Registers Interrupt Devices Bus Float Profiler Interconnect Target Host Mmu Translate Emulator EmulatorWf Execute Dma Traps Effects Paging Frame Safety Fast Arch.
#[local] Open Scope Z_scope.

(** ** What one instruction writes *)

(** Only the [n] bytes from [lo] differ. *)
Definition only (lo n : Z) (b b' : buffer) : Prop :=
  b'.(blen) = b.(blen) /\ forall k, k < lo \/ lo + n <= k -> Buffer.byte_at b' k = Buffer.byte_at b k.
Lemma only_refl lo n b : only lo n b b.
Proof. done. Qed.
Lemma only_poke lo n b b' l : zlen l <= n -> only lo n b b' -> only lo n b (Buffer.poke b' lo l).
Proof.
  intros Hl [H1 H2]. split; [done|]. intros k Hk. rewrite Buffer.byte_at_poke_out by lia. by apply H2.
Qed.

(** The control state is that of [s0], and so are both memories outside the
    [n] bytes from [lo]. *)
Record writes (lo n : Z) (s0 s : Emulator) : Prop := {
  writes_mmu : s.(mmu_) = s0.(mmu_);
  writes_csr : s.(csr_) = s0.(csr_);
  writes_mem : only lo n s0.(scratchpad_) s.(scratchpad_);
  writes_ram : only lo n s0.(main_ram_) s.(main_ram_);
  writes_debugger : s.(debugger_) = s0.(debugger_) }.
Lemma writes_refl lo n s : writes lo n s s.
Proof. by split. Qed.
Lemma writes_same lo n s0 s s' :
  mmu_ s' = mmu_ s -> csr_ s' = csr_ s -> scratchpad_ s' = scratchpad_ s -> main_ram_ s' = main_ram_ s ->
  debugger_ s' = debugger_ s -> writes lo n s0 s -> writes lo n s0 s'.
Proof. intros E1 E2 E3 E4 E5 [H1 H2 H3 H4 H5]. split; congruence. Qed.

Lemma writes_mem_poke lo n s0 s l :
  zlen l <= n -> writes lo n s0 s -> writes lo n s0 (Emulator.put_scratchpad (Buffer.poke s.(scratchpad_) lo l) s).
Proof. intros Hl [H1 H2 H3 H4 H5]. split; [exact H1|exact H2|by apply only_poke|exact H4|exact H5]. Qed.
Lemma writes_ram_poke lo n s0 s l :
  zlen l <= n -> writes lo n s0 s -> writes lo n s0 (Emulator.put_main_ram (Buffer.poke s.(main_ram_) lo l) s).
Proof. intros Hl [H1 H2 H3 H4 H5]. split; [exact H1|exact H2|exact H3|by apply only_poke|exact H5]. Qed.

#[export] Instance writes_closed lo n s0 : Closed (writes lo n s0).
Proof. split; intros ? s Hs; by apply (writes_same _ _ _ s). Qed.

Notation keepsW lo n s0 m := (keeps (writes lo n s0) m (fun _ => True)).

Section Handlers.
Context `{FloatOps} (path : HostPath) (lo : Z) (s0 : Emulator).

(** A store at [lo], and a copy to it. *)
Lemma w_bus_write32 v : keepsW lo 4 s0 (Emulator.bus_write32 lo v).
Proof.
  unfold Emulator.bus_write32. eapply keeps_bind; [apply keeps_get|]. intros s1 _.
  destruct (bus_cases (shared_ s1) lo) as [[_ ->]|[[_ ->]|[(m & _ & _ & _ & ->)|[_ ->]]]].
  - apply keeps_modify; intros s Hs; by apply (writes_same _ _ _ s).
  - intros s Hs. split; [|done]. unfold Emulator.uart_write.
    destruct (UartDevice.write_reg _ _ _) as [u l]. by apply (writes_same _ _ _ s).
  - unfold Emulator.window_write. case_match; [apply keeps_modify; intros s Hs; by apply (writes_same _ _ _ s)|apply keeps_undef].
  - intros s Hs. split; [|done]. unfold zoom, VirtualSRAM.write32, VirtualSRAM.write_bytes.
    destruct (VirtualSRAM.check_bounds _ _ _); [destruct (Buffer.in_range _ _ _)|]; cbn [snd];
      first [by apply (writes_same _ _ _ s)|by apply writes_mem_poke].
Qed.
Lemma peek_zlen (b : buffer) a n : 0 <= n -> zlen (Buffer.peek b a (Z.to_nat n)) <= n.
Proof. intros Hn. unfold zlen. rewrite Buffer.peek_length. lia. Qed.
Lemma w_copy_in sr n : 0 <= n -> keepsW lo n s0 (Emulator.copy_to_scratchpad lo sr n).
Proof.
  intros Hn s Hs. unfold Emulator.copy_to_scratchpad. rewrite get_run. split; [|done].
  case_match; [|exact Hs]. apply writes_mem_poke; [by apply peek_zlen|exact Hs].
Qed.
Lemma w_copy_out sr n : 0 <= n -> keepsW lo n s0 (Emulator.copy_to_main_ram lo sr n).
Proof.
  intros Hn s Hs. unfold Emulator.copy_to_main_ram. rewrite get_run. split; [|done].
  case_match; [|exact Hs]. apply writes_ram_poke; [by apply peek_zlen|exact Hs].
Qed.

(** The rest of the memory instructions, once the address is translated. *)
Lemma w_store_at i : keepsW lo 4 s0 (store_at i lo).
Proof. unfold store_at. do 2 (e_step; [e_step|]). e_step; [apply w_bus_write32|e_step]. Qed.
Lemma w_dma_at load i sr : keepsW lo (Instruction.func i) s0 (dma_at load i lo sr).
Proof.
  pose proof (Instruction.func_range i) as Hf.
  destruct load; cbn [dma_at]; [unfold dma_load_at|unfold dma_store_at]; repeat first
    [apply w_copy_in; lia|apply w_copy_out; lia|e_step].
Qed.
End Handlers.

(** ** Instructions with paging on *)

(** The virtual address an instruction writes at, and how many bytes. *)
Definition target (i : Instruction) (s : Emulator) : Z :=
  let r k := default 0 (RegisterFile.read_gpr s.(regs_) k) in
  if Instruction.opcode i =? code STORE then u32 (r (Instruction.ra i) + Instruction.simm16 i)
  else r (Instruction.rd i).
Definition span (i : Instruction) : Z :=
  if Instruction.opcode i =? code STORE then 4
  else if Emulator.is_dma (Instruction.opcode i) then Instruction.func i else 0.

(** It enters the trap handler, or goes on after translations that leave the
    TLB in agreement with the page table. *)
Definition trapped_clean (s s' : Emulator) : Prop :=
  priv s'.(csr_) = Machine /\ s'.(scratchpad_) = s.(scratchpad_) /\ s'.(main_ram_) = s.(main_ram_).
Definition wrote (i : Instruction) (s s' : Emulator) : Prop :=
  exists m lo, paged (Emulator.put_mmu m s) /\ writes lo (span i) (Emulator.put_mmu m s) s' /\
    (0 < span i -> page_of s (target i s) true false = Some lo).

Lemma trapped_faulted c a va s s' : page_faulted c a va s s' -> trapped_clean s s'.
Proof. intros (H1 & _ & _ & _ & _ & _ & H2 & H3). by split. Qed.

Section Paged.
Context `{FloatOps} (path : HostPath) (i : Instruction) (s s' : Emulator) (c : Z).
Context (Hs : emu_wf s) (Hp : paged s).

Lemma paged_self : paged (Emulator.put_mmu s.(mmu_) s).
Proof using Hp. destruct Hp. by split. Qed.

(** The state a normal end leaves. *)
Lemma keeps_end lo n s1 (m : M Emulator Z) :
  keepsW lo n s1 m -> m s1 = (Ok c, s') -> writes lo n s1 s'.
Proof using Type. intros Hm E. pose proof (Hm s1 (writes_refl lo n s1)) as [Hw _]. by rewrite E in Hw. Qed.

Lemma read_gpr_ok k b t t' : Emulator.read_gpr k t = (Ok b, t') -> t' = t /\ RegisterFile.read_gpr t.(regs_) k = Some b.
Proof using Type.
  unfold Emulator.read_gpr. rewrite get_run. by destruct (RegisterFile.read_gpr _ _) as [x|]; [intros [= -> ->]|].
Qed.
Lemma handler_access (st : bool) :
  Instruction.opcode i = code (if st then STORE else LOAD) ->
  (if st then Emulator.op_store else Emulator.op_load) i s = (Ok c, s') -> trapped_clean s s' \/ wrote i s s'.
Proof using Hs Hp.
  intros Ho E. assert (exists base, RegisterFile.read_gpr s.(regs_) (Instruction.ra i) = Some base) as [base Hb].
  { assert (exists va s1, Emulator.effective_address i s = (Ok va, s1)) as (va & s1 & E1).
    { destruct st; apply bind_inv in E as (va & s1 & E1 & _); by exists va, s1. }
    apply bind_inv in E1 as (b & s2 & E2 & _). exists b. by destruct (read_gpr_ok _ _ _ _ E2). }
  destruct (op_access_run st i base s Hs Hp Hb) as (m & Hm & Hp' & Hop).
  rewrite E in Hop.
  destruct (page_of s _ st false) as [pa|] eqn:Hpage.
  2: { destruct Hop as (s1 & [= _ ->] & Hf). left. by eapply trapped_faulted. }
  right. exists m, pa. split; [done|]. unfold span, target. rewrite Ho. destruct st.
  - split; [by apply (keeps_end pa 4 _ (store_at i pa)); [apply w_store_at|]|]. intros _. by rewrite Hb.
  - split; [by apply (keeps_end pa 0 _ (load_at i pa)); [apply e_load_at, _|]|]. done.
Qed.
Lemma handler_dma (load : bool) :
  Instruction.opcode i = code (if load then DMA_LOAD else DMA_STORE) ->
  op_dma load i s = (Ok c, s') -> trapped_clean s s' \/ wrote i s s'.
Proof using Hs Hp.
  intros Ho E.
  assert (exists d0 sr0, RegisterFile.read_gpr s.(regs_) (Instruction.rd i) = Some d0 /\
    RegisterFile.read_gpr s.(regs_) (Instruction.ra i) = Some sr0) as (d0 & sr0 & Hd & Hsr).
  { destruct load; apply bind_inv in E as (d0 & s1 & E1 & E); apply bind_inv in E as (sr0 & s2 & E2 & _);
      apply read_gpr_ok in E1 as [-> E1]; apply read_gpr_ok in E2 as [_ E2]; by exists d0, sr0. }
  rewrite (op_dma_at load i d0 sr0 s Hd Hsr) in E.
  destruct (dma_addresses_run s d0 sr0 (dma_kind load) Hs Hp) as (m & Hm & Hp' & Hrun). cbv zeta in Hrun.
  assert (Hspan : span i = Instruction.func i) by (unfold span; rewrite Ho; by destruct load).
  assert (Htarget : target i s = d0) by (unfold target; rewrite Ho, Hd; by destruct load).
  destruct (page_of s d0 true false) as [d|] eqn:Hpd; [destruct (page_of s sr0 false false) as [sr|]|].
  - right. exists m, d. rewrite Hspan, Htarget, Hpd. rewrite (bind_ok _ _ _ _ _ Hrun) in E.
    split; [done|]. split; [|done]. apply (keeps_end d _ _ (dma_at load i d sr)); [apply w_dma_at|exact E].
  - left. destruct Hrun as (s1 & Hrun & Hf). rewrite (bind_ok _ _ _ _ _ Hrun) in E. injection E as _ <-.
    by eapply trapped_faulted.
  - left. destruct Hrun as (s1 & Hrun & Hf). rewrite (bind_ok _ _ _ _ _ Hrun) in E. injection E as _ <-.
    by eapply trapped_faulted.
Qed.

(** Every instruction but the vector store. *)
Lemma handler_paged h :
  Instruction.opcode i <> code STORE_VR -> Emulator.dispatch_table_ path (Instruction.opcode i) = Some h ->
  h i s = (Ok c, s') -> trapped_clean s s' \/ wrote i s s'.
Proof using Hs Hp.
  intros Hn Hd E. destruct (opcode_of (Instruction.opcode i)) as [o|] eqn:Ho.
  2: { unfold Emulator.dispatch_table_ in Hd. by rewrite Ho in Hd. }
  apply opcode_of_Some in Ho. destruct (pure_op o) eqn:Hpure.
  - right. exists s.(mmu_), 0. split; [apply paged_self|].
    assert (Hz : span i = 0) by (unfold span; rewrite Ho; by destruct o).
    rewrite Hz. split; [|done]. rewrite Ho in Hd.
    apply (writes_same 0 0 _ s'); [done..|]. pose proof (keeps_end 0 0 s (h i) (e_pure _ path o h i Hpure Hd) E) as [].
    by split.
  - assert (Hdo : Emulator.dispatch_table_ path (code o) = Some h) by by rewrite <- Ho.
    unfold Emulator.dispatch_table_ in Hdo. rewrite opcode_of_code in Hdo.
    destruct o; try done; injection Hdo as <-.
    + exact (handler_access false Ho E).
    + exact (handler_access true Ho E).
    + exact (handler_dma true Ho E).
    + exact (handler_dma false Ho E).
Qed.
End Paged.

Lemma execute_paged `{FloatOps} path i s s' c :
  emu_wf s -> paged s -> Instruction.opcode i <> code STORE_VR -> Emulator.execute path i s = (Ok c, s') ->
  trapped_clean s s' \/ wrote i s s'.
Proof.
  intros Hs Hp Hn E.
  destruct (Emulator.dispatch_table_ path (Instruction.opcode i)) as [h|] eqn:Hd.
  - destruct (h i s) as [r s1] eqn:E1. assert (exists c1, r = Ok c1) as [c1 ->].
    { destruct r as [c1|e|u]; [by exists c1|..];
        destruct (execute_fail path i h s _ s1 Hd E1) as (r' & Hr & ->); done || by rewrite E in Hr. }
    rewrite (execute_run path i h s c1 s1 Hd E1) in E. apply (f_equal snd) in E. cbn [snd] in E. rewrite <- E.
    destruct (handler_paged path i s s1 c1 Hs Hp h Hn Hd E1) as [Ht|(m & lo & Hm & Hw & Hl)]; [by left|right].
    exists m, lo. split; [done|]. split; [by apply (writes_same _ _ _ s1)|done].
  - left. unfold Emulator.execute in E. rewrite Hd in E.
    rewrite (bind_ok Emulator.prev_pc _ s (u32 (s.(regs_).(pc) - 4)) _ eq_refl), get_run in E.
    destruct (negb _); [|done].
    destruct (fault_run (InterruptController.illegal_inst_trap (u32 (pc (regs_ s) - 4)) (raw i)) s (mmu_ s) Hs eq_refl)
      as (s1 & Hf & Hpf).
    assert (Hself : Emulator.put_mmu (mmu_ s) s = s) by (clear; destruct s; reflexivity).
    rewrite Hself in Hf.
    rewrite (bind_ok _ _ _ _ _ Hf) in E. injection E as _ <-. by eapply trapped_faulted.
Qed.

(** ** The bytes a program may write *)

(** Some virtual address that the walk maps for writing, at the privilege of
    the machine, has the physical address [k]. *)
Definition may_write (s : Emulator) (k : Z) : Prop := exists va, page_of s va true false = Some k.

(** The virtual addresses of a page are mapped to consecutive bytes. *)
Lemma leaf_pa_add raw va d :
  0 <= d -> MMU.page_offset va + d < PAGE_SIZE ->
  leaf_pa raw (va + d) = leaf_pa raw va + d /\ MMU.vpn_of (va + d) = MMU.vpn_of va.
Proof.
  unfold leaf_pa, MMU.page_offset, MMU.vpn_of, PAGE_SIZE, PAGE_SHIFT. intros Hd Hp.
  change (4096 - 1) with (Z.ones 12) in *. rewrite !Z.land_ones in * by lia.
  rewrite Z.shiftl_mul_pow2, !Z.shiftr_div_pow2 by lia. unfold u64.
  change (2 ^ 64) with (2 ^ 52 * 2 ^ 12). rewrite Z.mul_mod_distr_r by lia.
  set (x := _ mod 2 ^ 52). rewrite !lor_pack by (unfold fits; first [lia|apply Z.mod_pos_bound; lia]).
  unfold u32. change (2 ^ 12) with 4096 in *. change (2 ^ 32) with 4294967296.
  split; Z.div_mod_to_equations; lia.
Qed.

(** *** The page table itself *)
Fixpoint walk_reads (ram : VirtualSRAM) (va : Z) (level : nat) (table : Z) : list Z :=
  let a := MMU.pte_addr table va level in
  let raw := le_val (Buffer.peek ram (u32 a) 8) in
  if u64 (a + 8) >? ram.(blen) then []
  else u32 a ::
    match level with
    | O => []
    | S level =>
        if PageTableEntry.valid raw && negb (PageTableEntry.is_leaf raw)
        then walk_reads ram va level (PageTableEntry.ppn raw) else []
    end.
(** The bytes of the entries that the walk of some address reads. *)
Definition table_byte (s : Emulator) (k : Z) : Prop :=
  exists va a, a ∈ walk_reads s.(scratchpad_) va 2 (MMU.root_ppn s.(csr_)) /\ a <= k < a + 8.

Lemma walk_reads_same ram ram' csr va w f level : forall table,
  ram'.(blen) = ram.(blen) ->
  (forall a, a ∈ walk_reads ram va level table -> Buffer.peek ram' a 8 = Buffer.peek ram a 8) ->
  walk_reads ram' va level table = walk_reads ram va level table /\
  MMU.walk_from ram' csr va w f level table = MMU.walk_from ram csr va w f level table.
Proof.
  induction level as [|level IH]; intros table Hl; unfold MMU.walk_from; fold MMU.walk_from; cbn [walk_reads];
    rewrite Hl; (destruct (_ >? _); [done|]); intros Hp; rewrite (Hp (u32 _)) by left; [done|].
  destruct (PageTableEntry.valid _); cbn [negb andb] in *; [|done].
  destruct (PageTableEntry.is_leaf _); cbn [negb andb] in *; [done|].
  destruct (IH (PageTableEntry.ppn (le_val (Buffer.peek ram (u32 (MMU.pte_addr table va (S level))) 8))) Hl) as [-> ->]; [|done].
  intros a Ha. apply Hp. by right.
Qed.

(** Memory is as it was where the program may not write. *)
Record unchanged (s s' : Emulator) : Prop := {
  unchanged_len : s'.(scratchpad_).(blen) = s.(scratchpad_).(blen);
  unchanged_mem k : ~ may_write s k -> Buffer.byte_at s'.(scratchpad_) k = Buffer.byte_at s.(scratchpad_) k;
  unchanged_ram k : ~ may_write s k -> Buffer.byte_at s'.(main_ram_) k = Buffer.byte_at s.(main_ram_) k }.
Lemma unchanged_refl s : unchanged s s.
Proof. by split. Qed.

(** Then the page table is as it was, if the program may not write it. *)
Definition table_protected (s : Emulator) : Prop := forall k, table_byte s k -> ~ may_write s k.
Section Table.
Context (s s' : Emulator) (Hu : unchanged s s') (Ht : table_protected s).

Lemma table_same csr va w f :
  CSRFile.satp csr = CSRFile.satp s.(csr_) ->
  walk_reads s'.(scratchpad_) va 2 (MMU.root_ppn csr) = walk_reads s.(scratchpad_) va 2 (MMU.root_ppn csr) /\
  MMU.walk_result_of (Some s'.(scratchpad_)) (Some csr) va w f =
  MMU.walk_result_of (Some s.(scratchpad_)) (Some csr) va w f.
Proof using All.
  intros Hs. unfold MMU.walk_result_of. apply walk_reads_same; [apply Hu|].
  intros a Ha. apply Buffer.peek_ext. intros j Hj. apply (unchanged_mem _ _ Hu). apply Ht.
  exists va, a. split; [|lia]. unfold MMU.root_ppn in *. by rewrite <- Hs.
Qed.
Lemma page_of_same va w f : csr_ s' = csr_ s -> page_of s' va w f = page_of s va w f.
Proof using All.
  intros Hc. unfold page_of, walk_answer. rewrite Hc. by rewrite (proj2 (table_same (csr_ s) va w f eq_refl)).
Qed.
Lemma may_write_same k : csr_ s' = csr_ s -> may_write s' k <-> may_write s k.
Proof using All. intros Hc. unfold may_write. split; intros [va Hva]; exists va; by rewrite page_of_same in *. Qed.
Lemma table_protected_same : csr_ s' = csr_ s -> table_protected s'.
Proof using All.
  intros Hc k (va & a & Ha & Hk) Hw. apply (may_write_same k Hc) in Hw. apply (Ht k); [|done].
  exists va, a. rewrite Hc, (proj1 (table_same (csr_ s) va false false eq_refl)) in Ha. by split.
Qed.
Lemma coherent_same m : coherent s.(scratchpad_) s.(csr_) m -> coherent s'.(scratchpad_) s.(csr_) m.
Proof using All.
  intros Hc. eapply Forall_impl; [exact Hc|]. intros e He Hv Ha va w f Hwf Hvpn Hp.
  rewrite (proj2 (table_same (csr_ s) va w f eq_refl)). by apply He.
Qed.
End Table.

(** ** Instructions and steps that stay inside *)

(** No vector store, and no store or transfer that crosses a page. *)
Definition tame (i : Instruction) (s : Emulator) : bool :=
  negb (Instruction.opcode i =? code STORE_VR) &&
  (MMU.page_offset (target i s) + span i <=? PAGE_SIZE).

Lemma page_of_add s va w f pa d :
  page_of s va w f = Some pa -> 0 <= d -> MMU.page_offset va + d < PAGE_SIZE ->
  page_of s (va + d) w f = Some (pa + d).
Proof.
  unfold page_of, walk_answer, MMU.walk_result_of. intros Hpa Hd Hoff.
  destruct (MMU.walk_from _ _ va _ _ _ _) as [pa0 e|] eqn:Hw; [|done]. injection Hpa as ->.
  apply walk_from_mapped in Hw as (raw & Hl & Ha & -> & ->).
  destruct (leaf_pa_add raw va d Hd Hoff) as [Hadd Hvpn].
  rewrite (proj2 (walk_from_mapped _ _ (va + d) w f 2 _ (leaf_pa raw (va + d)) (leaf_entry (csr_ s) raw (va + d)))).
  - by rewrite <- Hadd.
  - exists raw. split; [by apply (pt_leaf_page (scratchpad_ s) va)|done].
Qed.

Lemma wrote_unchanged i s s' : tame i s = true -> wrote i s s' -> unchanged s s'.
Proof.
  intros [_ Ht%Z.leb_le]%andb_true_iff (m & lo & _ & [_ _ [Hl1 Hm] [_ Hr] _] & Hlo).
  assert (Hin : forall k, lo <= k < lo + span i -> may_write s k).
  { intros k Hk. exists (target i s + (k - lo)). replace k with (lo + (k - lo)) at 2 by lia.
    apply page_of_add; [apply Hlo; lia|lia|lia]. }
  assert (Hout : forall k, ~ may_write s k -> k < lo \/ lo + span i <= k).
  { intros k Hk. destruct (decide (lo <= k < lo + span i)) as [Hk'|]; [by destruct Hk; apply Hin|lia]. }
  split; [exact Hl1|intros k Hk; by apply Hm, Hout|intros k Hk; by apply Hr, Hout].
Qed.
Lemma trapped_unchanged s s' : trapped_clean s s' -> unchanged s s'.
Proof. intros (_ & H1 & H2). split; [by rewrite H1|intros; by rewrite H1|intros; by rewrite H2]. Qed.

(** The instruction at the program counter is tame. *)
Definition tame_at (s : Emulator) : bool :=
  match page_of s s.(regs_).(pc) false true with
  | Some pa => tame (mkInstruction (le_val (Buffer.peek s.(scratchpad_) pa 4))) s
  | None => true
  end.

(** A program under a page table that it may not write, with interrupts off. *)
Record guest (s : Emulator) : Prop := {
  guest_wf : emu_wf s;
  guest_paged : paged s;
  guest_mie : has_bit (CSRFile.read s.(csr_) CSR_MSTATUS) 3 = false;
  guest_table : table_protected s }.

Section Step.
Context `{FloatOps} (path : HostPath).

Lemma nop_same s c s' :
  Emulator.execute path (mkInstruction enc.nop) s = (Ok c, s') ->
  csr_ s' = csr_ s /\ scratchpad_ s' = scratchpad_ s /\ main_ram_ s' = main_ram_ s.
Proof using Type. intros E. apply (f_equal snd) in E. cbn [snd] in E. by rewrite <- E. Qed.

(** What follows the instruction leaves memory, MMU and CSRs alone. *)
Lemma finish_same p i c s s' :
  (do! modify Emulator.tick_peripherals in
   let! s := get in
   if s.(verbose_) then Emulator.log_step p i c else ret tt) s = (Ok tt, s') ->
  mmu_ s' = mmu_ s /\ csr_ s' = csr_ s /\ scratchpad_ s' = scratchpad_ s /\ main_ram_ s' = main_ram_ s.
Proof using Type.
  rewrite (bind_ok (modify Emulator.tick_peripherals) _ s tt _ eq_refl), get_run.
  destruct (tick_loop_same (Z.to_nat (tick_accum_ s / CYCLES_PER_TICK)) s) as (_ & Hm & Hc & _ & _).
  pose proof (tick_loop_abs (Z.to_nat (tick_accum_ s / CYCLES_PER_TICK)) s) as Ha.
  fold (Emulator.tick_peripherals s) in *. set (s1 := Emulator.tick_peripherals s) in *.
  pose proof (f_equal a_mem Ha) as H1. pose proof (f_equal a_ram Ha) as H2. cbn [abs a_mem a_ram] in H1, H2.
  destruct (verbose_ s1); intros E; apply (f_equal snd) in E; cbn [snd] in E; rewrite <- E; by repeat split.
Qed.

(** After a fetch the same addresses are mapped and the same registers hold. *)
Lemma fetch_guest s i s1 :
  guest s -> Emulator.fetch s = (Ok i, s1) ->
  (trapped_clean s s1 /\ i = mkInstruction enc.nop) \/
  (exists pa, page_of s s.(regs_).(pc) false true = Some pa /\
     i = mkInstruction (le_val (Buffer.peek s.(scratchpad_) pa 4)) /\ emu_wf s1 /\ paged s1 /\
     s1.(scratchpad_) = s.(scratchpad_) /\ s1.(main_ram_) = s.(main_ram_) /\ s1.(csr_) = s.(csr_) /\
     target i s1 = target i s).
Proof using Type.
  intros [Hs Hp _ _] E. pose proof (fetch_paged s Hs Hp) as Hf. cbv zeta in Hf.
  pose proof (fetch_keeps s Hs) as [Hk _]. rewrite E in Hk. cbn [snd] in Hk.
  destruct (page_of s _ false true) as [pa|].
  - right. destruct (Buffer.in_range _ _ _); destruct Hf as (s2 & Hf); [|congruence].
    destruct Hf as (Hf & Hr & Hm & Hram & Hc & Hp2). rewrite E in Hf. injection Hf as -> ->.
    exists pa. split; [done|]. split; [done|]. repeat (split; [done|]). unfold target. by rewrite Hr.
  - left. destruct Hf as (s2 & Hf & Hpf). rewrite E in Hf. injection Hf as -> ->.
    split; [by eapply trapped_faulted|done].
Qed.

(** The instruction a step executes. *)
Lemma execute_guest s i c s1 s2 :
  guest s -> tame_at s = true -> Emulator.fetch s = (Ok i, s1) -> Emulator.execute path i s1 = (Ok c, s2) ->
  trapped_clean s s2 \/
  (unchanged s s2 /\ csr_ s2 = csr_ s /\ MMU.enabled s2.(mmu_) = true /\
   coherent s.(scratchpad_) s.(csr_) s2.(mmu_)).
Proof using Type.
  intros Hg Ht Hf He. destruct (fetch_guest s i s1 Hg Hf) as [[(H1 & H2 & H3) ->]|(pa & Hpa & Hi & Hs1 & Hp1 & Hm & Hr & Hc & Htg)].
  - left. destruct (nop_same s1 c s2 He) as (E1 & E2 & E3). split; [by rewrite E1|]. split; congruence.
  - unfold tame_at in Ht. rewrite Hpa, <- Hi in Ht.
    assert (Ht1 : tame i s1 = true) by (unfold tame in *; by rewrite Htg).
    assert (Hn : Instruction.opcode i <> code STORE_VR).
    { intros E. unfold tame in Ht. by rewrite E, Z.eqb_refl in Ht. }
    assert (Hw : forall k, may_write s1 k <-> may_write s k).
    { intros k. unfold may_write, page_of. by rewrite Hm, Hc. }
    destruct (execute_paged path i s1 s2 c Hs1 Hp1 Hn He) as [(H1 & H2 & H3)|Hwr].
    { left. split; [done|]. split; congruence. }
    right. destruct (wrote_unchanged i s1 s2 Ht1 Hwr) as [U1 U2 U3].
    split.
    { split; [by rewrite U1, Hm|intros k Hk; rewrite U2, Hm by (by rewrite Hw)|intros k Hk; rewrite U3, Hr by (by rewrite Hw)]; done. }
    destruct Hwr as (m & lo & [P1 P2 P3] & [W1 W2 _ _ _] & _). rewrite W1, W2.
    split; [exact Hc|]. split; [exact P1|]. by rewrite <- Hm, <- Hc.
Qed.

Lemma noted_guest s :
  guest s -> tame_at s = true ->
  guest (noted s) /\ tame_at (noted s) = true /\ csr_ (noted s) = csr_ s /\
  (forall s2, unchanged (noted s) s2 -> unchanged s s2).
Proof using Type.
  intros Hg Ht. unfold noted. destruct (verbose_ s); [|done]. destruct Hg as [H1 [H2 H3 H4] H5 H6].
  split; [split; [by apply put_last_wf|by split|exact H5|exact H6]|].
  split; [exact Ht|]. split; [done|]. intros s2 [U1 U2 U3]. by split.
Qed.

Lemma guest_step s s' :
  guest s -> tame_at s = true -> Emulator.step path s = (Ok tt, s') ->
  unchanged s s' /\ (priv s'.(csr_) = Machine \/ csr_ s' = csr_ s /\ guest s').
Proof using Type.
  intros Hg Ht E. pose proof (step_keeps path s (guest_wf s Hg)) as [Hs' _]. rewrite E in Hs'. cbn [snd] in Hs'.
  destruct (halt (regs_ s)) eqn:Hh.
  { unfold Emulator.step in E. rewrite get_run, Hh in E. apply (f_equal snd) in E. cbn [snd ret] in E. rewrite <- E.
    split; [apply unchanged_refl|by right]. }
  rewrite (step_body path s (guest_mie s Hg) Hh) in E.
  destruct (noted_guest s Hg Ht) as (Hg1 & Ht1 & Hc1 & Hun). apply bind_inv in E as (i & s1 & Ef & E).
  apply bind_inv in E as (c & s2 & Ee & E). apply finish_same in E as (F1 & F2 & F3 & F4).
  destruct (execute_guest (noted s) i c s1 s2 Hg1 Ht1 Ef Ee) as [(H1 & H2 & H3)|(H1 & H2 & H3 & H4)].
  - split; [|left; by rewrite F2]. apply Hun. apply trapped_unchanged. split; [by rewrite F2|]. split; congruence.
  - assert (U : unchanged (noted s) s').
    { destruct H1 as [U1 U2 U3]. split; [by rewrite F3|intros k Hk; rewrite F3; by apply U2|intros k Hk; rewrite F4; by apply U3]. }
    split; [by apply Hun|right]. destruct Hg1 as [_ [P1 P2 P3] G3 G4].
    assert (Hc' : csr_ s' = csr_ (noted s)) by congruence.
    split; [congruence|]. split; [done| |by rewrite Hc'|by apply (table_protected_same (noted s))].
    split; [by rewrite F1|by rewrite Hc'|]. rewrite Hc', F1. by apply (coherent_same (noted s)).
Qed.
End Step.

(** Steps of a program in user mode, its instructions tame. *)
Inductive user_steps `{FloatOps} (path : HostPath) : nat -> Emulator -> Emulator -> Prop :=
  | user_done s : user_steps path 0 s s
  | user_next n s s1 s' :
      priv s.(csr_) = User -> tame_at s = true -> Emulator.step path s = (Ok tt, s1) ->
      user_steps path n s1 s' -> user_steps path (S n) s s'.

(** C14: memory protection. A program in user mode, under a coherent TLB, a
    page table none of whose bytes it may write, and with interrupts off,
    executes any number of steps, none of them a vector store or an access that
    crosses a page, up to its first trap. Then every byte of the scratchpad and
    of main memory that no virtual address mapped user-writable translates to
    has its old value; and while it is still in user mode, its CSRs and the
    translation of every address are what they were. *)
Theorem user_isolation `{FloatOps} path n s s' :
  guest s -> user_steps path n s s' ->
  (forall k, ~ may_write s k ->
     Buffer.byte_at s'.(scratchpad_) k = Buffer.byte_at s.(scratchpad_) k /\
     Buffer.byte_at s'.(main_ram_) k = Buffer.byte_at s.(main_ram_) k) /\
  (priv s'.(csr_) = User ->
     csr_ s' = csr_ s /\ forall va w f, page_of s' va w f = page_of s va w f).
Proof.
  intros Hg Hst. induction Hst as [s|n s s1 s' Hu Ht E Hst IH]; [done|].
  destruct (guest_step path s s1 Hg Ht E) as [U [Hm|[Hc Hg1]]].
  - assert (s' = s1) as -> by (inversion Hst as [|? ? ? ? Hu1]; [done|rewrite Hm in Hu1; discriminate Hu1]).
    split; [intros k Hk; split; [by apply (unchanged_mem _ _ U)|by apply (unchanged_ram _ _ U)]|].
    rewrite Hm. discriminate.
  - pose proof (guest_table s Hg) as Htab. destruct (IH Hg1) as [IH1 IH2]. split.
    + intros k Hk. destruct (IH1 k) as [-> ->]; [by rewrite (may_write_same s s1 U Htab k Hc)|].
      split; [by apply (unchanged_mem _ _ U)|by apply (unchanged_ram _ _ U)].
    + intros Hu'. destruct (IH2 Hu') as [Hc' Hp]. split; [congruence|]. intros va w f.
      rewrite Hp. by apply (page_of_same s s1 U Htab).
Qed.

(** A user program, the bytes [code] at 0x44 of the page [ppn], the only page it
    has: every virtual page is mapped there. Its page table is at page 1 and its
    r1 is [x]. *)
Definition user_state (ppn x : Z) (code : list Z) : Emulator :=
  let s := Emulator.create 16384 64 in
  { s with
      scratchpad_ := Buffer.poke (Buffer.poke (Buffer.make 16384) 4096 (le_bytes 8 (1024 * ppn + 0x1F)))
        (4096 * ppn + 0x44) code;
      csr_ := paged_csr User;
      mmu_ := MMU.set_enabled true MMU.init;
      regs_ := { s.(regs_) with gpr := <[1%nat := x]> s.(regs_).(gpr); pc := 0x44 } }.
Section User.
Context (ppn x : Z) (code : list Z).
Context (Hx : fits 32 x) (Hppn : ppn = 0 \/ ppn = 2) (Hcode : Forall is_byte code) (Hlen : zlen code <= 64).
#[local] Notation machine := (user_state ppn x code).
Lemma user_state_wf : emu_wf machine.
Proof using Hx Hcode.
  assert (Hs : emu_wf (Emulator.create 16384 64)) by (apply create_wf; vm_compute; split; congruence).
  destruct Hs. split; try assumption.
  - apply Buffer.wf_poke; [apply Buffer.wf_poke|exact Hcode]; [|exact (le_bytes_bytes 8 _)].
    apply Buffer.wf_make. vm_compute; split; congruence.
  - apply RegisterFile.set_pc_wf; [|unfold fits; lia].
    by apply (RegisterFile.write_gpr_wf (regs_ (Emulator.create 16384 64)) 1 x);
      [|lia|exact Hx|].
  - by apply (CSRFile.set_priv_wf (CSRFile.write CSRFile.init CSR_SATP 1));
      [apply CSRFile.csr_write_wf; [apply CSRFile.csr_init_wf|unfold fits; lia]|].
  - by apply MMU.set_enabled_wf, MMU.mmu_init_wf.
Qed.
(** The entry of the root table that the walk of an address reads. *)
Lemma user_entry va :
  u32 (MMU.pte_addr 1 va 2) = 4096 + 8 * MMU.vpn_part va 2 /\ 0 <= MMU.vpn_part va 2 < 512 /\
    le_val (Buffer.peek machine.(scratchpad_) (4096 + 8 * MMU.vpn_part va 2) 8) =
    (if MMU.vpn_part va 2 =? 0 then 1024 * ppn + 0x1F else 0).
Proof using Hppn Hlen.
  assert (Hj : 0 <= MMU.vpn_part va 2 < 512).
  { unfold MMU.vpn_part, VPN_MASK. change 0x1FF with (Z.ones 9). rewrite Z.land_ones by lia. apply Z.mod_pos_bound. lia. }
  split.
  { unfold MMU.pte_addr. change (u64 (1 * PAGE_SIZE)) with 4096. rewrite u64_small, u32_small by (unfold fits; lia). lia. }
  split; [done|]. generalize dependent (MMU.vpn_part va 2). intros j Hj.
  change (scratchpad_ machine) with
    (Buffer.poke (Buffer.poke (Buffer.make 16384) 4096 (le_bytes 8 (1024 * ppn + 0x1F))) (4096 * ppn + 0x44) code).
  rewrite Buffer.peek_poke_disjoint by lia.
  destruct (Z.eqb_spec j 0) as [->|Hne]; [by destruct Hppn as [-> | ->]; vm_compute|].
  rewrite Buffer.peek_poke_disjoint by (change (zlen (le_bytes 8 _)) with 8; lia).
  assert (Hz : forall n a, Buffer.peek (Buffer.make 16384) a n = replicate n 0); [|by rewrite Hz].
  induction n as [|n IH]; intros a; [done|]. cbn [Buffer.peek]. by rewrite IH.
Qed.
Lemma user_root : MMU.root_ppn machine.(csr_) = 1.
Proof using Type. by vm_compute. Qed.
(** Its page table is at page 1, and all it may reach is the page [ppn]. *)
Lemma user_maps va w f k : page_of machine va w f = Some k -> k = 4096 * ppn + MMU.page_offset va.
Proof using Hppn Hlen.
  unfold page_of, walk_answer, MMU.walk_result_of. rewrite user_root. intros Hva.
  destruct (MMU.walk_from _ _ _ _ _ _ _) as [pa e|] eqn:Hw; [|done]. injection Hva as ->.
  apply walk_from_mapped in Hw as (raw & Hl & _ & -> & _).
  destruct (user_entry va) as (Ha & Hj & He).
  assert (raw = 1024 * ppn + 0x1F) as ->.
  { inversion Hl as [? ? ? _ Hraw Hv _|? ? ? next _ Hraw Hv Hlf _]; subst; rewrite Ha, He in *;
      destruct (Z.eqb_spec (MMU.vpn_part va 2) 0); [done|by vm_compute in Hv| |by vm_compute in Hv].
    by destruct Hppn as [-> | ->]; vm_compute in Hlf. }
  unfold leaf_pa. pose proof (MMU.page_offset_fits va) as Hf. unfold fits in Hf.
  replace (u64 _) with (ppn * 2 ^ 12) by (destruct Hppn as [-> | ->]; reflexivity).
  rewrite lor_pack, u32_small by (unfold fits; destruct Hppn as [-> | ->]; lia). lia.
Qed.
Lemma user_may_write k : may_write machine k -> 4096 * ppn <= k < 4096 * ppn + 4096.
Proof using Hppn Hlen.
  intros [va ->%user_maps]. pose proof (MMU.page_offset_fits va) as Hf. unfold fits in Hf. lia.
Qed.
Lemma user_guest : guest machine.
Proof using All.
  split; [exact user_state_wf| |by vm_compute|].
  - split; [done|by vm_compute|]. exact (coherent_flushed _ _ (MMU.set_enabled true MMU.init)).
  - intros k (va & a & Ha & Hk) Hw%user_may_write. rewrite user_root in Ha.
    destruct (user_entry va) as (Hj1 & Hj2 & Hj3). cbn [walk_reads] in Ha. rewrite Hj1, Hj3 in Ha.
    destruct (_ >? _); [by apply elem_of_nil in Ha|]. apply elem_of_cons in Ha as [->|Ha]; [lia|].
    destruct (_ =? 0); [destruct Hppn as [-> | ->]|]; vm_compute in Ha; by apply elem_of_nil in Ha.
Qed.
End User.

Lemma step_fst `{FloatOps} path s : (Emulator.step path s).1 = Ok tt ->
  Emulator.step path s = (Ok tt, (Emulator.step path s).2).
Proof. intros E. rewrite <- E. apply surjective_pairing. Qed.
(** It stores r1 at the virtual address 0x3128. *)
Lemma user_isolation_witness :
  let us := user_state 0 0x3120 (le_bytes 4 (enc.store 1 1 8)) in
  let s2 := (Emulator.step PathScalar (Emulator.step PathScalar us).2).2 in
  (forall k, 4096 <= k -> Buffer.byte_at s2.(scratchpad_) k = Buffer.byte_at us.(scratchpad_) k) /\
  Buffer.byte_at s2.(scratchpad_) 0x128 = 0x20 /\
  page_of s2 0x3128 true false = Some 0x128.
Proof.
  intros us s2. assert (Hst : user_steps PathScalar 2 us s2).
  { apply (user_next _ _ _ (Emulator.step PathScalar us).2);
      [done|by vm_compute|apply step_fst; by vm_compute|].
    apply (user_next _ _ _ s2); [by vm_compute|by vm_compute|apply step_fst; by vm_compute|constructor]. }
  assert (Hg : guest us).
  { apply user_guest; [vm_compute; split; congruence|by left|exact (le_bytes_bytes 4 _)|by vm_compute]. }
  destruct (user_isolation PathScalar 2 us s2 Hg Hst) as [H1 H2].
  split; [|split; [by vm_compute|]].
  - intros k Hk. apply (H1 k). intros Hw. apply user_may_write in Hw; [lia|by left|by vm_compute].
  - etransitivity; [apply H2; by vm_compute|by vm_compute].
Defined.

(** Both provisos are needed. A vector store goes to its virtual address, and
    a store at the end of a page goes on in the next frame: either overwrites
    the first byte of the page table, which the program may not write. *)
Definition escapes (w x : Z) : Prop :=
  let us := user_state 0 x (le_bytes 4 w) in
  guest us /\ priv us.(csr_) = User /\ ~ may_write us 4096 /\
  exists s', Emulator.step PathScalar us = (Ok tt, s') /\
    Buffer.byte_at s'.(scratchpad_) 4096 <> Buffer.byte_at us.(scratchpad_) 4096.
Lemma protection_holes : escapes (enc.store_vr 0 1 0) 4096 /\ escapes (enc.store 1 1 0) 4094.
Proof.
  split; (split; [by apply user_guest; [vm_compute; split; congruence|by left|exact (le_bytes_bytes 4 _)|vm_compute]|];
    split; [done|]; split; [intros Hw; apply user_may_write in Hw; [lia|by left|by vm_compute]|];
    eexists; split; [apply step_fst; by vm_compute|by vm_compute]).
Qed.
