(* ===== verification/Virtual.v ===== *)
(** * Virtual memory

    With paging on, a program below machine mode has the instruction set of
    [Arch] on a memory of its own: the pages of its two virtual memories may
    lie anywhere in the scratchpad and in main memory, and each step of the
    emulator is the step of the architecture on the virtual memories.  The
    program must keep its accesses within a page and leave vector loads and
    stores alone, which the MMU does not translate. *)

From S2P Require Import Prelude Text Isa Memory Registers Interrupt Devices Bus Float Profiler Interconnect Target Host Mmu Translate Emulator EmulatorWf Execute Dma Traps Effects Paging Frame Safety Fast Arch Protect.
#[local] Open Scope Z_scope.
Import ISA.

(** ** Layouts *)

(** Where each virtual page lies, and which accesses (a write, a fetch) of an
    address are granted. *)
Record Layout : Type := mkLayout {
  frame : Z -> Z;
  allowed (write fetch : bool) (va : Z) : bool }.
Definition place (L : Layout) (va : Z) : Z := PAGE_SIZE * frame L (MMU.vpn_of va) + MMU.page_offset va.

(** [n] bytes from [va] in one page. *)
Definition in_page (va n : Z) : bool := MMU.page_offset va + n <=? PAGE_SIZE.

(** The bytes of [v] are those of [b] where the layout puts them. *)
Definition view (L : Layout) (b v : buffer) : Prop :=
  forall k, 0 <= k < v.(blen) -> 0 <= place L k < b.(blen) /\ Buffer.byte_at v k = Buffer.byte_at b (place L k).

(** A machine [s] that a layout turns into the architecture [a], and one that
    may be stepped so. *)
Record lined (L : Layout) (s : Emulator) (a : Arch) : Prop := {
  l_wf : emu_wf s;
  l_paged : paged s;
  l_regs : s.(regs_) = a.(a_regs);
  l_mem : view L s.(scratchpad_) a.(a_mem);
  l_ram : view L s.(main_ram_) a.(a_ram);
  l_maps va w x : allowed L w x va = true -> page_of s va w x = Some (place L va);
  l_low va : 0 <= va < a.(a_mem).(blen) -> place L va < MMIO_BASE;
  l_addressable : s.(main_ram_).(blen) < 2 ^ 32;
  l_frames va vb : place L va = place L vb ->
    0 <= va < Z.max a.(a_mem).(blen) a.(a_ram).(blen) -> 0 <= vb < Z.max a.(a_mem).(blen) a.(a_ram).(blen) -> va = vb }.
Record virtual (L : Layout) (s : Emulator) (a : Arch) : Prop := {
  v_guest : guest s;
  v_priv : priv s.(csr_) <> Machine;
  v_lined : lined L s a }.

(** ** Steps a layout serves *)

(** The accesses of an instruction are granted and within their pages. *)
Definition serves (L : Layout) (a : Arch) (ins : Instr) : bool :=
  match ins with
  | ILoad _ base off => let ea := u32 (reg a base + off) in allowed L false false ea && in_page ea 4
  | IStore _ base off => let ea := u32 (reg a base + off) in allowed L true false ea && in_page ea 4
  | ILoadV _ _ _ | IStoreV _ _ _ => false
  | IDma _ d sr n =>
      allowed L true false (reg a d) && in_page (reg a d) n &&
      allowed L false false (reg a sr) && in_page (reg a sr) n && (0 <? n)
  | _ => true
  end.
Definition served (L : Layout) (a : Arch) : bool :=
  let p := a.(a_regs).(pc) in
  allowed L false true p && in_page p 4 &&
  match current a with Some ins => serves L a ins | None => false end.
Definition served_step `{FloatOps} (L : Layout) (a a' : Arch) : Prop := served L a = true /\ steps_to a a'.

(** ** Views of a memory *)
Section View.
Context (L : Layout).

Lemma place_add va d : 0 <= d -> MMU.page_offset va + d < PAGE_SIZE -> place L (va + d) = place L va + d.
Proof.
  intros Hd Ho. assert (Hv : MMU.vpn_of (va + d) = MMU.vpn_of va /\ MMU.page_offset (va + d) = MMU.page_offset va + d).
  { unfold MMU.vpn_of, MMU.page_offset, PAGE_SIZE, PAGE_SHIFT in *. change (4096 - 1) with (Z.ones 12) in *.
    rewrite !Z.land_ones, !Z.shiftr_div_pow2 in * by lia. change (2 ^ 12) with 4096 in *. split; Z.div_mod_to_equations; lia. }
  unfold place. destruct Hv as [-> ->]. lia.
Qed.
Lemma in_page_place va n d : in_page va n = true -> 0 <= d < n -> place L (va + d) = place L va + d.
Proof. intros Hn%Z.leb_le Hd. apply place_add; lia. Qed.

Lemma view_peek b v a n :
  view L b v -> in_page a (Z.of_nat n) = true -> 0 <= a -> a + Z.of_nat n <= v.(blen) ->
  Buffer.peek v a n = Buffer.peek b (place L a) n.
Proof.
  intros Hv Hp Ha Hn. apply list_eq. intros i. destruct (decide (i < n)%nat).
  - rewrite !Buffer.peek_lookup by done. rewrite <- (in_page_place a (Z.of_nat n)) by (done || lia).
    f_equal. apply Hv. lia.
  - by rewrite !lookup_ge_None_2 by (rewrite Buffer.peek_length; lia).
Qed.
(** The last byte of an access is in the memory too. *)
Lemma view_end b v a n :
  view L b v -> in_page a n = true -> 0 <= a -> 0 < n -> a + n <= v.(blen) ->
  0 <= place L a /\ place L a + n <= b.(blen).
Proof.
  intros Hv Hp Ha Hn Hb. destruct (Hv a ltac:(lia)) as [H1 _]. destruct (Hv (a + (n - 1)) ltac:(lia)) as [H2 _].
  rewrite (in_page_place a n) in H2 by (done || lia). lia.
Qed.
Lemma view_poke b v a l :
  view L b v -> in_page a (zlen l) = true -> 0 <= a -> a + zlen l <= v.(blen) ->
  (forall va vb, place L va = place L vb -> 0 <= va < v.(blen) -> 0 <= vb < v.(blen) -> va = vb) ->
  view L (Buffer.poke b (place L a) l) (Buffer.poke v a l).
Proof.
  intros Hv Hp Ha Hn Hinj k Hk. change (blen (Buffer.poke v a l)) with (blen v) in Hk.
  change (blen (Buffer.poke b (place L a) l)) with (blen b). destruct (Hv k Hk) as [Hr Hb]. split; [done|].
  destruct (decide (a <= k < a + zlen l)) as [Hin|Hout].
  - assert (Hkp : place L k = place L a + (k - a)).
    { rewrite <- (in_page_place a (zlen l)) by (done || lia). f_equal. lia. }
    rewrite !Buffer.byte_at_poke_in by lia. do 3 f_equal. lia.
  - rewrite !Buffer.byte_at_poke_out; [done| |lia].
    destruct (decide (place L a <= place L k < place L a + zlen l)) as [Hc|]; [|lia].
    assert (k = a + (place L k - place L a)); [|lia].
    apply Hinj; [rewrite (in_page_place a (zlen l)) by (done || lia); lia|lia|lia].
Qed.
(** A block copied from one memory to another. *)
Lemma view_copy bd vd bs vs d sr n :
  view L bd vd -> view L bs vs -> in_page d n = true -> in_page sr n = true ->
  0 <= d -> 0 <= sr -> 0 <= n -> d + n <= vd.(blen) -> sr + n <= vs.(blen) ->
  (forall va vb, place L va = place L vb -> 0 <= va < vd.(blen) -> 0 <= vb < vd.(blen) -> va = vb) ->
  view L (Buffer.poke bd (place L d) (Buffer.peek bs (place L sr) (Z.to_nat n)))
    (Buffer.poke vd d (Buffer.peek vs sr (Z.to_nat n))).
Proof.
  intros Hvd Hvs Hpd Hps Hd Hs Hn Hld Hls Hinj.
  rewrite <- (view_peek bs vs) by (done || rewrite Z2Nat.id by lia; done).
  assert (Hz : zlen (Buffer.peek vs sr (Z.to_nat n)) = n) by (unfold zlen; rewrite Buffer.peek_length; lia).
  by apply view_poke; rewrite ?Hz.
Qed.
End View.

(** ** Instructions *)

(** What an instruction leaves. *)
Record leaves (L : Layout) (t t' : Emulator) (b : Arch) : Prop := {
  leaves_regs : t'.(regs_) = b.(a_regs);
  leaves_mem : view L t'.(scratchpad_) b.(a_mem);
  leaves_ram : view L t'.(main_ram_) b.(a_ram);
  leaves_size : t'.(main_ram_).(blen) = t.(main_ram_).(blen);
  leaves_csr : t'.(csr_) = t.(csr_);
  leaves_debugger : t'.(debugger_) = t.(debugger_) }.
Definition performs (L : Layout) (m : M Emulator Z) (t : Emulator) (b : Arch) : Prop :=
  exists c t', m t = (Ok c, t') /\ leaves L t t' b.

(** Instructions that do not look at memory do the same whatever it holds. *)
Definition private (ins : Instr) : bool :=
  match ins with ILoad _ _ _ | IStore _ _ _ | ILoadV _ _ _ | IStoreV _ _ _ | IDma _ _ _ _ => false | _ => true end.
Lemma exec_private `{FloatOps} ins b b' m r :
  private ins = true -> exec ins b = Next b' ->
  b'.(a_mem) = b.(a_mem) /\ b'.(a_ram) = b.(a_ram) /\
  exec ins (mkArch b.(a_regs) m r) = Next (mkArch b'.(a_regs) m r).
Proof.
  destruct b as [rg bm br]. destruct ins; intros Hp; try discriminate Hp; cbn [exec a_regs a_mem a_ram];
    unfold set_flags, set_reg, set_vreg, jump, stop, with_regs, reg, vreg; cbn [a_regs a_mem a_ram];
    repeat case_match; intros [= <-]; done.
Qed.
Lemma reg_same t b r : t.(regs_) = b.(a_regs) -> reg (abs t) r = reg b r.
Proof. unfold reg. cbn [abs a_regs]. by intros ->. Qed.

Lemma set_reg_same d v x y : a_regs x = a_regs y ->
  a_regs (set_reg d v x) = a_regs (set_reg d v y) /\
  a_mem (set_reg d v x) = a_mem x /\ a_ram (set_reg d v x) = a_ram x.
Proof. intros E. unfold set_reg. case_match; [done|]. cbn [with_regs a_regs a_mem a_ram]. by rewrite E. Qed.

Section Instructions.
Context `{FloatOps} (path : HostPath) (L : Layout) (i : Instruction) (t : Emulator) (b b' : Arch) (Hl : lined L t b).

Lemma private_performs ins h :
  private ins = true -> decode i = Some ins -> exec ins b = Next b' ->
  Emulator.dispatch_table_ path (Instruction.opcode i) = Some h -> performs L (h i) t b'.
Proof using Hl.
  intros Hp Hd He Hh. destruct Hl as [Hs _ Hr Hm Hram _ _ _ _].
  destruct (exec_private ins b b' t.(scratchpad_) t.(main_ram_) Hp He) as (E1 & E2 & E3).
  assert (Hi : implements (h i) t (exec ins (abs t))).
  { apply (handler_implements path); [done| |done|done]. intros Ht. by destruct ins. }
  unfold abs in Hi. rewrite Hr, E3 in Hi. destruct Hi as (c & t' & Hrun & Ha). exists c, t'. split; [exact Hrun|].
  assert (Hw : writes 0 0 t t').
  { destruct (opcode_of (Instruction.opcode i)) as [o|] eqn:Ho; [|unfold decode in Hd; by rewrite Ho in Hd].
    pose proof Ho as Ho'. apply opcode_of_Some in Ho'. rewrite Ho' in Hh.
    assert (Hpure : pure_op o = true).
    { unfold decode, given in Hd. rewrite Ho in Hd.
      destruct o; try reflexivity; exfalso; cbv beta iota zeta in Hd;
        (case_match; [|discriminate Hd]; injection Hd as <-; discriminate Hp). }
    exact (keeps_end t' c 0 0 t (h i) (e_pure _ path o h i Hpure Hh) Hrun). }
  destruct Hw as [_ W1 _ _ W2]. split; [exact (f_equal a_regs Ha)| | | |exact W1|exact W2].
  - rewrite E1, (f_equal a_mem Ha : scratchpad_ t' = _). exact Hm.
  - rewrite E2, (f_equal a_ram Ha : main_ram_ t' = _). exact Hram.
  - exact (f_equal (fun x => blen (a_ram x)) Ha).
Qed.

(** The address of a scalar access, where the page table puts it. *)
Lemma access_lined (st : bool) :
  scalar (Instruction.ra i) = true ->
  let ea := u32 (reg b (Instruction.ra i) + Instruction.simm16 i) in
  allowed L st false ea = true ->
  exists m, emu_wf (Emulator.put_mmu m t) /\
    (if st then Emulator.op_store else Emulator.op_load) i t =
    (if st then store_at i (place L ea) else load_at i (place L ea)) (Emulator.put_mmu m t).
Proof using Hl.
  intros Ha ea Hal. destruct Hl as [Hs Hp Hr _ _ Hmaps _ _ _].
  destruct (reg_value t (Instruction.ra i) Hs) as [Hv _]; [apply Instruction.ra_range|done|].
  destruct (op_access_run st i _ t Hs Hp Hv) as (m & Hm & _ & Hop).
  rewrite (reg_same t b _ Hr) in Hop. fold ea in Hop. rewrite (Hmaps ea st false Hal) in Hop.
  exists m. split; [by apply put_mmu_wf|exact Hop].
Qed.

Lemma load_performs :
  let ins := ILoad (Instruction.rd i) (Instruction.ra i) (Instruction.simm16 i) in
  scalar (Instruction.rd i) = true -> scalar (Instruction.ra i) = true -> serves L b ins = true ->
  exec ins b = Next b' -> performs L (Emulator.op_load i) t b'.
Proof using Hl.
  intros ins Hd Ha [Hal Hin]%andb_true_iff. cbn [ins exec].
  set (ea := u32 (reg b (Instruction.ra i) + Instruction.simm16 i)) in *.
  destruct (Z.leb_spec MMIO_BASE ea); [done|]. unfold accessed. destruct (Z.leb_spec (ea + 4) (blen (a_mem b))); [|done].
  set (v := le_val (Buffer.peek (a_mem b) ea 4)).
  intros [= <-]. destruct (access_lined false Ha Hal) as (m & Hs1 & Hop). destruct Hl as [Hs Hp Hr Hm Hram Hmaps Hlow _ _].
  fold ea in Hop. pose proof (proj1 (u32_fits _ : fits 32 ea)) as Hea.
  destruct (load_at_run (Emulator.put_mmu m t) i (place L ea) Hs1 (Hlow ea ltac:(lia))) as (f & Hf & Hrun).
  destruct (view_end L _ _ ea 4 Hm Hin) as [Hp0 Hp1]; [lia..|]. destruct (wf_scratchpad t Hs) as [[_ Hlen] _].
  change (scratchpad_ (Emulator.put_mmu m t)) with (scratchpad_ t) in Hrun.
  rewrite VirtualSRAM.read32_ok in Hrun by lia.
  rewrite <- (view_peek L _ _ ea 4 Hm Hin) in Hrun by lia. fold v in Hrun.
  destruct (reg_write (Emulator.put_axi f (Emulator.put_mmu m t)) (Instruction.rd i) v)
    as (r & Hw & Habs); [by apply put_axi_wf|apply Instruction.rd_range|done|].
  rewrite (bind_ok _ _ _ _ _ (write_gpr_run (Emulator.put_axi f (Emulator.put_mmu m t)) _ _ r Hw)) in Hrun.
  do 2 eexists. split; [by rewrite Hop; exact Hrun|].
  apply (f_equal a_regs) in Habs. cbn [abs a_regs] in Habs.
  destruct (set_reg_same (Instruction.rd i) v b
    (abs (Emulator.put_axi f (Emulator.put_mmu m t))) (eq_sym Hr)) as (E1 & E2 & E3).
  split; [by rewrite E1|by rewrite E2|by rewrite E3|done..].
Qed.

Lemma store_performs :
  let ins := IStore (Instruction.rd i) (Instruction.ra i) (Instruction.simm16 i) in
  scalar (Instruction.rd i) = true -> scalar (Instruction.ra i) = true -> serves L b ins = true ->
  exec ins b = Next b' -> performs L (Emulator.op_store i) t b'.
Proof using Hl.
  intros ins Hd Ha [Hal Hin]%andb_true_iff. cbn [ins exec].
  set (ea := u32 (reg b (Instruction.ra i) + Instruction.simm16 i)) in *.
  destruct (Z.leb_spec MMIO_BASE ea); [done|]. unfold accessed. destruct (Z.leb_spec (ea + 4) (blen (a_mem b))); [|done].
  set (l := le_bytes 4 (reg b (Instruction.rd i))).
  intros [= <-]. destruct (access_lined true Ha Hal) as (m & Hs1 & Hop).
  destruct Hl as [Hs Hp Hr Hm Hram Hmaps Hlow Hsize Hframes].
  fold ea in Hop. pose proof (proj1 (u32_fits _ : fits 32 ea)) as Hea.
  destruct (view_end L _ _ ea 4 Hm Hin) as [Hp0 Hp1]; [lia..|].
  destruct (reg_value t (Instruction.rd i) Hs) as [Hv _]; [apply Instruction.rd_range|done|].
  rewrite (reg_same t b _ Hr) in Hv.
  destruct (store_hit i (place L ea) (Emulator.put_mmu m t) (reg b (Instruction.rd i)) Hs1) as (f & Hrun);
    [apply (page_of_fits t ea true false), Hmaps, Hal|apply Hlow; lia|exact Hp1|exact Hv|].
  do 2 eexists. split; [rewrite Hop; exact Hrun|]. split; [exact Hr| |exact Hram|done..].
  apply view_poke; [exact Hm|exact Hin|done|exact H1|]. intros va vb E Hva Hvb. apply Hframes; [exact E|lia..].
Qed.

(** A block of either memory ends below 2^32. *)
Lemma low_end (load : bool) a n :
  0 <= a -> 0 < n -> in_page a n = true -> a + n <= (if load then a_mem b else a_ram b).(blen) -> place L a + n < 2 ^ 32.
Proof using Hl.
  intros Ha Hn Hin Hlen. destruct Hl as [_ _ _ _ Hram _ Hlow Hsize _]. destruct load.
  - pose proof (Hlow (a + (n - 1)) ltac:(lia)) as Hend.
    rewrite (in_page_place L a n) in Hend by (done || lia). unfold MMIO_BASE in Hend. lia.
  - destruct (view_end L _ _ a n Hram Hin) as [_ Hend]; lia.
Qed.

(** A transfer writes one memory and reads the other. *)
Lemma dma_performs (load : bool) :
  let ins := IDma load (Instruction.rd i) (Instruction.ra i) (Instruction.func i) in
  scalar (Instruction.rd i) = true -> scalar (Instruction.ra i) = true -> serves L b ins = true ->
  exec ins b = Next b' -> performs L (op_dma load i) t b'.
Proof using Hl.
  intros ins Hd Ha Hsv. cbn [ins serves] in Hsv. cbn [ins exec].
  set (n := Instruction.func i) in *. set (d := reg b (Instruction.rd i)) in *. set (sr := reg b (Instruction.ra i)) in *.
  apply andb_true_iff in Hsv as [Hsv Hn%Z.ltb_lt]. apply andb_true_iff in Hsv as [Hsv Hins].
  apply andb_true_iff in Hsv as [Hsv Hals]. apply andb_true_iff in Hsv as [Hald Hind].
  destruct Hl as [Hs Hp Hr Hm Hram Hmaps Hlow Hsize Hframes].
  destruct (reg_value t (Instruction.rd i) Hs) as [Hdv Hdf]; [apply Instruction.rd_range|done|].
  destruct (reg_value t (Instruction.ra i) Hs) as [Hsv Hsf]; [apply Instruction.ra_range|done|].
  rewrite !(reg_same t b _ Hr) in *. fold d in Hdv, Hdf. fold sr in Hsv, Hsf.
  destruct Hdf as [Hdf _], Hsf as [Hsf _].
  destruct (dma_addresses_run t d sr (dma_kind load) Hs Hp) as (m & Hmw & _ & Hrun). cbv zeta in Hrun.
  rewrite (Hmaps d true false Hald), (Hmaps sr false false Hals) in Hrun.
  pose proof (op_dma_at load i d sr t Hdv Hsv) as Hop. rewrite (bind_ok _ _ _ _ _ Hrun) in Hop.
  set (vd := if load then a_mem b else a_ram b). set (vs := if load then a_ram b else a_mem b).
  replace (if load then (a_mem b, a_ram b) else (a_ram b, a_mem b)) with (vd, vs) by by destruct load.
  destruct (Z.leb_spec (2 ^ 32) (d + n)); [done|]. destruct (Z.leb_spec (2 ^ 32) (sr + n)); [done|]. cbn [orb].
  destruct (Z.ltb_spec (blen vd) (d + n)); [done|]. destruct (Z.ltb_spec (blen vs) (sr + n)); [done|].
  assert (Hvd : view L (dma_target load t) vd) by by destruct load.
  assert (Hvs : view L (dma_target (negb load) t) vs) by by destruct load.
  destruct (view_end L _ _ d n Hvd Hind) as [Hd0 Hd1]; [done|lia..|].
  destruct (view_end L _ _ sr n Hvs Hins) as [Hs0 Hs1]; [done|lia..|].
  assert (Hlen : place L d + n < 2 ^ 32 /\ place L sr + n < 2 ^ 32).
  { split; [apply (low_end load d n)|apply (low_end (negb load) sr n)]; try done; by destruct load. }
  destruct (dma_at_run load i (place L d) (place L sr) (Emulator.put_mmu m t) n) as (f & bw & Hat);
    [by apply put_mmu_wf|done|done|done|lia|lia|]. cbv zeta in Hat. rewrite <- Hop in Hat.
  assert (Hin : forall (m : buffer) a, 0 <= a -> a + n <= blen m -> Buffer.in_range m a n = true)
    by (intros ? ? ? ?; unfold Buffer.in_range; rewrite andb_true_iff, !Z.leb_le; lia).
  change (dma_target load (Emulator.put_mmu m t)) with (dma_target load t) in Hat.
  change (dma_target (negb load) (Emulator.put_mmu m t)) with (dma_target (negb load) t) in Hat.
  rewrite !Hin in Hat by done. cbn [negb] in Hat.
  assert (Hv' : view L (Buffer.poke (dma_target load t) (place L d) (Buffer.peek (dma_target (negb load) t) (place L sr) (Z.to_nat n)))
    (Buffer.poke vd d (Buffer.peek vs sr (Z.to_nat n)))).
  { apply view_copy; try done; [lia|].
    intros va vb E Hva Hvb. apply Hframes; [exact E|subst vd; destruct load; lia..]. }
  intros [= <-]. do 2 eexists. split; [exact Hat|].
  destruct load; split; first [exact Hr|exact Hv'|exact Hm|exact Hram|by destruct bw].
Qed.

#[local] Ltac granted :=
  repeat match goal with
  | H : given ?b _ = Some _ |- _ => destruct b eqn:?; [injection H as <-|done]
  | H : (_ && _) = true |- _ => apply andb_true_iff in H as [? ?]
  end.
Lemma instruction_performs ins h :
  decode i = Some ins -> serves L b ins = true -> exec ins b = Next b' ->
  Emulator.dispatch_table_ path (Instruction.opcode i) = Some h -> performs L (h i) t b'.
Proof using Hl.
  intros Hd Hsv He Hh. destruct (private ins) eqn:Hp; [by apply (private_performs ins h)|].
  unfold decode in Hd. unfold Emulator.dispatch_table_ in Hh.
  destruct (opcode_of (Instruction.opcode i)) as [o|]; [|done].
  destruct o; injection Hh as <-; cbv beta iota zeta in Hd;
    try (injection Hd as <-; discriminate Hp);
    (destruct (given _ _) eqn:Hg in Hd; [|done]; injection Hd as <-);
    unfold given in Hg; (case_match eqn:Hc; [|done]); injection Hg as <-;
    first [discriminate Hp|discriminate Hsv|idtac]; granted;
    [by apply load_performs|by apply store_performs|by apply (dma_performs true)|by apply (dma_performs false)].
Qed.
End Instructions.

(** ** Steps *)
Section Steps.
Context `{FloatOps} (path : HostPath) (L : Layout).

(** The machine after a fetch. *)
Lemma fetch_lined s a ins (p := a.(a_regs).(pc)) :
  lined L s a -> allowed L false true p = true -> in_page p 4 = true -> current a = Some ins ->
  exists i m, Emulator.fetch s = (Ok i, advanced (Emulator.put_mmu m s)) /\ decode i = Some ins /\
    page_of s p false true = Some (place L p) /\ i = mkInstruction (le_val (Buffer.peek s.(scratchpad_) (place L p) 4)) /\
    lined L (advanced (Emulator.put_mmu m s)) (advance a).
Proof using Type.
  intros Hl Hal Hin Hc. destruct (current_word a ins Hc) as (_ & _ & Hlen & Hd). fold p in Hlen, Hd.
  destruct Hl as [Hs Hp Hr Hm Hram Hmaps Hlow Hsize Hfr].
  destruct (mmu_translate_run s p false true Hs Hp eq_refl) as (m & Ht & Hmw & Hp').
  pose proof (Hmaps p false true Hal) as Hpage. rewrite Hpage in Ht.
  assert (Hp0 : 0 <= p) by (unfold p; rewrite <- Hr; apply (RegisterFile.wf_pc _ (wf_regs s Hs))).
  destruct (view_end L _ _ p 4 Hm Hin) as [Hpl0 Hpl1]; [lia..|].
  rewrite (view_peek L _ _ p 4 Hm Hin) in Hd by lia.
  exists (mkInstruction (le_val (Buffer.peek s.(scratchpad_) (place L p) 4))), m.
  split; [|split; [exact Hd|split; [exact Hpage|split; [done|]]]].
  - unfold Emulator.fetch. rewrite get_run, (pg_on s Hp : MMU.enabled (mmu_ s) = true).
    rewrite Hr. fold p. seal_translation. rewrite (bind_ok _ _ _ _ _ Ht), get_run. change (scratchpad_ (Emulator.put_mmu m s)) with (scratchpad_ s).
    assert (Hrange : Buffer.in_range (scratchpad_ s) (place L p) 4 = true)
      by (unfold Buffer.in_range; rewrite andb_true_iff, !Z.leb_le; lia).
    rewrite Hrange. unfold advanced. reflexivity.
  - assert (Hs1 : emu_wf (advanced (Emulator.put_mmu m s))).
    { apply put_regs_wf; [by apply put_mmu_wf|]. apply RegisterFile.set_pc_wf; [apply Hs|apply u32_fits]. }
    split; [exact Hs1|by destruct Hp'| |exact Hm|exact Hram|exact Hmaps|exact Hlow|exact Hsize|exact Hfr].
    unfold advance, jump, with_regs. cbn [a_regs]. rewrite <- Hr. reflexivity.
Qed.

(** What the layout serves does not escape the pages. *)
Lemma serves_tame i s a ins :
  emu_wf s -> s.(regs_) = a.(a_regs) -> decode i = Some ins -> serves L a ins = true -> tame i s = true.
Proof using Type.
  intros Hs Hr Hd Hsv.
  assert (Hoff : forall va, MMU.page_offset va + 0 <=? PAGE_SIZE = true).
  { intros va. apply Z.leb_le. pose proof (MMU.page_offset_fits va). unfold fits, PAGE_SIZE in *. lia. }
  assert (Hreg : forall r, 0 <= r -> scalar r = true -> default 0 (RegisterFile.read_gpr s.(regs_) r) = reg a r).
  { intros r H0 H1. destruct (reg_value s r Hs H0 H1) as [-> _]. by apply reg_same. }
  pose proof (Instruction.rd_range i) as H1. pose proof (Instruction.ra_range i) as H2.
  unfold decode in Hd. destruct (opcode_of (Instruction.opcode i)) as [o|] eqn:Ho; [|done].
  apply opcode_of_Some in Ho. unfold tame, span, target. rewrite Ho.
  destruct o; try apply Hoff; unfold given in Hd; (case_match eqn:Hc; [|done]); injection Hd as <-;
    apply andb_true_iff in Hc as [Hcd Hca]; try discriminate Hsv;
    cbn [code negb andb Z.eqb Pos.eqb Emulator.is_dma]; rewrite Hreg by (done || lia).
  - apply andb_true_iff in Hsv as [_ Hin]. exact Hin.
  - cbn [serves] in Hsv. by do 4 (apply andb_true_iff in Hsv as [Hsv ?]).
  - cbn [serves] in Hsv. by do 4 (apply andb_true_iff in Hsv as [Hsv ?]).
Qed.
Lemma served_inv a :
  served L a = true -> allowed L false true a.(a_regs).(pc) = true /\ in_page a.(a_regs).(pc) 4 = true /\
  exists ins, current a = Some ins /\ serves L a ins = true.
Proof using Type.
  unfold served. intros [[H1 H2]%andb_true_iff H3]%andb_true_iff. split; [done|]. split; [done|].
  destruct (current a) as [ins|]; [by exists ins|done].
Qed.
Lemma served_tame s a : lined L s a -> served L a = true -> tame_at s = true.
Proof using Type.
  intros Hl (Hal & Hin & ins & Hc & Hsv)%served_inv.
  destruct (fetch_lined s a ins Hl Hal Hin Hc) as (i & m & _ & Hd & Hpage & -> & _).
  unfold tame_at. rewrite (l_regs _ _ _ Hl), Hpage. by apply (serves_tame _ s a ins); [apply Hl|apply Hl|..].
Qed.

Lemma noted_lined s a : lined L s a -> lined L (noted s) a.
Proof using Type.
  unfold noted. intros Hl. destruct (verbose_ s); [|done]. destruct Hl as [Hs [P1 P2 P3] Hr Hm Hram Hmaps Hlow Hsize Hfr].
  split; [by apply put_last_wf|by split|exact Hr|exact Hm|exact Hram|exact Hmaps|exact Hlow|exact Hsize|exact Hfr].
Qed.

(** The step up to the peripherals. *)
Lemma body_lined s a a' :
  lined L s a -> served L a = true -> istep a = Next a' ->
  exists c s2, body path a.(a_regs).(pc) s =
      (do! modify Emulator.tick_peripherals in
       let! s' := get in
       if s'.(verbose_) then Emulator.log_step a.(a_regs).(pc)
         (mkInstruction (le_val (Buffer.peek s.(scratchpad_) (place L a.(a_regs).(pc)) 4))) c else ret tt) s2 /\
    leaves L s s2 a'.
Proof using Type.
  intros Hl (Hal & Hin & ins & Hc & Hsv)%served_inv Hi. rewrite (istep_current a ins Hc) in Hi.
  destruct (fetch_lined s a ins Hl Hal Hin Hc) as (i & m & Hf & Hd & _ & Hw & Hl1). rewrite <- Hw.
  destruct (Emulator.dispatch_table_ path (Instruction.opcode i)) as [h|] eqn:Hh.
  2: { unfold decode in Hd. unfold Emulator.dispatch_table_ in Hh. destruct (opcode_of _) as [o|]; [by destruct o|done]. }
  assert (Hsv1 : serves L (advance a) ins = true) by exact Hsv.
  destruct (instruction_performs path L i _ (advance a) a' Hl1 ins h Hd Hsv1 Hi Hh) as (c & t & Hrun & [R1 R2 R3 R4 R5 R6]).
  eexists _, _. split.
  - unfold body. rewrite (bind_ok _ _ _ _ _ Hf), (bind_ok _ _ _ _ _ (execute_run path i h _ _ _ Hh Hrun)). reflexivity.
  - by split.
Qed.

Lemma step_lined s a a' :
  virtual L s a -> served L a = true -> istep a = Next a' ->
  exists s', Emulator.step path s = (Ok tt, s') /\ virtual L s' a' /\ s'.(csr_) = s.(csr_) /\ s'.(debugger_) = s.(debugger_).
Proof using Type.
  intros [Hg Hp Hl] Hsv Hi. pose proof (served_tame s a Hl Hsv) as Ht.
  destruct (served_inv a Hsv) as (_ & _ & ins & Hc & _). destruct (current_word a ins Hc) as (Hh & _).
  rewrite <- (l_regs _ _ _ Hl) in Hh. pose proof (step_body path s (guest_mie s Hg) Hh) as Hst.
  destruct (body_lined (noted s) a a' (noted_lined s a Hl) Hsv Hi) as (c & s2 & Hb & [R1 R2 R3 R4 R5 R6]).
  rewrite (l_regs _ _ _ Hl), Hb in Hst. clear Hb. set (i := mkInstruction _) in Hst.
  destruct (finish_step a.(a_regs).(pc) i c s2) as (s' & Hfin & Ha & _ & Hdbg & _). rewrite Hfin in Hst.
  pose proof (finish_same a.(a_regs).(pc) i c s2 s' Hfin) as (_ & F2 & F3 & F4).
  assert (Hn : csr_ (noted s) = csr_ s /\ debugger_ (noted s) = debugger_ s /\ main_ram_ (noted s) = main_ram_ s)
    by (unfold noted; by destruct (verbose_ s)).
  destruct Hn as (N1 & N2 & N3). assert (Hcsr : csr_ s' = csr_ s) by congruence.
  exists s'. split; [done|]. split; [|split; [done|congruence]].
  destruct (guest_step path s s' Hg Ht Hst) as [U [Hm|[_ Hg']]]; [by rewrite Hcsr in Hm|].
  split; [done|by rewrite Hcsr|]. destruct Hl as [Hs _ Hr _ _ Hmaps Hlow Hsize Hfr].
  assert (Hblen : blen (a_mem a') = blen (a_mem a) /\ blen (a_ram a') = blen (a_ram a)).
  { rewrite (istep_current a ins Hc) in Hi. exact (exec_blen ins (advance a) a' Hi). }
  destruct Hblen as [B1 B2]. pose proof (f_equal a_regs Ha) as Hregs. cbn [abs a_regs] in Hregs.
  split; [apply Hg'|apply Hg'|by rewrite Hregs|by rewrite F3|by rewrite F4| | | |by rewrite B1, B2].
  - intros va w x Hal. rewrite (page_of_same s s' U (guest_table s Hg) va w x Hcsr). by apply Hmaps.
  - by rewrite B1.
  - by rewrite F4, R4, N3.
Qed.
End Steps.

(** ** Runs *)
Lemma steps_lined `{FloatOps} path L n a a' :
  nsteps (served_step L) n a a' -> forall s, virtual L s a ->
  exists s', nsteps (fun x y => Emulator.step path x = (Ok tt, y)) n s s' /\
    virtual L s' a' /\ s'.(csr_) = s.(csr_) /\ s'.(debugger_) = s.(debugger_).
Proof.
  induction 1 as [|n a a1 a' [Hsv Hst] Hn IH]; intros s Hv; [by exists s; split; [constructor|]|].
  destruct (step_lined path L s a a1 Hv Hsv Hst) as (s1 & H1 & Hv1 & Hc1 & Hd1).
  destruct (IH s1 Hv1) as (s' & H2 & Hv' & Hc' & Hd'). exists s'.
  split; [by eapply nsteps_l|]. split; [done|]. split; congruence.
Qed.
(** [run]'s loop makes the same steps up to the halt. *)
Lemma steps_loop `{FloatOps} path L n a a' :
  nsteps (served_step L) n a a' -> istep a' = Halted -> forall s k, virtual L s a -> unwatched s -> (n <= k)%nat ->
  exists s', Emulator.run_loop path k s = (Ok true, s') /\ virtual L s' a'.
Proof.
  induction 1 as [a|n a a1 a' [Hsv Hst] Hn IH]; intros Hh s k Hv Hu Hk.
  - exists s. split; [|done]. apply halted_iff in Hh. rewrite <- (l_regs _ _ _ (v_lined _ _ _ Hv)) in Hh.
    destruct k; cbn [Emulator.run_loop]; by rewrite get_run, stopped_halted, Hh.
  - destruct k as [|k]; [lia|]. destruct (step_lined path L s a a1 Hv Hsv Hst) as (s1 & H1 & Hv1 & _ & Hd1).
    destruct (IH Hh s1 k Hv1) as (s' & Hrun & Hv'); [intros p; rewrite Hd1; apply Hu|lia|].
    exists s'. split; [|done]. destruct (served_inv L a Hsv) as (_ & _ & ins & Hc & _).
    destruct (current_word a ins Hc) as (Hnh & _). rewrite <- (l_regs _ _ _ (v_lined _ _ _ Hv)) in Hnh.
    cbn [Emulator.run_loop]. by rewrite get_run, stopped_halted, Hnh, (bind_ok _ _ _ _ _ H1) by done.
Qed.
Lemma flush_lined L s a : virtual L s a -> exists s', Emulator.flush_uart s = (Ok tt, s') /\ virtual L s' a.
Proof.
  intros [[Hs [P1 P2 P3] G3 G4] Hp [_ _ Hr Hm Hram Hmaps Hlow Hsize Hfr]].
  assert (Hk : emu_wf (Emulator.flush_uart s).2) by by apply flush_uart_keeps.
  assert (E : exists u l, Emulator.flush_uart s = (Ok tt, { s with uart_ := u; stdout := l })).
  { unfold Emulator.flush_uart, bind. destruct (UartDevice.flush (uart_ s)). by do 2 eexists. }
  destruct E as (u & l & E). rewrite E in Hk. cbn [snd] in Hk. eexists. split; [exact E|].
  split; [split; [exact Hk|by split|exact G3|exact G4]|exact Hp|].
  split; [exact Hk|by split|exact Hr|exact Hm|exact Hram|exact Hmaps|exact Hlow|exact Hsize|exact Hfr].
Qed.

(** C4: virtual memory implements the instruction set. With paging on, below
    machine mode, with interrupts off, a coherent TLB and a page table the
    program may not write, and any layout that the page table realises (each
    page of the two virtual memories anywhere in the scratchpad and in main
    memory, distinct pages in distinct frames): every sequence of steps of the
    architecture on the virtual memories whose fetches, accesses and transfers
    are granted and within their pages is, step by step, a sequence of
    successful steps of the emulator, which leaves the same registers, the
    virtual memories where the layout has them, and the CSRs as they were, so
    that it can go on; and when the architecture halts there and no breakpoint
    is set, [run] ends in that state with any bound on its iterations that is
    enough for the architecture. *)
Theorem paged_implements_isa `{FloatOps} path L n s a a' :
  virtual L s a -> nsteps (served_step L) n a a' ->
  (exists s', nsteps (fun x y => Emulator.step path x = (Ok tt, y)) n s s' /\
     virtual L s' a' /\ s'.(csr_) = s.(csr_)) /\
  (unwatched s -> istep a' = Halted -> forall fuel, (n <= fuel)%nat ->
     exists s', Emulator.run path fuel s = (Ok true, s') /\ virtual L s' a').
Proof.
  intros Hv Hn. split.
  - destruct (steps_lined path L n a a' Hn s Hv) as (s' & H1 & H2 & H3 & _). by exists s'.
  - intros Hu Hh fuel Hf. destruct (steps_loop path L n a a' Hn Hh s fuel Hv Hu Hf) as (s1 & Hl & Hv1).
    destruct (flush_lined L s1 a' Hv1) as (s' & Hfl & Hv'). exists s'. split; [|done].
    unfold Emulator.run. by rewrite (bind_ok _ _ _ _ _ Hl), (bind_ok _ _ _ _ _ Hfl).
Qed.

(** One virtual page, in frame 2: the program stores r1 through r1, loads it
    back and doubles it. *)
Definition page2 : Layout := mkLayout (fun _ => 2) (fun w x va => (0 <=? va) && (va <? 4096) && negb (w && x)).
Definition virtual_code : list Z :=
  concat (le_bytes 4 <$> [enc.store 1 1 0; enc.load 2 1 0; enc.add 3 2 2; enc.halt]).
Definition virtual_arch : Arch :=
  mkArch (user_state 2 0x100 virtual_code).(regs_) (Buffer.poke (Buffer.make 4096) 0x44 virtual_code) (Buffer.make 0).
Lemma virtual_code_wf : fits 32 0x100 /\ Forall is_byte virtual_code /\ zlen virtual_code <= 64.
Proof.
  split; [vm_compute; split; congruence|]. split; [|by vm_compute].
  by repeat (apply Forall_app_2; [exact (le_bytes_bytes 4 _)|]).
Qed.
Lemma page2_place va : 0 <= va < 4096 -> place page2 va = 8192 + va.
Proof.
  intros Hva. unfold place, MMU.page_offset. cbn [page2 frame]. change (PAGE_SIZE - 1) with (Z.ones 12).
  rewrite Z.land_ones, Z.mod_small by lia. unfold PAGE_SIZE. lia.
Qed.
Lemma virtual_start : virtual page2 (user_state 2 0x100 virtual_code) virtual_arch.
Proof.
  destruct virtual_code_wf as (Hx & Hb & Hl). assert (Hg : guest (user_state 2 0x100 virtual_code)) by by apply user_guest; [|right|..].
  split; [exact Hg|discriminate|]. split; [apply Hg|apply Hg|done| | | | | | ].
  - intros k Hk. change (blen (a_mem virtual_arch)) with 4096 in Hk. rewrite page2_place by done.
    split; [change (blen (scratchpad_ _)) with 16384; lia|].
    change (scratchpad_ _) with (Buffer.poke (Buffer.poke (Buffer.make 16384) 4096 (le_bytes 8 (1024 * 2 + 0x1F))) (4096 * 2 + 0x44) virtual_code).
    change (a_mem virtual_arch) with (Buffer.poke (Buffer.make 4096) 0x44 virtual_code).
    destruct (decide (0x44 <= k < 0x44 + zlen virtual_code)).
    + rewrite !Buffer.byte_at_poke_in by lia. do 3 f_equal. lia.
    + rewrite !Buffer.byte_at_poke_out; [reflexivity|change (zlen (le_bytes 8 _)) with 8; lia|lia|lia].
  - intros k Hk. change (blen (a_ram virtual_arch)) with 0 in Hk. lia.
  - intros va w x Hal. cbn [page2 allowed] in Hal. apply andb_true_iff in Hal as [[H1%Z.leb_le H2%Z.ltb_lt]%andb_true_iff Hwx].
    rewrite page2_place by lia. rewrite <- (Z.add_0_l va). apply page_of_add; [|lia|].
    + by destruct w, x; [done|vm_compute..].
    + change (MMU.page_offset 0) with 0. unfold PAGE_SIZE. lia.
  - intros va Hva. change (blen (a_mem virtual_arch)) with 4096 in Hva. rewrite page2_place by done. unfold MMIO_BASE. lia.
  - by vm_compute.
  - change (Z.max _ _) with 4096. intros va vb E Hva Hvb. rewrite !page2_place in E by done. lia.
Qed.
Lemma paged_implements_isa_witness :
  exists s', Emulator.run PathScalar 4 (user_state 2 0x100 virtual_code) = (Ok true, s') /\
    RegisterFile.read_gpr s'.(regs_) 3 = Some 0x200 /\ Buffer.byte_at s'.(scratchpad_) 0x2101 = 1.
Proof.
  assert (Hn : exists a, nsteps (served_step page2) 4 virtual_arch a /\ istep a = Halted /\
    RegisterFile.read_gpr a.(a_regs) 3 = Some 0x200 /\ Buffer.byte_at a.(a_mem) 0x101 = 1 /\ blen a.(a_mem) = 4096).
  { eexists. split; [do 4 (eapply nsteps_l; [split; by vm_compute|]); apply nsteps_O|]. split; [by vm_compute|]. by vm_compute. }
  destruct Hn as (a & Hn & Hh & Hr & Hb & Hlen).
  destruct (paged_implements_isa PathScalar page2 4 _ virtual_arch a virtual_start Hn) as [_ Hrun].
  destruct (Hrun ltac:(done) Hh 4%nat ltac:(lia)) as (s' & H1 & [_ _ [_ _ Hregs Hm _ _ _ _ _]]).
  exists s'. split; [exact H1|]. rewrite Hregs. split; [exact Hr|].
  destruct (Hm 0x101 ltac:(rewrite Hlen; lia)) as [_ Hbyte]. rewrite Hb, page2_place in Hbyte by lia. by rewrite Hbyte.
Defined.

(** The fast loop decodes its blocks at untranslated addresses: it runs the
    zero words (NOPs) of the unmapped frames 0 and 1, page table included, and
    ends in the code at its physical address. *)
Lemma run_fast_ignores_paging :
  let us := user_state 2 0x100 virtual_code in
  let plain := Emulator.run PathScalar 4 us in let fast := Emulator.run_fast PathScalar 200 us in
  plain.1 = Ok true /\ plain.2.(regs_).(pc) = 0x54 /\ fast.1 = Ok true /\ fast.2.(regs_).(pc) = 0x2054.
Proof. by vm_compute. Qed.
