(* ===== verification/Console.v ===== *)
(** * What a program prints

    The instruction set of [Arch] with the UART at its addresses: stores to
    the transmit register emit characters, loads of its registers read the
    receive buffer and the status.  A silent run of the emulator performs the
    steps of that machine and prints the characters, line by line. *)

From S2P Require Import Prelude Text Isa Memory Registers Interrupt Devices Bus Float Profiler Interconnect Target Host Mmu Translate Emulator EmulatorWf Execute Dma Traps Effects Frame Safety Fast Arch.
#[local] Open Scope Z_scope.
Import ISA.

(** ** The machine with a UART *)
Definition UART : Z := MMIO_BASE + UART_BASE.
Definition in_uart (ea : Z) : bool := (UART <=? ea) && (ea <? UART + 0x1000).

(** A scalar access of the UART's registers. *)
Inductive Port : Type := PortLoad (d off : Z) | PortStore (r off : Z).
Definition port_access (a : Arch) : option Port :=
  match current a with
  | Some (ILoad d b off) => let ea := u32 (reg a b + off) in if in_uart ea then Some (PortLoad d (ea - UART)) else None
  | Some (IStore r b off) => let ea := u32 (reg a b + off) in if in_uart ea then Some (PortStore r (ea - UART)) else None
  | _ => None
  end.
(** The word a register holds, when [rx] has been received: the first
    character, sign-extended, and a status that is always ready. *)
Definition port_word (rx : string) (off : Z) : Z :=
  if off =? UART_RX then match rx with EmptyString => 0 | String c _ => u32 (to_signed 8 (byte_of c)) end
  else if off =? UART_STATUS then 1 else 0.

Section Machine.
Context `{FloatOps} (rx : string).
(** A step and the bytes it sends. *)
Definition ustep (a : Arch) : Outcome * list Z :=
  match port_access a with
  | Some (PortLoad d off) => (Next (set_reg d (port_word rx off) (advance a)), [])
  | Some (PortStore r off) => (Next (advance a), if off =? UART_TX then [Z.land (reg a r) 0xFF] else [])
  | None => (istep a, [])
  end.
Inductive sends : nat -> Arch -> list Z -> Arch -> Prop :=
  | sends_done a : sends 0 a [] a
  | sends_step n a a1 a' bs bs' : ustep a = (Next a1, bs) -> sends n a1 bs' a' -> sends (S n) a (bs ++ bs') a'.
End Machine.

(** ** The text *)

(** The complete lines among the bytes sent after [buf], and what is left: a
    line ends after a newline or 256 characters. *)
Fixpoint lines (buf : string) (bs : list Z) : list string * string :=
  match bs with
  | [] => ([], buf)
  | b :: bs =>
      let buf := (buf ++ String (char_of b) "")%string in
      if (b =? 10) || (256 <=? String.length buf)%nat
      then let '(l, rest) := lines "" bs in (buf :: l, rest)
      else lines buf bs
  end.
(** At the end of a run the rest is a line too. *)
Definition all_lines (p : list string * string) : list string :=
  p.1 ++ match p.2 with EmptyString => [] | rest => [rest] end.

Lemma lines_app buf bs bs' :
  lines buf (bs ++ bs') =
  let '(l, rest) := lines buf bs in let '(l', rest') := lines rest bs' in (l ++ l', rest').
Proof.
  revert buf. induction bs as [|b bs IH]; intros buf; cbn [app lines].
  { by destruct (lines buf bs'). }
  destruct (_ || _); rewrite IH; [|done].
  destruct (lines "" bs) as [l rest]. by destruct (lines rest bs').
Qed.

(** ** The console of the emulator *)

(** Silent, nothing interfering; it has printed [out] and holds [buf] to print
    and [rx] received. *)
Record console (s : Emulator) (out : list string) (buf rx : string) : Prop := {
  c_wf : emu_wf s;
  c_bare : bare s;
  c_silent : s.(verbose_) = false;
  c_out : s.(stdout) = out;
  c_uart : s.(uart_) = mkUart buf rx }.

(** The console part of the state. *)
Definition same_console (s0 s : Emulator) : Prop :=
  s.(verbose_) = s0.(verbose_) /\ s.(stdout) = s0.(stdout) /\ s.(uart_) = s0.(uart_) /\ s.(debugger_) = s0.(debugger_).
#[export] Instance console_closed s0 : Closed (same_console s0).
Proof. by split. Qed.
Lemma console_refl s : same_console s s.
Proof. done. Qed.
Lemma console_trans s s1 s2 : same_console s s1 -> same_console s1 s2 -> same_console s s2.
Proof. intros (?&?&?&?) (?&?&?&?). repeat split; congruence. Qed.

Lemma c_copy_in s0 d sr n : keepsC (same_console s0) (Emulator.copy_to_scratchpad d sr n).
Proof.
  unfold Emulator.copy_to_scratchpad. eapply keeps_bind; [apply keeps_get|]. intros s Hs.
  case_match; [by apply keeps_modify|apply keeps_undef].
Qed.
Lemma c_copy_out s0 d sr n : keepsC (same_console s0) (Emulator.copy_to_main_ram d sr n).
Proof.
  unfold Emulator.copy_to_main_ram. eapply keeps_bind; [apply keeps_get|]. intros s Hs.
  case_match; [by apply keeps_modify|apply keeps_undef].
Qed.
#[local] Hint Resolve c_copy_in c_copy_out : effects.
Lemma c_dma_at s0 load i d sr : keepsC (same_console s0) (dma_at load i d sr).
Proof. destruct load; cbn [dma_at]; [unfold dma_load_at|unfold dma_store_at]; repeat e_step. Qed.

Lemma tick_console s : same_console s (Emulator.tick_peripherals s).
Proof.
  unfold Emulator.tick_peripherals. generalize (Z.to_nat (tick_accum_ s / CYCLES_PER_TICK)). intros n.
  revert s. induction n as [|n IH]; intros s; [done|]. cbn [Emulator.tick_loop]. case_match; [|done].
  exact (IH (Emulator.tick_once s)).
Qed.

(** ** Instructions that do not touch the UART *)
Section Quiet.
Context `{FloatOps} (path : HostPath) (i : Instruction) (t : Emulator) (Ht : emu_wf t) (Hb : bare t).

Lemma scalar_console (st : bool) :
  let ins := if negb st then ILoad (Instruction.rd i) (Instruction.ra i) (Instruction.simm16 i)
    else IStore (Instruction.rd i) (Instruction.ra i) (Instruction.simm16 i) in
  scalar (Instruction.rd i) = true -> scalar (Instruction.ra i) = true ->
  exec ins (abs t) <> Outside -> same_console t ((if st then Emulator.op_store else Emulator.op_load) i t).2.
Proof using Ht Hb.
  intros ins Hd Ha Hex. set (ea := u32 (reg (abs t) (Instruction.ra i) + Instruction.simm16 i)).
  assert (Hlow : ea < MMIO_BASE).
  { destruct (Z.leb_spec MMIO_BASE ea) as [Hge|]; [|done]. destruct Hex.
    apply Z.leb_le in Hge. subst ins ea. destruct st; cbn [negb exec]; by rewrite Hge. }
  assert (Hrun : (if st then Emulator.op_store else Emulator.op_load) i t = (if st then store_at i ea else load_at i ea) t).
  { destruct st; [unfold Emulator.op_store|unfold Emulator.op_load];
      by rewrite (bind_ok _ _ _ _ _ (address_run t i Ht Ha)), get_run, (bare_mmu t Hb). }
  rewrite Hrun. destruct st.
  - destruct (reg_value t (Instruction.rd i) Ht) as [Hv _]; [apply Instruction.rd_range|done|].
    destruct (store_at_run t i ea _ Ht Hlow Hv) as (f & _ & ->). done.
  - by apply (e_load_at (same_console t) i ea).
Qed.
Lemma dma_console (load : bool) :
  scalar (Instruction.rd i) = true -> scalar (Instruction.ra i) = true -> same_console t (op_dma load i t).2.
Proof using Ht Hb.
  intros Hd Ha.
  destruct (reg_value t (Instruction.rd i) Ht) as [Hdv _]; [apply Instruction.rd_range|done|].
  destruct (reg_value t (Instruction.ra i) Ht) as [Hav _]; [apply Instruction.ra_range|done|].
  rewrite (op_dma_off load i _ _ t (bare_mmu t Hb) Hdv Hav). by apply c_dma_at.
Qed.
Lemma store_vr_console : same_console t (Emulator.op_store_vr i t).2.
Proof using Type.
  unfold Emulator.op_store_vr. assert (Hk : keepsC (same_console t) (Emulator.op_store_vr i)); [|by apply Hk].
  unfold Emulator.op_store_vr. do 2 (e_step; [e_step|]). e_step; [|e_step].
  intros s Hs. split; [|done]. unfold zoom. by destruct (VirtualSRAM.write_bytes _ _ _).
Qed.

Lemma handler_console ins h :
  decode i = Some ins -> exec ins (abs t) <> Outside ->
  Emulator.dispatch_table_ path (Instruction.opcode i) = Some h -> same_console t (h i t).2.
Proof using Ht Hb.
  intros Hdec Hex Hh. destruct (opcode_of (Instruction.opcode i)) as [o|] eqn:Ho.
  2: { unfold Emulator.dispatch_table_ in Hh. by rewrite Ho in Hh. }
  pose proof Ho as Hc. apply opcode_of_Some in Hc. destruct (pure_op o) eqn:Hp.
  { rewrite Hc in Hh. by apply (e_pure (same_console t) path o h i Hp Hh). }
  unfold Emulator.dispatch_table_ in Hh. rewrite Ho in Hh. unfold decode, given in Hdec. rewrite Ho in Hdec.
  destruct o; try discriminate Hp; injection Hh as <-; cbv beta iota zeta in Hdec;
    (case_match eqn:Hg; [|done]); injection Hdec as <-; apply andb_true_iff in Hg as [Hd Ha].
  - by apply (scalar_console false).
  - by apply (scalar_console true).
  - apply store_vr_console.
  - by apply (dma_console true).
  - by apply (dma_console false).
Qed.
Lemma execute_console :
  match opcode_of (Instruction.opcode i), decode i with
  | Some _, Some ins => exec ins (abs t) <> Outside -> same_console t (Emulator.execute path i t).2
  | None, _ => same_console t (Emulator.execute path i t).2
  | _, _ => True
  end.
Proof using Ht Hb.
  destruct (opcode_of (Instruction.opcode i)) as [o|] eqn:Ho.
  - destruct (decode i) as [ins|] eqn:Hi; [|done]. intros Hex.
    destruct (Emulator.dispatch_table_ path (Instruction.opcode i)) as [h|] eqn:Hd.
    2: { unfold Emulator.dispatch_table_ in Hd. rewrite Ho in Hd. by destruct o. }
    pose proof (handler_console ins h Hi Hex Hd) as Hc. destruct (h i t) as [[c|e|u] s'] eqn:Hh.
    + by rewrite (execute_run _ _ _ _ _ _ Hd Hh).
    + by destruct (execute_fail _ _ _ _ _ _ Hd Hh) as (r & -> & _).
    + by destruct (execute_fail _ _ _ _ _ _ Hd Hh) as (r & -> & _).
  - unfold Emulator.execute, Emulator.dispatch_table_. rewrite Ho.
    rewrite (bind_ok Emulator.prev_pc _ t _ t eq_refl), get_run. by rewrite (bare_mtvec t Hb).
Qed.
End Quiet.

(** ** Accesses of the UART *)
Lemma bus_uart o ea :
  in_uart ea = true ->
  Bus.read32 scratchpad_ (Emulator.bus_devices o) ea = Emulator.uart_read ea /\
  forall v, Bus.write32 scratchpad_ Emulator.put_scratchpad (Emulator.bus_devices o) ea v = Emulator.uart_write ea v.
Proof.
  intros Hu. unfold in_uart in Hu. apply andb_true_iff in Hu as [H1%Z.leb_le H2%Z.ltb_lt].
  change UART with 0x3F01000 in *. unfold Bus.read32, Bus.write32, Bus.route, Bus.is_mmio, Emulator.bus_devices, Emulator.devices_, Bus.add_device.
  assert (Hm : MMIO_BASE <=? ea = true) by (apply Z.leb_le; change MMIO_BASE with 0x3F00000; lia). rewrite Hm.
  assert (Ht : Bus.holds ea (Bus.mkDevice MMIO_BASE 0x1000 (Some Emulator.timer_read) (Some Emulator.timer_write)) = false).
  { unfold Bus.holds. cbn [base size]. apply andb_false_iff. right. apply Z.ltb_ge. change (u32 (MMIO_BASE + 0x1000)) with 0x3F01000. lia. }
  assert (Hd : Bus.holds ea (Bus.mkDevice (u32 (MMIO_BASE + UART_BASE)) 0x1000 (Some Emulator.uart_read) (Some Emulator.uart_write)) = true).
  { unfold Bus.holds. cbn [base size]. apply andb_true_iff. split; [apply Z.leb_le|apply Z.ltb_lt].
    - change (u32 (MMIO_BASE + UART_BASE)) with 0x3F01000. lia.
    - change (u32 (u32 (MMIO_BASE + UART_BASE) + 0x1000)) with 0x3F02000. lia. }
  destruct o; cbn [app List.find]; by rewrite Ht, Hd.
Qed.
(** The offset the device sees. *)
Lemma port_offset ea : in_uart ea = true -> u32 (u32 (ea - MMIO_BASE) - UART_BASE) = ea - UART.
Proof.
  unfold in_uart. intros [H1%Z.leb_le H2%Z.ltb_lt]%andb_true_iff. unfold UART, MMIO_BASE, UART_BASE in *.
  rewrite (u32_small (ea - _)) by (unfold fits; lia). rewrite u32_small by (unfold fits; lia). lia.
Qed.
Lemma send_word v buf rx :
  UartDevice.write_reg UART_TX v (mkUart buf rx) =
  let '(l, rest) := lines buf [Z.land v 0xFF] in (mkUart rest rx, map UartDevice.tx_line l).
Proof.
  unfold UartDevice.write_reg. rewrite Z.eqb_refl. cbn [lines].
  destruct (_ || _); cbn [map]; reflexivity.
Qed.

Section Port.
Context (i : Instruction) (t : Emulator) (out : list string) (buf rx : string).
Context (Ht : console t out buf rx).
Context (Hd : scalar (Instruction.rd i) = true) (Ha : scalar (Instruction.ra i) = true).
Let ea := u32 (reg (abs t) (Instruction.ra i) + Instruction.simm16 i).
Context (Hu : in_uart ea = true).

Lemma op_load_port :
  exists c t', Emulator.op_load i t = (Ok c, t') /\ abs t' = set_reg (Instruction.rd i) (port_word rx (ea - UART)) (abs t) /\
    mmu_ t' = mmu_ t /\ csr_ t' = csr_ t /\ same_console t t'.
Proof using All.
  destruct Ht as [Hwf Hb _ _ Hua]. destruct (axi_issue_run t ea 4 false Hwf) as (b & f & Hi & _).
  destruct (reg_write t (Instruction.rd i) (port_word rx (ea - UART)) Hwf) as (r & Hr & <-); [apply Instruction.rd_range|done|].
  exists (cycle_weight (code LOAD) 0), (Emulator.put_regs r (Emulator.put_axi f t)). split; [|done].
  unfold Emulator.op_load. rewrite (bind_ok _ _ _ _ _ (address_run t i Hwf Ha)), get_run, (bare_mmu t Hb).
  fold ea. change (load_at i ea t = (Ok (cycle_weight (code LOAD) 0), Emulator.put_regs r (Emulator.put_axi f t))).
  unfold load_at. rewrite (bind_ok _ _ _ _ _ Hi).
  assert (Hrd : Emulator.bus_read32 ea (Emulator.put_axi f t) = (Ok (port_word rx (ea - UART)), Emulator.put_axi f t)).
  { unfold Emulator.bus_read32. rewrite get_run, (proj1 (bus_uart _ ea Hu)). unfold Emulator.uart_read, gets.
    change (uart_ (Emulator.put_axi f t)) with (uart_ t). by rewrite port_offset, Hua. }
  rewrite (bind_ok _ _ _ _ _ Hrd).
  by rewrite (bind_ok _ _ _ _ _ (write_gpr_run (Emulator.put_axi f t) _ _ r Hr)).
Qed.

Definition sent_bytes : list Z := if ea - UART =? UART_TX then [Z.land (reg (abs t) (Instruction.rd i)) 0xFF] else [].
Lemma op_store_port :
  exists c t', Emulator.op_store i t = (Ok c, t') /\ abs t' = abs t /\
    mmu_ t' = mmu_ t /\ csr_ t' = csr_ t /\ verbose_ t' = verbose_ t /\ debugger_ t' = debugger_ t /\
    let '(l, rest) := lines buf sent_bytes in
    uart_ t' = mkUart rest rx /\ stdout t' = out ++ map UartDevice.tx_line l.
Proof using All.
  destruct Ht as [Hwf Hb _ Hout Hua]. destruct (axi_issue_run t ea 4 true Hwf) as (b & f & Hi & _).
  destruct (reg_value t (Instruction.rd i) Hwf) as [Hv _]; [apply Instruction.rd_range|done|].
  unfold sent_bytes. set (v := reg (abs t) (Instruction.rd i)) in *.
  unfold Emulator.op_store. rewrite (bind_ok _ _ _ _ _ (address_run t i Hwf Ha)), get_run, (bare_mmu t Hb).
  fold ea. cbn [ret]. unfold bind at 1. cbn [ret].
  rewrite (bind_ok _ _ _ _ _ (read_gpr_run _ _ _ Hv)), (bind_ok _ _ _ _ _ Hi).
  assert (Hwr : Emulator.bus_write32 ea v (Emulator.put_axi f t) = Emulator.uart_write ea v (Emulator.put_axi f t)).
  { unfold Emulator.bus_write32. by rewrite get_run, (proj2 (bus_uart _ ea Hu)). }
  unfold bind at 1. rewrite Hwr. unfold Emulator.uart_write. rewrite (port_offset ea Hu).
  change (uart_ (Emulator.put_axi f t)) with (uart_ t). rewrite Hua.
  destruct (Z.eqb_spec (ea - UART) UART_TX) as [->|Hne].
  - rewrite send_word. destruct (lines buf _) as [l rest]. do 2 eexists. split; [reflexivity|].
    repeat (split; [reflexivity|]).
    exact (f_equal (fun o => o ++ map UartDevice.tx_line l) Hout).
  - unfold UartDevice.write_reg. destruct (Z.eqb_spec (ea - UART) UART_TX); [done|]. do 2 eexists. split; [reflexivity|].
    repeat (split; [reflexivity|]).
    exact (f_equal (fun o => o ++ []) Hout).
Qed.
End Port.

(** ** Steps *)
Section Steps.
Context `{FloatOps} (path : HostPath).

Lemma noted_silent s : s.(verbose_) = false -> noted s = s.
Proof using Type. unfold noted. by intros ->. Qed.
(** The end of a silent step. *)
Lemma finish_silent p i c s :
  s.(verbose_) = false ->
  (do! modify Emulator.tick_peripherals in
   let! s' := get in
   if s'.(verbose_) then Emulator.log_step p i c else ret tt) s = (Ok tt, Emulator.tick_peripherals s).
Proof using Type.
  intros Hv. rewrite (bind_ok (modify Emulator.tick_peripherals) _ s tt _ eq_refl), get_run.
  destruct (tick_console s) as (E & _). by rewrite E, Hv.
Qed.

(** A step that does not touch the UART. *)
Lemma step_quiet s :
  emu_wf s -> bare s -> s.(verbose_) = false -> istep (abs s) <> Outside -> same_console s (Emulator.step path s).2.
Proof using Type.
  intros Hs Hb Hv Hi. destruct (halt (regs_ s)) eqn:Hh; [unfold Emulator.step; by rewrite get_run, Hh|].
  unfold istep in Hi. cbn [abs a_regs a_mem] in Hi. rewrite Hh in Hi.
  destruct (Z.leb_spec MMIO_BASE (pc (regs_ s))) as [|Hlow]; [done|].
  rewrite (step_body path s (bare_mie s Hb) Hh), body_fetch by done.
  destruct (fetched_same s Hs Hb) as (Hs2 & Hb2 & Ha2 & _).
  assert (Hc2 : same_console s (fetched s)) by (unfold fetched; by rewrite noted_silent).
  destruct (_ <? _); [by rewrite noted_silent|]. cbv zeta.
  set (raw := le_val _) in *. pose proof (execute_console path (mkInstruction raw) (fetched s) Hs2 Hb2) as He.
  assert (Hx : same_console (fetched s) (Emulator.execute path (mkInstruction raw) (fetched s)).2).
  { destruct (opcode_of _) as [o|]; [|done]. destruct (decode _) as [ins|]; [|done]. apply He. by rewrite Ha2. }
  unfold bind at 1. destruct (Emulator.execute _ _ _) as [[c|e|u] s3]; cbn [snd] in Hx;
    [|by apply (console_trans s (fetched s))..].
  assert (Hc3 : same_console s s3) by by apply (console_trans s (fetched s)).
  rewrite finish_silent by (by destruct Hc3 as [-> _]). apply (console_trans s s3 _ Hc3), tick_console.
Qed.

(** A step whose handler completes. *)
Lemma step_port_handler s ins raw h c t :
  emu_wf s -> bare s -> s.(verbose_) = false -> current (abs s) = Some ins ->
  raw = le_val (Buffer.peek s.(scratchpad_) s.(regs_).(pc) 4) ->
  Emulator.dispatch_table_ path (Instruction.opcode (mkInstruction raw)) = Some h ->
  h (mkInstruction raw) (fetched s) = (Ok c, t) -> t.(verbose_) = false -> mmu_ t = mmu_ (fetched s) -> csr_ t = csr_ (fetched s) ->
  exists s', Emulator.step path s = (Ok tt, s') /\ abs s' = abs t /\ emu_wf s' /\ bare s' /\ same_console t s'.
Proof using Type.
  intros Hs Hb Hv Hc -> Hd Hrun Hvt Hm Hcsr. destruct (current_word _ _ Hc) as (Hh & Hlow & Hin & _). cbn [abs a_regs a_mem] in *.
  destruct (fetched_same s Hs Hb) as (_ & Hb2 & _).
  pose proof (step_body path s (bare_mie s Hb) Hh) as Hst. rewrite body_fetch in Hst by done.
  destruct (Z.ltb_spec (blen (scratchpad_ s)) (pc (regs_ s) + 4)) as [|_]; [lia|]. cbv zeta in Hst.
  rewrite (bind_ok _ _ _ _ _ (execute_run _ _ _ _ _ _ Hd Hrun)), finish_silent in Hst by exact Hvt.
  eexists. split; [exact Hst|]. set (t' := retire _ _ _ _) in *.
  pose proof (step_keeps path s Hs) as [Hk _]. rewrite Hst in Hk.
  destruct (tick_loop_same (Z.to_nat (tick_accum_ t' / CYCLES_PER_TICK)) t') as (_ & Tm & Tc & _).
  split; [exact (tick_loop_abs _ t')|]. split; [exact Hk|]. split; [|apply (console_trans t t'); [done|apply tick_console]].
  apply (bare_eq (fetched s)); [by rewrite <- Hm|by rewrite <- Hcsr|exact Hb2].
Qed.

Lemma fetched_console s out buf rx : console s out buf rx -> console (fetched s) out buf rx.
Proof using Type.
  intros [Hs Hb Hv Ho Hu]. destruct (fetched_same s Hs Hb) as (Hs2 & Hb2 & _).
  unfold fetched in *. rewrite noted_silent in * by done. by split.
Qed.
Lemma step_load_port s out buf rx d off :
  console s out buf rx -> port_access (abs s) = Some (PortLoad d off) ->
  exists s', Emulator.step path s = (Ok tt, s') /\ abs s' = set_reg d (port_word rx off) (advance (abs s)) /\
    s'.(debugger_) = s.(debugger_) /\ console s' out buf rx.
Proof using Type.
  intros Hc Hx. pose proof (fetched_console s out buf rx Hc) as Hf. pose proof Hc as [Hs Hb Hv Ho Hu].
  destruct (fetched_same s Hs Hb) as (_ & _ & Hfa & Hfd & _).
  unfold port_access in Hx. destruct (current (abs s)) as [ins|] eqn:Hcur; [|done].
  destruct (current_word _ _ Hcur) as (_ & _ & _ & Hdec). cbn [abs a_regs a_mem] in Hdec. set (raw := le_val _) in Hdec.
  destruct ins; try done; cbv zeta in Hx; (destruct (in_uart _) eqn:Hin in Hx; [|done]); [|done]. injection Hx as <- <-.
  destruct (decode_scalar _ true _ _ _ Hdec) as (Hop & -> & -> & -> & Hd & Ha).
  change (reg (abs s)) with (reg (advance (abs s))) in *. rewrite <- Hfa in *.
  destruct (op_load_port (mkInstruction raw) (fetched s) out buf rx Hf Hd Ha Hin) as (c & t & H1 & H2 & H3 & H4 & H5).
  destruct H5 as (V & O & U & D).
  destruct (step_port_handler s _ raw Emulator.op_load c t Hs Hb Hv Hcur eq_refl) as (s' & G1 & G2 & G3 & G4 & G5 & G6 & G7 & G8);
    [unfold Emulator.dispatch_table_; by rewrite Hop|exact H1|rewrite V; apply Hf|done|done|].
  exists s'. split; [done|]. split; [congruence|]. split; [congruence|].
  split; [done|done|rewrite G5, V; apply Hf|rewrite G6, O; apply Hf|rewrite G7, U; apply Hf].
Qed.
Lemma step_store_port s out buf rx r off :
  console s out buf rx -> port_access (abs s) = Some (PortStore r off) ->
  exists s', Emulator.step path s = (Ok tt, s') /\ abs s' = advance (abs s) /\ s'.(debugger_) = s.(debugger_) /\
    let '(l, rest) := lines buf (if off =? UART_TX then [Z.land (reg (abs s) r) 0xFF] else []) in
    console s' (out ++ map UartDevice.tx_line l) rest rx.
Proof using Type.
  intros Hc Hx. pose proof (fetched_console s out buf rx Hc) as Hf. pose proof Hc as [Hs Hb Hv Ho Hu].
  destruct (fetched_same s Hs Hb) as (_ & _ & Hfa & Hfd & _).
  unfold port_access in Hx. destruct (current (abs s)) as [ins|] eqn:Hcur; [|done].
  destruct (current_word _ _ Hcur) as (_ & _ & _ & Hdec). cbn [abs a_regs a_mem] in Hdec. set (raw := le_val _) in Hdec.
  destruct ins; try done; cbv zeta in Hx; (destruct (in_uart _) eqn:Hin in Hx; [|done]); [done|]. injection Hx as <- <-.
  destruct (decode_scalar _ false _ _ _ Hdec) as (Hop & -> & -> & -> & Hd & Ha).
  change (reg (abs s)) with (reg (advance (abs s))) in *. rewrite <- Hfa in *.
  destruct (op_store_port (mkInstruction raw) (fetched s) out buf rx Hf Hd Ha Hin) as (c & t & H1 & H2 & H3 & H4 & V & D & H5).
  unfold sent_bytes in H5.
  destruct (step_port_handler s _ raw Emulator.op_store c t Hs Hb Hv Hcur eq_refl) as (s' & G1 & G2 & G3 & G4 & G5 & G6 & G7 & G8);
    [unfold Emulator.dispatch_table_; by rewrite Hop|exact H1|rewrite V; apply Hf|done|done|].
  exists s'. split; [done|]. split; [congruence|]. split; [congruence|].
  destruct (lines _ _) as [l rest]. destruct H5 as [U O].
  split; [done|done|rewrite G5, V; apply Hf|by rewrite G6, O|by rewrite G7, U].
Qed.

(** One step of the machine with the UART. *)
Lemma step_console s out buf rx :
  console s out buf rx ->
  match ustep rx (abs s) with
  | (Next a, bs) => exists s', Emulator.step path s = (Ok tt, s') /\ abs s' = a /\ s'.(debugger_) = s.(debugger_) /\
      let '(l, rest) := lines buf bs in console s' (out ++ map UartDevice.tx_line l) rest rx
  | (Fault e a, _) => exists s', Emulator.step path s = (Throw e, s') /\ abs s' = a /\ s'.(stdout) = out
  | (Halted, _) => Emulator.step path s = (Ok tt, s)
  | (Outside, _) => True
  end.
Proof using Type.
  intros Hc. pose proof Hc as [Hs Hb Hv Ho Hu]. unfold ustep. destruct (port_access (abs s)) as [x|] eqn:Hx.
  2: { pose proof (step_implements path s Hs Hb) as Hall. pose proof (step_quiet s Hs Hb Hv) as Hq.
       destruct (istep (abs s)) as [a|e a| |]; [| |exact Hall|done].
       - destruct Hall as (s' & H1 & H2 & H3 & H4 & H5). rewrite H1 in Hq. destruct Hq as (Q1 & Q2 & Q3 & _); [done|]. cbn [snd] in *.
         exists s'. split; [done|]. split; [done|]. split; [done|]. cbn [lines map]. rewrite app_nil_r. split; [done|exact H4|congruence..].
       - destruct Hall as (s' & H1 & H2). rewrite H1 in Hq. destruct Hq as (_ & Q2 & _); [done|]. cbn [snd] in Q2.
         exists s'. split; [done|]. split; [done|congruence]. }
  destruct x as [d off|r off].
  - destruct (step_load_port s out buf rx d off Hc Hx) as (s' & H1 & H2 & H3 & H4). exists s'.
    split; [done|]. split; [done|]. split; [done|]. cbn [lines map]. by rewrite app_nil_r.
  - exact (step_store_port s out buf rx r off Hc Hx).
Qed.
End Steps.

(** ** Runs *)
Lemma ustep_running `{FloatOps} rx a a1 bs : ustep rx a = (Next a1, bs) -> a.(a_regs).(halt) = false.
Proof.
  unfold ustep, port_access, current, istep. by destruct (halt (a_regs a)).
Qed.
Lemma ustep_stopped `{FloatOps} rx a : (ustep rx a).1 = Halted <-> a.(a_regs).(halt) = true.
Proof.
  unfold ustep. destruct (port_access a) as [[d off|r off]|] eqn:Hp; [..|apply halted_iff];
    (split; [done|]; unfold port_access, current in Hp; intros Hh; by rewrite Hh in Hp).
Qed.

Section Run.
Context `{FloatOps} (path : HostPath).
Lemma unwatched_eq s s' : s'.(debugger_) = s.(debugger_) -> unwatched s -> unwatched s'.
Proof using Type. intros E Hu p. rewrite E. apply Hu. Qed.

Lemma sends_loop rx n a bs a' :
  sends rx n a bs a' -> forall s out buf, console s out buf rx -> unwatched s -> abs s = a ->
  exists s1, abs s1 = a' /\ unwatched s1 /\
    (let '(l, rest) := lines buf bs in console s1 (out ++ map UartDevice.tx_line l) rest rx) /\
    forall k, Emulator.run_loop path (n + k) s = Emulator.run_loop path k s1.
Proof using Type.
  induction 1 as [a|n a a1 a' bs bs' Hst Hn IH]; intros s out buf Hc Hu Ha.
  { exists s. cbn [lines map]. by rewrite app_nil_r. }
  subst a. pose proof (step_console path s out buf rx Hc) as Hs. rewrite Hst in Hs. destruct Hs as (s1 & H1 & H2 & H3 & H4).
  rewrite lines_app. destruct (lines buf bs) as [l rest]. pose proof (unwatched_eq s s1 H3 Hu) as Hu1.
  destruct (IH s1 _ _ H4 Hu1 H2) as (s2 & E1 & E2 & E3 & E4). exists s2. split; [done|]. split; [done|].
  destruct (lines rest bs') as [l' rest']. split; [by rewrite map_app, app_assoc|].
  intros k. cbn [Nat.add Emulator.run_loop]. rewrite get_run, stopped_halted by done.
  pose proof (ustep_running rx _ _ _ Hst) as Hh. cbn [abs a_regs] in Hh. by rewrite Hh, (bind_ok _ _ _ _ _ H1).
Qed.
Lemma flush_prints s out buf rx :
  s.(stdout) = out -> s.(uart_) = mkUart buf rx ->
  exists s', Emulator.flush_uart s = (Ok tt, s') /\ abs s' = abs s /\
    s'.(stdout) = out ++ map UartDevice.tx_line match buf with EmptyString => [] | _ => [buf] end.
Proof using Type.
  intros Ho Hu. unfold Emulator.flush_uart. rewrite Hu. unfold UartDevice.flush.
  destruct buf; eexists; (split; [reflexivity|]); (split; [reflexivity|]);
    [exact (f_equal (fun o => o ++ []) Ho)|exact (f_equal (fun o => o ++ [_]) Ho)].
Qed.
End Run.

(** C6: what a program prints. On a machine in silent mode, without
    paging, enabled interrupts, trap vector or breakpoints, let the machine
    with the UART send the bytes [bs] in [n] steps. If it halts there, [run]
    ends with any bound of at least [n], in its registers and memories, and has
    printed exactly those bytes after what was buffered, in order, a line for
    each newline or 256 characters, and what was left as the last line (each
    by [tx_line]: up to its first NUL, a newline added). If it stops there with an error, [run] throws that error and has printed the
    complete lines only: the rest stays in the buffer. *)
Theorem run_prints `{FloatOps} path s n bs a :
  ready s -> s.(verbose_) = false -> sends s.(uart_).(rx_buffer_) n (abs s) bs a ->
  let next := (ustep s.(uart_).(rx_buffer_) a).1 in
  let text := lines s.(uart_).(tx_buffer_) bs in
  (next = Halted -> forall fuel, (n <= fuel)%nat ->
     exists s', Emulator.run path fuel s = (Ok true, s') /\ abs s' = a /\
       s'.(stdout) = s.(stdout) ++ map UartDevice.tx_line (all_lines text)) /\
  (forall e a', next = Fault e a' -> forall fuel, (n < fuel)%nat ->
     exists s', Emulator.run path fuel s = (Throw e, s') /\ abs s' = a' /\
       s'.(stdout) = s.(stdout) ++ map UartDevice.tx_line text.1).
Proof.
  intros [Hs Hb Hu] Hv Hn next text. set (rx := rx_buffer_ (uart_ s)) in *.
  assert (Hc : console s s.(stdout) (tx_buffer_ (uart_ s)) rx) by (split; [done..|]; by destruct (uart_ s)).
  destruct (sends_loop path rx n (abs s) bs a Hn s _ _ Hc Hu eq_refl) as (s1 & Ha & Hu1 & Hc1 & Hk).
  fold text in Hc1. destruct text as [l rest]. pose proof Hc1 as [_ _ _ Ho1 Hua1]. split.
  - intros Hh%ustep_stopped fuel Hle. destruct (flush_prints s1 _ _ _ Ho1 Hua1) as (s' & Hf & Ha' & Ho').
    exists s'. split; [|split; [congruence|]].
    + assert (Hl : Emulator.run_loop path fuel s = (Ok true, s1)).
      { replace fuel with (n + (fuel - n))%nat by lia. rewrite Hk. rewrite <- Ha in Hh. cbn [abs a_regs] in Hh.
        destruct (fuel - n)%nat; cbn [Emulator.run_loop]; rewrite get_run, stopped_halted, Hh by done; done. }
      unfold Emulator.run. by rewrite (bind_ok _ _ _ _ _ Hl), (bind_ok _ _ _ _ _ Hf).
    + rewrite Ho'. unfold all_lines. cbn [fst snd]. rewrite map_app, app_assoc. by destruct rest.
  - intros e a' He fuel Hlt. pose proof (step_console path s1 _ _ _ Hc1) as Hst. rewrite Ha in Hst.
    subst next. destruct (ustep rx a) as [o bs'] eqn:Hus. cbn [fst] in He. subst o. destruct Hst as (s' & H1 & H2 & H3).
    exists s'. split; [|by split]. unfold Emulator.run. replace fuel with (n + S (fuel - n - 1))%nat by lia. unfold bind at 1.
    rewrite Hk. cbn [Emulator.run_loop]. rewrite get_run, stopped_halted by done.
    assert (Hh : halt (regs_ s1) = false).
    { apply not_true_is_false. intros Hh. pose proof (proj2 (ustep_stopped rx (abs s1)) Hh) as Hx. rewrite Ha, Hus in Hx. done. }
    rewrite Hh. unfold bind. by rewrite H1.
Qed.

(** Hi, a newline and an exclamation mark. *)
Definition hello : Emulator :=
  (Emulator.load_program ([enc.movi 1 0x3F01; enc.movi 2 0x1000; enc.mul 1 1 2]
    ++ concat (map (fun c => [enc.movi 3 c; enc.store 3 1 0]) [72; 105; 10; 33]) ++ [enc.halt]) (Emulator.create 256 64)).2.
Lemma run_prints_witness :
  exists s', Emulator.run PathScalar 20 hello = (Ok true, s') /\
    s'.(stdout) = [UartDevice.tx_line ("Hi" ++ String UartDevice.newline ""); UartDevice.tx_line "!"]%string.
Proof.
  assert (Hr : ready hello).
  { split; [|by split; vm_compute|done]. apply load_program_keeps. apply create_wf; vm_compute; split; congruence. }
  assert (Hn : exists a, sends "" 12 (abs hello) [72; 105; 10; 33] a /\ (ustep "" a).1 = Halted).
  { eexists. split.
    - change [72; 105; 10; 33] with ([] ++ [] ++ [] ++ [] ++ [72] ++ [] ++ [105] ++ [] ++ [10] ++ [] ++ [33] ++ [] ++ []).
      do 12 (eapply sends_step; [by vm_compute|]). apply sends_done.
    - by vm_compute. }
  destruct Hn as (a & Hn & Hh). destruct (run_prints PathScalar hello 12 _ a Hr eq_refl Hn) as [Hp _].
  destruct (Hp Hh 20%nat ltac:(lia)) as (s' & H1 & _ & H2). exists s'. split; [exact H1|exact H2].
Defined.
