(* ===== verification/Symbolic.v ===== *)
(** * Symbolic execution of guest code

    Code in the scratchpad and one lemma per instruction: what the step at a
    given word of the code does to registers and memories that are not known.
    [load_program] puts the code in place. *)

From S2P Require Import Prelude Text Isa Memory Registers Interrupt Devices Bus Float Profiler Interconnect Target Host Mmu Translate Emulator EmulatorWf Execute Dma Traps Frame Safety Fast Arch.
#[local] Open Scope Z_scope.
Import ISA.

(** ** Code in memory *)

(** The words [ws] are at the start of the scratchpad. *)
Definition code_at (ws : list Z) (m : buffer) : Prop :=
  4 * zlen ws <= m.(blen) /\ forall k w, ws !! k = Some w -> le_val (Buffer.peek m (4 * Z.of_nat k) 4) = w.

Lemma code_at_poke ws m a l : code_at ws m -> 4 * zlen ws <= a -> code_at ws (Buffer.poke m a l).
Proof.
  intros [Hl Hc] Ha. split; [done|]. intros k w Hk. rewrite <- (Hc k w Hk). f_equal.
  apply lookup_lt_Some in Hk. apply Buffer.peek_poke_disjoint. unfold zlen in Ha. lia.
Qed.

(** A running machine, by the parts an instruction changes. *)
Definition st (r : list Z) (v : list (list Z)) (p : Z) (fl : StatusFlags) (m ram : buffer) : Arch :=
  mkArch (mkRegs r v p false fl) m ram.
Definition R (r : list Z) (j : Z) : Z := default 0 (zget r j).

Lemma R_zset_eq r d v : 0 <= d < zlen r -> R (zset r d v) d = v.
Proof. intros. unfold R. by rewrite zget_zset_eq. Qed.
Lemma R_zset_ne r d v j : 0 <= d -> d <> j -> R (zset r d v) j = R r j.
Proof. intros. unfold R. by rewrite zget_zset_ne. Qed.

(** The same with register 0, which reads as zero and ignores writes. *)
Definition G (r : list Z) (j : Z) : Z := if j =? 0 then 0 else R r j.
Definition W (r : list Z) (d v : Z) : list Z := if d =? 0 then r else zset r d v.
Lemma G_pos r j : 0 < j -> G r j = R r j.
Proof. intros Hj. unfold G. by destruct (Z.eqb_spec j 0); [lia|]. Qed.
Lemma W_pos r d v : 0 < d -> W r d v = zset r d v.
Proof. intros Hj. unfold W. by destruct (Z.eqb_spec d 0); [lia|]. Qed.
Lemma zlen_W r d v : zlen (W r d v) = zlen r.
Proof. unfold W. by destruct (d =? 0); [|rewrite zlen_zset]. Qed.
Lemma G_W r d v j :
  0 <= d < zlen r -> 0 <= j -> G (W r d v) j = if j =? 0 then 0 else if j =? d then v else G r j.
Proof.
  intros Hd Hj. unfold G, W. destruct (Z.eqb_spec j 0); [done|]. destruct (Z.eqb_spec d 0) as [->|].
  - by rewrite (proj2 (Z.eqb_neq j 0)) by done.
  - destruct (Z.eqb_spec j d) as [->|]; [by apply R_zset_eq|by apply R_zset_ne; lia].
Qed.

Section Symbolic.
Context `{FloatOps} (ws : list Z).
Notation "a ⟶ b" := (steps_to a b) (at level 70).

(** Fetch and decode from the code. *)
Lemma run_ins k w ins r v p fl m ram a' :
  code_at ws m -> 4 * zlen ws <= MMIO_BASE -> ws !! k = Some w -> p = 4 * Z.of_nat k ->
  decode (mkInstruction w) = Some ins -> exec ins (st r v (p + 4) fl m ram) = Next a' ->
  st r v p fl m ram ⟶ a'.
Proof.
  intros [Hl Hc] Hlow Hk -> Hd He. pose proof (lookup_lt_Some _ _ _ Hk) as Hlt. unfold zlen in *.
  unfold steps_to, istep. cbn [st a_regs a_mem halt pc].
  destruct (Z.leb_spec MMIO_BASE (4 * Z.of_nat k)); [lia|].
  destruct (Z.ltb_spec (blen m) (4 * Z.of_nat k + 4)); [lia|].
  rewrite (Hc k w Hk), Hd.
  assert (Ho : is_Some (opcode_of (Instruction.opcode (mkInstruction w)))).
  { unfold decode in Hd. cbv beta iota zeta in Hd. by destruct (opcode_of _). }
  destruct Ho as [o ->]. unfold advance, jump, st. cbn [a_regs pc].
  rewrite u32_small by (unfold fits, MMIO_BASE in *; lia). exact He.
Qed.

Lemma reg_st r v p fl m ram j : reg (st r v p fl m ram) j = G r j.
Proof. reflexivity. Qed.
Lemma set_reg_st r v p fl m ram d x : set_reg d x (st r v p fl m ram) = st (W r d x) v p fl m ram.
Proof. unfold set_reg, W. by destruct (d =? 0). Qed.
Lemma scalar_access op x a imm (load : bool) (i := mkInstruction (enc.itype op x a imm)) :
  op = (if load then LOAD else STORE) -> 0 <= x < 16 -> 0 <= a < 16 ->
  decode i = Some (if load then ILoad x a (s16 (imm mod 2 ^ 16)) else IStore x a (s16 (imm mod 2 ^ 16))).
Proof using Type.
  intros -> Hx Ha. destruct (itype_fields (if load then LOAD else STORE) x a imm) as (H1 & H2 & H3 & H4).
  assert (Hsi : Instruction.simm16 i = s16 (imm mod 2 ^ 16)).
  { unfold Instruction.simm16. change (Z.land _ IMM_MASK) with (Instruction.imm16 i). by rewrite <- H4. }
  unfold decode. subst i. rewrite H1, opcode_of_code, H2, H3, Hsi, !Z.mod_small by lia.
  unfold given, scalar. by destruct load, (Z.ltb_spec x 16), (Z.ltb_spec a 16); try lia.
Qed.
Lemma decode_movi d imm :
  0 <= d < 16 -> 0 <= imm < 2 ^ 16 -> decode (mkInstruction (enc.movi d imm)) = Some (IMoveImm d imm).
Proof using Type.
  intros Hd Hi. destruct (itype_fields MOVI d 0 imm) as (H1 & H2 & H3 & H4).
  unfold decode, enc.movi. rewrite H1, opcode_of_code, H2, H4, !Z.mod_small by lia.
  cbv zeta. unfold given, scalar. by destruct (Z.ltb_spec d 16); [|lia].
Qed.
(** One lemma per instruction, with its registers in range. *)
Section Steps.
Context (r : list Z) (v : list (list Z)) (k : nat) (fl : StatusFlags) (m ram : buffer).
Context (Hcode : code_at ws m) (Hlow : 4 * zlen ws <= MMIO_BASE).
Let p := 4 * Z.of_nat k.

Lemma g_movi d imm :
  ws !! k = Some (enc.movi d imm) -> 0 <= d < 16 -> 0 <= imm < 2 ^ 16 ->
  st r v p fl m ram ⟶ st (W r d imm) v (p + 4) fl m ram.
Proof using Hcode Hlow.
  intros Hk Hd Hi. eapply run_ins; [done|done|done|done|by apply decode_movi|].
  cbn [exec]. by rewrite set_reg_st.
Qed.

Lemma g_alu op d a b :
  op = ADD \/ op = SUB \/ op = MUL -> ws !! k = Some (enc.rtype op d a b 0) ->
  0 <= d < 16 -> 0 <= a < 16 -> 0 <= b < 16 ->
  exists fl', st r v p fl m ram ⟶ st (W r d (alu op (G r a) (G r b))) v (p + 4) fl' m ram.
Proof using Hcode Hlow.
  intros Hop Hk Hd Ha Hb. destruct (rtype_fields op d a b 0) as (H1 & H2 & H3 & H4 & H5).
  eexists. eapply (run_ins k _ (IAlu op d a b)); [done|done|done|done| |].
  - unfold decode. rewrite H1, opcode_of_code, H2, H3, H4, !Z.mod_small by lia. unfold given, scalar.
    destruct (Z.ltb_spec d 16), (Z.ltb_spec a 16), (Z.ltb_spec b 16); try lia. by destruct Hop as [->|[->| ->]].
  - cbn [exec]. rewrite !reg_st, set_reg_st. reflexivity.
Qed.

(** Scalar accesses below the peripherals. *)
Lemma g_load d a imm ea :
  ws !! k = Some (enc.load d a imm) -> 0 <= d < 16 -> 0 <= a < 16 ->
  u32 (G r a + s16 (imm mod 2 ^ 16)) = ea -> ea < MMIO_BASE -> ea + 4 <= m.(blen) ->
  st r v p fl m ram ⟶ st (W r d (le_val (Buffer.peek m ea 4))) v (p + 4) fl m ram.
Proof using Hcode Hlow.
  intros Hk Hd Ha He Hio Hin.
  eapply run_ins; [done|done|exact Hk|done|exact (scalar_access LOAD d a imm true eq_refl Hd Ha)|].
  cbn [exec]. rewrite reg_st, He. destruct (Z.leb_spec MMIO_BASE ea); [lia|].
  unfold accessed. cbn [st a_mem]. destruct (Z.leb_spec (ea + 4) (blen m)); [|lia]. by rewrite <- set_reg_st.
Qed.
Lemma g_store x a imm ea :
  ws !! k = Some (enc.store x a imm) -> 0 <= x < 16 -> 0 <= a < 16 ->
  u32 (G r a + s16 (imm mod 2 ^ 16)) = ea -> ea < MMIO_BASE -> ea + 4 <= m.(blen) ->
  st r v p fl m ram ⟶ st r v (p + 4) fl (Buffer.poke m ea (le_bytes 4 (G r x))) ram.
Proof using Hcode Hlow.
  intros Hk Hd Ha He Hio Hin.
  eapply run_ins; [done|done|exact Hk|done|exact (scalar_access STORE x a imm false eq_refl Hd Ha)|].
  cbn [exec]. rewrite !reg_st, He. destruct (Z.leb_spec MMIO_BASE ea); [lia|].
  unfold accessed. cbn [st a_mem]. destruct (Z.leb_spec (ea + 4) (blen m)); [|lia]. reflexivity.
Qed.

(** Away from register 0. *)
Lemma x_movi d imm :
  ws !! k = Some (enc.movi d imm) -> 0 < d < 16 -> 0 <= imm < 2 ^ 16 ->
  st r v p fl m ram ⟶ st (zset r d imm) v (p + 4) fl m ram.
Proof using Hcode Hlow. intros Hk Hd Hi. rewrite <- W_pos by lia. apply g_movi; (done || lia). Qed.
Lemma x_alu op d a b :
  op = ADD \/ op = SUB \/ op = MUL -> ws !! k = Some (enc.rtype op d a b 0) ->
  0 < d < 16 -> 0 < a < 16 -> 0 < b < 16 ->
  exists fl', st r v p fl m ram ⟶ st (zset r d (alu op (R r a) (R r b))) v (p + 4) fl' m ram.
Proof using Hcode Hlow.
  intros Hop Hk Hd Ha Hb. destruct (g_alu op d a b Hop Hk) as [fl' H']; [lia..|]. exists fl'.
  by rewrite !G_pos, W_pos in H' by lia.
Qed.

Lemma x_bne a b off :
  ws !! k = Some (enc.bne a b off) -> 0 < a < 16 -> 0 < b < 16 -> - 2 ^ 15 <= off < 2 ^ 15 ->
  st r v p fl m ram ⟶
    st r v (if R r a =? R r b then p + 4 else u32 (p + 4 + off)) fl m ram.
Proof using Hcode Hlow.
  intros Hk Ha Hb Hoff. destruct (itype_fields BNE a b off) as (H1 & H2 & H3 & H4).
  assert (Hsi : Instruction.offset (mkInstruction (enc.itype BNE a b off)) = off).
  { unfold Instruction.offset. change (Z.land _ IMM_MASK) with (Instruction.imm16 (mkInstruction (enc.itype BNE a b off))).
    rewrite H4. by apply s16_mod. }
  unfold enc.bne in Hk. rewrite btype_itype in Hk.
  eapply (run_ins k _ (IBranch false a b off)); [done|done|done|done| |].
  - unfold decode. rewrite H1, opcode_of_code, H2, H3, Hsi, !Z.mod_small by lia. unfold given, scalar.
    by destruct (Z.ltb_spec a 16), (Z.ltb_spec b 16); try lia.
  - cbn [exec]. rewrite !reg_st, !G_pos by lia. by destruct (R r a =? R r b).
Qed.

Lemma x_dma (load : bool) d a n dst src (D := if load then m else ram) (S := if load then ram else m) :
  ws !! k = Some (enc.rtype (if load then DMA_LOAD else DMA_STORE) d a 0 n) ->
  0 < d < 16 -> 0 < a < 16 -> 0 <= n < 2 ^ 11 -> R r d = dst -> R r a = src ->
  dst + n <= D.(blen) -> src + n <= S.(blen) -> dst + n < 2 ^ 32 -> src + n < 2 ^ 32 ->
  let M' := Buffer.poke D dst (Buffer.peek S src (Z.to_nat n)) in
  st r v p fl m ram ⟶ (if load then st r v (p + 4) fl M' ram else st r v (p + 4) fl m M').
Proof using Hcode Hlow.
  intros Hk Hd Ha Hn HD HS Hdst Hsrc Hd32 Hs32 M'.
  destruct (rtype_fields (if load then DMA_LOAD else DMA_STORE) d a 0 n) as (H1 & H2 & H3 & H4 & H5).
  eapply (run_ins k _ (IDma load d a n)); [done|done|done|done| |].
  - unfold decode. rewrite H1, opcode_of_code, H2, H3, H5, !Z.mod_small by lia. unfold given, scalar.
    destruct (Z.ltb_spec d 16), (Z.ltb_spec a 16); try lia. by destruct load.
  - cbn [exec]. rewrite !reg_st, !G_pos, HD, HS by lia. cbn [st a_mem a_ram].
    assert (Hsel : (if load then (m, ram) else (ram, m)) = (D, S)) by by destruct load. rewrite Hsel.
    destruct (Z.leb_spec (2 ^ 32) (dst + n)); [lia|]. destruct (Z.leb_spec (2 ^ 32) (src + n)); [lia|].
    destruct (Z.ltb_spec (blen D) (dst + n)); [lia|]. destruct (Z.ltb_spec (blen S) (src + n)); [lia|].
    by destruct load.
Qed.

Lemma vector_address op x a ea :
  0 < a < 16 -> 0 <= x < 8 -> fits 32 ea -> R r a = ea ->
  let i := mkInstruction (enc.itype op x a 0) in
  Instruction.opcode i = code op /\ Instruction.rd i = x /\ Instruction.ra i = a /\
  u32 (reg (st r v (p + 4) fl m ram) a + Instruction.simm16 i) = ea.
Proof using Type.
  intros Ha Hx He HR i. destruct (itype_fields op x a 0) as (H1 & H2 & H3 & H4).
  rewrite !Z.mod_small in H2, H3 by lia. split; [done|]. split; [done|]. split; [done|].
  rewrite reg_st, G_pos, HR by lia. subst i. unfold Instruction.simm16.
  change (Z.land _ IMM_MASK) with (Instruction.imm16 (mkInstruction (enc.itype op x a 0))). rewrite H4.
  change (s16 (0 mod 2 ^ 16)) with 0. by rewrite Z.add_0_r, u32_small.
Qed.
Lemma x_load_vr x a ea :
  ws !! k = Some (enc.load_vr x a 0) -> 0 <= x < 8 -> 0 < a < 16 -> fits 32 ea -> R r a = ea ->
  ea + 64 <= m.(blen) ->
  st r v p fl m ram ⟶ st r (zset v x (Emulator.bytes_vr 16 (Buffer.peek m ea 64))) (p + 4) fl m ram.
Proof using Hcode Hlow.
  intros Hk Hx Ha He HR Hin. destruct (vector_address LOAD_VR x a ea Ha Hx He HR) as (H1 & H2 & H3 & H4).
  eapply run_ins; [done|done|done|done| |].
  - unfold decode, enc.load_vr. rewrite H1, opcode_of_code, H2, H3. cbv zeta. unfold given, scalar, vector.
    by destruct (Z.ltb_spec x 8), (Z.ltb_spec a 16); try lia.
  - cbn [exec]. rewrite H4. unfold accessed. cbn [st a_mem].
    destruct (Z.leb_spec (ea + 64) (blen m)); [|lia]. reflexivity.
Qed.
Lemma x_store_vr x a ea :
  ws !! k = Some (enc.store_vr x a 0) -> 0 <= x < 8 -> 0 < a < 16 -> fits 32 ea -> R r a = ea ->
  ea + 64 <= m.(blen) ->
  st r v p fl m ram ⟶ st r v (p + 4) fl (Buffer.poke m ea (Emulator.vr_bytes (Host.row v x))) ram.
Proof using Hcode Hlow.
  intros Hk Hx Ha He HR Hin. destruct (vector_address STORE_VR x a ea Ha Hx He HR) as (H1 & H2 & H3 & H4).
  eapply run_ins; [done|done|done|done| |].
  - unfold decode, enc.store_vr. rewrite H1, opcode_of_code, H2, H3. cbv zeta. unfold given, scalar, vector.
    by destruct (Z.ltb_spec x 8), (Z.ltb_spec a 16); try lia.
  - cbn [exec]. rewrite H4. unfold accessed. cbn [st a_mem].
    destruct (Z.leb_spec (ea + 64) (blen m)); [|lia]. reflexivity.
Qed.
Lemma x_vec_add d a b :
  ws !! k = Some (enc.vec_add d a b) -> 0 <= d < 8 -> 0 <= a < 8 -> 0 <= b < 8 ->
  st r v p fl m ram ⟶ st r (zset v d (zip_with fadd (Host.row v a) (Host.row v b))) (p + 4) fl m ram.
Proof using Hcode Hlow.
  intros Hk Hd Ha Hb. destruct (rtype_fields VEC_ADD d a b 0) as (H1 & H2 & H3 & H4 & H5).
  eapply (run_ins k _ (IAddV d a b)); [done|done|done|done| |reflexivity].
  unfold decode, enc.vec_add. rewrite H1, opcode_of_code, H2, H3, H4, !Z.mod_small by lia.
  unfold given, vector. by destruct (Z.ltb_spec d 8), (Z.ltb_spec a 8), (Z.ltb_spec b 8); try lia.
Qed.
Lemma x_matmul d a b v' :
  ws !! k = Some (enc.matmul_tile d a b 4) -> 0 <= d < 8 -> 0 <= a < 8 -> 0 <= b < 8 ->
  Host.matmul_loop v d a b 4 = Some v' ->
  st r v p fl m ram ⟶ st r v' (p + 4) fl m ram.
Proof using Hcode Hlow.
  intros Hk Hd Ha Hb Hv. destruct (rtype_fields MATMUL_TILE d a b 4) as (H1 & H2 & H3 & H4 & H5).
  eapply (run_ins k _ (ITile d a b 4)); [done|done|done|done| |].
  - unfold decode, enc.matmul_tile. rewrite H1, opcode_of_code, H2, H3, H4, H5, !Z.mod_small by lia.
    unfold given, vector. by destruct (Z.ltb_spec d 8), (Z.ltb_spec a 8), (Z.ltb_spec b 8); try lia.
  - cbn [exec]. change ((4 =? 0) || (TILE_SIZE <? 4)) with false. cbn [st a_regs vr]. by rewrite Hv.
Qed.
Lemma x_halt :
  ws !! k = Some enc.halt -> st r v p fl m ram ⟶ stop (st r v (p + 4) fl m ram).
Proof using Hcode Hlow. intros Hk. by eapply (run_ins k _ IHalt). Qed.
End Steps.
End Symbolic.

(** ** Loading and reading back *)
Lemma peek_poke_sub b a l i n :
  (i + n <= List.length l)%nat -> Buffer.peek (Buffer.poke b a l) (a + Z.of_nat i) n = take n (drop i l).
Proof.
  intros Hin. apply list_eq. intros j. destruct (decide (j < n)%nat) as [Hj|Hj].
  - rewrite Buffer.peek_lookup, Buffer.byte_at_poke_in by (unfold zlen; lia).
    rewrite lookup_take_lt, lookup_drop by lia.
    replace (Z.to_nat (a + Z.of_nat i + Z.of_nat j - a)) with (i + j)%nat by lia.
    destruct (lookup_lt_is_Some_2 l (i + j)) as [x Hx]; [lia|]. by rewrite Hx.
  - rewrite !lookup_ge_None_2; rewrite ?Buffer.peek_length, ?length_take, ?length_drop; (lia || done).
Qed.
Lemma words_bytes_word ws k w :
  ws !! k = Some w -> take 4 (drop (4 * k) (VirtualSRAM.words_bytes ws)) = le_bytes 4 w.
Proof.
  revert k. induction ws as [|x ws IH]; intros k; [done|]. unfold VirtualSRAM.words_bytes in *. cbn [map concat].
  destruct k as [|k]; cbn [lookup list_lookup].
  - intros [= ->]. reflexivity.
  - intros Hk. rewrite <- (IH k Hk). by replace (4 * S k)%nat with (4 + 4 * k)%nat by lia.
Qed.

(** Words of a listed program, a [movi] of any number among them. *)
Ltac fits_words :=
  repeat (apply Forall_cons_2;
    [lazymatch goal with
     | |- fits 32 (enc.movi ?d ?n) => exact (itype_fits MOVI d 0 n)
     | |- _ => split; vm_compute; congruence
     end|]);
  constructor.

(** [load_program] puts the code in place. *)
Lemma load_program_code ws s :
  Forall (fits 32) ws -> 4 * zlen ws <= s.(scratchpad_).(blen) -> 4 * zlen ws <= TEXT_SIZE ->
  s.(scratchpad_).(blen) < 2 ^ 64 ->
  exists s', Emulator.load_program ws s = (Ok tt, s') /\ code_at ws s'.(scratchpad_) /\
    s'.(scratchpad_) = Buffer.poke s.(scratchpad_) 0 (VirtualSRAM.words_bytes ws) /\ s'.(main_ram_) = s.(main_ram_) /\
    s'.(regs_) = s.(regs_) /\ s'.(mmu_) = s.(mmu_) /\ s'.(csr_) = s.(csr_) /\ s'.(debugger_) = s.(debugger_) /\
    s'.(shared_) = s.(shared_).
Proof.
  intros Hf Hl Ht H64. unfold Emulator.load_program, Emulator.load_program_bytes.
  assert (Hz : zlen (VirtualSRAM.words_bytes ws) = 4 * zlen ws)
    by (unfold zlen; rewrite words_bytes_length; lia).
  rewrite Hz, Z.gtb_ltb. destruct (Z.ltb_spec TEXT_SIZE (4 * zlen ws)); [lia|].
  unfold zoom, VirtualSRAM.load, bind, modify. rewrite VirtualSRAM.write_bytes_ok by (rewrite ?Hz; unfold TEXT_BASE; lia).
  eexists. split; [reflexivity|]. split; [|by repeat split].
  split; [exact Hl|]. intros k w Hk. cbn [scratchpad_ Emulator.put_scratchpad].
  pose proof (lookup_lt_Some _ _ _ Hk) as Hlt.
  pose proof (peek_poke_sub (scratchpad_ s) TEXT_BASE (VirtualSRAM.words_bytes ws) (4 * k) 4) as Hp.
  rewrite words_bytes_length in Hp. specialize (Hp ltac:(lia)).
  replace (TEXT_BASE + Z.of_nat (4 * k)) with (4 * Z.of_nat k) in Hp by (unfold TEXT_BASE; lia).
  transitivity (le_val (le_bytes 4 w)); [by rewrite <- (words_bytes_word ws k w Hk), <- Hp|].
  rewrite le_val_bytes. apply Z.mod_small. exact (Forall_lookup_1 _ _ _ _ Hf Hk).
Qed.

(** Load a program and run it: when its code, at any address space the machine
    has, takes the architecture to a halt in [n] steps, so does [run]. *)
Section LoadAndRun.
Context `{FloatOps} (path : HostPath) (ws : list Z) (s : Emulator).
Context (Hws : Forall (fits 32) ws) (Hfit : 4 * zlen ws <= s.(scratchpad_).(blen)) (Htext : 4 * zlen ws <= TEXT_SIZE).
Context (Hready : ready s) (Hpc : s.(regs_).(pc) = 0) (Hhalt : s.(regs_).(halt) = false).

Lemma load_and_run n fuel (Post : Arch -> Prop) :
  (forall m, m = Buffer.poke s.(scratchpad_) 0 (VirtualSRAM.words_bytes ws) -> code_at ws m ->
     exists a, nsteps steps_to n (st s.(regs_).(gpr) s.(regs_).(vr) 0 s.(regs_).(status) m s.(main_ram_)) a /\
       a.(a_regs).(halt) = true /\ Post a) ->
  (n <= fuel)%nat ->
  exists s', (do! Emulator.load_program ws in Emulator.run path fuel) s = (Ok true, s') /\
    emu_wf s' /\ s'.(regs_).(halt) = true /\ Post (abs s').
Proof using All.
  intros Hprog Hfuel. destruct Hready as [Hs Hb Hu]. destruct (wf_scratchpad s Hs) as [[_ H64] _].
  destruct (load_program_code ws s) as (s1 & Hl & Hc & Hm & Hram & Hregs & Hmm & Hcs & Hdb & _); [done..|].
  assert (Hr1 : ready s1).
  { split; [|by apply (bare_eq s)|intros p; rewrite Hdb; apply Hu].
    pose proof (load_program_keeps ws s Hs) as [Hk _]. by rewrite Hl in Hk. }
  rewrite (bind_ok _ _ _ _ _ Hl). destruct (Hprog _ Hm Hc) as (a & Hsteps & Ha & Hpost).
  assert (Hst : abs s1 = st (gpr (regs_ s)) (vr (regs_ s)) 0 (status (regs_ s)) (scratchpad_ s1) (main_ram_ s)).
  { unfold abs, st. rewrite Hregs, Hram. f_equal. destruct (regs_ s). cbn in *. by subst. }
  rewrite <- Hst in Hsteps. destruct (run_loop_steps path _ s1 _ Hr1 Hsteps) as (s2 & Ha2 & Hr2 & Hk).
  specialize (Hk (fuel - n)%nat). replace (n + (fuel - n))%nat with fuel in Hk by lia.
  rewrite (run_loop_halted path _ s2 Hr2) in Hk by (rewrite Ha2; by apply halted_iff).
  destruct (run_of_loop path _ _ _ _ Hk) as (s' & Hrun & Ha'); [done|].
  rewrite Ha2 in Ha'. exists s'. split; [exact Hrun|].
  split; [pose proof (run_keeps path fuel s1 (ready_wf _ Hr1)) as [Hk' _]; by rewrite Hrun in Hk'|].
  rewrite Ha'. split; [|done]. exact (eq_trans (f_equal (fun a => halt (a_regs a)) Ha') Ha).
Qed.
End LoadAndRun.
