(* ===== verification/Capi.v ===== *)
(** * The C interface: the extern C functions of emulator.cpp, aism.h

    One definition per exported function.  A handle is the emulator it points
    to; the functions that may fail catch every exception and return a status.
    [run] functions take fuel like the loops they wrap.  [abi_exec] is the
    interface as a client sees it, on a handle that may be null, and
    [abi_spec] what it promises. *)

From Stdlib Require Import Ascii SpecFloat.
From S2P Require Import Prelude Text Isa Memory Registers Interrupt Devices Bus Float Profiler Interconnect Target Host Mmu Translate Emulator EmulatorWf Interface Execute.
#[local] Open Scope Z_scope.

(** [try { m } catch (...) { return a; }]: what was written stays written. *)
Definition catch_all {S A} (m : M S A) (a : A) : M S A := fun s =>
  match m s with
  | (Throw _, s') => (Ok a, s')
  | r => r
  end.
(** [try { m; return 0; } catch (...) { return -1; }] *)
Definition status (m : M Emulator unit) : M Emulator Z :=
  catch_all (do! m in ret 0) (-1).

Module Capi.
(** The allocation may fail: [can_alloc] says which sizes the host grants. *)
Definition aism_create (can_alloc : Z -> Z -> bool) (scratchpad_bytes main_ram_bytes : Z)
    : option Emulator :=
  let s := if scratchpad_bytes =? 0 then SCRATCHPAD_SIZE else scratchpad_bytes in
  let m := if main_ram_bytes =? 0 then MAIN_RAM_SIZE else main_ram_bytes in
  if can_alloc s m then Some (Emulator.create s m) else None.
Definition aism_reset : M Emulator unit := modify Emulator.reset.

Definition aism_load_program (instrs : list Z) : M Emulator Z := status (Emulator.load_program instrs).
Definition aism_write32 (addr value : Z) : M Emulator Z := status (Emulator.bus_write32 addr value).
Definition aism_read32 (addr : Z) : M Emulator Z := catch_all (Emulator.bus_read32 addr) 0.

Section Run.
Context `{FloatOps} (path : HostPath).
Definition aism_run (fuel : nat) : M Emulator bool := catch_all (Emulator.run path fuel) true.
End Run.

Definition aism_read_gpr (idx : Z) : M Emulator Z := Emulator.read_gpr idx.
Definition aism_instruction_count (s : Emulator) : Z := Profiler.instructions s.(profiler_).
Definition aism_cycle_count (s : Emulator) : Z := Profiler.cycles s.(profiler_).


End Capi.

(** ** The whole interface *)








(** ** What the interface promises *)




(** ** Each operation of the specification *)








(** ** Theorems *)



(** The memory functions of the interface. For an address below the
    device window, [aism_write32] returns 0 exactly when the word is inside the
    scratchpad; then [aism_read32] returns the value written, until that word
    is written again, and every byte outside the word is unchanged. Outside the
    scratchpad the write returns -1 and changes nothing, and the read returns
    0, which a caller cannot tell from a stored zero. *)
Theorem abi_write_read addr v s :
  emu_wf s -> fits 32 addr -> fits 32 v -> addr < MMIO_BASE ->
  if addr + 4 <=? s.(scratchpad_).(blen) then
    exists s', Capi.aism_write32 addr v s = (Ok 0, s') /\
      Capi.aism_read32 addr s' = (Ok v, s') /\
      (forall k, k < addr \/ addr + 4 <= k ->
         Buffer.byte_at s'.(scratchpad_) k = Buffer.byte_at s.(scratchpad_) k)
  else
    Capi.aism_write32 addr v s = (Ok (-1), s) /\ Capi.aism_read32 addr s = (Ok 0, s).
Proof.
  intros Hs Ha Hv Hlow.
  assert (Hw : forall r m, VirtualSRAM.write32 addr v (scratchpad_ s) = (r, m) ->
    Emulator.bus_write32 addr v s = (r, Emulator.put_scratchpad m s)).
  { intros r m Hm. rewrite bus_write32_low by done.
    exact (f_equal (fun p => let '(r, t) := p in (r, Emulator.put_scratchpad t s)) Hm). }
  assert (Hr : forall s o, VirtualSRAM.read32 (scratchpad_ s) addr = o ->
    Emulator.bus_read32 addr s = (o, s)).
  { intros s' o Ho. rewrite bus_read32_low by done.
    exact (f_equal (fun o => (o, s')) Ho). }
  unfold Capi.aism_write32, Capi.aism_read32, status, catch_all, bind.
  destruct (Z.leb_spec (addr + 4) (blen (scratchpad_ s))) as [Hin|Hout].
  - destruct (write32_ok (scratchpad_ s) addr v Ha Hv (wf_scratchpad s Hs) Hin)
      as (m' & Hm & _ & _ & Hread & Hframe).
    exists (Emulator.put_scratchpad m' s). rewrite (Hw _ _ Hm). split; [done|].
    by rewrite (Hr (Emulator.put_scratchpad m' s) _ Hread).
  - assert (Hs0 : Emulator.put_scratchpad (scratchpad_ s) s = s) by done.
    rewrite (Hw _ _ (write32_throws (scratchpad_ s) addr v Ha Hout)), Hs0. split; [done|].
    assert (Hb : 0 <= blen (scratchpad_ s)) by apply (wf_scratchpad s Hs).
    unfold fits in Ha. by rewrite (Hr _ _ (VirtualSRAM.read32_throws (scratchpad_ s) addr (proj1 Ha) ltac:(lia))).
Qed.

Lemma abi_write_read_witness :
  exists s', Capi.aism_write32 0x20 7 (Emulator.create 256 64) = (Ok 0, s') /\
    Capi.aism_read32 0x20 s' = (Ok 7, s').
Proof.
  assert (Hs : emu_wf (Emulator.create 256 64)) by (apply create_wf; vm_compute; split; congruence).
  destruct (abi_write_read 0x20 7 (Emulator.create 256 64) Hs) as (s' & H1 & H2 & _);
    [unfold fits; lia|unfold fits; lia|done|].
  by exists s'.
Defined.

(** ** tests/test_c_abi.c *)

(** The program of the test and its main function: the register and the two
    counters after the run, and the register after the reset. *)
Definition test_program : list Z := [0x2C20000A; 0x04000000].
Definition test_main `{FloatOps} (path : HostPath) (fuel : nat) : option (outcome (Z * Z * Z * Z)) :=
  match Capi.aism_create (fun _ _ => true) 0 0 with
  | None => None
  | Some emu =>
      Some ((let! rc := Capi.aism_load_program test_program in
             if negb (rc =? 0) then ret (rc, 0, 0, 0)
             else
               let! _ := Capi.aism_run path fuel in
               let! val := Capi.aism_read_gpr 1 in
               let! emu := get in
               let insns := Capi.aism_instruction_count emu in
               let cycles := Capi.aism_cycle_count emu in
               do! Capi.aism_reset in
               let! val2 := Capi.aism_read_gpr 1 in
               ret (val, insns, cycles, val2)) emu).1
  end.

(** The test passes: r1 is 10 after two instructions and one cycle, and 0 after
    the reset. *)
Example test_c_abi_passes : test_main PathScalar 2 = Some (Ok (10, 2, 1, 0)).
Proof. vm_compute. reflexivity. Qed.
