(* ===== verification/Cache.v ===== *)
(** * Cache hierarchy and memory controller: cache.h, cache.cpp

    Set-associative write-back caches with a global access counter as the
    recency stamp, an open-row memory controller, and the three-level
    hierarchy.  The contract of a set is a list of tags, most recent first:
    [cache_refines_lru] shows that the stamped lines implement it. *)

From Stdlib Require Import SpecFloat Sorted.
From S2P Require Import Prelude Text Float.
#[local] Open Scope Z_scope.

Inductive CoherenceProtocol : Type := NoCoherence | MESI | MOESI.
Inductive MemoryType : Type := DDR5 | HBM3.

Record Line : Type := mkLine { valid : bool; dirty : bool; tag : Z; mesi : Z; lru : Z }.
#[local] Set Primitive Projections.
Record CacheConfig : Type := mkCacheConfig {
  size_bytes : Z; line_bytes : Z; associativity : Z; coherence : CoherenceProtocol;
  hit_latency : Z; miss_penalty : Z }.
Record CacheStats : Type := mkCacheStats { c_hits : Z; c_misses : Z; writebacks : Z }.
Record Cache : Type := mkCache {
  cache_cfg_ : CacheConfig; sets_ : list (list Line); tick_ : Z; stats_ : CacheStats }.
Record MemoryControllerConfig : Type := mkMcConfig {
  mc_type : MemoryType; tCAS : Z; tRCD : Z; tRP : Z; banks : Z; bank_groups : Z;
  bandwidth_GBs : Z }.
Record MemoryController : Type := mkMc {
  mc_cfg_ : MemoryControllerConfig; row_hits_ : Z; row_misses_ : Z; open_rows_ : list Z }.
Record CacheHierarchy : Type := mkHierarchy {
  l1 : Cache; l2 : Cache; l3 : Cache; mc : MemoryController }.
#[local] Unset Primitive Projections.

Definition hit_rate (s : CacheStats) : spec_float := ratio s.(c_hits) (u64 (s.(c_hits) + s.(c_misses))).

Module Cache.
Definition empty_line : Line := mkLine false false 0 0 0.
Definition no_stats : CacheStats := mkCacheStats 0 0 0.

(** [size / (line * ways)] sets; a zero divisor is undefined behaviour. *)
Definition configure (cfg : CacheConfig) : outcome Cache :=
  let d := u64 (cfg.(line_bytes) * cfg.(associativity)) in
  if d =? 0 then Undefined DivideByZero
  else Ok {| cache_cfg_ := cfg;
             sets_ := replicate (Z.to_nat (cfg.(size_bytes) / d))
                        (replicate (Z.to_nat cfg.(associativity)) empty_line);
             tick_ := 0; stats_ := no_stats |}.

(** The first valid line with the tag. *)
Fixpoint find_line (t : Z) (l : list Line) : option nat :=
  match l with
  | [] => None
  | x :: l => if x.(valid) && (x.(tag) =? t) then Some O else option_map S (find_line t l)
  end.
(** The first line with the smallest stamp: [best] so far, of stamp [b]. *)
Fixpoint victim (i best : nat) (b : Z) (l : list Line) : nat :=
  match l with
  | [] => best
  | x :: l => if x.(lru) <? b then victim (S i) i x.(lru) l else victim (S i) best b l
  end.

Definition touch (now : Z) (w : bool) (x : Line) : Line :=
  { x with lru := now; dirty := if w then true else x.(dirty) }.
Definition fill (now t : Z) (w : bool) (x : Line) : Line :=
  { x with valid := true; tag := t; dirty := w; lru := now }.

(** One set: whether it hit, whether a dirty line was evicted, the new set. *)
Definition access_set (now t : Z) (w : bool) (l : list Line) : option (bool * bool * list Line) :=
  match find_line t l with
  | Some k => match l !! k with
              | Some x => Some (true, false, <[k := touch now w x]> l)
              | None => None
              end
  | None =>
      match l with
      | [] => None
      | x0 :: _ =>
          let k := victim 0 0 x0.(lru) l in
          match l !! k with
          | Some x => Some (false, x.(dirty), <[k := fill now t w x]> l)
          | None => None
          end
      end
  end.

(** Hit or miss, and the stall written to [*stall_cycles] ([None]: not
    written). *)
Definition access (addr : Z) (w : bool) : M Cache (bool * option Z) := fun c =>
  match c.(sets_) with
  | [] => (Ok (true, None), c)
  | _ =>
      if c.(cache_cfg_).(line_bytes) =? 0 then (Undefined DivideByZero, c)
      else
        let line := u32 (addr / c.(cache_cfg_).(line_bytes)) in
        let set := Z.to_nat (line mod zlen c.(sets_)) in
        let now := u64 (c.(tick_) + 1) in
        match (c.(sets_) !! set ≫= access_set now line w : option (bool * bool * list Line)) with
        | None => (Undefined (BufferOverrun 0 0), { c with tick_ := now })
        | Some (hit, wb, l) =>
            let st := c.(stats_) in
            let c : Cache := { c with tick_ := now; sets_ := <[set := l]> c.(sets_) } in
            if hit then
              (Ok (true, Some c.(cache_cfg_).(hit_latency)),
               { c with stats_ := { st with c_hits := u64 (st.(c_hits) + 1) } })
            else
              (Ok (false, Some c.(cache_cfg_).(miss_penalty)),
               { c with stats_ := { st with
                   writebacks := if wb then u64 (st.(writebacks) + 1) else st.(writebacks);
                   c_misses := u64 (st.(c_misses) + 1) } })
        end
  end.

Definition clear_line (x : Line) : Line := { x with valid := false; dirty := false }.
Definition flush (c : Cache) : Cache :=
  { c with sets_ := map (map clear_line) c.(sets_) }.
Definition reset_stats (c : Cache) : Cache := { c with stats_ := no_stats }.

Definition coherence_name (p : CoherenceProtocol) : string :=
  match p with MESI => "MESI" | MOESI => "MOESI" | NoCoherence => "none" end%string.
Definition report (name : string) (c : Cache) : string :=
  snprintf 256 (name +:+ " " +:+ udec (c.(cache_cfg_).(size_bytes) / 1024) +:+ "KiB/"
    +:+ udec c.(cache_cfg_).(associativity) +:+ "-way " +:+ coherence_name c.(cache_cfg_).(coherence)
    +:+ " hit=" +:+ udec c.(stats_).(c_hits) +:+ " miss=" +:+ udec c.(stats_).(c_misses)
    +:+ " rate=" +:+ fixed 1 (f64_mul (hit_rate c.(stats_)) (f64_of_Z 100)) +:+ "%")%string.
End Cache.

Module MemoryController.
Definition default_config : MemoryControllerConfig := mkMcConfig DDR5 16 16 16 16 4 64.
Definition make (cfg : MemoryControllerConfig) : MemoryController := mkMc cfg 0 0 (replicate 32 0).
Definition configure (cfg : MemoryControllerConfig) (m : MemoryController) : MemoryController :=
  { m with mc_cfg_ := cfg }.

(** The row buffer an address uses. *)
Definition slot (m : MemoryController) (addr : Z) : Z := ((addr / 64) mod m.(mc_cfg_).(banks)) mod 32.
Definition row (addr : Z) : Z := Z.shiftr addr 12.
Definition access (addr : Z) (w : bool) : M MemoryController Z := fun m =>
  if m.(mc_cfg_).(banks) =? 0 then (Undefined DivideByZero, m)
  else
    let k := slot m addr in
    if default 0 (zget m.(open_rows_) k) =? row addr then
      (Ok m.(mc_cfg_).(tCAS), { m with row_hits_ := u64 (m.(row_hits_) + 1) })
    else
      (Ok (u32 (m.(mc_cfg_).(tCAS) + m.(mc_cfg_).(tRCD) + m.(mc_cfg_).(tRP))),
       { m with row_misses_ := u64 (m.(row_misses_) + 1);
                open_rows_ := zset m.(open_rows_) k (row addr) }).

Definition total_accesses (m : MemoryController) : Z := u64 (m.(row_hits_) + m.(row_misses_)).
Definition row_hit_rate (m : MemoryController) : spec_float := ratio m.(row_hits_) (total_accesses m).
Definition reset (m : MemoryController) : MemoryController :=
  { m with row_hits_ := 0; row_misses_ := 0; open_rows_ := replicate 32 0xFFFFFFFF }.
Definition report (m : MemoryController) : string :=
  snprintf 256 ("MC " +:+ (match m.(mc_cfg_).(mc_type) with DDR5 => "DDR5" | HBM3 => "HBM3" end)
    +:+ " banks=" +:+ udec m.(mc_cfg_).(banks) +:+ " row_hit="
    +:+ fixed 1 (f64_mul (row_hit_rate m) (f64_of_Z 100)) +:+ "% tCAS=" +:+ udec m.(mc_cfg_).(tCAS))%string.
End MemoryController.

Module CacheHierarchy.
Definition l1_config : CacheConfig := mkCacheConfig (32 * 1024) 64 8 MESI 1 10.
Definition l2_config : CacheConfig := mkCacheConfig (256 * 1024) 64 8 MESI 4 20.
Definition l3_config : CacheConfig := mkCacheConfig (2 * 1024 * 1024) 64 16 MOESI 12 40.
Definition make : outcome CacheHierarchy :=
  match Cache.configure l1_config, Cache.configure l2_config, Cache.configure l3_config with
  | Ok a, Ok b, Ok c => Ok (mkHierarchy a b c (MemoryController.make MemoryController.default_config))
  | _, _, _ => Undefined DivideByZero
  end.

Definition put_l1 (c : Cache) (h : CacheHierarchy) : CacheHierarchy := { h with l1 := c }.
Definition put_l2 (c : Cache) (h : CacheHierarchy) : CacheHierarchy := { h with l2 := c }.
Definition put_l3 (c : Cache) (h : CacheHierarchy) : CacheHierarchy := { h with l3 := c }.
Definition put_mc (m : MemoryController) (h : CacheHierarchy) : CacheHierarchy := { h with mc := m }.

(** [tmp] keeps its value when a level does not write it. *)
Definition access (addr : Z) (w : bool) : M CacheHierarchy Z :=
  let! r1 := zoom l1 put_l1 (Cache.access addr w) in
  let tmp := default 0 r1.2 in
  if (r1.1 : bool) then ret tmp
  else
    let stall := tmp in
    let! r2 := zoom l2 put_l2 (Cache.access addr w) in
    let tmp := default tmp r2.2 in
    let stall := u32 (stall + tmp) in
    if (r2.1 : bool) then ret stall
    else
      let! r3 := zoom l3 put_l3 (Cache.access addr w) in
      let tmp := default tmp r3.2 in
      let stall := u32 (stall + tmp) in
      if (r3.1 : bool) then ret stall
      else
        let! m := zoom mc put_mc (MemoryController.access addr w) in
        ret (u32 (stall + m)).

Definition reset (h : CacheHierarchy) : CacheHierarchy :=
  {| l1 := Cache.reset_stats h.(l1); l2 := Cache.reset_stats h.(l2);
     l3 := Cache.reset_stats h.(l3); mc := MemoryController.reset h.(mc) |}.
Definition report (h : CacheHierarchy) : string :=
  (Cache.report "L1" h.(l1) +:+ " | " +:+ Cache.report "L2" h.(l2) +:+ " | "
   +:+ Cache.report "L3" h.(l3) +:+ " | " +:+ MemoryController.report h.(mc))%string.
End CacheHierarchy.

(** ** The contract of a set *)

(** The lines of a set as their owner sees them: tag and dirty flag, the most
    recently used first. *)
Definition entry : Type := Z * bool.

(** An access to a set of [ways] lines: hit, dirty eviction, new contents. *)
Definition lru_access (ways : nat) (t : Z) (w : bool) (l : list entry) : bool * bool * list entry :=
  match List.find (fun e => e.1 =? t) l with
  | Some e => (true, false, (t, if w then true else e.2) :: filter (fun e => e.1 <> t) l)
  | None =>
      (false,
       if (length l =? ways)%nat then match last l with Some e => e.2 | None => false end else false,
       (t, w) :: take (ways - 1) l)
  end.

Definition entry_of (x : Line) : entry := (x.(tag), x.(dirty)).
Definition newer (x y : Line) : Prop := y.(lru) < x.(lru).

(** The stamped lines of a set, at time [now], hold the entries [l]. *)
Definition holds (now : Z) (lines : list Line) (l : list entry) : Prop :=
  exists ls,
    filter (fun x : Line => x.(valid) = true) lines ≡ₚ ls /\
    StronglySorted newer ls /\ NoDup (map tag ls) /\ l = map entry_of ls /\
    Forall (fun x : Line => 0 <= x.(lru) <= now) lines /\
    Forall (fun x : Line => x.(valid) = false -> x.(dirty) = false /\ Forall (fun y => newer y x) ls) lines.

Section Lines.
Context (now t : Z).

Lemma find_line_some l k :
  Cache.find_line t l = Some k ->
  exists a x b, l = a ++ x :: b /\ length a = k /\ x.(valid) = true /\ x.(tag) = t.
Proof.
  revert k. induction l as [|y l IH]; intros k; cbn [Cache.find_line]; [done|].
  destruct (valid y && (tag y =? t)) eqn:E.
  - intros [= <-]. apply andb_true_iff in E as [Hv Ht%Z.eqb_eq]. by exists [], y, l.
  - destruct (Cache.find_line t l) as [j|]; [|done]. intros [= <-].
    destruct (IH j eq_refl) as (a & x & b & -> & <- & H). by exists (y :: a), x, b.
Qed.
Lemma find_line_none l :
  Cache.find_line t l = None -> Forall (fun x => x.(valid) = true -> x.(tag) <> t) l.
Proof.
  induction l as [|y l IH]; cbn [Cache.find_line]; [constructor|].
  destruct (valid y && (tag y =? t)) eqn:E; [done|].
  destruct (Cache.find_line t l); [done|]. intros _. constructor; [|by apply IH].
  intros Hv. rewrite Hv in E. by apply Z.eqb_neq in E.
Qed.

(** The victim is in the set and has the smallest stamp. *)
Lemma victim_min l : forall pre best b,
  (exists x, pre !! best = Some x /\ x.(lru) = b) -> Forall (fun y => b <= y.(lru)) pre ->
  exists x, (pre ++ l) !! Cache.victim (length pre) best b l = Some x /\
    Forall (fun y => x.(lru) <= y.(lru)) (pre ++ l).
Proof.
  induction l as [|y l IH]; intros pre best b (x & Hx & <-) Hp; cbn [Cache.victim].
  { rewrite app_nil_r. by exists x. }
  replace (pre ++ y :: l) with ((pre ++ [y]) ++ l) by (by rewrite <- app_assoc).
  replace (S (length pre)) with (length (pre ++ [y])) by (rewrite length_app; cbn; lia).
  destruct (Z.ltb_spec (lru y) (lru x)).
  - apply IH.
    + exists y. split; [|done]. by rewrite lookup_app_r, Nat.sub_diag by lia.
    + apply Forall_app. split; [|by repeat constructor].
      eapply Forall_impl; [exact Hp|]. intros; cbn in *; lia.
  - apply IH.
    + exists x. split; [|done]. apply lookup_app_l_Some. done.
    + apply Forall_app. split; [done|]. by repeat constructor.
Qed.
End Lines.

Lemma sorted_remove (p q : list Line) x :
  StronglySorted newer (p ++ x :: q) -> StronglySorted newer (p ++ q).
Proof.
  induction p as [|y p IH]; cbn [app]; intros H; inversion H as [|? ? Hs Hf]; subst; [done|].
  constructor; [by apply IH|]. rewrite Forall_app, Forall_cons in Hf. apply Forall_app. tauto.
Qed.
Lemma sorted_prefix (p q : list Line) : StronglySorted newer (p ++ q) -> StronglySorted newer p.
Proof.
  induction p as [|y p IH]; cbn [app]; intros H; [constructor|]. inversion H as [|? ? Hs Hf]; subst.
  constructor; [by apply IH|]. by apply Forall_app in Hf as [? _].
Qed.
Lemma sorted_last (p q : list Line) x :
  StronglySorted newer (p ++ x :: q) -> Forall (fun y => x.(lru) <= y.(lru)) q -> q = [].
Proof.
  intros Hs Hq. destruct q as [|y q]; [done|]. exfalso.
  induction p as [|z p IH]; cbn [app] in Hs; inversion Hs as [|? ? Hs' Hf]; subst; [|by apply IH].
  apply Forall_cons in Hf as [Hf _]. apply Forall_cons in Hq as [Hq _]. unfold newer in Hf. lia.
Qed.
Lemma find_entry (p q : list Line) x :
  NoDup (map tag (p ++ x :: q)) ->
  List.find (fun e => e.1 =? x.(tag)) (map entry_of (p ++ x :: q)) = Some (entry_of x) /\
  filter (fun e : entry => e.1 <> x.(tag)) (map entry_of (p ++ x :: q)) = map entry_of (p ++ q).
Proof.
  assert (Hother : forall r, ~ (x.(tag) ∈ map tag r) ->
    filter (fun e : entry => e.1 <> x.(tag)) (map entry_of r) = map entry_of r).
  { induction r as [|y r IH]; intros Hr; [done|]. cbn [map] in *. apply not_elem_of_cons in Hr as [H1 H2].
    rewrite filter_cons_True by (cbn; congruence). by rewrite IH. }
  induction p as [|y p IH]; cbn [app map]; intros [Hy Hn]%NoDup_cons.
  - cbn [List.find fst entry_of]. rewrite Z.eqb_refl. split; [done|].
    rewrite filter_cons_False by (cbn; tauto). by apply Hother.
  - destruct (IH Hn) as [H1 H2].
    assert (Hne : tag y <> tag x).
    { intros He. apply Hy. rewrite He, map_app. cbn [map]. set_solver. }
    cbn [List.find fst entry_of]. rewrite (proj2 (Z.eqb_neq _ _) Hne). split; [done|].
    rewrite filter_cons_True by done. by rewrite H2.
Qed.
Lemma find_no_entry (ls : list Line) t :
  ~ (t ∈ map tag ls) -> List.find (fun e => e.1 =? t) (map entry_of ls) = None.
Proof.
  induction ls as [|y ls IH]; intros Hn; [done|]. cbn [map List.find fst entry_of] in *.
  apply not_elem_of_cons in Hn as [H1 H2]. rewrite (proj2 (Z.eqb_neq _ _)) by congruence. by apply IH.
Qed.
Lemma filter_split (a b : list Line) x :
  filter (fun x : Line => x.(valid) = true) (a ++ x :: b)
  = filter (fun x : Line => x.(valid) = true) a
    ++ (if x.(valid) then [x] else []) ++ filter (fun x : Line => x.(valid) = true) b.
Proof.
  rewrite filter_app. f_equal. destruct (valid x) eqn:E.
  - by rewrite filter_cons_True.
  - rewrite filter_cons_False by congruence. done.
Qed.
Lemma filter_valid_all (l : list Line) :
  Forall (fun x => x.(valid) = true) l -> filter (fun x : Line => x.(valid) = true) l = l.
Proof. induction 1 as [|x l Hx _ IH]; [done|]. rewrite filter_cons_True by done. by rewrite IH. Qed.
Lemma Forall_replace {A} (P Q : A -> Prop) a b x x' :
  Forall P (a ++ x :: b) -> (forall y, P y -> Q y) -> Q x' -> Forall Q (a ++ x' :: b).
Proof.
  rewrite !Forall_app, !Forall_cons. intros (H1 & _ & H2) HPQ Hx.
  split_and!; [by eapply Forall_impl|done|by eapply Forall_impl].
Qed.

Notation valid_lines := (filter (fun x : Line => x.(valid) = true)).

(** A hit moves the line found to the front. *)
Lemma touch_holds now now' w a x b p q :
  holds now (a ++ x :: b) (map entry_of (p ++ x :: q)) -> now < now' -> x.(valid) = true ->
  valid_lines a ++ valid_lines b ≡ₚ p ++ q ->
  NoDup (map tag (p ++ x :: q)) -> StronglySorted newer (p ++ x :: q) ->
  Forall (fun y : Line => y.(valid) = false -> y.(dirty) = false /\ Forall (fun z => newer z y) (p ++ x :: q))
    (a ++ x :: b) ->
  holds now' (a ++ Cache.touch now' w x :: b) (entry_of (Cache.touch now' w x) :: map entry_of (p ++ q)).
Proof.
  intros (_ & _ & _ & _ & _ & Hb & _) Hnow Hv Hpq Hn Hs Hi.
  set (x' := Cache.touch now' w x).
  assert (Hbpq : Forall (fun y => newer x' y) (p ++ q)).
  { apply Forall_forall. intros y Hy. rewrite <- Hpq, <- filter_app in Hy.
    apply list_elem_of_filter in Hy as [_ Hy]. rewrite Forall_forall in Hb.
    specialize (Hb y ltac:(set_solver)). unfold newer. cbn. lia. }
  exists (x' :: p ++ q). split_and!.
  - rewrite filter_split. change (valid x') with (valid x). rewrite Hv. cbn [app].
    by rewrite <- Permutation_middle, Hpq.
  - constructor; [by eapply sorted_remove|done].
  - cbn [map]. change (tag x') with (tag x).
    assert (Hpm : map tag (p ++ x :: q) ≡ₚ tag x :: map tag (p ++ q))
      by (rewrite <- Permutation_middle; done). by rewrite <- Hpm.
  - done.
  - eapply Forall_replace; [exact Hb|cbn; intros; lia|cbn].
    rewrite Forall_app, Forall_cons in Hb. lia.
  - eapply Forall_replace; [exact (proj2 (Forall_and _ _) (conj Hb Hi))| |].
    + intros y [Hy1 Hy2] Hyv. destruct (Hy2 Hyv) as [Hd Hnew]. split; [done|].
      rewrite Forall_app, Forall_cons in Hnew. constructor; [unfold newer; cbn; lia|].
      apply Forall_app. tauto.
    + intros Hv'. change (valid x = false) in Hv'. congruence.
Qed.

(** The line of the smallest stamp is an invalid one, or the least recent. *)
Lemma evicted a x b ls x' :
  valid_lines (a ++ x :: b) ≡ₚ ls -> StronglySorted newer ls ->
  Forall (fun y : Line => x.(lru) <= y.(lru)) (a ++ x :: b) ->
  Forall (fun y : Line => y.(valid) = false -> y.(dirty) = false /\ Forall (fun z => newer z y) ls)
    (a ++ x :: b) ->
  x'.(valid) = true ->
  exists ls' q,
    take (length (a ++ x :: b) - 1) (map entry_of ls) = map entry_of ls' /\
    valid_lines (a ++ x' :: b) ≡ₚ x' :: ls' /\ ls = ls' ++ q /\
    x.(dirty) = if (length ls =? length (a ++ x :: b))%nat
                then match last (map entry_of ls) with Some e => e.2 | None => false end else false.
Proof.
  intros Hp Hs Hmin Hi Hx'. rewrite filter_split in *. rewrite Hx'. cbn [app].
  assert (Hxm : x ∈ a ++ x :: b) by (apply elem_of_app; right; apply elem_of_cons; by left).
  destruct (valid x) eqn:Hv; cbn [app] in Hp.
  - assert (Hxls : x ∈ ls) by (rewrite <- Hp; set_solver).
    assert (Hall : Forall (fun y => valid y = true) (a ++ x :: b)).
    { apply Forall_forall. intros y Hy. destruct (valid y) eqn:Hvy; [done|].
      rewrite Forall_forall in Hi, Hmin. destruct (Hi y Hy Hvy) as [_ Hnew].
      rewrite Forall_forall in Hnew. specialize (Hnew x Hxls). specialize (Hmin y Hy).
      unfold newer in Hnew. lia. }
    apply list_elem_of_split in Hxls as (p & q & ->).
    assert (q = []) as ->.
    { apply (sorted_last p q x Hs). apply Forall_forall. intros y Hy. rewrite Forall_forall in Hmin.
      apply Hmin. assert (Hy' : y ∈ p ++ x :: q) by set_solver. rewrite <- Hp in Hy'.
      rewrite elem_of_app, elem_of_cons, !list_elem_of_filter in Hy'. set_solver. }
    assert (Hlen : length (p ++ [x]) = length (a ++ x :: b)).
    { rewrite <- Hp, !length_app. cbn [length]. rewrite Forall_app, Forall_cons in Hall.
      by rewrite !filter_valid_all by tauto. }
    exists p, [x]. split_and!; [| |done|].
    + rewrite <- Hlen, length_app, map_app. cbn [length map].
      replace (length p + 1 - 1)%nat with (length (map entry_of p)) by (rewrite length_map; lia).
      apply take_app_length.
    + rewrite <- Permutation_middle. apply Permutation_skip.
      apply (Permutation_cons_inv (a := x)). by rewrite Permutation_middle, Hp, <- Permutation_cons_append.
    + rewrite Hlen, Nat.eqb_refl, map_app. cbn [map]. by rewrite last_snoc.
  - assert (Hlen : (length ls < length (a ++ x :: b))%nat).
    { rewrite <- Hp, !length_app. cbn [length].
      pose proof (length_filter (fun x : Line => valid x = true) a).
      pose proof (length_filter (fun x : Line => valid x = true) b). lia. }
    exists ls, []. split_and!.
    + apply take_ge. rewrite length_map. lia.
    + by rewrite <- Permutation_middle, Hp.
    + by rewrite app_nil_r.
    + rewrite (proj2 (Nat.eqb_neq _ _)) by lia. rewrite Forall_forall in Hi.
      exact (proj1 (Hi x Hxm Hv)).
Qed.

(** A miss puts the new line in front of what the eviction left. *)
Lemma fill_holds now now' t w a x b ls q :
  Forall (fun y : Line => 0 <= y.(lru) <= now) (a ++ x :: b) -> now < now' ->
  valid_lines (a ++ x :: b) ≡ₚ ls ++ q -> StronglySorted newer (ls ++ q) ->
  NoDup (map tag (ls ++ q)) -> ~ (t ∈ map tag (ls ++ q)) ->
  Forall (fun y : Line => y.(valid) = false -> y.(dirty) = false /\ Forall (fun z => newer z y) (ls ++ q))
    (a ++ x :: b) ->
  valid_lines (a ++ Cache.fill now' t w x :: b) ≡ₚ Cache.fill now' t w x :: ls ->
  holds now' (a ++ Cache.fill now' t w x :: b) ((t, w) :: map entry_of ls).
Proof.
  intros Hb Hnow Hp Hs Hn Hnt Hi Hp'. set (x' := Cache.fill now' t w x) in *.
  assert (Hle : forall y, y ∈ ls -> lru y <= now).
  { intros y Hy. assert (Hy' : y ∈ ls ++ q) by set_solver. rewrite <- Hp in Hy'.
    apply list_elem_of_filter in Hy' as [_ Hy']. rewrite Forall_forall in Hb. by apply (Hb y). }
  exists (x' :: ls). split_and!.
  - exact Hp'.
  - constructor; [by apply sorted_prefix in Hs|].
    apply Forall_forall. intros y Hy. specialize (Hle y Hy). unfold newer. cbn. lia.
  - cbn [map]. change (tag x') with t. rewrite map_app in Hn, Hnt. apply NoDup_cons. split.
    + intros Ht. apply Hnt. apply elem_of_app. by left.
    + apply NoDup_app in Hn. exact (proj1 Hn).
  - done.
  - eapply Forall_replace; [exact Hb|cbn; intros; lia|cbn].
    rewrite Forall_app, Forall_cons in Hb. lia.
  - eapply Forall_replace; [exact (proj2 (Forall_and _ _) (conj Hb Hi))| |].
    + intros y [Hy1 Hy2] Hyv. destruct (Hy2 Hyv) as [Hdy Hnew]. split; [done|].
      constructor; [unfold newer; cbn; lia|]. rewrite Forall_app in Hnew. tauto.
    + intros Hv'. discriminate Hv'.
Qed.

(** An access to a set is the access of its contract. *)
Lemma access_set_lru now now' t w lines l :
  holds now lines l -> now < now' -> lines <> [] ->
  exists hit wb lines' l',
    Cache.access_set now' t w lines = Some (hit, wb, lines') /\
    lru_access (length lines) t w l = (hit, wb, l') /\
    holds now' lines' l' /\ length lines' = length lines.
Proof.
  intros Hh Hnow Hne. pose proof Hh as (ls & Hp & Hs & Hn & -> & Hb & Hi). unfold Cache.access_set.
  destruct (Cache.find_line t lines) as [k|] eqn:Hf.
  - apply find_line_some in Hf as (a & x & b & -> & <- & Hv & Ht).
    rewrite list_lookup_middle by done. rewrite filter_split, Hv in Hp. cbn [app] in Hp.
    assert (Hx : x ∈ ls) by (rewrite <- Hp; set_solver).
    apply list_elem_of_split in Hx as (p & q & ->).
    assert (Hpq : valid_lines a ++ valid_lines b ≡ₚ p ++ q).
    { apply (Permutation_cons_inv (a := x)). by rewrite !Permutation_middle. }
    destruct (find_entry p q x Hn) as [Hfind Hfilter]. rewrite <- Ht.
    exists true, false, (a ++ Cache.touch now' w x :: b),
      (entry_of (Cache.touch now' w x) :: map entry_of (p ++ q)).
    split; [by rewrite insert_app_r_alt, Nat.sub_diag by lia|].
    split; [unfold lru_access; rewrite Hfind; destruct w; exact (f_equal (fun f => (true, false, _ :: f)) Hfilter)|].
    split; [by apply (touch_holds now)|by rewrite !length_app].
  - apply find_line_none in Hf. destruct lines as [|x0 rest]; [done|].
    assert (Hnt : ~ (t ∈ map tag ls)).
    { intros (x & -> & Hx)%list_elem_of_fmap. rewrite <- Hp in Hx.
      apply list_elem_of_filter in Hx as [Hv Hx]. rewrite Forall_forall in Hf. by apply (Hf x). }
    destruct (victim_min rest [x0] 0 (lru x0)) as (x & Hx & Hmin);
      [by exists x0|by repeat constructor|].
    cbn [Cache.victim app length] in *. rewrite Z.ltb_irrefl, Hx.
    set (lines := x0 :: rest) in *. set (k := Cache.victim _ _ _ _) in *.
    apply list_elem_of_split_length in Hx as (a & b & Hab & Hk). rewrite Hab in *. clearbody k. subst k.
    destruct (evicted a x b ls (Cache.fill now' t w x) Hp Hs Hmin Hi eq_refl)
      as (ls' & q & Htake & Hp' & -> & Hd).
    exists false, (dirty x), (a ++ Cache.fill now' t w x :: b), ((t, w) :: map entry_of ls').
    split; [by rewrite insert_app_r_alt, Nat.sub_diag by lia|].
    replace (S (length rest)) with (length (a ++ x :: b)) by (rewrite <- Hab; done).
    split; [|split; [by apply (fill_holds now _ _ _ _ _ _ _ q)|by rewrite !length_app]].
    unfold lru_access. rewrite find_no_entry, length_map, Htake, Hd by done. done.
Qed.
Lemma holds_later now now' lines l : holds now lines l -> now <= now' -> holds now' lines l.
Proof.
  intros (ls & Hp & Hs & Hn & Hl & Hb & Hi) Hle. exists ls. split_and!; try done.
  eapply Forall_impl; [exact Hb|]. cbn. lia.
Qed.
Lemma holds_empty ways : holds 0 (replicate ways Cache.empty_line) [].
Proof.
  exists []. split_and!; try done; try constructor.
  - induction ways as [|n IH]; [done|]. cbn [replicate]. by rewrite filter_cons_False by done.
  - by apply Forall_replicate.
  - apply Forall_replicate. by split.
Qed.

(** ** The contract of a cache *)

(** The set and the tag an address selects. *)
Definition line_of (c : Cache) (addr : Z) : Z := u32 (addr / c.(cache_cfg_).(line_bytes)).
Definition set_of (c : Cache) (addr : Z) : nat := Z.to_nat (line_of c addr mod zlen c.(sets_)).

Record contents (c : Cache) (sets : list (list entry)) : Prop := {
  contents_line : c.(cache_cfg_).(line_bytes) <> 0;
  contents_some : c.(sets_) <> [];
  contents_ways : Forall (fun s => length s = Z.to_nat c.(cache_cfg_).(associativity)) c.(sets_);
  contents_way : 0 < c.(cache_cfg_).(associativity);
  contents_tick : 0 <= c.(tick_);
  contents_holds : Forall2 (holds c.(tick_)) c.(sets_) sets }.

(** The latency an access reports. *)
Definition latency_of (cfg : CacheConfig) (hit : bool) : Z :=
  if hit then cfg.(hit_latency) else cfg.(miss_penalty).
(** The counters after an access. *)
Definition count (hit wb : bool) (s : CacheStats) : CacheStats :=
  if hit then { s with c_hits := u64 (s.(c_hits) + 1) }
  else { s with writebacks := if wb then u64 (s.(writebacks) + 1) else s.(writebacks);
                c_misses := u64 (s.(c_misses) + 1) }.

Lemma set_of_lookup c sets addr :
  contents c sets -> exists lines l, c.(sets_) !! set_of c addr = Some lines /\
    sets !! set_of c addr = Some l /\ holds c.(tick_) lines l /\
    length lines = Z.to_nat c.(cache_cfg_).(associativity).
Proof.
  intros [Hl Hs Hw _ _ Hh]. assert (Hlt : (set_of c addr < length (sets_ c))%nat).
  { unfold set_of. assert (0 < zlen (sets_ c)) by (unfold zlen; destruct (sets_ c); [done|cbn; lia]).
    pose proof (Z.mod_pos_bound (line_of c addr) (zlen (sets_ c)) ltac:(lia)). unfold zlen in *. lia. }
  destruct (lookup_lt_is_Some_2 _ _ Hlt) as [lines El].
  destruct (Forall2_lookup_l _ _ _ _ _ Hh El) as (l & Ea & Hhl).
  exists lines, l. split_and!; try done. by apply (Forall_lookup_1 _ _ _ _ Hw El).
Qed.

(** An access is the access of its set's contract. *)
Lemma access_lru c sets addr w :
  contents c sets -> c.(tick_) + 1 < 2 ^ 64 ->
  exists hit wb l l' c',
    sets !! set_of c addr = Some l /\
    lru_access (Z.to_nat c.(cache_cfg_).(associativity)) (line_of c addr) w l = (hit, wb, l') /\
    Cache.access addr w c = (Ok (hit, Some (latency_of c.(cache_cfg_) hit)), c') /\
    contents c' (<[set_of c addr := l']> sets) /\ c'.(cache_cfg_) = c.(cache_cfg_) /\
    c'.(tick_) = c.(tick_) + 1 /\ zlen c'.(sets_) = zlen c.(sets_) /\ c'.(stats_) = count hit wb c.(stats_).
Proof.
  intros Hc Ht. destruct (set_of_lookup c sets addr Hc) as (lines & l & El & Ea & Hh & Hlen).
  destruct Hc as [Hl Hs Hw Hw0 Ht0 Hf].
  assert (Hne : lines <> []) by (intros ->; cbn in Hlen; lia).
  destruct (access_set_lru _ (c.(tick_) + 1) (line_of c addr) w lines l Hh ltac:(lia) Hne)
    as (hit & wb & lines' & l' & Hset & Habs & Hh' & Hlen').
  exists hit, wb, l, l',
    (mkCache c.(cache_cfg_) (<[set_of c addr := lines']> c.(sets_)) (c.(tick_) + 1) (count hit wb c.(stats_))).
  split_and!; try done.
  - by rewrite <- Hlen.
  - assert (Hu : u64 (tick_ c + 1) = tick_ c + 1) by (apply u64_small; split; lia).
    unfold Cache.access. fold (line_of c addr). fold (set_of c addr). rewrite Hu, El.
    rewrite (proj2 (Z.eqb_neq _ _) Hl). cbn [option_bind mbind]. rewrite Hset.
    destruct (sets_ c); [done|]. destruct hit; done.
  - constructor; cbn [cache_cfg_ sets_ tick_]; try done; try lia.
    + intros He. apply Hs, length_zero_iff_nil. rewrite <- (length_insert _ (set_of c addr) lines'). by rewrite He.
    + apply Forall_insert; [done|]. by rewrite Hlen'.
    + apply Forall2_insert; [|done]. eapply Forall2_impl; [exact Hf|].
      intros; eapply holds_later; [done|lia].
  - cbn [sets_]. unfold zlen. by rewrite length_insert.
Qed.

(** A sequence of accesses on the code's cache, and on the contract. *)
Fixpoint access_all (accs : list (Z * bool)) : M Cache (list (bool * option Z)) :=
  match accs with
  | [] => ret []
  | (addr, w) :: accs =>
      let! r := Cache.access addr w in
      let! rs := access_all accs in
      ret (r :: rs)
  end.
Fixpoint lru_all (cfg : CacheConfig) (n : Z) (accs : list (Z * bool)) (sets : list (list entry))
    : list (bool * bool) :=
  match accs with
  | [] => []
  | (addr, w) :: accs =>
      let line := u32 (addr / cfg.(line_bytes)) in
      let set := Z.to_nat (line mod n) in
      let '(hit, wb, l) := lru_access (Z.to_nat cfg.(associativity)) line w (default [] (sets !! set)) in
      (hit, wb) :: lru_all cfg n accs (<[set := l]> sets)
  end.
Definition counts (rs : list (bool * bool)) (s : CacheStats) : CacheStats :=
  fold_left (fun s r => count r.1 r.2 s) rs s.

Lemma access_all_lru accs : forall c sets,
  contents c sets -> c.(tick_) + zlen accs < 2 ^ 64 ->
  let rs := lru_all c.(cache_cfg_) (zlen c.(sets_)) accs sets in
  exists c', access_all accs c
               = (Ok (map (fun r => (r.1, Some (latency_of c.(cache_cfg_) r.1))) rs), c') /\
             c'.(stats_) = counts rs c.(stats_) /\ c'.(tick_) = c.(tick_) + zlen accs.
Proof.
  induction accs as [|[addr w] accs IH]; intros c sets Hc Ht; cbn zeta.
  { exists c. split_and!; [done|done|]. unfold zlen. cbn. lia. }
  rewrite zlen_cons in Ht. pose proof (zlen_nonneg accs).
  destruct (access_lru c sets addr w Hc ltac:(lia))
    as (hit & wb & l & l' & c' & Ea & Habs & Hacc & Hc' & Hcfg & Htick & Hn & Hst).
  destruct (IH c' _ Hc' ltac:(lia)) as (c'' & Hall & Hst' & Ht').
  exists c''. cbn [lru_all]. fold (line_of c addr). fold (set_of c addr).
  rewrite Ea. change (default [] (Some l)) with l. rewrite Habs. cbn [map fst snd counts fold_left access_all].
  unfold bind. rewrite Hacc, Hall, Hcfg, Hn. split_and!; [done| |rewrite zlen_cons; lia].
  by rewrite Hst', Hcfg, Hn, Hst.
Qed.

Lemma configure_contents cfg c :
  Cache.configure cfg = Ok c -> 0 < cfg.(associativity) -> c.(sets_) <> [] -> contents c (replicate (length c.(sets_)) []).
Proof.
  unfold Cache.configure. set (d := u64 _). destruct (Z.eqb_spec d 0) as [|Hd]; [done|].
  intros <-%Ok_inj Ha Hs. cbn [cache_cfg_ sets_ tick_] in *. constructor; cbn [cache_cfg_ sets_ tick_]; try done.
  - intros Hl. apply Hd. unfold d. by rewrite Hl.
  - apply Forall_replicate. apply length_replicate.
  - rewrite length_replicate. clear Hs. induction (Z.to_nat _) as [|n IH]; cbn [replicate]; constructor; [|done].
    apply holds_empty.
Qed.

(** C27: a configured cache implements least-recently-used replacement.  On a
    cache whose geometry gives at least one set and one way, as the default
    ones do (a cache without sets reports every access as a hit),
    and on any sequence of fewer than [2 ^ 64] reads and writes, every access
    returns the hit the contract returns (each set a list of its tags, the most
    recent first, the last one evicted when the set is full) with the configured
    latency, and the hit, miss and writeback counters are the contract's: a
    writeback is counted exactly when the contract evicts a tag written since
    it was filled. *)
Theorem cache_refines_lru cfg c accs :
  Cache.configure cfg = Ok c -> 0 < cfg.(associativity) -> c.(sets_) <> [] -> zlen accs < 2 ^ 64 ->
  let rs := lru_all cfg (zlen c.(sets_)) accs (replicate (length c.(sets_)) []) in
  exists c', access_all accs c = (Ok (map (fun r => (r.1, Some (latency_of cfg r.1))) rs), c') /\
             c'.(stats_) = counts rs Cache.no_stats.
Proof.
  intros Hcfg Ha Hs Hn. pose proof (configure_contents cfg c Hcfg Ha Hs) as Hc.
  assert (Hf : c.(cache_cfg_) = cfg /\ c.(tick_) = 0 /\ c.(stats_) = Cache.no_stats).
  { unfold Cache.configure in Hcfg. destruct (_ =? 0); [done|]. by apply Ok_inj in Hcfg as <-. }
  destruct Hf as (Hf1 & Hf2 & Hf3).
  destruct (access_all_lru accs c _ Hc ltac:(rewrite Hf2; lia)) as (c' & Hr & Hst & _).
  exists c'. rewrite <- Hf1 at 1. rewrite Hf1, Hf3 in *. done.
Qed.
(** A 2-way cache of two sets: write 0, read 128, 0, 256, 128, 64. *)
Definition small_config : CacheConfig := mkCacheConfig 256 64 2 MESI 1 10.
Definition small_trace : list (Z * bool) :=
  [(0, true); (128, false); (0, false); (256, false); (128, true); (64, false); (0, false)].
Lemma cache_refines_lru_witness :
  exists c c', Cache.configure small_config = Ok c /\
    access_all small_trace c
      = (Ok [(false, Some 10); (false, Some 10); (true, Some 1); (false, Some 10); (false, Some 10);
             (false, Some 10); (false, Some 10)], c') /\
    c'.(stats_) = mkCacheStats 1 6 1.
Proof.
  destruct (Cache.configure small_config) as [c| |] eqn:E; [|discriminate E|discriminate E].
  destruct (cache_refines_lru small_config c small_trace E ltac:(done)) as (c' & H1 & H2).
  - intros Hs. apply (f_equal (fun o => match o with Ok c => length c.(sets_) | _ => O end)) in E.
    cbn beta iota in E. rewrite Hs in E. vm_compute in E. discriminate E.
  - reflexivity.
  - assert (Hl : length c.(sets_) = 2%nat).
    { apply (f_equal (fun o => match o with Ok c => length c.(sets_) | _ => O end)) in E. symmetry. exact E. }
    exists c, c'. unfold zlen in H1, H2. rewrite Hl in H1, H2. split; [done|]. split; [exact H1|].
    rewrite H2. vm_compute. reflexivity.
Defined.

(** ** The hierarchy *)

(** Accesses of a level, from its counters. *)
Definition accesses (c : Cache) : Z := u64 (c.(stats_).(c_hits) + c.(stats_).(c_misses)).
(** Each level is accessed once per miss of the level above. *)
Record flows (h : CacheHierarchy) : Prop := {
  flow_l2 : accesses h.(l2) = u64 h.(l1).(stats_).(c_misses);
  flow_l3 : accesses h.(l3) = u64 h.(l2).(stats_).(c_misses);
  flow_mc : MemoryController.total_accesses h.(mc) = u64 h.(l3).(stats_).(c_misses) }.

Lemma access_counts addr w c hit s c' :
  c.(sets_) <> [] -> Cache.access addr w c = (Ok (hit, s), c') ->
  c'.(sets_) <> [] /\ accesses c' = u64 (accesses c + 1) /\
  u64 c'.(stats_).(c_misses) = u64 (c.(stats_).(c_misses) + Z.b2z (negb hit)).
Proof.
  intros Hs. unfold Cache.access. destruct (sets_ c) eqn:Es; [done|]. rewrite <- Es in *. clear Es.
  destruct (_ =? 0); [done|].
  set (o := sets_ c !! _ ≫= _). destruct o as [[[h wb] ls]|]; [|done].
  assert (Hi : forall k, <[k := ls]> (sets_ c) <> []).
  { intros k He. apply Hs, length_zero_iff_nil. rewrite <- (length_insert _ k ls). by rewrite He. }
  assert (Hadd : forall a b, u64 (u64 (a + 1) + b) = u64 (u64 (a + b) + 1) /\ u64 (a + u64 (b + 1)) = u64 (u64 (a + b) + 1)).
  { intros a b. rewrite !u64_add_l, u64_add_r. split; f_equal; lia. }
  destruct h; intros H; injection H as <- <- <-; (split; [apply Hi|]); unfold accesses; cbn; split;
    try apply Hadd; rewrite ?Z.add_0_r; try done. unfold u64. by rewrite Z.mod_mod.
Qed.

Definition has_sets (h : CacheHierarchy) : Prop :=
  h.(l1).(sets_) <> [] /\ h.(l2).(sets_) <> [] /\ h.(l3).(sets_) <> [].

Lemma mc_counts addr w m lat m' :
  MemoryController.access addr w m = (Ok lat, m') ->
  MemoryController.total_accesses m' = u64 (MemoryController.total_accesses m + 1).
Proof.
  destruct m. unfold MemoryController.access, MemoryController.total_accesses. cbn [mc_cfg_ open_rows_ row_hits_ row_misses_].
  destruct (_ =? 0); [done|].
  destruct (_ =? _); intros [= <- <-]; cbn; rewrite ?u64_add_l, ?u64_add_r, ?u64_add_l; f_equal; lia.
Qed.

(** C28: the hierarchy asks a level exactly when the level above missed.
    Starting from consistent counters, and when every level has at least one set
    (as in the default geometry; a level without sets hits without counting),
    any access that returns keeps, modulo [2 ^ 64], L2 accesses = L1 misses, L3
    accesses = L2 misses and memory controller accesses = L3 misses; L1 is
    accessed once per access. *)
Theorem hierarchy_flow addr w h lat h' :
  flows h -> has_sets h -> CacheHierarchy.access addr w h = (Ok lat, h') ->
  flows h' /\ has_sets h' /\ accesses h'.(l1) = u64 (accesses h.(l1) + 1).
Proof.
  intros [F2 F3 Fm] (S1 & S2 & S3) H.
  apply bind_inv in H as ([b1 t1] & h1 & (c1 & E1 & ->)%zoom_inv & H).
  destruct (access_counts _ _ _ _ _ _ S1 E1) as (S1' & A1 & M1). cbn [fst snd] in H. destruct b1.
  { injection H as <- <-. split; [|done]. constructor; cbn; rewrite ?F2, ?F3, ?Fm, ?M1; cbn; by rewrite ?Z.add_0_r. }
  apply bind_inv in H as ([b2 t2] & h2 & (c2 & E2 & ->)%zoom_inv & H). change (l2 _) with (l2 h) in E2.
  destruct (access_counts _ _ _ _ _ _ S2 E2) as (S2' & A2 & M2). cbn [fst snd] in H. destruct b2.
  { injection H as <- <-. split; [|done].
    constructor; cbn; rewrite ?A2, ?F2, ?F3, ?Fm, ?M1, ?M2; cbn; by rewrite ?Z.add_0_r, ?u64_add_l. }
  apply bind_inv in H as ([b3 t3] & h3 & (c3 & E3 & ->)%zoom_inv & H). change (l3 _) with (l3 h) in E3.
  destruct (access_counts _ _ _ _ _ _ S3 E3) as (S3' & A3 & M3). cbn [fst snd] in H. destruct b3.
  { injection H as <- <-. split; [|done].
    constructor; cbn; rewrite ?A2, ?A3, ?F2, ?F3, ?Fm, ?M1, ?M2, ?M3; cbn; by rewrite ?Z.add_0_r, ?u64_add_l. }
  apply bind_inv in H as (t4 & h4 & (m4 & E4 & ->)%zoom_inv & H). change (mc _) with (mc h) in E4.
  pose proof (mc_counts _ _ _ _ _ E4) as A4. injection H as <- <-. split; [|done].
  constructor; cbn; rewrite ?A2, ?A3, ?A4, ?F2, ?F3, ?Fm, ?M1, ?M2, ?M3; cbn; by rewrite ?u64_add_l.
Qed.
Definition small_hierarchy : CacheHierarchy :=
  let c := mkCache small_config (replicate 2 (replicate 2 Cache.empty_line)) 0 Cache.no_stats in
  mkHierarchy c c c (MemoryController.make MemoryController.default_config).
Lemma hierarchy_flow_witness :
  exists h', CacheHierarchy.access 4096 false small_hierarchy = (Ok 78, h') /\ flows h'.
Proof.
  destruct (CacheHierarchy.access 4096 false small_hierarchy) as [o h'] eqn:E. exists h'.
  assert (o = Ok 78) as -> by (apply (f_equal fst) in E; symmetry; exact E). split; [done|].
  apply (hierarchy_flow 4096 false small_hierarchy 78 h'); [by constructor|by split_and!|exact E].
Defined.
