(* ===== verification/Decoder.v ===== *)
(** * Guest front ends: decoder.h, decoder.cpp

    [TranslationEngine]: the RISC-V, ARM64 and PTX decoders and
    [translate_bytes].  The RISC-V decoder is compared with an encoder and a
    register semantics of the base integer instructions it accepts. *)

From Stdlib Require Import Ascii String.
From S2P Require Import Prelude Text Isa Memory Registers Interrupt Devices Bus Float Profiler Interconnect Target Host Mmu Translate Emulator EmulatorWf Execute.
#[local] Open Scope Z_scope.

Inductive GuestISA : Type := Native | ARM64 | RISCV64 | PTX | ASIC.
Definition guest_isa_name (isa : GuestISA) : string :=
  match isa with
  | Native => "novium-native" | ARM64 => "arm64" | RISCV64 => "riscv64"
  | PTX => "ptx" | ASIC => "asic-ucode"
  end%string.

#[local] Set Primitive Projections.
Record TranslationStats : Type := mkTranslationStats { decoded : Z; emitted : Z; folded : Z }.
#[local] Unset Primitive Projections.

Module TranslationEngine.

(** [uint8_t(r & 0xF)] *)
Definition low4 (r : Z) : Z := Z.land r 0xF.

(** The register fields of a RISC-V word. *)
Definition rv_rd (word : Z) : Z := Z.land (Z.shiftr word 7) 0x1F.
Definition rv_rs1 (word : Z) : Z := Z.land (Z.shiftr word 15) 0x1F.
Definition rv_rs2 (word : Z) : Z := Z.land (Z.shiftr word 20) 0x1F.
Definition rv_funct3 (word : Z) : Z := Z.land (Z.shiftr word 12) 0x7.
Definition rv_funct7 (word : Z) : Z := Z.land (Z.shiftr word 25) 0x7F.
Definition rv_imm_i (word : Z) : Z := Z.shiftr (s32 word) 20.
Definition rv_imm_s (word : Z) : Z :=
  let imm := Z.lor (Z.shiftl (Z.shiftr word 25) 5) (Z.land (Z.shiftr word 7) 0x1F) in
  if negb (Z.land word 0x80000000 =? 0) then s32 (Z.lor imm 0xFFFFF000) else s32 imm.
Definition rv_imm_b (word : Z) : Z :=
  let imm := Z.lor (Z.lor (Z.lor (Z.shiftl (Z.land (Z.shiftr word 31) 1) 12)
                                 (Z.shiftl (Z.land (Z.shiftr word 7) 1) 11))
                          (Z.shiftl (Z.land (Z.shiftr word 25) 0x3F) 5))
                   (Z.shiftl (Z.land (Z.shiftr word 8) 0xF) 1) in
  if negb (Z.land imm 0x1000 =? 0) then s32 (Z.lor imm 0xFFFFE000) else s32 imm.
Definition rv_imm_j (word : Z) : Z :=
  let imm := Z.lor (Z.lor (Z.lor (Z.shiftl (Z.land (Z.shiftr word 31) 1) 20)
                                 (Z.shiftl (Z.land (Z.shiftr word 12) 0xFF) 12))
                          (Z.shiftl (Z.land (Z.shiftr word 20) 1) 11))
                   (Z.shiftl (Z.land (Z.shiftr word 21) 0x3FF) 1) in
  if negb (Z.land imm 0x100000 =? 0) then s32 (Z.lor imm 0xFFE00000) else s32 imm.

(** [None] is [false]: nothing is appended. *)
Definition translate_one_riscv (word : Z) : option (list Z) :=
  let opcode := Z.land word 0x7F in
  let rd := low4 (rv_rd word) in
  let rs1 := low4 (rv_rs1 word) in
  let rs2 := low4 (rv_rs2 word) in
  let f3 := rv_funct3 word in
  let f7 := rv_funct7 word in
  if (opcode =? 0x33) && (f3 =? 0) && (f7 =? 0x00) then Some [enc.add rd rs1 rs2]
  else if (opcode =? 0x33) && (f3 =? 0) && (f7 =? 0x20) then Some [enc.sub rd rs1 rs2]
  else if (opcode =? 0x33) && (f3 =? 0) && (f7 =? 0x01) then Some [enc.mul rd rs1 rs2]
  else if opcode =? 0x13 then
    Some [enc.movi 15 (Z.land (rv_imm_i word) 0xFFFF); enc.add rd rs1 15]
  else if opcode =? 0x03 then Some [enc.load rd rs1 (Z.land (rv_imm_i word) 0xFFFF)]
  else if opcode =? 0x23 then Some [enc.store rs2 rs1 (Z.land (rv_imm_s word) 0xFFFF)]
  else if (opcode =? 0x63) && (f3 =? 0) then
    Some [enc.beq rs1 rs2 (s16 (Z.quot (rv_imm_b word - 4) 4))]
  else if (opcode =? 0x63) && (f3 =? 1) then
    Some [enc.bne rs1 rs2 (s16 (Z.quot (rv_imm_b word - 4) 4))]
  else if opcode =? 0x6F then Some [enc.jmp (Z.land (u32 (rv_imm_j word)) TARGET_MASK)]
  else None.

Definition arm_rd (word : Z) : Z := Z.land word 0x1F.
Definition arm_rn (word : Z) : Z := Z.land (Z.shiftr word 5) 0x1F.
Definition arm_rm (word : Z) : Z := Z.land (Z.shiftr word 16) 0x1F.
Definition arm_imm_b (word : Z) : Z :=
  let imm := Z.shiftl (Z.land word 0x3FFFFFF) 2 in
  if negb (Z.land imm 0x08000000 =? 0) then s32 (Z.lor imm 0xF0000000) else imm.

Definition translate_one_arm64 (word : Z) : option (list Z) :=
  let top := Z.land (Z.shiftr word 24) 0xFF in
  let rd := arm_rd word in
  let rn := arm_rn word in
  let rm := arm_rm word in
  if Z.land top 0xFE =? 0x8A then Some [enc.add (low4 rd) (low4 rn) (low4 rm)]
  else if Z.land top 0xFE =? 0xCA then Some [enc.sub (low4 rd) (low4 rn) (low4 rm)]
  else if Z.land word 0xFF800000 =? 0x52800000 then
    Some [enc.movi (low4 rd) (Z.land (Z.shiftr word 5) 0xFFFF)]
  else if Z.land word 0xFC000000 =? 0x14000000 then
    Some [enc.jmp (Z.land (u32 (arm_imm_b word)) TARGET_MASK)]
  else if Z.land word 0xFFC00000 =? 0xF9400000 then
    Some [enc.load (low4 rd) (low4 rn) (Z.land (Z.land (Z.shiftr word 10) 0xFFF * 8) 0xFFFF)]
  else if Z.land word 0xFFE0FC00 =? 0x4E20D400 then
    Some [enc.vec_add (rd mod 8) (rn mod 8) (rm mod 8)]
  else None.

(** *** PTX: one line of text *)

(** [s.substr(0, s.find("//"))], the whole string when there is none. *)
Fixpoint strip_comment (s : string) : string :=
  match s with
  | EmptyString => s
  | String a s' => if String.prefix "//" s then "" else String a (strip_comment s')
  end%string.
Definition blank (c : ascii) : bool :=
  let n := nat_of_ascii c in ((n =? 32) || (n =? 9) || (n =? 13) || (n =? 10))%nat.
Fixpoint trim_left (s : string) : string :=
  match s with
  | String c s' => if blank c then trim_left s' else s
  | EmptyString => s
  end.
Fixpoint trim_right (s : string) : string :=
  match s with
  | EmptyString => s
  | String c s' =>
      match trim_right s' with
      | EmptyString => if blank c then EmptyString else String c EmptyString
      | t => String c t
      end
  end.

Definition translate_one_ptx (line : string) : option (list Z) :=
  let s := trim_right (trim_left (strip_comment line)) in
  let low := lower s in
  let starts (p : string) := String.prefix p low in
  if (s =? "")%string then None
  else if starts "add."%string then Some [enc.vec_add 2 0 1]
  else if starts "fma"%string || starts "mma"%string then Some [enc.matmul_tile 3 0 1 4]
  else if starts "ld."%string then Some [enc.load_vr 0 5 0]
  else if starts "st."%string then Some [enc.store_vr 3 5 0]
  else if starts "mov"%string then Some [enc.movi 1 1]
  else if starts "ret"%string || starts "exit"%string then Some [enc.halt]
  else None.

(** [std::getline]: the pieces between newlines; what follows the last newline
    is a line when it is not empty. *)
Fixpoint getlines (cur : string) (data : list Z) : list string :=
  match data with
  | [] => if (cur =? "")%string then [] else [cur]
  | b :: data =>
      if b =? 10 then cur :: getlines "" data
      else getlines (cur +:+ String (char_of b) "")%string data
  end.

(** The 32-bit little-endian words of a byte array, a shorter tail ignored. *)
Fixpoint words (data : list Z) : list Z :=
  match data with
  | a :: b :: c :: d :: data => le_val [a; b; c; d] :: words data
  | _ => []
  end.

(** One guest instruction after another: [fallback] is what an instruction
    that is not understood becomes. *)
Fixpoint translate_each {A} (one : A -> option (list Z)) (fallback : list Z)
    (ins : list A) (st : TranslationStats) : list Z * TranslationStats :=
  match ins with
  | [] => ([], st)
  | i :: ins =>
      match one i with
      | Some tmp =>
          let '(out, st) := translate_each one fallback ins
            (mkTranslationStats (st.(decoded) + 1) (st.(emitted) + zlen tmp) st.(folded)) in
          (tmp ++ out, st)
      | None =>
          let '(out, st) := translate_each one fallback ins st in
          (fallback ++ out, st)
      end
  end.

Definition ends_in_halt (out : list Z) : bool :=
  match last out with
  | None => false
  | Some w => Z.shiftr w OPCODE_SHIFT =? code HALT
  end.

(** The translated words and the statistics ([*stats] when it is not null). *)
Definition translate_bytes (isa : GuestISA) (data : list Z) : list Z * TranslationStats :=
  let none := mkTranslationStats 0 0 0 in
  match isa with
  | Native | ASIC =>
      let ws := words data in (ws, mkTranslationStats (zlen ws) (zlen ws) 0)
  | RISCV64 => translate_each translate_one_riscv [enc.nop] (words data) none
  | ARM64 => translate_each translate_one_arm64 [enc.nop] (words data) none
  | PTX =>
      let '(out, st) := translate_each translate_one_ptx [] (getlines "" data) none in
      (if ends_in_halt out then out else out ++ [enc.halt], st)
  end.
End TranslationEngine.

(** ** RISC-V words *)

(** The base integer instructions the decoder accepts, as the RISC-V manual
    encodes them (R, I, S, B and J formats). *)
Inductive rv_op : Type := RvAdd | RvSub | RvMul.
Inductive rv_instr : Type :=
  | RvOp (op : rv_op) (rd rs1 rs2 : Z)
  | RvAddi (rd rs1 imm : Z)
  | RvLw (rd rs1 imm : Z)
  | RvSw (rs2 rs1 imm : Z)
  | RvBranch (ne : bool) (rs1 rs2 off : Z)
  | RvJal (rd off : Z).

Definition rv_word (opc rd f3 rs1 rs2 f7 : Z) : Z :=
  opc + rd * 2 ^ 7 + f3 * 2 ^ 12 + rs1 * 2 ^ 15 + rs2 * 2 ^ 20 + f7 * 2 ^ 25.
Definition op_funct7 (op : rv_op) : Z := match op with RvAdd => 0 | RvSub => 0x20 | RvMul => 1 end.
(** Bits [lo, lo + n) of a number. *)
Definition slice (z lo n : Z) : Z := z / 2 ^ lo mod 2 ^ n.
Definition rv_encode (i : rv_instr) : Z :=
  match i with
  | RvOp op rd rs1 rs2 => rv_word 0x33 rd 0 rs1 rs2 (op_funct7 op)
  | RvAddi rd rs1 imm => rv_word 0x13 rd 0 rs1 (slice imm 0 5) (slice imm 5 7)
  | RvLw rd rs1 imm => rv_word 0x03 rd 2 rs1 (slice imm 0 5) (slice imm 5 7)
  | RvSw rs2 rs1 imm => rv_word 0x23 (slice imm 0 5) 2 rs1 rs2 (slice imm 5 7)
  | RvBranch ne rs1 rs2 off =>
      rv_word 0x63 (slice off 1 4 * 2 + slice off 11 1) (Z.b2z ne) rs1 rs2
        (slice off 12 1 * 64 + slice off 5 6)
  | RvJal rd off =>
      rv_word 0x6F rd (slice off 12 3) (slice off 15 5) (slice off 1 4 * 2 + slice off 11 1)
        (slice off 20 1 * 64 + slice off 5 6)
  end.

(** Registers below 16, immediates in their formats' ranges. *)
Definition rv_reg (r : Z) : Prop := 0 <= r < 16.
Definition rv_ok (i : rv_instr) : Prop :=
  match i with
  | RvOp _ rd rs1 rs2 => rv_reg rd /\ rv_reg rs1 /\ rv_reg rs2
  | RvAddi r s imm | RvLw r s imm | RvSw r s imm => rv_reg r /\ rv_reg s /\ - 2 ^ 11 <= imm < 2 ^ 11
  | RvBranch _ r s off => rv_reg r /\ rv_reg s /\ - 2 ^ 12 <= off < 2 ^ 12 /\ off mod 2 = 0
  | RvJal r off => rv_reg r /\ - 2 ^ 20 <= off < 2 ^ 20 /\ off mod 2 = 0
  end.

(** What the decoder makes of them. *)
Definition rv_lowered (i : rv_instr) : list Z :=
  match i with
  | RvOp RvAdd rd rs1 rs2 => [enc.add rd rs1 rs2]
  | RvOp RvSub rd rs1 rs2 => [enc.sub rd rs1 rs2]
  | RvOp RvMul rd rs1 rs2 => [enc.mul rd rs1 rs2]
  | RvAddi rd rs1 imm => [enc.movi 15 (imm mod 2 ^ 16); enc.add rd rs1 15]
  | RvLw rd rs1 imm => [enc.load rd rs1 (imm mod 2 ^ 16)]
  | RvSw rs2 rs1 imm => [enc.store rs2 rs1 (imm mod 2 ^ 16)]
  | RvBranch false rs1 rs2 off => [enc.beq rs1 rs2 (Z.quot (off - 4) 4)]
  | RvBranch true rs1 rs2 off => [enc.bne rs1 rs2 (Z.quot (off - 4) 4)]
  | RvJal _ off => [enc.jmp (off mod 2 ^ 26)]
  end.

Import TranslationEngine.

#[local] Ltac pows :=
  change (2 ^ 0) with 1 in *; change (2 ^ 1) with 2 in *; change (2 ^ 3) with 8 in *;
  change (2 ^ 4) with 16 in *; change (2 ^ 5) with 32 in *; change (2 ^ 6) with 64 in *;
  change (2 ^ 7) with 128 in *; change (2 ^ 8) with 256 in *; change (2 ^ 10) with 1024 in *;
  change (2 ^ 11) with 2048 in *;
  change (2 ^ 12) with 4096 in *; change (2 ^ 13) with 8192 in *; change (2 ^ 15) with 32768 in *;
  change (2 ^ 16) with 65536 in *;
  change (2 ^ 20) with 1048576 in *; change (2 ^ 21) with 2097152 in *; change (2 ^ 25) with 33554432 in *;
  change (2 ^ 26) with 67108864 in *; change (2 ^ 31) with 2147483648 in *;
  change (2 ^ 32) with 4294967296 in *.
#[local] Ltac divs := pows; Z.div_mod_to_equations; lia.

(** A field of a word. *)
Lemma word_field w sh m n :
  0 <= sh -> 0 <= n -> m = Z.ones n -> Z.land (Z.shiftr w sh) m = slice w sh n.
Proof. intros. unfold slice. by apply field_div. Qed.

(** Disjoint bits. *)
Lemma lor_add x y k : 0 <= k -> x mod 2 ^ k = 0 -> fits k y -> Z.lor x y = x + y.
Proof.
  intros Hk Hx Hy. assert (x = x / 2 ^ k * 2 ^ k) as ->.
  { rewrite (Z.div_mod x (2 ^ k)) at 1 by lia. lia. }
  by apply lor_pack.
Qed.
(** [imm |= mask] for a negative immediate. *)
Lemma sign_fill imm n m :
  0 <= n <= 31 -> fits n imm -> m = 2 ^ 32 - 2 ^ n -> s32 (Z.lor imm m) = imm - 2 ^ n.
Proof.
  intros Hn Hi ->. assert (Hp : 2 ^ 32 = 2 ^ (32 - n) * 2 ^ n).
  { rewrite <- Z.pow_add_r by lia. f_equal. lia. }
  pose proof (Z.pow_le_mono_r 2 n 31 ltac:(lia) ltac:(lia)) as H31.
  rewrite Z.lor_comm, (lor_add _ _ n); [|lia| |done].
  - unfold s32, to_signed, fits in *. change (2 ^ (32 - 1)) with (2 ^ 31).
    rewrite Z.mod_small by (change (2 ^ 32) with (2 * 2 ^ 31) in *; lia).
    destruct (Z.ltb_spec (2 ^ 32 - 2 ^ n + imm) (2 ^ 31)); [|lia].
    change (2 ^ 32) with (2 * 2 ^ 31) in *. lia.
  - replace (2 ^ 32 - 2 ^ n) with ((2 ^ (32 - n) - 1) * 2 ^ n) by lia. apply Z.mod_mul. lia.
Qed.
Lemma s32_small z : 0 <= z < 2 ^ 31 -> s32 z = z.
Proof.
  intros Hz. unfold s32, to_signed. rewrite Z.mod_small by (change (2 ^ 32) with (2 * 2 ^ 31); lia).
  change (2 ^ (32 - 1)) with (2 ^ 31). destruct (Z.ltb_spec z (2 ^ 31)); lia.
Qed.
(** [x & (1 << k)] is zero when bit [k] is. *)
Lemma single_bit x m k : 0 <= k -> m = 2 ^ k -> (Z.land x m =? 0) = (slice x k 1 =? 0).
Proof.
  intros Hk ->. unfold slice. rewrite <- Z.shiftr_div_pow2 by done. change (2 ^ 1) with 2.
  rewrite <- Z.bit0_mod, Z.shiftr_spec, Z.add_0_l by lia.
  destruct (Z.testbit x k) eqn:E; cbn [Z.b2z Z.eqb].
  - apply Z.eqb_neq. intros H. apply (f_equal (fun z => Z.testbit z k)) in H.
    rewrite Z.land_spec, E, Z.pow2_bits_true, Z.bits_0 in H by done. discriminate H.
  - apply Z.eqb_eq. apply Z.bits_inj'. intros j Hj. rewrite Z.land_spec, Z.bits_0.
    destruct (Z.eqb_spec j k) as [->|]; [by rewrite E|].
    rewrite Z.pow2_bits_false by done. apply andb_false_r.
Qed.

Section Word.
Context (opc rd f3 rs1 rs2 f7 : Z).
Context (Ho : fits 7 opc) (Hrd : fits 5 rd) (Hf3 : fits 3 f3) (H1 : fits 5 rs1) (H2 : fits 5 rs2) (H7 : fits 7 f7).
Let w := rv_word opc rd f3 rs1 rs2 f7.

Lemma word_fits : fits 32 w.
Proof using All. unfold w, rv_word, fits in *. pows. lia. Qed.
Lemma word_opcode : Z.land w 0x7F = opc.
Proof using All.
  rewrite (land_mask_mod _ _ 7) by done. unfold w, rv_word, fits in *. divs.
Qed.
Lemma word_rd : rv_rd w = rd.
Proof using All.
  unfold rv_rd. rewrite (word_field _ _ _ 5) by done. unfold w, slice, rv_word, fits in *. divs.
Qed.
Lemma word_funct3 : rv_funct3 w = f3.
Proof using All.
  unfold rv_funct3. rewrite (word_field _ _ _ 3) by done. unfold w, slice, rv_word, fits in *. divs.
Qed.
Lemma word_rs1 : rv_rs1 w = rs1.
Proof using All.
  unfold rv_rs1. rewrite (word_field _ _ _ 5) by done. unfold w, slice, rv_word, fits in *. divs.
Qed.
Lemma word_rs2 : rv_rs2 w = rs2.
Proof using All.
  unfold rv_rs2. rewrite (word_field _ _ _ 5) by done. unfold w, slice, rv_word, fits in *. divs.
Qed.
Lemma word_funct7 : rv_funct7 w = f7.
Proof using All.
  unfold rv_funct7. rewrite (word_field _ _ _ 7) by done. unfold w, slice, rv_word, fits in *. divs.
Qed.
Lemma word_imm_i : rv_imm_i w = rs2 + f7 * 32 - (if 64 <=? f7 then 4096 else 0).
Proof using All.
  unfold rv_imm_i, s32, to_signed. rewrite Z.shiftr_div_pow2 by lia.
  rewrite !(Z.mod_small w) by apply word_fits. unfold w, rv_word, fits in *. change (2 ^ (32 - 1)) with (2 ^ 31).
  destruct (Z.leb_spec 64 f7); destruct (Z.ltb_spec (opc + rd * 2 ^ 7 + f3 * 2 ^ 12 + rs1 * 2 ^ 15 + rs2 * 2 ^ 20 + f7 * 2 ^ 25) (2 ^ 31)); divs.
Qed.

#[local] Ltac field w := unfold w, slice, rv_word, fits in *; divs.
Lemma word_imm_s : rv_imm_s w = rd + f7 * 32 - (if 64 <=? f7 then 4096 else 0).
Proof using All.
  unfold rv_imm_s. fold (rv_rd w). rewrite word_rd, (single_bit w _ 31) by done.
  assert (Hs : slice w 31 1 = f7 / 64) by field w.
  assert (Hh : Z.shiftr w 25 = f7).
  { rewrite Z.shiftr_div_pow2 by lia. field w. }
  rewrite Hs, Hh, Z.shiftl_mul_pow2, (lor_add (f7 * 2 ^ 5) rd 5) by (done || lia || (apply Z.mod_mul; lia)).
  unfold fits in *. destruct (Z.leb_spec 64 f7).
  - rewrite (proj2 (Z.eqb_neq _ _)) by divs. cbn [negb].
    rewrite (sign_fill _ 12) by (done || lia || (unfold fits; divs)). divs.
  - rewrite (proj2 (Z.eqb_eq _ _)) by divs. cbn [negb]. rewrite s32_small by divs. divs.
Qed.
Lemma word_imm_b :
  rv_imm_b w = rd / 2 * 2 + f7 mod 64 * 32 + rd mod 2 * 2048 - (if 64 <=? f7 then 4096 else 0).
Proof using All.
  unfold rv_imm_b. rewrite !(word_field w _ 1 1), (word_field w _ 0x3F 6), (word_field w _ 0xF 4) by done.
  assert (E1 : slice w 31 1 = f7 / 64) by field w. assert (E2 : slice w 7 1 = rd mod 2) by field w.
  assert (E3 : slice w 25 6 = f7 mod 64) by field w. assert (E4 : slice w 8 4 = rd / 2) by field w.
  rewrite E1, E2, E3, E4, !Z.shiftl_mul_pow2 by lia. unfold fits in *.
  assert (B1 : 0 <= f7 / 64 < 2) by divs. assert (B2 : 0 <= rd mod 2 < 2) by divs.
  assert (B3 : 0 <= f7 mod 64 < 64) by divs. assert (B4 : 0 <= rd / 2 < 16) by divs.
  rewrite (lor_add (f7 / 64 * 2 ^ 12) _ 12) by (lia || (apply Z.mod_mul; lia) || (unfold fits; pows; lia)).
  rewrite (lor_add (f7 / 64 * 2 ^ 12 + _) _ 11) by (lia || (unfold fits; divs)).
  rewrite (lor_add (f7 / 64 * 2 ^ 12 + _ + _) _ 5) by (lia || (unfold fits; divs)).
  rewrite (single_bit _ _ 12) by done. set (imm := f7 / 64 * 2 ^ 12 + _ + _ + _).
  assert (Hb : slice imm 12 1 = f7 / 64) by (unfold imm, slice; divs).
  rewrite Hb. destruct (Z.leb_spec 64 f7).
  - rewrite (proj2 (Z.eqb_neq _ _)) by divs. cbn [negb].
    rewrite (sign_fill _ 13) by (done || lia || (unfold imm, fits; pows; lia)). unfold imm. divs.
  - rewrite (proj2 (Z.eqb_eq _ _)) by divs. cbn [negb].
    rewrite s32_small by (unfold imm; pows; lia). unfold imm. divs.
Qed.
Lemma word_imm_j :
  rv_imm_j w = rs2 / 2 * 2 + f7 mod 64 * 32 + rs2 mod 2 * 2048 + f3 * 4096 + rs1 * 32768
               - (if 64 <=? f7 then 1048576 else 0).
Proof using All.
  unfold rv_imm_j. rewrite !(word_field w _ 1 1), (word_field w _ 0xFF 8), (word_field w _ 0x3FF 10) by done.
  assert (E1 : slice w 31 1 = f7 / 64) by field w.
  assert (E2 : slice w 12 8 = f3 + rs1 * 8) by field w.
  assert (E3 : slice w 20 1 = rs2 mod 2) by field w.
  assert (E4 : slice w 21 10 = rs2 / 2 + f7 mod 64 * 16) by field w.
  rewrite E1, E2, E3, E4, !Z.shiftl_mul_pow2 by lia. unfold fits in *.
  assert (B1 : 0 <= f7 / 64 < 2) by divs. assert (B3 : 0 <= rs2 mod 2 < 2) by divs.
  assert (B4 : 0 <= rs2 / 2 < 16) by divs. assert (B5 : 0 <= f7 mod 64 < 64) by divs.
  rewrite (lor_add (f7 / 64 * 2 ^ 20) _ 20) by (lia || (apply Z.mod_mul; lia) || (unfold fits; pows; lia)).
  rewrite (lor_add (f7 / 64 * 2 ^ 20 + _) _ 12) by (lia || (unfold fits; divs)).
  rewrite (lor_add (f7 / 64 * 2 ^ 20 + _ + _) _ 11) by (lia || (unfold fits; divs)).
  rewrite (single_bit _ _ 20) by done. set (imm := f7 / 64 * 2 ^ 20 + _ + _ + _).
  assert (Hb : slice imm 20 1 = f7 / 64) by (unfold imm, slice; divs).
  rewrite Hb. destruct (Z.leb_spec 64 f7).
  - rewrite (proj2 (Z.eqb_neq _ _)) by divs. cbn [negb].
    rewrite (sign_fill _ 21) by (done || lia || (unfold imm, fits; pows; lia)). unfold imm. divs.
  - rewrite (proj2 (Z.eqb_eq _ _)) by divs. cbn [negb].
    rewrite s32_small by (unfold imm; pows; lia). unfold imm. divs.
Qed.
End Word.

Lemma low4_small r : rv_reg r -> low4 r = r.
Proof. unfold rv_reg, low4. intros. rewrite (land_mask_mod _ _ 4) by done. pows. apply Z.mod_small. lia. Qed.
Lemma slice_fits z lo n : 0 <= n -> fits n (slice z lo n).
Proof. intros. apply mod_fits. done. Qed.
Lemma imm16_low imm : Z.land imm 0xFFFF = imm mod 2 ^ 16.
Proof. by apply land_mask_mod. Qed.

(** The pieces of an immediate put together again. *)
Lemma join_imm12 imm : - 2 ^ 11 <= imm < 2 ^ 11 ->
  slice imm 0 5 + slice imm 5 7 * 32 - (if 64 <=? slice imm 5 7 then 4096 else 0) = imm.
Proof. intros H. destruct (Z.leb_spec 64 (slice imm 5 7)) as [E|E]; unfold slice in *; divs. Qed.
Lemma join_imm_b off : - 2 ^ 12 <= off < 2 ^ 12 -> off mod 2 = 0 ->
  let rd := slice off 1 4 * 2 + slice off 11 1 in
  let f7 := slice off 12 1 * 64 + slice off 5 6 in
  rd / 2 * 2 + f7 mod 64 * 32 + rd mod 2 * 2048 - (if 64 <=? f7 then 4096 else 0) = off.
Proof.
  intros H Hm rd f7. assert (rd / 2 = slice off 1 4) as -> by (unfold rd, slice; divs).
  assert (rd mod 2 = slice off 11 1) as -> by (unfold rd, slice; divs).
  assert (f7 mod 64 = slice off 5 6) as -> by (unfold f7, slice; divs).
  assert (off = slice off 1 4 * 2 + slice off 5 6 * 32 + slice off 11 1 * 2048 - slice off 12 1 * 4096) by (unfold slice; divs).
  assert (B : 0 <= slice off 5 6 < 64 /\ 0 <= slice off 12 1 < 2) by (unfold slice; divs).
  destruct (Z.leb_spec 64 f7) as [E|E]; unfold f7 in E; lia.
Qed.
Lemma join_imm_j off : - 2 ^ 20 <= off < 2 ^ 20 -> off mod 2 = 0 ->
  let rs2 := slice off 1 4 * 2 + slice off 11 1 in
  let f7 := slice off 20 1 * 64 + slice off 5 6 in
  rs2 / 2 * 2 + f7 mod 64 * 32 + rs2 mod 2 * 2048 + slice off 12 3 * 4096 + slice off 15 5 * 32768
    - (if 64 <=? f7 then 1048576 else 0) = off.
Proof.
  intros H Hm rs2 f7. assert (rs2 / 2 = slice off 1 4) as -> by (unfold rs2, slice; divs).
  assert (rs2 mod 2 = slice off 11 1) as -> by (unfold rs2, slice; divs).
  assert (f7 mod 64 = slice off 5 6) as -> by (unfold f7, slice; divs).
  assert (off = slice off 1 4 * 2 + slice off 5 6 * 32 + slice off 11 1 * 2048 + slice off 12 3 * 4096
                + slice off 15 5 * 32768 - slice off 20 1 * 1048576) by (unfold slice; divs).
  assert (B : 0 <= slice off 5 6 < 64 /\ 0 <= slice off 20 1 < 2) by (unfold slice; divs).
  destruct (Z.leb_spec 64 f7) as [E|E]; unfold f7 in E; lia.
Qed.
Lemma pair_fits a b n : fits n a -> fits 1 b -> 0 <= n -> fits (n + 1) (a * 2 + b).
Proof. unfold fits. intros ? ? ?. rewrite Z.pow_add_r by lia. lia. Qed.
Lemma top_fits a b : fits 1 a -> fits 6 b -> fits 7 (a * 64 + b).
Proof. unfold fits. pows. lia. Qed.
Create HintDb decoder.
#[local] Hint Resolve slice_fits top_fits : decoder.
#[local] Hint Extern 1 (0 <= _) => lia : decoder.
#[local] Hint Extern 1 (fits 5 (_ * 2 + _)) => apply (pair_fits _ _ 4) : decoder.
#[local] Hint Extern 1 (fits 7 (Zpos _)) => (unfold fits; pows; lia) : decoder.
#[local] Hint Extern 1 (fits 3 (Zpos _)) => (unfold fits; pows; lia) : decoder.
#[local] Hint Extern 1 (fits 3 0) => (unfold fits; pows; lia) : decoder.
#[local] Hint Extern 1 (fits 5 _) => (unfold rv_reg, fits in *; pows; lia) : decoder.

(** The decoder recovers the fields of the formats. *)
Lemma riscv_decode i : rv_ok i -> translate_one_riscv (rv_encode i) = Some (rv_lowered i).
Proof.
  unfold translate_one_riscv. destruct i as [op rd rs1 rs2|rd rs1 imm|rd rs1 imm|rs2 rs1 imm|ne rs1 rs2 off|rd off];
    cbn [rv_ok rv_encode]; intros Hok.
  - destruct Hok as (H1 & H2 & H3).
    assert (fits 7 (op_funct7 op)) by (destruct op; unfold fits; cbn; lia).
    rewrite word_opcode, word_rd, word_rs1, word_rs2, word_funct3, word_funct7 by auto with decoder.
    rewrite !low4_small by done. by destruct op.
  - destruct Hok as (H1 & H2 & H3).
    rewrite word_opcode, word_rd, word_rs1, word_imm_i, join_imm12 by auto with decoder.
    by rewrite !low4_small, imm16_low by done.
  - destruct Hok as (H1 & H2 & H3).
    rewrite word_opcode, word_rd, word_rs1, word_imm_i, join_imm12 by auto with decoder.
    by rewrite !low4_small, imm16_low by done.
  - destruct Hok as (H1 & H2 & H3).
    rewrite word_opcode, word_rs1, word_rs2, word_imm_s, join_imm12 by auto with decoder.
    by rewrite (low4_small rs1), (low4_small rs2), (imm16_low imm) by done.
  - destruct Hok as (H1 & H2 & H3 & H4).
    assert (fits 3 (Z.b2z ne)) by (destruct ne; unfold fits; cbn; lia).
    rewrite word_opcode, word_rs1, word_rs2, word_funct3, word_imm_b, join_imm_b by auto 6 with decoder.
    rewrite (low4_small rs1), (low4_small rs2) by done.
    assert (s16 (Z.quot (off - 4) 4) = Z.quot (off - 4) 4) as ->.
    { rewrite <- (s16_mod (Z.quot (off - 4) 4)) at 2; [|pows; Z.quot_rem_to_equations; lia].
      unfold s16, to_signed. by rewrite Z.mod_mod. }
    by destruct ne.
  - destruct Hok as (H1 & H2 & H3).
    rewrite word_opcode, word_imm_j, join_imm_j by auto 6 with decoder.
    cbn [Z.eqb Pos.eqb andb rv_lowered]. do 2 f_equal. f_equal.
    rewrite (land_mask_mod _ _ 26) by done. unfold u32. divs.
Qed.

(** ** Guest programs on the emulator *)

(** Straight-line execution of the translated words. *)
Fixpoint exec_all `{FloatOps} (path : HostPath) (ws : list Z) : M Emulator unit :=
  match ws with
  | [] => ret tt
  | w :: ws => let! _ := Emulator.execute path (mkInstruction w) in exec_all path ws
  end.

(** The integer registers of the guest; x0 is zero. *)
Definition upd (rd v : Z) (x : Z -> Z) : Z -> Z :=
  fun j => if j =? 0 then 0 else if j =? rd then v else x j.
Definition rv_value (op : rv_op) (a b : Z) : Z :=
  match op with RvAdd => u32 (a + b) | RvSub => u32 (a - b) | RvMul => u32 (a * b) end.
(** What the manual says of the arithmetic instructions, on 32-bit registers. *)
Definition rv_step (i : rv_instr) (x : Z -> Z) : Z -> Z :=
  match i with
  | RvOp op rd rs1 rs2 => upd rd (rv_value op (x rs1) (x rs2)) x
  | RvAddi rd rs1 imm => upd rd (u32 (x rs1 + imm)) x
  | _ => x
  end.
(** Arithmetic on x0 to x14 with immediates that are not negative. *)
Definition rv_arith (i : rv_instr) : Prop :=
  match i with
  | RvOp _ rd rs1 rs2 => 0 <= rd < 15 /\ 0 <= rs1 < 15 /\ 0 <= rs2 < 15
  | RvAddi rd rs1 imm => 0 <= rd < 15 /\ 0 <= rs1 < 15 /\ 0 <= imm < 2 ^ 11
  | _ => False
  end.

(** The emulator's r0 to r14 hold the guest's registers. *)
Definition represents (s : Emulator) (x : Z -> Z) : Prop :=
  emu_wf s /\ forall j, 0 <= j < 15 -> RegisterFile.read_gpr s.(regs_) j = Some (x j).

Lemma write_step s d v r :
  emu_wf s -> 0 <= d < 16 -> fits 32 v -> RegisterFile.write_gpr s.(regs_) d v = Some r ->
  emu_wf (Emulator.put_regs r s) /\
  forall j, 0 <= j < 16 -> RegisterFile.read_gpr r j =
    if j =? 0 then Some 0 else if j =? d then Some v else RegisterFile.read_gpr s.(regs_) j.
Proof.
  intros Hs Hd Hv Hr. assert (Hreg : RegisterFile.wf (regs_ s)) by apply Hs. split.
  - apply put_regs_wf; [done|]. apply (RegisterFile.write_gpr_wf (regs_ s) d v); [done|lia|done|done].
  - intros j Hj. exact (RegisterFile.read_write_gpr _ d v _ j Hreg ltac:(lia) ltac:(lia) Hr).
Qed.

Section Programs.
Context `{FloatOps} (path : HostPath).

Lemma alu_word op d a b s x y :
  op = ADD \/ op = SUB \/ op = MUL -> 0 <= d < 16 -> 0 <= a < 16 -> 0 <= b < 16 -> emu_wf s ->
  RegisterFile.read_gpr s.(regs_) a = Some x -> RegisterFile.read_gpr s.(regs_) b = Some y ->
  exists c s', Emulator.execute path (mkInstruction (enc.rtype op d a b 0)) s = (Ok c, s') /\ emu_wf s' /\
    forall j, 0 <= j < 16 -> RegisterFile.read_gpr s'.(regs_) j =
      if j =? 0 then Some 0 else if j =? d then Some (alu op x y) else RegisterFile.read_gpr s.(regs_) j.
Proof.
  intros Hop Hd Ha Hb Hs Hx Hy. set (i := mkInstruction _).
  pose proof (rtype_fields op d a b 0) as Hf. cbn zeta in Hf. change (mkInstruction _) with i in Hf.
  change (2 ^ 5) with 32 in Hf. rewrite !Z.mod_small in Hf by lia. destruct Hf as (Fo & Fd & Fa & Fb & _).
  destruct (RegisterFile.write_gpr_some (regs_ s) d (alu op x y) ltac:(apply Hs) ltac:(lia)) as [r Hr].
  pose proof (alu_handler_run op i d a b s x y r Hop ltac:(done) Hx Hy Hr) as Hrun.
  destruct (write_step s d _ r Hs Hd (alu_fits _ _ _) Hr) as [Hwf Hreads].
  exists (cycle_weight (code op) 0). eexists. split.
  { erewrite execute_run; [reflexivity| |exact Hrun].
    rewrite Fo. unfold Emulator.dispatch_table_. rewrite opcode_of_code. by destruct Hop as [->|[->| ->]]. }
  split; [|exact Hreads]. apply retire_wf. apply put_regs_wf; [done|].
  apply RegisterFile.set_status_wf. apply Hwf.
Qed.
Lemma movi_word d imm s :
  0 <= d < 16 -> fits 16 imm -> emu_wf s ->
  exists c s', Emulator.execute path (mkInstruction (enc.movi d imm)) s = (Ok c, s') /\ emu_wf s' /\
    forall j, 0 <= j < 16 -> RegisterFile.read_gpr s'.(regs_) j =
      if j =? 0 then Some 0 else if j =? d then Some imm else RegisterFile.read_gpr s.(regs_) j.
Proof.
  intros Hd Himm Hs. set (i := mkInstruction _).
  pose proof (itype_fields MOVI d 0 imm) as Hf. cbn zeta in Hf. change (mkInstruction _) with i in Hf.
  change (2 ^ 5) with 32 in Hf. rewrite (Z.mod_small d), (Z.mod_small imm) in Hf by (done || lia).
  destruct Hf as (Fo & Fd & _ & Fi).
  destruct (RegisterFile.write_gpr_some (regs_ s) d imm ltac:(apply Hs) ltac:(lia)) as [r Hr].
  assert (Hv : fits 32 imm) by (by apply (fits_mono 16)).
  destruct (write_step s d _ r Hs Hd Hv Hr) as [Hwf Hreads].
  exists 1. eexists. split.
  { erewrite (execute_run _ _ Emulator.op_movi); [reflexivity| |].
    - rewrite Fo. done.
    - unfold Emulator.op_movi. rewrite Fd, Fi. by rewrite (bind_ok _ _ _ _ _ (write_gpr_run _ _ _ _ Hr)). }
  split; [by apply retire_wf|exact Hreads].
Qed.

Lemma exec_all_app ws ws' s s' :
  exec_all path ws s = (Ok tt, s') -> exec_all path (ws ++ ws') s = exec_all path ws' s'.
Proof.
  revert s. induction ws as [|w ws IH]; intros s; cbn [exec_all app].
  - intros [= <-]. done.
  - intros (c & s1 & E & Hk)%bind_inv. rewrite (bind_ok _ _ _ _ _ E). by apply IH.
Qed.

(** One arithmetic instruction of the guest. *)
Lemma riscv_step i s x :
  rv_arith i -> represents s x ->
  exists s', exec_all path (rv_lowered i) s = (Ok tt, s') /\ represents s' (rv_step i x).
Proof.
  intros Hi [Hs Hx]. destruct i as [op rd rs1 rs2|rd rs1 imm| | | |]; try done.
  - destruct Hi as (H1 & H2 & H3).
    set (o := match op with RvAdd => ADD | RvSub => SUB | RvMul => MUL end).
    destruct (alu_word o rd rs1 rs2 s (x rs1) (x rs2)) as (c & s' & He & Hs' & Hr);
      [destruct op; tauto|lia..|done|apply Hx; lia|apply Hx; lia|].
    exists s'. split.
    + assert (rv_lowered (RvOp op rd rs1 rs2) = [enc.rtype o rd rs1 rs2 0]) as -> by (by destruct op).
      cbn [exec_all]. by rewrite (bind_ok _ _ _ _ _ He).
    + split; [done|]. intros j Hj. rewrite Hr by lia. cbn [rv_step]. unfold upd.
      destruct (j =? 0); [done|]. destruct (j =? rd); [by destruct op|]. apply Hx. lia.
  - destruct Hi as (H1 & H2 & H3). cbn [rv_lowered exec_all].
    rewrite Z.mod_small by (pows; lia).
    destruct (movi_word 15 imm s) as (c & s1 & E1 & Hs1 & R1); [lia|unfold fits; pows; lia|done|].
    rewrite (bind_ok _ _ _ _ _ E1).
    destruct (alu_word ADD rd rs1 15 s1 (x rs1) imm) as (c2 & s2 & E2 & Hs2 & R2); [tauto|lia..|done| | |].
    { rewrite R1 by lia. destruct (Z.eqb_spec rs1 0) as [->|].
      - rewrite <- Hx by lia. done.
      - rewrite (proj2 (Z.eqb_neq _ _)) by lia. apply Hx. lia. }
    { by rewrite R1. }
    exists s2. unfold enc.add. rewrite (bind_ok _ _ _ _ _ E2). split; [done|]. split; [done|].
    intros j Hj. rewrite R2, R1 by lia. cbn [rv_step alu]. unfold upd.
    destruct (j =? 0) eqn:E0; [done|]. destruct (j =? rd); [done|].
    rewrite (proj2 (Z.eqb_neq j 15)) by lia. apply Hx. lia.
Qed.
End Programs.

Definition rv_bytes (gs : list rv_instr) : list Z := concat (map (fun i => le_bytes 4 (rv_encode i)) gs).
Definition rv_run (gs : list rv_instr) (x : Z -> Z) : Z -> Z := fold_left (fun x i => rv_step i x) gs x.

Lemma words_app4 w data : fits 32 w -> words (le_bytes 4 w ++ data) = w :: words data.
Proof.
  intros Hw. change (words (le_bytes 4 w ++ data)) with (le_val (le_bytes 4 w) :: words data).
  rewrite le_val_bytes. f_equal. change (256 ^ Z.of_nat 4) with (2 ^ 32). by apply Z.mod_small.
Qed.
Lemma rv_encode_fits i : rv_ok i -> fits 32 (rv_encode i).
Proof.
  destruct i as [op rd rs1 rs2|rd rs1 imm|rd rs1 imm|rs2 rs1 imm|ne rs1 rs2 off|rd off]; cbn [rv_ok rv_encode];
    intros Hok; destruct_and?; apply word_fits; auto with decoder.
  - destruct op; unfold fits; cbn; lia.
  - destruct ne; unfold fits; cbn; lia.
Qed.
Lemma translate_each_all {A} (one : A -> option (list Z)) fb (low : A -> list Z) l st :
  Forall (fun i => one i = Some (low i)) l ->
  translate_each one fb l st
  = (concat (map low l), mkTranslationStats (decoded st + zlen l) (emitted st + zlen (concat (map low l))) (folded st)).
Proof.
  intros Hl. revert st. induction Hl as [|i l Hi _ IH]; intros [d e f]; cbn [translate_each].
  - cbn. by rewrite !Z.add_0_r.
  - rewrite Hi, IH. cbn [map concat decoded emitted folded]. rewrite zlen_cons.
    f_equal. unfold zlen. rewrite length_app. f_equal; lia.
Qed.
Lemma translate_bytes_riscv gs :
  Forall rv_ok gs ->
  let out := concat (map rv_lowered gs) in
  translate_bytes RISCV64 (rv_bytes gs) = (out, mkTranslationStats (zlen gs) (zlen out) 0).
Proof.
  intros Hok. assert (Hw : words (rv_bytes gs) = map rv_encode gs).
  { induction Hok as [|i l Hi _ IH]; [done|]. unfold rv_bytes in *. cbn [map concat].
    by rewrite words_app4, IH by (by apply rv_encode_fits). }
  unfold translate_bytes. rewrite Hw.
  assert (Hm : forall l st, translate_each translate_one_riscv [enc.nop] (map rv_encode l) st
                 = translate_each (fun i => translate_one_riscv (rv_encode i)) [enc.nop] l st).
  { induction l as [|i l IH]; intros st; cbn [map translate_each]; [done|]. by case_match; rewrite IH. }
  rewrite Hm. apply (translate_each_all _ _ rv_lowered).
  apply (Forall_impl _ _ _ Hok). intros i Hi. by apply riscv_decode.
Qed.

(** The RISC-V front end. The bytes of any sequence of ADD, SUB, MUL,
    ADDI, LW, SW, BEQ, BNE and JAL on x0 to x15 (encoded as the manual's R, I,
    S, B and J formats) are translated completely, and the statistics count
    the guest instructions and the words emitted. A sequence of arithmetic
    instructions on x0 to x14 whose immediates are not negative then computes
    on the emulator's registers what the manual says, modulo [2 ^ 32]; r15 is
    overwritten. *)
Theorem riscv_simulation `{FloatOps} path gs :
  Forall rv_ok gs ->
  let '(out, st) := translate_bytes RISCV64 (rv_bytes gs) in
  out = concat (map rv_lowered gs) /\ st = mkTranslationStats (zlen gs) (zlen out) 0 /\
  (Forall rv_arith gs -> forall s x, represents s x ->
     exists s', exec_all path out s = (Ok tt, s') /\ represents s' (rv_run gs x)).
Proof.
  intros Hok. rewrite translate_bytes_riscv by done. split; [done|]. split; [done|].
  intros Ha. clear Hok. induction Ha as [|i gs Hi _ IH]; intros s x Hs.
  - exists s. done.
  - destruct (riscv_step path i s x Hi Hs) as (s1 & E1 & Hs1). destruct (IH s1 _ Hs1) as (s2 & E2 & Hs2).
    exists s2. cbn [map concat]. rewrite (exec_all_app path _ _ _ _ E1). split; [done|exact Hs2].
Qed.
(** Addi x1, x0, 6; addi x2, x0, 7; mul x3, x1, x2. *)
Definition rv_example : list rv_instr := [RvAddi 1 0 6; RvAddi 2 0 7; RvOp RvMul 3 1 2].
Lemma riscv_simulation_witness :
  rv_bytes rv_example = [0x93; 0; 0x60; 0; 0x13; 1; 0x70; 0; 0xB3; 0x81; 0x20; 0x02] /\
  exists s', exec_all PathScalar (translate_bytes RISCV64 (rv_bytes rv_example)).1 (Emulator.create 64 64)
               = (Ok tt, s') /\ RegisterFile.read_gpr s'.(regs_) 3 = Some 42.
Proof.
  split; [reflexivity|].
  assert (Hok : Forall rv_ok rv_example) by (repeat constructor; cbn; unfold rv_reg; lia).
  assert (Ha : Forall rv_arith rv_example) by (repeat constructor; cbn; lia).
  pose proof (riscv_simulation PathScalar rv_example Hok) as H.
  destruct (translate_bytes RISCV64 (rv_bytes rv_example)) as [out st]. destruct H as (_ & _ & H).
  destruct (H Ha (Emulator.create 64 64) (fun _ => 0)) as (s' & E & _ & Hr).
  - split; [apply create_wf; split; vm_compute; congruence|].
    intros j Hj. assert (exists k, (k < 15)%nat /\ j = Z.of_nat k) as (k & Hk & ->) by (exists (Z.to_nat j); lia).
    do 15 (destruct k as [|k]; [reflexivity|]). lia.
  - exists s'. split; [exact E|]. exact (Hr 3 ltac:(lia)).
Defined.

(** A negative immediate is loaded zero-extended: addi x1, x0, -1 leaves
    0xFFFF in r1. *)
Example riscv_negative_immediate :
  let '(r, s) := exec_all PathScalar (rv_lowered (RvAddi 1 0 (-1))) (Emulator.create 64 64) in
  r = Ok tt /\ RegisterFile.read_gpr s.(regs_) 1 = Some 0xFFFF.
Proof. vm_compute. done. Qed.
(** A guest branch over one instruction becomes an offset of one byte. *)
Example riscv_branch_bytes : rv_lowered (RvBranch false 0 0 8) = [enc.beq 0 0 1].
Proof. reflexivity. Qed.
(** ARM64 [and x0, x1, x2] is taken for an addition. *)
Example arm64_and_is_add : translate_one_arm64 0x8A020020 = Some [enc.add 0 1 2].
Proof. reflexivity. Qed.
(** A PTX fragment. *)
Example ptx_fragment :
  translate_bytes PTX (map byte_of (list_ascii_of_string "  ADD.f32 %f1 // c")) =
    ([enc.vec_add 2 0 1; enc.halt], mkTranslationStats 1 1 0).
Proof. reflexivity. Qed.
