(* ===== verification/Translation.v ===== *)
(** * Guest programs of other instruction sets

    [Guest]: what a front end of decoder.cpp promises about an instruction set:
    the words it accepts are decoded, and the words it emits simulate them.
    From the promise, [translated_runs] carries a whole guest program through
    [translate_bytes], [load_program] and [run].  The instances are straight-line
    RISC-V and ARM64 code on 64-bit registers, of which the emulator keeps the
    low 32 bits. *)

From S2P Require Import Prelude Text Isa Memory Registers Interrupt Devices Bus Float Profiler Interconnect Target Host Mmu Translate Emulator EmulatorWf Execute Dma Traps Frame Safety Fast Arch Symbolic Decoder.
#[local] Open Scope Z_scope.
Import ISA TranslationEngine.

(** ** The guest's machine *)
Record GState : Type := mkGState { g_x : Z -> Z; g_m : buffer }.

(** Guest data is at [lim] and above, in the scratchpad and below the
    peripherals. *)
Definition allowed (lim : Z) (m : buffer) (a n : Z) : bool :=
  (lim <=? a) && (a + n <=? m.(blen)) && (a <? MMIO_BASE).
Definition set_x (d v : Z) (g : GState) : GState :=
  mkGState (fun j => if j =? d then v else g.(g_x) j) g.(g_m).

Definition agree (lim : Z) (m m' : buffer) : Prop :=
  m.(blen) = m'.(blen) /\ forall k, lim <= k -> Buffer.byte_at m k = Buffer.byte_at m' k.
#[export] Instance agree_equiv lim : Equivalence (agree lim).
Proof.
  split; [by split|intros m m' [H1 H2]; split; [done|intros; symmetry; auto]|].
  intros m1 m2 m3 [H1 H2] [H3 H4]. split; [congruence|]. intros k Hk. rewrite H2 by done. auto.
Qed.
#[export] Instance agree_poke_proper lim a l : Proper (agree lim ==> agree lim) (fun m => Buffer.poke m a l).
Proof.
  intros m m' [H1 H2]. split; [done|]. intros k Hk. rewrite !Buffer.byte_at_poke. case_match; auto.
Qed.
Lemma agree_peek lim m m' a n : agree lim m m' -> lim <= a -> Buffer.peek m a n = Buffer.peek m' a n.
Proof. intros [_ H] Ha. apply Buffer.peek_ext. intros k Hk. apply H. lia. Qed.
Lemma agree_code lim m a l : a + zlen l <= lim -> agree lim (Buffer.poke m a l) m.
Proof. intros Ha. split; [done|]. intros k Hk. apply Buffer.byte_at_poke_out. lia. Qed.

(** A machine whose registers and scratchpad are those of the guest. *)
Definition models (dom : Z -> Prop) (lim : Z) (g : GState) (s : Emulator) : Prop :=
  (forall j, dom j -> RegisterFile.read_gpr s.(regs_) j = Some (u32 (g.(g_x) j))) /\
  agree lim s.(scratchpad_) g.(g_m).

(** ** The promise of a front end *)
Section Interface.
Context `{FloatOps}.

(** The emulator's registers and memory hold those of the guest. *)
Definition holds (dom : Z -> Prop) (lim : Z) (g : GState) (r : list Z) (m : buffer) : Prop :=
  zlen r = 16 /\ Buffer.wf m /\ (forall j, dom j -> G r j = u32 (g.(g_x) j)) /\ agree lim m g.(g_m).

(** [n] steps of the code [ws] from its word [k] lead to a machine that holds
    the guest's state [g']; the code is still there. *)
Definition simulated (dom : Z -> Prop) (ws : list Z) (k : nat) (lim : Z) (r : list Z) (v : list (list Z))
    (fl : StatusFlags) (m ram : buffer) (n : nat) (g' : GState) : Prop :=
  exists r' fl' m', nsteps steps_to n
      (st r v (4 * Z.of_nat k) fl m ram) (st r' v (4 * Z.of_nat (k + n)) fl' m' ram) /\
    holds dom lim g' r' m' /\ code_at ws m'.

Lemma sim_one dom ws k lim r v fl m ram r' fl' m' g' :
  steps_to (st r v (4 * Z.of_nat k) fl m ram) (st r' v (4 * Z.of_nat k + 4) fl' m' ram) ->
  holds dom lim g' r' m' -> code_at ws m' -> simulated dom ws k lim r v fl m ram 1 g'.
Proof.
  intros Hst Hh Hc. exists r', fl', m'. split; [|done]. eapply nsteps_l; [|apply nsteps_O].
  replace (4 * Z.of_nat (k + 1)) with (4 * Z.of_nat k + 4) by lia. done.
Qed.
Lemma sim_cons dom ws k lim r v fl m ram r' fl' m' n g' :
  steps_to (st r v (4 * Z.of_nat k) fl m ram) (st r' v (4 * Z.of_nat k + 4) fl' m' ram) ->
  simulated dom ws (k + 1) lim r' v fl' m' ram n g' -> simulated dom ws k lim r v fl m ram (S n) g'.
Proof.
  intros Hst (r2 & fl2 & m2 & Hn & Hh & Hc). exists r2, fl2, m2. split; [|done]. eapply nsteps_l; [exact Hst|].
  replace (4 * Z.of_nat k + 4) with (4 * Z.of_nat (k + 1)) by lia.
  by replace (k + S n)%nat with (k + 1 + n)%nat by lia.
Qed.

Class Guest (I : Type) := {
  g_isa : GuestISA;
  g_one : Z -> option (list Z);
  g_encode : I -> Z;
  g_ok : I -> Prop;
  g_lower : I -> list Z;
  g_reg : Z -> Prop;
  g_step : Z -> I -> GState -> option GState;
  g_engine data : translate_bytes g_isa data
                  = translate_each g_one [enc.nop] (words data) (mkTranslationStats 0 0 0);
  g_encode_fits i : g_ok i -> fits 32 (g_encode i);
  g_decode i : g_ok i -> g_one (g_encode i) = Some (g_lower i);
  g_lower_fits i : g_ok i -> Forall (fits 32) (g_lower i);
  g_reg_range j : g_reg j -> 0 < j < 16;
  g_sim ws k lim i g g' r v fl m ram :
    g_ok i -> code_at ws m -> 4 * zlen ws <= MMIO_BASE -> 4 * zlen ws <= lim ->
    (forall j w, g_lower i !! j = Some w -> ws !! (k + j)%nat = Some w) ->
    holds g_reg lim g r m -> g_step lim i g = Some g' ->
    simulated g_reg ws k lim r v fl m ram (List.length (g_lower i)) g' }.
End Interface.

Section Client.
Context `{FloatOps} {I : Type} `{!Guest I}.

(** A guest program, its bytes, its translation, its run. *)
Definition g_bytes (gs : list I) : list Z := concat (map (fun i => le_bytes 4 (g_encode i)) gs).
Definition g_code (gs : list I) : list Z := concat (map g_lower gs).
Fixpoint g_run (lim : Z) (gs : list I) (g : GState) : option GState :=
  match gs with
  | [] => Some g
  | i :: gs => match g_step lim i g with Some g' => g_run lim gs g' | None => None end
  end.

Lemma g_translates gs :
  Forall g_ok gs ->
  translate_bytes g_isa (g_bytes gs)
  = (g_code gs, mkTranslationStats (zlen gs) (zlen (g_code gs)) 0).
Proof.
  intros Hok. assert (Hw : words (g_bytes gs) = map g_encode gs).
  { induction Hok as [|i l Hi _ IH]; [done|]. unfold g_bytes in *. cbn [map concat].
    by rewrite words_app4, IH by (by apply g_encode_fits). }
  rewrite g_engine, Hw.
  assert (Hm : forall l s, translate_each g_one [enc.nop] (map g_encode l) s
                 = translate_each (fun i => g_one (g_encode i)) [enc.nop] l s).
  { induction l as [|i l IH]; intros s; cbn [map translate_each]; [done|]. by case_match; rewrite IH. }
  rewrite Hm, (translate_each_all _ _ g_lower); [reflexivity|].
  apply (Forall_impl _ _ _ Hok). intros i Hi. by apply g_decode.
Qed.

Lemma lookup_app_at (l1 l2 : list Z) j : (l1 ++ l2) !! (List.length l1 + j)%nat = l2 !! j.
Proof. rewrite lookup_app_r by lia. f_equal. lia. Qed.

(** The translated code from any point of it. *)
Lemma g_code_runs ws lim v ram gs : forall k g g' r fl m,
  Forall g_ok gs -> code_at ws m -> 4 * zlen ws <= MMIO_BASE -> 4 * zlen ws <= lim ->
  (forall j w, g_code gs !! j = Some w -> ws !! (k + j)%nat = Some w) ->
  holds g_reg lim g r m -> g_run lim gs g = Some g' ->
  simulated g_reg ws k lim r v fl m ram (List.length (g_code gs)) g'.
Proof.
  unfold simulated.
  induction gs as [|i gs IH]; intros k g g' r fl m Hok Hc Hlow Hlim Hin Hh Hrun; cbn [g_run] in Hrun.
  - injection Hrun as <-. exists r, fl, m. split; [|done]. rewrite Nat.add_0_r. constructor.
  - destruct (g_step lim i g) as [g1|] eqn:Hst; [|done]. apply Forall_cons in Hok as [Hi Hok].
    unfold g_code in *. cbn [map concat] in *. rewrite length_app.
    destruct (g_sim ws k lim i g g1 r v fl m ram Hi Hc Hlow Hlim) as (r1 & fl1 & m1 & H1 & Hh1 & Hc1); [|done|done|].
    { intros j w Hj. apply Hin. by apply lookup_app_l_Some. }
    destruct (IH (k + List.length (g_lower i))%nat g1 g' r1 fl1 m1 Hok Hc1 Hlow Hlim) as (r2 & fl2 & m2 & H2 & Hh2 & Hc2);
      [|done|done|].
    { intros j w Hj. rewrite <- Nat.add_assoc. apply Hin. by rewrite lookup_app_at. }
    exists r2, fl2, m2. rewrite Nat.add_assoc. split; [by eapply nsteps_trans|done].
Qed.

(** Translate, append a halt, load, run. *)
Lemma translation_runs path gs lim g g' s fuel (code := g_code gs ++ [enc.halt]) :
  Forall g_ok gs -> 4 * zlen code <= lim -> lim <= s.(scratchpad_).(blen) -> lim <= TEXT_SIZE ->
  ready s -> s.(regs_).(pc) = 0 -> s.(regs_).(halt) = false ->
  models g_reg lim g s -> g_run lim gs g = Some g' ->
  (S (List.length (g_code gs)) <= fuel)%nat ->
  exists s', (do! Emulator.load_program code in Emulator.run path fuel) s = (Ok true, s') /\
    s'.(regs_).(halt) = true /\ models g_reg lim g' s' /\ s'.(main_ram_) = s.(main_ram_).
Proof.
  intros Hok Hlim Hsp Htext Hr Hpc Hh [Hregs Hmem] Hrun Hfuel. pose proof (ready_wf s Hr) as Hs.
  assert (Hval : forall s j, emu_wf s -> g_reg j -> RegisterFile.read_gpr s.(regs_) j = Some (G s.(regs_).(gpr) j)).
  { intros s0 j Hs0 Hj. pose proof (g_reg_range j Hj).
    apply (reg_value s0 j Hs0); [lia|]. unfold scalar. apply Z.ltb_lt. lia. }
  pose (Post := fun a : Arch => holds g_reg lim g' a.(a_regs).(gpr) a.(a_mem) /\ a.(a_ram) = s.(main_ram_)).
  assert (Hfits : Forall (fits 32) code).
  { apply Forall_app. split; [|by repeat constructor; vm_compute].
    clear - Hok. unfold g_code. induction Hok as [|i l Hi _ IH]; [constructor|].
    apply Forall_app. split; [by apply g_lower_fits|exact IH]. }
  destruct (load_and_run path code s) with (n := S (List.length (g_code gs))) (fuel := fuel) (Post := Post)
    as (s' & H1 & Hs' & H2 & (_ & _ & Hreg' & Hmem') & Hram'); try done; [lia..| |].
  { intros m -> Hc. destruct (g_code_runs code lim s.(regs_).(vr) s.(main_ram_) gs 0 g g' s.(regs_).(gpr)
      s.(regs_).(status) (Buffer.poke (scratchpad_ s) 0 (VirtualSRAM.words_bytes code)))
      as (r' & fl' & m' & Hsteps & Hhold & Hc'); try done.
    - unfold MMIO_BASE, TEXT_SIZE in *. lia.
    - intros j w Hj. by apply lookup_app_l_Some.
    - split; [unfold zlen; by rewrite RegisterFile.wf_gpr_len by apply Hs|].
      split; [apply Buffer.wf_poke; [apply Hs|apply words_bytes_bytes]|]. split.
      + intros j Hj. specialize (Hregs j Hj). rewrite (Hval s j Hs Hj) in Hregs. congruence.
      + etransitivity; [apply agree_code|exact Hmem]. unfold zlen in *. rewrite words_bytes_length. lia.
    - exists (stop (st r' s.(regs_).(vr) (4 * Z.of_nat (List.length (g_code gs)) + 4) fl' m' s.(main_ram_))).
      split; [|done].
      rewrite <- Nat.add_1_r. eapply nsteps_trans; [exact Hsteps|].
      eapply nsteps_l; [|apply nsteps_O]. apply (x_halt code); [done|unfold MMIO_BASE, TEXT_SIZE in *; lia|].
      cbn [Nat.add]. replace (List.length (g_code gs)) with (List.length (g_code gs) + 0)%nat by lia.
      subst code. by rewrite lookup_app_at. }
  exists s'. split; [exact H1|]. split; [exact H2|]. split; [|done]. split; [|done].
  intros j Hj. rewrite (Hval s' j Hs' Hj). f_equal. by apply Hreg'.
Qed.
End Client.

(** ** Arithmetic *)
Lemma u32_u64 z : u32 (u64 z) = u32 z.
Proof. unfold u32, u64. symmetry. apply Znumtheory.Zmod_div_mod; [lia|lia|]. by exists (2 ^ 32). Qed.
Lemma alu_u64 op x y :
  alu op (u32 x) (u32 y) = u32 (match op with ADD => x + y | SUB => x - y | _ => x * y end).
Proof. unfold alu, u32. destruct op; by rewrite <- ?Zplus_mod, <- ?Zminus_mod, <- ?Zmult_mod. Qed.
Lemma le_bytes_mod n z : le_bytes n (z mod 256 ^ Z.of_nat n) = le_bytes n z.
Proof.
  revert z. induction n as [|n IH]; intros z; [done|]. cbn [le_bytes].
  rewrite Nat2Z.inj_succ, Z.pow_succ_r, Z.rem_mul_r by lia. f_equal.
  - rewrite Z.mul_comm, Z.mod_add, Z.mod_mod by lia. done.
  - rewrite Z.mul_comm, Z.div_add, (Z.div_small (z mod 256)), Z.add_0_l by (apply Z.mod_pos_bound || lia; lia). apply IH.
Qed.
Lemma le_bytes_u32 z : le_bytes 4 (u32 z) = le_bytes 4 z.
Proof. exact (le_bytes_mod 4 z). Qed.
(** [w & ~((1 << k) - 1)] *)
Lemma high_mask w k m : 0 <= k <= 32 -> fits 32 w -> m = 2 ^ 32 - 2 ^ k -> Z.land w m = w / 2 ^ k * 2 ^ k.
Proof.
  intros Hk Hw ->. apply Z.bits_inj'. intros j Hj.
  assert (2 ^ 32 - 2 ^ k = Z.ones (32 - k) * 2 ^ k) as ->.
  { rewrite Z.ones_equiv, Z.mul_pred_l, <- Z.pow_add_r by lia. do 2 f_equal. lia. }
  rewrite Z.land_spec. destruct (Z.ltb_spec j k) as [Hlt|Hge].
  - by rewrite !Z.mul_pow2_bits_low, andb_false_r by lia.
  - rewrite !Z.mul_pow2_bits, <- Z.shiftr_div_pow2, Z.shiftr_spec, Z.sub_add by lia.
    destruct (Z.ltb_spec j 32).
    + by rewrite Z.ones_spec_low, andb_true_r by lia.
    + rewrite Z.ones_spec_high, andb_false_r by lia. symmetry. by apply (tb_high _ 32).
Qed.

(** ** Register and memory updates on both sides *)
Section Updates.
Context (dom : Z -> Prop) (lim : Z) (g : GState) (r : list Z) (m : buffer).
Context (Hdom : forall j, dom j -> 0 < j < 16) (Hh : holds dom lim g r m).

Lemma holds_write d x y : 0 <= d < 16 -> y = u32 x -> holds dom lim (set_x d x g) (W r d y) m.
Proof using Hdom Hh.
  intros Hd ->. destruct Hh as (Hl & Hw & Hg & Hm). split; [by rewrite zlen_W|]. split; [done|]. split; [|done].
  intros j Hj. pose proof (Hdom j Hj). rewrite G_W by lia. cbn [g_x set_x].
  rewrite (proj2 (Z.eqb_neq j 0)) by lia. case_match; auto.
Qed.
Lemma holds_temp d y : 0 <= d < 16 -> ~ dom d -> holds dom lim g (W r d y) m.
Proof using Hdom Hh.
  intros Hd Ht. destruct Hh as (Hl & Hw & Hg & Hm). split; [by rewrite zlen_W|]. split; [done|]. split; [|done].
  intros j Hj. pose proof (Hdom j Hj). rewrite G_W by lia. rewrite (proj2 (Z.eqb_neq j 0)) by lia.
  destruct (Z.eqb_spec j d) as [->|]; [done|auto].
Qed.
Lemma holds_store a l :
  lim <= a -> Forall is_byte l -> holds dom lim (mkGState g.(g_x) (Buffer.poke g.(g_m) a l)) r (Buffer.poke m a l).
Proof using Hh.
  intros Ha Hb. destruct Hh as (Hl & Hw & Hg & Hm). split; [done|]. split; [by apply Buffer.wf_poke|].
  split; [done|]. by apply agree_poke_proper.
Qed.
(** The low word of what the guest reads is what the emulator loads. *)
Lemma loaded_word a : lim <= a -> u32 (le_val (Buffer.peek g.(g_m) a 4)) = le_val (Buffer.peek m a 4).
Proof using Hh.
  intros Ha. destruct Hh as (Hl & Hw & Hg & Hm). rewrite <- (agree_peek lim m) by done.
  by apply u32_small, VirtualSRAM.peek_word_fits.
Qed.
Lemma loaded_double a : lim <= a -> u32 (le_val (Buffer.peek g.(g_m) a 8)) = le_val (Buffer.peek m a 4).
Proof using Hh.
  intros Ha. rewrite <- loaded_word by done. set (b := g_m g).
  assert (exists h, le_val (Buffer.peek b a 8) = le_val (Buffer.peek b a 4) + h * 2 ^ 32) as [h ->].
  { cbn [Buffer.peek le_val]. change (2 ^ 32) with (256 * (256 * (256 * 256))).
    exists (le_val (Buffer.peek b (a + 1 + 1 + 1 + 1) 4)). cbn [Buffer.peek le_val]. lia. }
  unfold u32. apply Z.mod_add. lia.
Qed.
(** An address the guest may access. *)
Lemma allowed_access n a ea i :
  allowed lim g.(g_m) ea n = true -> ea = u64 (a + i) -> 0 <= n ->
  lim <= ea /\ ea < MMIO_BASE /\ ea + n <= m.(blen) /\ u32 (u32 a + i) = ea.
Proof using Hh.
  intros Hal -> Hn. destruct Hh as (_ & _ & _ & [Hb _]). unfold allowed in Hal.
  apply andb_true_iff in Hal as [[H1%Z.leb_le H2%Z.leb_le]%andb_true_iff H3%Z.ltb_lt].
  pose proof (u64_fits (a + i)) as Hf. unfold fits, MMIO_BASE in *.
  split; [done|]. split; [done|]. split; [lia|].
  rewrite u32_add_l, <- u32_u64. apply u32_small. unfold fits. lia.
Qed.
End Updates.

(** ** RISC-V *)

(** The register [x0] is zero. *)
Definition xr (g : GState) (r : Z) : Z := if r =? 0 then 0 else g.(g_x) r.
(** Straight-line code on [x0] to [x14], r15 being the decoder's own. *)
Definition rv_plain (i : rv_instr) : Prop :=
  match i with
  | RvOp _ d a b => 0 <= d < 15 /\ 0 <= a < 15 /\ 0 <= b < 15
  | RvAddi d a imm => 0 <= d < 15 /\ 0 <= a < 15 /\ 0 <= imm < 2 ^ 11
  | RvLw d a imm | RvSw d a imm => 0 <= d < 15 /\ 0 <= a < 15 /\ - 2 ^ 11 <= imm < 2 ^ 11
  | _ => False
  end.
(** RV64 on the registers and a memory, as the manual has it; [None] outside
    the data of the guest. *)
Definition rv_exec (lim : Z) (i : rv_instr) (g : GState) : option GState :=
  let address a imm := u64 (xr g a + imm) in
  match i with
  | RvOp op d a b =>
      let '(x, y) := (xr g a, xr g b) in
      Some (set_x d (u64 (match op with RvAdd => x + y | RvSub => x - y | RvMul => x * y end)) g)
  | RvAddi d a imm => Some (set_x d (u64 (xr g a + imm)) g)
  | RvLw d a imm =>
      let ea := address a imm in
      if allowed lim g.(g_m) ea 4
      then Some (set_x d (u64 (s32 (le_val (Buffer.peek g.(g_m) ea 4)))) g) else None
  | RvSw b a imm =>
      let ea := address a imm in
      if allowed lim g.(g_m) ea 4
      then Some (mkGState g.(g_x) (Buffer.poke g.(g_m) ea (le_bytes 4 (xr g b)))) else None
  | _ => None
  end.

Lemma rv_plain_ok i : rv_plain i -> rv_ok i.
Proof. destruct i; cbn; unfold rv_reg; try done; intros; destruct_and?; repeat split; lia. Qed.

(** The registers the emulator keeps. *)
Definition rv_kept (j : Z) : Prop := 0 < j < 15.

Section RiscV.
Context `{FloatOps}.
Notation dom := rv_kept.

Lemma rv_lower_fits i : rv_plain i -> Forall (fits 32) (rv_lowered i).
Proof using Type.
  destruct i as [op d a b|d a imm|d a imm|b a imm| |]; cbn [rv_plain rv_lowered]; intros Hi; try done.
  - by destruct op; apply Forall_singleton; [exact (rtype_fits ADD d a b 0)|exact (rtype_fits SUB d a b 0)|exact (rtype_fits MUL d a b 0)].
  - apply Forall_cons_2; [exact (itype_fits MOVI 15 0 _)|]. apply Forall_singleton. exact (rtype_fits ADD d a 15 0).
  - apply Forall_singleton. exact (itype_fits LOAD d a _).
  - apply Forall_singleton. exact (itype_fits STORE b a _).
Qed.
Lemma xr_holds lim g r m j : holds dom lim g r m -> 0 <= j < 15 -> G r j = u32 (xr g j).
Proof using Type.
  intros (_ & _ & Hg & _) Hj. unfold xr. destruct (Z.eqb_spec j 0) as [->|]; [done|]. apply Hg. unfold rv_kept. lia.
Qed.

Section Step.
Context (ws : list Z) (k : nat) (lim : Z) (g : GState) (r : list Z) (v : list (list Z)) (fl : StatusFlags) (m ram : buffer).
Context (Hc : code_at ws m) (Hlow : 4 * zlen ws <= MMIO_BASE) (Hlim : 4 * zlen ws <= lim).
Context (Hh : holds dom lim g r m).
Lemma dom_range j : dom j -> 0 < j < 16.
Proof using Type. unfold rv_kept. lia. Qed.

Lemma rv_op_sim op d a b :
  ws !! k = Some (enc.rtype (match op with RvAdd => ADD | RvSub => SUB | RvMul => MUL end) d a b 0) ->
  0 <= d < 15 -> 0 <= a < 15 -> 0 <= b < 15 ->
  forall g', rv_exec lim (RvOp op d a b) g = Some g' -> simulated dom ws k lim r v fl m ram 1 g'.
Proof using All.
  intros Hk Hd Ha Hb g' [= <-].
  assert (Ho : forall o, o = match op with RvAdd => ADD | RvSub => SUB | RvMul => MUL end -> o = ADD \/ o = SUB \/ o = MUL)
    by (intros o ->; destruct op; auto).
  destruct (g_alu ws r v k fl m ram Hc Hlow _ d a b (Ho _ eq_refl) Hk) as [fl' Hst]; [lia..|].
  eapply sim_one; [exact Hst| |done]. apply (holds_write dom lim g r m dom_range Hh); [lia|].
  rewrite (xr_holds lim g r m a), (xr_holds lim g r m b), alu_u64, u32_u64 by done. by destruct op.
Qed.
Lemma rv_addi_sim d a imm :
  ws !! k = Some (enc.movi 15 imm) -> ws !! (k + 1)%nat = Some (enc.add d a 15) ->
  0 <= d < 15 -> 0 <= a < 15 -> 0 <= imm < 2 ^ 11 ->
  simulated dom ws k lim r v fl m ram 2 (set_x d (u64 (xr g a + imm)) g).
Proof using All.
  intros Hk Hk1 Hd Ha Hi. eapply sim_cons; [apply (g_movi ws r v k fl m ram Hc Hlow 15 imm Hk); lia|].
  assert (Ht : holds dom lim g (W r 15 imm) m).
  { apply (holds_temp dom lim g r m dom_range Hh); [lia|]. unfold rv_kept. lia. }
  destruct (g_alu ws (W r 15 imm) v (k + 1) fl m ram Hc Hlow ADD d a 15 ltac:(auto) Hk1) as [fl' Hst]; [lia..|].
  eapply sim_one; [exact Hst| |done]. apply (holds_write dom lim g _ m dom_range Ht); [lia|].
  rewrite (xr_holds lim g _ m a Ht) by done. destruct Hh as (Hl & _). rewrite G_W by lia. cbn [Z.eqb Pos.eqb].
  rewrite <- (u32_small imm) at 1 by (unfold fits; lia). by rewrite alu_u64, u32_u64.
Qed.
Lemma rv_lw_sim d a imm :
  ws !! k = Some (enc.load d a (imm mod 2 ^ 16)) -> 0 <= d < 15 -> 0 <= a < 15 -> - 2 ^ 11 <= imm < 2 ^ 11 ->
  forall g', rv_exec lim (RvLw d a imm) g = Some g' -> simulated dom ws k lim r v fl m ram 1 g'.
Proof using All.
  intros Hk Hd Ha Hi g' Hg. cbn [rv_exec] in Hg. set (ea := u64 (xr g a + imm)) in *.
  destruct (allowed _ _ _ _) eqn:Hal; [|done]. injection Hg as <-.
  destruct (allowed_access dom lim g r m Hh 4 (xr g a) ea imm Hal eq_refl) as (H1 & H2 & H3 & H4); [lia|].
  eapply sim_one; [apply (g_load ws r v k fl m ram Hc Hlow d a _ ea Hk)| |done]; [lia..| |lia|lia|].
  - by rewrite (xr_holds lim g r m a), Z.mod_mod, s16_mod by (done || lia).
  - apply (holds_write dom lim g r m dom_range Hh); [lia|]. rewrite u32_u64, u32_s32. symmetry.
    by apply (loaded_word dom lim g r m).
Qed.
Lemma rv_sw_sim b a imm :
  ws !! k = Some (enc.store b a (imm mod 2 ^ 16)) -> 0 <= b < 15 -> 0 <= a < 15 -> - 2 ^ 11 <= imm < 2 ^ 11 ->
  forall g', rv_exec lim (RvSw b a imm) g = Some g' -> simulated dom ws k lim r v fl m ram 1 g'.
Proof using All.
  intros Hk Hb Ha Hi g' Hg. cbn [rv_exec] in Hg. set (ea := u64 (xr g a + imm)) in *.
  destruct (allowed _ _ _ _) eqn:Hal; [|done]. injection Hg as <-.
  destruct (allowed_access dom lim g r m Hh 4 (xr g a) ea imm Hal eq_refl) as (H1 & H2 & H3 & H4); [lia|].
  eapply sim_one; [apply (g_store ws r v k fl m ram Hc Hlow b a _ ea Hk)| |]; [lia..| |lia|lia| |].
  - by rewrite (xr_holds lim g r m a), Z.mod_mod, s16_mod by (done || lia).
  - rewrite (xr_holds lim g r m b Hh Hb), le_bytes_u32. by apply holds_store; [done..|apply le_bytes_bytes].
  - apply code_at_poke; [done|lia].
Qed.
End Step.

Lemma rv_sim ws k lim i g g' r v fl m ram :
  rv_plain i -> code_at ws m -> 4 * zlen ws <= MMIO_BASE -> 4 * zlen ws <= lim ->
  (forall j w, rv_lowered i !! j = Some w -> ws !! (k + j)%nat = Some w) ->
  holds dom lim g r m -> rv_exec lim i g = Some g' ->
  simulated dom ws k lim r v fl m ram (List.length (rv_lowered i)) g'.
Proof using Type.
  intros Hi Hc Hlow Hlim Hin Hh Hg. pose proof (Hin 0%nat) as H0. rewrite Nat.add_0_r in H0.
  destruct i as [op d a b|d a imm|d a imm|b a imm| |]; cbn [rv_plain] in Hi; try done; destruct Hi as (H1 & H2 & H3).
  - replace (List.length _) with 1%nat by (by destruct op).
    apply (rv_op_sim ws k lim g r v fl m ram Hc Hlow Hlim Hh op d a b); [apply H0; by destruct op|done..].
  - injection Hg as <-. cbn [rv_lowered] in Hin, H0. rewrite (Z.mod_small imm (2 ^ 16)) in Hin, H0 by lia.
    apply (rv_addi_sim ws k lim g r v fl m ram Hc Hlow Hlim Hh d a imm (H0 _ eq_refl) (Hin 1%nat _ eq_refl)); done.
  - apply (rv_lw_sim ws k lim g r v fl m ram Hc Hlow Hlim Hh d a imm); [by apply H0|done..].
  - apply (rv_sw_sim ws k lim g r v fl m ram Hc Hlow Hlim Hh b a imm); [by apply H0|done..].
Qed.

#[export] Instance riscv_guest : Guest rv_instr := {|
  g_isa := RISCV64; g_one := translate_one_riscv; g_encode := rv_encode; g_ok := rv_plain;
  g_lower := rv_lowered; g_reg := rv_kept; g_step := rv_exec;
  g_engine _ := eq_refl;
  g_encode_fits i Hi := rv_encode_fits i (rv_plain_ok i Hi);
  g_decode i Hi := riscv_decode i (rv_plain_ok i Hi);
  g_lower_fits := rv_lower_fits; g_reg_range := dom_range; g_sim := rv_sim |}.
End RiscV.

(** ** ARM64 *)

(** ADD and SUB (shifted register, shift 0), MOVZ (32 bits, shift 0) and LDR
    (64 bits, unsigned offset), as the manual encodes them. *)
Inductive arm_instr : Type :=
  | ArmAdd (d n m : Z)
  | ArmSub (d n m : Z)
  | ArmMovz (d imm : Z)
  | ArmLdr (t n imm : Z).
Definition arm_encode (i : arm_instr) : Z :=
  match i with
  | ArmAdd d n m => 0x8B000000 + m * 2 ^ 16 + n * 2 ^ 5 + d
  | ArmSub d n m => 0xCB000000 + m * 2 ^ 16 + n * 2 ^ 5 + d
  | ArmMovz d imm => 0x52800000 + imm * 2 ^ 5 + d
  | ArmLdr t n imm => 0xF9400000 + imm * 2 ^ 10 + n * 2 ^ 5 + t
  end.
(** The registers X1 to X15: X0 would be the emulator's constant r0. *)
Definition arm_kept (j : Z) : Prop := 0 < j < 16.
Definition arm_plain (i : arm_instr) : Prop :=
  match i with
  | ArmAdd d n m | ArmSub d n m => arm_kept d /\ arm_kept n /\ arm_kept m
  | ArmMovz d imm => arm_kept d /\ 0 <= imm < 2 ^ 16
  | ArmLdr t n imm => arm_kept t /\ arm_kept n /\ 0 <= imm < 2 ^ 12
  end.
Definition arm_lowered (i : arm_instr) : list Z :=
  match i with
  | ArmAdd d n m => [enc.add d n m]
  | ArmSub d n m => [enc.sub d n m]
  | ArmMovz d imm => [enc.movi d imm]
  | ArmLdr t n imm => [enc.load t n (imm * 8)]
  end.
(** What the manual says of them. *)
Definition arm_exec (lim : Z) (i : arm_instr) (g : GState) : option GState :=
  match i with
  | ArmAdd d n m => Some (set_x d (u64 (g.(g_x) n + g.(g_x) m)) g)
  | ArmSub d n m => Some (set_x d (u64 (g.(g_x) n - g.(g_x) m)) g)
  | ArmMovz d imm => Some (set_x d imm g)
  | ArmLdr t n imm =>
      let ea := u64 (g.(g_x) n + imm * 8) in
      if allowed lim g.(g_m) ea 8 then Some (set_x t (le_val (Buffer.peek g.(g_m) ea 8)) g) else None
  end.

#[local] Ltac arm_pows :=
  change (2 ^ 5) with 32 in *; change (2 ^ 10) with 1024 in *; change (2 ^ 12) with 4096 in *;
  change (2 ^ 16) with 65536 in *; change (2 ^ 32) with 4294967296 in *.
Lemma arm_encode_fits i : arm_plain i -> fits 32 (arm_encode i).
Proof. destruct i; cbn [arm_plain arm_encode]; unfold arm_kept, fits; arm_pows; lia. Qed.

#[local] Ltac arm_field :=
  unfold arm_encode, arm_plain, arm_kept, slice, fits in *;
  change (2 ^ 24) with 16777216 in *; change (2 ^ 23) with 8388608 in *; change (2 ^ 26) with 67108864 in *;
  change (2 ^ 22) with 4194304 in *; change (2 ^ 8) with 256 in *; arm_pows; Z.div_mod_to_equations; lia.

(** The fields the decoder looks at, in a register form ... *)
Lemma arm_register_fields b d n m w :
  arm_kept d -> arm_kept n -> arm_kept m -> 0 <= b < 256 -> w = b * 2 ^ 24 + m * 2 ^ 16 + n * 2 ^ 5 + d ->
  Z.land (Z.shiftr w 24) 0xFF = b /\ arm_rd w = d /\ arm_rn w = n /\ arm_rm w = m.
Proof.
  intros Hd Hn Hm Hb ->. unfold arm_rd, arm_rn, arm_rm.
  rewrite (word_field _ 24 _ 8), (land_mask_mod _ 0x1F 5), (word_field _ 5 _ 5), (word_field _ 16 _ 5) by done.
  repeat split; arm_field.
Qed.
(** ... and in a form with an immediate of [k] bits at bit [p]. *)
Lemma arm_immediate_fields b rest d w :
  arm_kept d -> 0 <= b -> 0 <= rest < 2 ^ 17 -> w = b * 2 ^ 22 + rest * 2 ^ 5 + d -> fits 32 w ->
  Z.land (Z.shiftr w 24) 0xFF = b / 4 /\ arm_rd w = d /\ arm_rn w = rest mod 2 ^ 5 /\
  Z.land w 0xFF800000 = b / 2 * 2 ^ 23 /\ Z.land w 0xFC000000 = b / 16 * 2 ^ 26 /\
  Z.land w 0xFFC00000 = b * 2 ^ 22 /\ Z.land (Z.shiftr w 10) 0xFFF = rest / 2 ^ 5 /\
  Z.land (Z.shiftr w 5) 0xFFFF = rest mod 2 ^ 16.
Proof.
  intros Hd Hb Hr Hw Hf. unfold arm_rd, arm_rn.
  rewrite (high_mask w 23 0xFF800000), (high_mask w 26 0xFC000000), (high_mask w 22 0xFFC00000) by (done || lia).
  rewrite (word_field _ 24 _ 8), (land_mask_mod _ 0x1F 5), (word_field _ 5 _ 5), (word_field _ 10 _ 12),
    (word_field _ 5 _ 16) by done. subst w. change (2 ^ 17) with 131072 in *.
  repeat split; arm_field.
Qed.

Lemma arm_decode i : arm_plain i -> translate_one_arm64 (arm_encode i) = Some (arm_lowered i).
Proof.
  intros Hi. pose proof (arm_encode_fits i Hi) as Hf. unfold translate_one_arm64.
  destruct i as [d n m|d n m|d imm|t n imm]; cbn [arm_plain] in Hi; destruct_and?.
  - destruct (arm_register_fields 0x8B d n m (arm_encode (ArmAdd d n m))) as (-> & -> & -> & ->); [done..|].
    by rewrite !low4_small by (unfold rv_reg, arm_kept in *; lia).
  - destruct (arm_register_fields 0xCB d n m (arm_encode (ArmSub d n m))) as (-> & -> & -> & ->); [done..|].
    by rewrite !low4_small by (unfold rv_reg, arm_kept in *; lia).
  - destruct (arm_immediate_fields 0x14A imm d (arm_encode (ArmMovz d imm))) as (-> & -> & _ & -> & _ & _ & _ & ->);
      [done|done|change (2 ^ 17) with 131072; change (2 ^ 16) with 65536 in *; lia|done|done|].
    rewrite low4_small, Z.mod_small by (unfold rv_reg, arm_kept in *; lia). reflexivity.
  - destruct (arm_immediate_fields 0x3E5 (imm * 32 + n) t (arm_encode (ArmLdr t n imm)))
      as (-> & -> & -> & -> & -> & -> & -> & _);
      [done|done|unfold arm_kept in *; change (2 ^ 17) with 131072; change (2 ^ 12) with 4096 in *; lia
      |unfold arm_encode; change (2 ^ 10) with (32 * 2 ^ 5); lia|done|].
    assert ((imm * 32 + n) mod 2 ^ 5 = n /\ (imm * 32 + n) / 2 ^ 5 = imm) as [-> ->] by (split; arm_field).
    rewrite !low4_small by (unfold rv_reg, arm_kept in *; lia).
    rewrite (land_mask_mod (imm * 8) 0xFFFF 16), (Z.mod_small (imm * 8)) by (done || (change (2 ^ 16) with 65536; change (2 ^ 12) with 4096 in *; lia)).
    reflexivity.
Qed.

Section Arm64.
Context `{FloatOps} (ws : list Z) (k : nat) (lim : Z) (g : GState) (r : list Z) (v : list (list Z)) (fl : StatusFlags).
Context (m ram : buffer) (Hc : code_at ws m) (Hlow : 4 * zlen ws <= MMIO_BASE) (Hlim : 4 * zlen ws <= lim).
Context (Hh : holds arm_kept lim g r m).

Lemma arm_alu_sim op d n q :
  op = ADD \/ op = SUB -> ws !! k = Some (enc.rtype op d n q 0) -> arm_kept d -> arm_kept n -> arm_kept q ->
  simulated arm_kept ws k lim r v fl m ram 1
    (set_x d (u64 (match op with ADD => g.(g_x) n + g.(g_x) q | _ => g.(g_x) n - g.(g_x) q end)) g).
Proof using All.
  intros Ho Hk Hd Hn Hq. assert (Ho' : op = ADD \/ op = SUB \/ op = MUL) by tauto. unfold arm_kept in Hd, Hn, Hq.
  destruct (g_alu ws r v k fl m ram Hc Hlow op d n q Ho' Hk) as [fl' Hst]; [lia..|].
  eapply sim_one; [exact Hst| |done]. apply (holds_write arm_kept lim g r m (fun j Hj => Hj) Hh); [lia|].
  destruct Hh as (_ & _ & Hg & _). rewrite (Hg n), (Hg q), alu_u64, u32_u64 by done. by destruct Ho as [->| ->].
Qed.
Lemma arm_movz_sim d imm :
  ws !! k = Some (enc.movi d imm) -> arm_kept d -> 0 <= imm < 2 ^ 16 ->
  simulated arm_kept ws k lim r v fl m ram 1 (set_x d imm g).
Proof using All.
  intros Hk Hd Hi. unfold arm_kept in Hd. eapply sim_one; [apply (g_movi ws r v k fl m ram Hc Hlow d imm Hk); lia| |done].
  apply (holds_write arm_kept lim g r m (fun j Hj => Hj) Hh); [lia|].
  symmetry. apply u32_small. by apply (fits_mono 16).
Qed.
Lemma arm_ldr_sim d n imm g' :
  ws !! k = Some (enc.load d n (imm * 8)) -> arm_kept d -> arm_kept n -> 0 <= imm < 2 ^ 12 ->
  arm_exec lim (ArmLdr d n imm) g = Some g' -> simulated arm_kept ws k lim r v fl m ram 1 g'.
Proof using All.
  intros Hk Hd Hn Hi Hg. cbn [arm_exec] in Hg. set (ea := u64 (g_x g n + imm * 8)) in *.
  destruct (allowed _ _ _ _) eqn:Hal; [|done]. injection Hg as <-.
  destruct (allowed_access arm_kept lim g r m Hh 8 (g_x g n) ea (imm * 8) Hal eq_refl) as (H1 & H2 & H3 & H4); [lia|].
  assert (Hd' := Hd). unfold arm_kept in Hd', Hn. change (2 ^ 12) with 4096 in Hi.
  eapply sim_one; [apply (g_load ws r v k fl m ram Hc Hlow d n _ ea Hk)| |done]; [lia..| |lia|lia|].
  - rewrite s16_mod by (change (2 ^ 15) with 32768; lia). pose proof Hh as (_ & _ & Hg & _). by rewrite (Hg n).
  - apply (holds_write arm_kept lim g r m (fun j Hj => Hj) Hh); [lia|]. symmetry. by apply (loaded_double arm_kept lim g r m).
Qed.
End Arm64.

Section ArmGuest.
Context `{FloatOps}.
Lemma arm_lower_fits i : arm_plain i -> Forall (fits 32) (arm_lowered i).
Proof using Type.
  destruct i as [d n m|d n m|d imm|t n imm]; intros _; apply Forall_singleton;
    [exact (rtype_fits ADD d n m 0)|exact (rtype_fits SUB d n m 0)|exact (itype_fits MOVI d 0 imm)
    |exact (itype_fits LOAD t n (imm * 8))].
Qed.
Lemma arm_sim ws k lim i g g' r v fl m ram :
  arm_plain i -> code_at ws m -> 4 * zlen ws <= MMIO_BASE -> 4 * zlen ws <= lim ->
  (forall j w, arm_lowered i !! j = Some w -> ws !! (k + j)%nat = Some w) ->
  holds arm_kept lim g r m -> arm_exec lim i g = Some g' ->
  simulated arm_kept ws k lim r v fl m ram (List.length (arm_lowered i)) g'.
Proof using Type.
  intros Hi Hc Hlow Hlim Hin Hh Hg. pose proof (Hin 0%nat) as H0. rewrite Nat.add_0_r in H0.
  destruct i as [d n q|d n q|d imm|t n imm]; cbn [arm_plain] in Hi.
  - destruct Hi as (H1 & H2 & H3). injection Hg as <-.
    exact (arm_alu_sim ws k lim g r v fl m ram Hc Hlow Hlim Hh ADD d n q (or_introl eq_refl) (H0 _ eq_refl) H1 H2 H3).
  - destruct Hi as (H1 & H2 & H3). injection Hg as <-.
    exact (arm_alu_sim ws k lim g r v fl m ram Hc Hlow Hlim Hh SUB d n q (or_intror eq_refl) (H0 _ eq_refl) H1 H2 H3).
  - destruct Hi as (H1 & H2). injection Hg as <-.
    exact (arm_movz_sim ws k lim g r v fl m ram Hc Hlow Hlim Hh d imm (H0 _ eq_refl) H1 H2).
  - destruct Hi as (H1 & H2 & H3).
    exact (arm_ldr_sim ws k lim g r v fl m ram Hc Hlow Hlim Hh t n imm g' (H0 _ eq_refl) H1 H2 H3 Hg).
Qed.
#[export] Instance arm_guest : Guest arm_instr := {|
  g_isa := ARM64; g_one := translate_one_arm64; g_encode := arm_encode; g_ok := arm_plain;
  g_lower := arm_lowered; g_reg := arm_kept; g_step := arm_exec;
  g_engine _ := eq_refl; g_encode_fits := arm_encode_fits; g_decode := arm_decode;
  g_lower_fits := arm_lower_fits; g_reg_range j Hj := Hj; g_sim := arm_sim |}.
End ArmGuest.

(** ** Theorems *)

(** C29: guest RISC-V programs run. The bytes of any sequence of ADD, SUB,
    MUL, ADDI, LW, SW, BEQ, BNE and JAL on x0 to x15, as the manual encodes
    them, are translated completely and counted. Straight-line code (ADD, SUB,
    MUL, ADDI with a non-negative immediate, LW, SW) on x0 to x14 moreover runs
    as on the guest's 64-bit machine whenever that machine completes it, each
    access at or above a limit, in the scratchpad and below the peripherals;
    nothing is said of runs with other accesses. The limit is past the code and
    its halt and at most the text region's size and the scratchpad's. Loaded at 0
    and run with any host kernel from pc 0 on a well-formed machine (not halted,
    paging and interrupts off, no trap vector or breakpoint, registers and
    memory above the limit the guest's), the translation and a halt end within
    one step per word; then r1 to r14 hold the low halves of the guest's
    registers, memory above the limit is the guest's, main memory is untouched. *)
Theorem riscv_programs_run `{FloatOps} path (gs : list rv_instr) :
  Forall rv_ok gs ->
  let '(out, stats) := translate_bytes RISCV64 (rv_bytes gs) in
  stats = mkTranslationStats (zlen gs) (zlen out) 0 /\ out = concat (map rv_lowered gs) /\
  (Forall rv_plain gs -> forall lim g g' s fuel,
     4 * (zlen out + 1) <= lim -> lim <= TEXT_SIZE -> lim <= s.(scratchpad_).(blen) ->
     ready s -> s.(regs_).(pc) = 0 -> s.(regs_).(halt) = false ->
     models rv_kept lim g s -> g_run lim gs g = Some g' -> zlen out + 1 <= Z.of_nat fuel ->
     exists s', (do! Emulator.load_program (out ++ [enc.halt]) in Emulator.run path fuel) s = (Ok true, s') /\
       s'.(regs_).(halt) = true /\ models rv_kept lim g' s' /\ s'.(main_ram_) = s.(main_ram_)).
Proof.
  intros Hok. rewrite translate_bytes_riscv by done. split; [done|]. split; [done|].
  intros Hpl lim g g' s fuel Hlim Ht Hsp Hr Hpc Hh Hm Hrun Hfuel.
  pose proof (translation_runs path gs lim g g' s fuel) as Hall. apply Hall; try done.
  - unfold zlen in *. rewrite length_app. unfold g_code. cbn [List.length g_lower riscv_guest]. lia.
  - unfold zlen in *. unfold g_code. cbn [g_lower riscv_guest]. lia.
Qed.

(** addi x1, x0, 6; addi x2, x0, 7; mul x3, x1, x2; addi x4, x0, 0x400;
    sw x3, 4(x4); lw x5, 4(x4); sub x6, x0, x5 on a new machine. *)
Definition rv_sample : list rv_instr :=
  [RvAddi 1 0 6; RvAddi 2 0 7; RvOp RvMul 3 1 2; RvAddi 4 0 0x400; RvSw 3 4 4; RvLw 5 4 4; RvOp RvSub 6 0 5].
Definition fresh_machine : Emulator := Emulator.create 0x1000 64.
Definition fresh_guest : GState := mkGState (fun _ => 0) (Buffer.make 0x1000).
Lemma fresh_ready : ready fresh_machine.
Proof. split; [apply create_wf; split; vm_compute; congruence|by split; vm_compute|done]. Qed.
Lemma fresh_models (dom : Z -> Prop) : (forall j, dom j -> 0 < j < 16) -> models dom 44 fresh_guest fresh_machine.
Proof.
  intros Hd. split; [|done]. intros j Hj%Hd.
  assert (exists k, (k < 16)%nat /\ j = Z.of_nat k) as (k & Hk & ->) by (exists (Z.to_nat j); lia).
  do 16 (destruct k as [|k]; [reflexivity|]). lia.
Qed.
Lemma riscv_programs_run_witness :
  exists s', (do! Emulator.load_program ((translate_bytes RISCV64 (rv_bytes rv_sample)).1 ++ [enc.halt])
              in Emulator.run PathScalar 11) fresh_machine = (Ok true, s') /\
    RegisterFile.read_gpr s'.(regs_) 5 = Some 42 /\ RegisterFile.read_gpr s'.(regs_) 6 = Some (2 ^ 32 - 42).
Proof.
  assert (Hp : Forall rv_plain rv_sample) by (repeat apply Forall_cons_2; [cbn; lia..|constructor]).
  pose proof (riscv_programs_run PathScalar rv_sample (Forall_impl _ _ _ Hp rv_plain_ok)) as H.
  assert (Hb : match g_run 44 rv_sample fresh_guest with
               | Some g' => (u32 (g_x g' 5) =? 42) && (u32 (g_x g' 6) =? 2 ^ 32 - 42)
               | None => false
               end = true) by by vm_compute.
  destruct (g_run 44 rv_sample fresh_guest) as [g'|] eqn:Hg; [|discriminate Hb].
  apply andb_true_iff in Hb as [H5%Z.eqb_eq H6%Z.eqb_eq]. destruct (translate_bytes _ _) as [out stats] eqn:E.
  assert (Hz : zlen out = 10) by (change out with (out, stats).1; rewrite <- E; reflexivity).
  destruct H as (_ & _ & H). destruct (H Hp 44 fresh_guest g' fresh_machine 11%nat) as (s' & H1 & _ & [Hr _] & _);
    rewrite ?Hz; [lia|done|done|apply fresh_ready|done|done|apply fresh_models; unfold rv_kept; lia|done|lia|].
  exists s'. split; [exact H1|]. split; [rewrite <- H5|rewrite <- H6]; apply Hr; unfold rv_kept; lia.
Defined.

(** C30: guest ARM64 programs run. The bytes of any sequence of ADD and SUB
    (registers, no shift), MOVZ (32 bits, no shift) and LDR (64 bits, unsigned
    offset) on X1 to X15, as the manual encodes them, are translated completely
    and counted. The translation moreover runs as on the guest's 64-bit machine
    whenever that machine completes the code, each load at or above a limit, in
    the scratchpad and below the peripherals; nothing is said of runs with other
    loads. The limit is past the code and its halt and at most the text region's
    size and the scratchpad's. Loaded at 0 and run with any host kernel from pc
    0 on a well-formed machine (not halted, paging and interrupts off, no trap
    vector or breakpoint, registers and memory above the limit the guest's), the
    translation and a halt end within one step per word; then r1 to r15 hold the
    low halves of the guest's registers and its memory above the limit and main
    memory are unchanged. *)
Theorem arm64_programs_run `{FloatOps} path (gs : list arm_instr) :
  Forall arm_plain gs ->
  let '(out, stats) := translate_bytes ARM64 (g_bytes gs) in
  stats = mkTranslationStats (zlen gs) (zlen out) 0 /\ out = concat (map arm_lowered gs) /\
  forall lim g g' s fuel,
    4 * (zlen out + 1) <= lim -> lim <= TEXT_SIZE -> lim <= s.(scratchpad_).(blen) ->
    ready s -> s.(regs_).(pc) = 0 -> s.(regs_).(halt) = false ->
    models arm_kept lim g s -> g_run lim gs g = Some g' -> zlen out + 1 <= Z.of_nat fuel ->
    exists s', (do! Emulator.load_program (out ++ [enc.halt]) in Emulator.run path fuel) s = (Ok true, s') /\
      s'.(regs_).(halt) = true /\ models arm_kept lim g' s' /\ s'.(main_ram_) = s.(main_ram_).
Proof.
  intros Hok. pose proof (g_translates gs Hok) as Htr. change g_isa with ARM64 in Htr. rewrite Htr.
  split; [done|]. split; [done|].
  intros lim g g' s fuel Hlim Ht Hsp Hr Hpc Hh Hm Hrun Hfuel.
  pose proof (translation_runs path gs lim g g' s fuel) as Hall. apply Hall; try done.
  - unfold zlen in *. rewrite length_app. cbn [List.length]. lia.
  - unfold zlen in *. lia.
Qed.

(** mov w1, #6; mov w2, #0x400; add x3, x1, x2; sub x4, x1, x3; ldr x5, [x3, #8]. *)
Definition arm_sample : list arm_instr :=
  [ArmMovz 1 6; ArmMovz 2 0x400; ArmAdd 3 1 2; ArmSub 4 1 3; ArmLdr 5 3 1].
Lemma arm64_programs_run_witness :
  exists s', (do! Emulator.load_program ((translate_bytes ARM64 (g_bytes arm_sample)).1 ++ [enc.halt])
              in Emulator.run PathScalar 11) fresh_machine = (Ok true, s') /\
    RegisterFile.read_gpr s'.(regs_) 3 = Some 0x406 /\ RegisterFile.read_gpr s'.(regs_) 4 = Some (2 ^ 32 - 0x400).
Proof.
  assert (Hp : Forall arm_plain arm_sample) by (repeat apply Forall_cons_2; [cbn; unfold arm_kept; lia..|constructor]).
  pose proof (arm64_programs_run PathScalar arm_sample Hp) as H.
  assert (Hb : match g_run 44 arm_sample fresh_guest with
               | Some g' => (u32 (g_x g' 3) =? 0x406) && (u32 (g_x g' 4) =? 2 ^ 32 - 0x400)
               | None => false
               end = true) by by vm_compute.
  destruct (g_run 44 arm_sample fresh_guest) as [g'|] eqn:Hg; [|discriminate Hb].
  apply andb_true_iff in Hb as [H5%Z.eqb_eq H6%Z.eqb_eq]. destruct (translate_bytes _ _) as [out stats] eqn:E.
  assert (Hz : zlen out = 5) by (change out with (out, stats).1; rewrite <- E; reflexivity).
  destruct H as (_ & _ & H). destruct (H 44 fresh_guest g' fresh_machine 11%nat) as (s' & H1 & _ & [Hr _] & _);
    rewrite ?Hz; [lia|done|done|apply fresh_ready|done|done|apply fresh_models; unfold arm_kept; lia|done|lia|].
  exists s'. split; [exact H1|]. split; [rewrite <- H5|rewrite <- H6]; apply Hr; unfold arm_kept; lia.
Defined.
