(* ===== verification/Microarch.v ===== *)
(** * Timing models: timing.h, deterministic.h, pipeline.h, pipeline.cpp,
    parallel.h, parallel.cpp

    The timing controller, the deterministic clock, the reservation stations
    and the two-bit branch predictor, the warp scheduler and the systolic
    array.  None of them is called by the emulator; the cluster uses the
    deterministic clock. *)

From Stdlib Require Import SpecFloat.
From S2P Require Import Prelude Text Isa Float.
#[local] Open Scope Z_scope.

(** ** Timing controller *)
Inductive TimingMode : Type := Functional | CycleApproximate | CycleAccurate.
Definition timing_mode_name (m : TimingMode) : string :=
  match m with
  | Functional => "functional" | CycleApproximate => "cycle-approximate"
  | CycleAccurate => "cycle-accurate"
  end%string.

#[local] Set Primitive Projections.
Record TimingConfig : Type := mkTimingConfig {
  tc_mode : TimingMode; model_branch_mispredict : bool; model_cache_miss : bool;
  model_memory_latency : bool; branch_mispredict_penalty : Z; cache_miss_penalty : Z;
  memory_latency : Z }.
Record DeterministicEngine : Type := mkDeterministic {
  quantum_ : Z; global_clock_ : Z; seq_ : Z; clocks_ : list Z }.
Record ReservationStation : Type := mkStation {
  occupied : bool; rs_instr : Instruction; rs_dst : Z; src1_ready : bool; src2_ready : bool;
  src1_val : Z; src2_val : Z; issue_cycle : Z }.
Record ReorderBufferEntry : Type := mkRob {
  rob_valid : bool; rob_instr : Instruction; rob_dst : Z; rob_result : Z; rob_completed : bool;
  ready_cycle : Z }.
Record PipelineConfig : Type := mkPipelineConfig {
  out_of_order : bool; register_renaming : bool; branch_prediction : bool;
  fetch_width : Z; issue_width : Z }.
Record Pipeline : Type := mkPipeline {
  pipe_cfg_ : PipelineConfig; rs_ : list ReservationStation; rob_ : list ReorderBufferEntry;
  rob_head_ : Z; rob_tail_ : Z; stalls_ : Z; mispredicts_ : Z; bpred_ : list Z }.
Record WarpConfig : Type := mkWarpConfig { warp_size : Z; max_warps_per_sm : Z; num_sms : Z }.
Record WarpScheduler : Type := mkWarps {
  warp_cfg_ : WarpConfig; state_ : list Z; scheduled_ : Z; w_stalls_ : Z; rr_ : Z }.
Record SystolicConfig : Type := mkSystolicConfig { rows : Z; cols : Z; macs_per_cycle : Z }.
Record SystolicArray : Type := mkSystolic {
  sys_cfg_ : SystolicConfig; tiles_ : Z; total_cycles_ : Z; pipeline_depth_ : Z }.
#[local] Unset Primitive Projections.

Module TimingController.
Definition default_config : TimingConfig := mkTimingConfig CycleApproximate true true true 3 10 100.
Definition set_mode (m : TimingMode) (c : TimingConfig) : TimingConfig := { c with tc_mode := m }.

Definition adjust (c : TimingConfig) (base_cycles : Z)
    (branch_taken branch_mispredict cache_miss is_memory_op : bool) : Z :=
  match c.(tc_mode) with
  | Functional => 1
  | CycleApproximate => base_cycles
  | CycleAccurate =>
      let n := base_cycles in
      let n := if c.(model_branch_mispredict) && branch_mispredict
               then u32 (n + c.(branch_mispredict_penalty)) else n in
      let n := if c.(model_cache_miss) && cache_miss then u32 (n + c.(cache_miss_penalty)) else n in
      if c.(model_memory_latency) && is_memory_op then u32 (n + c.(memory_latency) / 10) else n
  end.
Definition describe (c : TimingConfig) : string :=
  ("timing=" +:+ timing_mode_name c.(tc_mode)
   +:+ (if c.(model_branch_mispredict) then " +branch" else "")
   +:+ (if c.(model_cache_miss) then " +cache" else ""))%string.
End TimingController.

(** ** Deterministic clock *)
Module DeterministicEngine.
Definition kMaxCores : Z := 16.
Definition make (q : Z) : DeterministicEngine := mkDeterministic q 0 0 (replicate 16 0).
Definition set_quantum (q : Z) (d : DeterministicEngine) : DeterministicEngine := { d with quantum_ := q }.

(** Whether the barrier is reached; a quantum of zero divides by zero, after
    the counters have moved. *)
Definition tick (core_id cycles : Z) : M DeterministicEngine bool := fun d =>
  let k := core_id mod kMaxCores in
  let d : DeterministicEngine :=
    { d with clocks_ := zset d.(clocks_) k (u64 (default 0 (zget d.(clocks_) k) + cycles));
             global_clock_ := u64 (d.(global_clock_) + cycles);
             seq_ := u64 (d.(seq_) + 1) } in
  if d.(quantum_) =? 0 then (Undefined DivideByZero, d)
  else (Ok (d.(global_clock_) mod d.(quantum_) =? 0), d).
Definition reset (d : DeterministicEngine) : DeterministicEngine :=
  { d with global_clock_ := 0; seq_ := 0; clocks_ := replicate 16 0 }.
Definition report (d : DeterministicEngine) : string :=
  snprintf 128 ("deterministic quantum=" +:+ udec d.(quantum_) +:+ " global_clock="
    +:+ udec d.(global_clock_) +:+ " seq=" +:+ udec d.(seq_))%string.
End DeterministicEngine.

(** ** Pipeline *)
Module Pipeline.
Definition kRSSize : nat := 8.
Definition kROBSize : nat := 16.
Definition kRenameRegs : nat := 32.
Definition empty_station : ReservationStation := mkStation false (mkInstruction 0) 0 false false 0 0 0.
Definition empty_rob : ReorderBufferEntry := mkRob false (mkInstruction 0) 0 0 false 0.
Definition default_config : PipelineConfig := mkPipelineConfig false false true 1 1.
Definition make (cfg : PipelineConfig) : Pipeline :=
  mkPipeline cfg (replicate kRSSize empty_station) (replicate kROBSize empty_rob) 0 0 0 0 (replicate 256 0).
Definition configure (cfg : PipelineConfig) (p : Pipeline) : Pipeline := { p with pipe_cfg_ := cfg }.
(** The predictor table is kept. *)
Definition reset (p : Pipeline) : Pipeline :=
  { p with rs_ := replicate kRSSize empty_station; rob_ := replicate kROBSize empty_rob;
           rob_head_ := 0; rob_tail_ := 0; stalls_ := 0; mispredicts_ := 0 }.

Definition take_station (i : Instruction) (cycle : Z) (x : ReservationStation) : ReservationStation :=
  { x with occupied := true; rs_instr := i; issue_cycle := cycle }.
Definition free_station (x : ReservationStation) : ReservationStation := { x with occupied := false }.

(** The first free station takes the instruction. *)
Fixpoint fill_station (i : Instruction) (cycle : Z) (l : list ReservationStation)
    : option (list ReservationStation) :=
  match l with
  | [] => None
  | x :: l =>
      if x.(occupied) then option_map (cons x) (fill_station i cycle l)
      else Some (take_station i cycle x :: l)
  end.
(** Stall cycles. *)
Definition try_issue (i : Instruction) (cur_cycle : Z) (p : Pipeline) : Z * Pipeline :=
  if negb p.(pipe_cfg_).(out_of_order) then (0, p)
  else match fill_station i cur_cycle p.(rs_) with
       | Some l => (0, { p with rs_ := l })
       | None => (1, { p with stalls_ := u64 (p.(stalls_) + 1) })
       end.

(** Frees ready stations until [width] are freed (one at least). *)
Fixpoint commit_stations (width cycle committed : Z) (l : list ReservationStation)
    : Z * list ReservationStation :=
  match l with
  | [] => (committed, [])
  | x :: l =>
      if x.(occupied) && (u64 (x.(issue_cycle) + 1) <=? cycle) then
        let x' := free_station x in
        let committed := u32 (committed + 1) in
        if width <=? committed then (committed, x' :: l)
        else let '(n, l) := commit_stations width cycle committed l in (n, x' :: l)
      else let '(n, l) := commit_stations width cycle committed l in (n, x :: l)
  end.
Definition commit (cur_cycle : Z) (p : Pipeline) : Z * Pipeline :=
  let '(n, l) := commit_stations p.(pipe_cfg_).(issue_width) cur_cycle 0 p.(rs_) in
  (n, { p with rs_ := l }).

Definition slot (pc : Z) : Z := pc mod 256.
Definition counter (p : Pipeline) (pc : Z) : Z := default 0 (zget p.(bpred_) (slot pc)).
Definition predict_taken (pc : Z) (p : Pipeline) : bool :=
  if negb p.(pipe_cfg_).(branch_prediction) then false
  else negb (Z.land (counter p pc) 0x2 =? 0).
Definition update_predictor (pc : Z) (taken mispredicted : bool) (p : Pipeline) : Pipeline :=
  let ctr := counter p pc in
  let ctr := if taken then (if ctr <? 3 then u8 (ctr + 1) else 3)
             else (if 0 <? ctr then u8 (ctr - 1) else 0) in
  { p with bpred_ := zset p.(bpred_) (slot pc) ctr;
           mispredicts_ := if mispredicted then u64 (p.(mispredicts_) + 1) else p.(mispredicts_) }.

Definition stall_rate (p : Pipeline) (total_cycles : Z) : spec_float := ratio p.(stalls_) total_cycles.
Definition report (p : Pipeline) (total_cycles : Z) : string :=
  snprintf 256 ("pipeline " +:+ (if p.(pipe_cfg_).(out_of_order) then "OoO" else "in-order")
    +:+ " stalls=" +:+ udec p.(stalls_) +:+ " mispredicts=" +:+ udec p.(mispredicts_)
    +:+ " stall_rate=" +:+ fixed 1 (f64_mul (stall_rate p total_cycles) (f64_of_Z 100)) +:+ "%")%string.
End Pipeline.

(** ** GPU: warp scheduler *)
Module WarpScheduler.
Definition default_config : WarpConfig := mkWarpConfig 32 32 4.
Definition reset (w : WarpScheduler) : WarpScheduler :=
  { w with state_ := replicate (Z.to_nat (u32 (w.(warp_cfg_).(max_warps_per_sm) * w.(warp_cfg_).(num_sms)))) 0;
           scheduled_ := 0; w_stalls_ := 0; rr_ := 0 }.
Definition make (cfg : WarpConfig) : WarpScheduler := reset (mkWarps cfg [] 0 0 0).
Definition configure (cfg : WarpConfig) (w : WarpScheduler) : WarpScheduler :=
  reset { w with warp_cfg_ := cfg }.

Definition valid (w : WarpScheduler) (id : Z) : bool := (0 <=? id) && (id <? zlen w.(state_)).
Definition mark_ready (id : Z) (w : WarpScheduler) : WarpScheduler :=
  if valid w id then { w with state_ := zset w.(state_) id 0 } else w.
Definition mark_stalled (id cycles : Z) (w : WarpScheduler) : WarpScheduler :=
  if valid w id then { w with state_ := zset w.(state_) id cycles; w_stalls_ := u64 (w.(w_stalls_) + 1) } else w.

(** The first ready warp at distance [i], [i + 1], ... from [rr_]. *)
Fixpoint search (fuel : nat) (i : Z) (w : WarpScheduler) : option Z :=
  match fuel with
  | O => None
  | S fuel =>
      let id := (w.(rr_) + i) mod zlen w.(state_) in
      if default 0 (zget w.(state_) id) =? 0 then Some id else search fuel (i + 1) w
  end.
(** [int(id)], -1 when every warp is stalled. *)
Definition schedule (w : WarpScheduler) : Z * WarpScheduler :=
  match search (length w.(state_)) 0 w with
  | Some id => (s32 id, { w with rr_ := (id + 1) mod zlen w.(state_); scheduled_ := u64 (w.(scheduled_) + 1) })
  | None => (-1, w)
  end.
Definition tick (cycles : Z) (w : WarpScheduler) : WarpScheduler :=
  { w with state_ := map (fun s => if 0 <? s then (if cycles <? s then s - cycles else 0) else s) w.(state_) }.
Definition active_warps (w : WarpScheduler) : Z := u32 (zlen (filter (fun s => s = 0) w.(state_))).
Definition report (w : WarpScheduler) : string :=
  snprintf 192 ("warp scheduler " +:+ udec w.(warp_cfg_).(num_sms) +:+ "x"
    +:+ udec w.(warp_cfg_).(max_warps_per_sm) +:+ " active=" +:+ udec (active_warps w)
    +:+ " scheduled=" +:+ udec w.(scheduled_) +:+ " stalls=" +:+ udec w.(w_stalls_))%string.
End WarpScheduler.

(** ** ASIC: systolic array *)
Module SystolicArray.
Definition default_config : SystolicConfig := mkSystolicConfig 8 8 64.
Definition make (cfg : SystolicConfig) : SystolicArray := mkSystolic cfg 0 0 0.
Definition configure (cfg : SystolicConfig) (a : SystolicArray) : SystolicArray := { a with sys_cfg_ := cfg }.
Definition tile_cycles (cfg : SystolicConfig) : Z :=
  u32 (u32 (u32 (cfg.(rows) * cfg.(cols)) + cfg.(macs_per_cycle)) - 1) / cfg.(macs_per_cycle).
Definition enqueue_tile (tile_n : Z) : M SystolicArray Z := fun a =>
  let a : SystolicArray := { a with tiles_ := u64 (a.(tiles_) + 1) } in
  if a.(sys_cfg_).(macs_per_cycle) =? 0 then (Undefined DivideByZero, a)
  else
    let cycles := tile_cycles a.(sys_cfg_) in
    if a.(pipeline_depth_) <? a.(sys_cfg_).(rows) then
      (Ok cycles, { a with pipeline_depth_ := u32 (a.(pipeline_depth_) + 1);
                           total_cycles_ := u64 (a.(total_cycles_) + cycles) })
    else (Ok cycles, { a with total_cycles_ := u64 (a.(total_cycles_) + 1) }).
Definition reset (a : SystolicArray) : SystolicArray :=
  { a with tiles_ := 0; total_cycles_ := 0; pipeline_depth_ := 0 }.
Definition report (a : SystolicArray) : string :=
  snprintf 192 ("systolic " +:+ udec a.(sys_cfg_).(rows) +:+ "x" +:+ udec a.(sys_cfg_).(cols)
    +:+ " tiles=" +:+ udec a.(tiles_) +:+ " cycles=" +:+ udec a.(total_cycles_))%string.
End SystolicArray.

#[local] Set Primitive Projections.
Record ParallelMapping : Type := mkParallel { warp : WarpScheduler; systolic : SystolicArray; dma_engines : Z }.
#[local] Unset Primitive Projections.

(** ** Warp scheduling is round robin *)
Section Warps.
Context (w : WarpScheduler).
Let n := zlen w.(state_).
Definition ready (id : Z) : Prop := default 0 (zget w.(state_) id) = 0.
(** How far a warp is from the scheduler's pointer. *)
Definition distance (id : Z) : Z := (id - w.(rr_)) mod n.

Lemma search_spec fuel : forall i, 0 <= i ->
  match WarpScheduler.search fuel i w with
  | Some id => exists k, i <= k < i + Z.of_nat fuel /\ id = (w.(rr_) + k) mod n /\ ready id /\
                 forall j, i <= j < k -> ~ ready ((w.(rr_) + j) mod n)
  | None => forall j, i <= j < i + Z.of_nat fuel -> ~ ready ((w.(rr_) + j) mod n)
  end.
Proof using Type.
  induction fuel as [|fuel IH]; intros i Hi; cbn [WarpScheduler.search]; [lia|]. fold n.
  destruct (Z.eqb_spec (default 0 (zget (state_ w) ((w.(rr_) + i) mod n))) 0) as [E|E].
  - exists i. split_and!; [lia|lia|done|exact E|lia].
  - specialize (IH (i + 1) ltac:(lia)). destruct (WarpScheduler.search fuel (i + 1) w).
    + destruct IH as (k & Hk & -> & Hr & Hj). exists k. split_and!; [lia|lia|done|done|].
      intros j Hj'. destruct (Z.eq_dec j i) as [->|]; [exact E|]. apply Hj. lia.
    + intros j Hj'. destruct (Z.eq_dec j i) as [->|]; [exact E|]. apply IH. lia.
Qed.
Lemma distance_back id : 0 <= id < n -> 0 <= w.(rr_) < n -> (w.(rr_) + distance id) mod n = id.
Proof using Type.
  intros Hi Hr. unfold distance. rewrite Zplus_mod_idemp_r. replace (rr_ w + (id - rr_ w)) with id by lia.
  by apply Z.mod_small.
Qed.
End Warps.

(** One call: either no warp is ready, or the nearest ready warp is returned. *)
Lemma schedule_nearest w id :
  0 <= id < zlen w.(state_) -> 0 <= w.(rr_) < zlen w.(state_) -> zlen w.(state_) < 2 ^ 31 -> ready w id ->
  exists r, (WarpScheduler.schedule w).1 = r /\ 0 <= r < zlen w.(state_) /\ ready w r /\
    distance w r <= distance w id /\
    (WarpScheduler.schedule w).2 =
      { w with rr_ := (r + 1) mod zlen w.(state_); scheduled_ := u64 (w.(scheduled_) + 1) }.
Proof.
  intros Hid Hrr Hn Hr. pose proof (search_spec w (length w.(state_)) 0 ltac:(lia)) as Hs.
  unfold WarpScheduler.schedule. change (Z.of_nat (length (state_ w))) with (zlen (state_ w)) in Hs.
  assert (Hd : 0 <= distance w id < zlen (state_ w)) by (apply Z.mod_pos_bound; lia).
  destruct (WarpScheduler.search _ 0 w) as [r|].
  - destruct Hs as (k & Hk & Hrk & Hready & Hfirst). exists r.
    assert (Hr0 : 0 <= r < zlen (state_ w)) by (rewrite Hrk; apply Z.mod_pos_bound; lia).
    assert (Hdk : distance w r = k).
    { unfold distance. rewrite Hrk, Zminus_mod_idemp_l.
      replace (rr_ w + k - rr_ w) with k by lia. apply Z.mod_small. lia. }
    split_and!; [|lia|lia|exact Hready| |done].
    + cbn [fst]. unfold s32, to_signed. rewrite Z.mod_small by lia. change (2 ^ (32 - 1)) with (2 ^ 31).
      destruct (Z.ltb_spec r (2 ^ 31)); lia.
    + rewrite Hdk. destruct (Z.le_gt_cases k (distance w id)); [done|]. exfalso.
      apply (Hfirst (distance w id)); [lia|]. by rewrite distance_back.
  - exfalso. apply (Hs (distance w id)); [lia|]. by rewrite distance_back.
Qed.

(** C31: no ready warp starves. With fewer than [2 ^ 31] warps, a warp that
    is ready (no stall cycles left) is, under consecutive calls of [schedule]
    with no other call between them, returned by one of the next [d + 1], where
    [d < n] is its distance from the round-robin pointer, and the calls before
    it return other ready warps; a call returns -1 only when no warp is ready. *)
Theorem warp_no_starvation w id :
  0 <= id < zlen w.(state_) -> 0 <= w.(rr_) < zlen w.(state_) -> zlen w.(state_) < 2 ^ 31 -> ready w id ->
  exists k, Z.of_nat k <= distance w id < zlen w.(state_) /\
    let after j := Nat.iter j (fun w => (WarpScheduler.schedule w).2) w in
    (WarpScheduler.schedule (after k)).1 = id /\
    forall j, (j < k)%nat -> exists r, (WarpScheduler.schedule (after j)).1 = r /\ ready w r /\
      0 <= r < zlen w.(state_) /\ r <> id.
Proof.
  intros Hid Hrr Hn Hr.
  assert (Hd : 0 <= distance w id < zlen (state_ w)) by (apply Z.mod_pos_bound; lia).
  remember (Z.to_nat (distance w id)) as m eqn:Hm. revert w Hid Hrr Hn Hr Hd Hm.
  induction m as [m IH] using lt_wf_ind. intros w Hid Hrr Hn Hr Hd ->.
  destruct (schedule_nearest w id Hid Hrr Hn Hr) as (r & Hres & Hr0 & Hready & Hle & Hw').
  destruct (Z.eq_dec r id) as [->|Hne].
  { exists 0%nat. split; [lia|]. split; [exact Hres|lia]. }
  assert (Hdr : distance w r < distance w id).
  { assert (distance w r <> distance w id); [|lia]. intros He. apply Hne.
    by rewrite <- (distance_back w r), <- (distance_back w id), He. }
  set (w' := (WarpScheduler.schedule w).2) in *.
  assert (Hst : state_ w' = state_ w) by (by rewrite Hw').
  assert (Hrr' : rr_ w' = (r + 1) mod zlen (state_ w)) by (by rewrite Hw').
  assert (Hd' : distance w' id = distance w id - distance w r - 1).
  { unfold distance in *. rewrite Hst, Hrr', Zminus_mod_idemp_r.
    pose proof (Z.mod_pos_bound (r - rr_ w) (zlen (state_ w)) ltac:(lia)).
    pose proof (Z.div_mod (id - rr_ w) (zlen (state_ w)) ltac:(lia)).
    pose proof (Z.div_mod (r - rr_ w) (zlen (state_ w)) ltac:(lia)).
    symmetry. apply (Z.mod_unique _ _ ((id - rr_ w) / zlen (state_ w) - (r - rr_ w) / zlen (state_ w))); lia. }
  assert (Hdr0 : 0 <= distance w r) by (apply Z.mod_pos_bound; lia).
  destruct (IH (Z.to_nat (distance w' id))) with (w := w') as (k & Hk & Hk1 & Hk2); try done.
  - rewrite Hd'. lia.
  - by rewrite Hst.
  - rewrite Hst, Hrr'. apply Z.mod_pos_bound. lia.
  - by rewrite Hst.
  - unfold ready in *. by rewrite Hst.
  - rewrite Hst, Hd'. lia.
  - assert (Hsh : forall j, Nat.iter (S j) (fun w => (WarpScheduler.schedule w).2) w
                      = Nat.iter j (fun w => (WarpScheduler.schedule w).2) w').
    { induction j as [|j IHj]; [done|]. change (Nat.iter (S (S j)) ?f w) with (f (Nat.iter (S j) f w)).
      by rewrite IHj. }
    exists (S k).
    split; [rewrite Hst in Hk; lia|]. split; [by rewrite Hsh|].
    intros [|j] Hj; [exists r; cbn; auto|]. rewrite Hsh.
    destruct (Hk2 j ltac:(lia)) as (r' & H1 & H2 & H3 & H4). exists r'. unfold ready in *. rewrite Hst in H2, H3. done.
Qed.
(** Four warps, the pointer at 2, warp 1 ready, warp 2 stalled. *)
Definition some_warps : WarpScheduler := mkWarps (mkWarpConfig 32 4 1) [0; 0; 5; 0] 0 0 2.
Lemma warp_no_starvation_witness :
  exists k, (k <= 3)%nat /\
    (WarpScheduler.schedule (Nat.iter k (fun w => (WarpScheduler.schedule w).2) some_warps)).1 = 1.
Proof.
  destruct (warp_no_starvation some_warps 1) as (k & Hk & H & _);
    [split; vm_compute; congruence|split; vm_compute; congruence|reflexivity|reflexivity|].
  change (distance some_warps 1) with 3 in Hk. exists k. split; [lia|exact H].
Defined.

(** ** The deterministic clock *)
Definition sumz (l : list Z) : Z := fold_right Z.add 0 l.
Fixpoint tick_all (ts : list (Z * Z)) : M DeterministicEngine (list bool) :=
  match ts with
  | [] => ret []
  | (core, cycles) :: ts =>
      let! b := DeterministicEngine.tick core cycles in
      let! bs := tick_all ts in
      ret (b :: bs)
  end.
(** The cycles of the ticks of the cores that share a clock. *)
Definition core_cycles (k : Z) (ts : list (Z * Z)) : Z :=
  sumz (map (fun t => if t.1 mod 16 =? k then t.2 else 0) ts).
(** The barriers of a sequence of ticks, the clock at [start]. *)
Fixpoint barriers (q start : Z) (ts : list (Z * Z)) : list bool :=
  match ts with
  | [] => []
  | (_, cycles) :: ts =>
      (u64 (start + cycles) mod q =? 0) :: barriers q (u64 (start + cycles)) ts
  end.

Lemma tick_all_spec ts : forall d,
  d.(quantum_) <> 0 -> zlen d.(clocks_) = 16 -> Forall (fun c => fits 64 c) d.(clocks_) ->
  fits 64 d.(global_clock_) -> fits 64 d.(seq_) ->
  exists d', tick_all ts d = (Ok (barriers d.(quantum_) d.(global_clock_) ts), d') /\
    d'.(global_clock_) = u64 (d.(global_clock_) + sumz (map snd ts)) /\
    d'.(seq_) = u64 (d.(seq_) + zlen ts) /\ zlen d'.(clocks_) = 16 /\
    forall k, 0 <= k < 16 ->
      default 0 (zget d'.(clocks_) k) = u64 (default 0 (zget d.(clocks_) k) + core_cycles k ts).
Proof.
  induction ts as [|[core cycles] ts IH]; intros d Hq Hlen Hf Hg0 Hs0.
  - exists d. split; [done|]. cbn. rewrite !Z.add_0_r. split_and!; rewrite ?u64_small by done; try done.
    intros k Hk. destruct (zget_lt (clocks_ d) k ltac:(lia)) as [c Hc]. rewrite Hc, Z.add_0_r. cbn.
    symmetry. apply u64_small. exact (Forall_zget _ _ _ _ Hf Hc).
  - set (k0 := core mod 16). assert (Hk0 : 0 <= k0 < 16) by (by apply Z.mod_pos_bound).
    set (d1 := mkDeterministic d.(quantum_) (u64 (d.(global_clock_) + cycles)) (u64 (d.(seq_) + 1))
                 (zset d.(clocks_) k0 (u64 (default 0 (zget d.(clocks_) k0) + cycles)))).
    assert (Ht : DeterministicEngine.tick core cycles d = (Ok (d1.(global_clock_) mod d.(quantum_) =? 0), d1)).
    { change (DeterministicEngine.tick core cycles d)
        with (if d.(quantum_) =? 0 then (Undefined (A := bool) DivideByZero, d1)
              else (Ok (d1.(global_clock_) mod d.(quantum_) =? 0), d1)).
      by rewrite (proj2 (Z.eqb_neq _ _) Hq). }
    cbn [tick_all]. rewrite (bind_ok _ _ _ _ _ Ht).
    destruct (IH d1) as (d' & E & Hg & Hs & Hl & Hc); [done|by unfold d1; cbn [clocks_]; rewrite zlen_zset| |apply u64_fits|apply u64_fits|].
    { apply Forall_zset; [done|apply u64_fits]. }
    exists d'. unfold bind. rewrite E. split; [done|].
    change (global_clock_ d1) with (u64 (global_clock_ d + cycles)) in Hg.
    change (seq_ d1) with (u64 (seq_ d + 1)) in Hs. rewrite u64_add_l in Hg, Hs.
    split; [rewrite Hg; cbn [map snd sumz fold_right]; f_equal; unfold sumz; lia|].
    split; [rewrite Hs, zlen_cons; f_equal; lia|]. split; [done|].
    intros k Hk. rewrite Hc by done.
    change (clocks_ d1) with (zset (clocks_ d) k0 (u64 (default 0 (zget (clocks_ d) k0) + cycles))).
    unfold core_cycles. cbn [map fst snd sumz fold_right].
    fold k0. fold (sumz (map (fun t : Z * Z => if t.1 mod 16 =? k then t.2 else 0) ts)).
    destruct (Z.eqb_spec k0 k) as [->|Hne].
    + rewrite zget_zset_eq by lia. cbn [default from_option]. change (id ?x) with x. rewrite u64_add_l. f_equal. lia.
    + rewrite zget_zset_ne by lia. done.
Qed.

(** The deterministic clock counts exactly. From a new engine with a
    quantum that is not zero, after any ticks the global clock is the sum of
    their cycles and the sequence number their count, each clock is the sum of
    the cycles of the cores that share it (core modulo 16), all modulo
    [2 ^ 64]; a tick reports a barrier exactly when the global clock it leaves
    is a multiple of the quantum. A quantum of zero makes every tick undefined
    behaviour, a division by zero. *)
Theorem deterministic_clock q ts :
  if q =? 0 then
    forall core cycles d, d.(quantum_) = q ->
      (DeterministicEngine.tick core cycles d).1 = Undefined DivideByZero
  else
    exists d, tick_all ts (DeterministicEngine.make q) = (Ok (barriers q 0 ts), d) /\
      d.(global_clock_) = u64 (sumz (map snd ts)) /\ d.(seq_) = u64 (zlen ts) /\
      forall k, 0 <= k < 16 -> zget d.(clocks_) k = Some (u64 (core_cycles k ts)).
Proof.
  destruct (Z.eqb_spec q 0) as [->|Hq].
  { intros core cycles [q g s c]. cbn. by intros ->. }
  assert (H0 : fits 64 0) by (split; [lia|done]).
  destruct (tick_all_spec ts (DeterministicEngine.make q)) as (d & E & Hg & Hs & Hl & Hc);
    [done|done|by repeat constructor|done|done|].
  exists d. split; [done|]. split; [done|]. split; [done|]. intros k Hk. specialize (Hc k Hk).
  destruct (zget_lt (clocks_ d) k ltac:(lia)) as [c E']. rewrite E' in *. cbn [default from_option] in Hc.
  change (id c) with c in Hc. rewrite Hc. do 2 f_equal.
  assert (exists m, (m < 16)%nat /\ k = Z.of_nat m) as (m & Hm & ->) by (exists (Z.to_nat k); lia).
  by do 16 (destruct m as [|m]; [done|]); lia.
Qed.

(** ** Reservation stations *)
Inductive pipe_op : Type := Issue (i : Instruction) (cycle : Z) | Commit (cycle : Z).
(** What an operation returned: stall cycles, or the number committed. *)
Definition pipe_do (o : pipe_op) (p : Pipeline) : Z * Pipeline :=
  match o with Issue i c => Pipeline.try_issue i c p | Commit c => Pipeline.commit c p end.
Fixpoint pipe_run (os : list pipe_op) (p : Pipeline) : list (pipe_op * Z) * Pipeline :=
  match os with
  | [] => ([], p)
  | o :: os =>
      let '(r, p) := pipe_do o p in
      let '(rs, p) := pipe_run os p in ((o, r) :: rs, p)
  end.
(** Stations taken minus stations freed, and stalls. *)
Definition net (r : pipe_op * Z) : Z := match r with (Issue _ _, s) => 1 - s | (Commit _, n) => - n end.
Definition stalled (r : pipe_op * Z) : Z := match r with (Issue _ _, s) => s | (Commit _, _) => 0 end.

Definition in_use (l : list ReservationStation) : Z := sumz (map (fun x => Z.b2z x.(occupied)) l).
#[local] Arguments in_use : simpl never.
Lemma in_use_range l : 0 <= in_use l <= zlen l.
Proof.
  induction l as [|x l IH]; [done|]. rewrite zlen_cons. unfold in_use in *. cbn [map sumz fold_right].
  fold (sumz (map (fun x => Z.b2z (occupied x)) l)). destruct (occupied x); cbn [Z.b2z]; lia.
Qed.
Lemma in_use_cons x l : in_use (x :: l) = Z.b2z x.(occupied) + in_use l.
Proof. done. Qed.

Lemma fill_station_spec i c l :
  match Pipeline.fill_station i c l with
  | Some l' => in_use l' = in_use l + 1 /\ length l' = length l
  | None => in_use l = zlen l
  end.
Proof.
  induction l as [|x l IH]; [done|]. cbn [Pipeline.fill_station]. rewrite zlen_cons.
  destruct (occupied x) eqn:E.
  - destruct (Pipeline.fill_station i c l) as [l'|]; cbn [option_map].
    + rewrite !in_use_cons. cbn [length]. lia.
    + rewrite in_use_cons, E, IH. cbn [Z.b2z]. lia.
  - rewrite !in_use_cons, E. change (occupied (Pipeline.take_station i c x)) with true. cbn [Z.b2z]. split; [lia|done].
Qed.
Lemma commit_stations_spec w c n l :
  0 <= n -> n + zlen l < 2 ^ 32 ->
  let '(m, l') := Pipeline.commit_stations w c n l in
  in_use l' = in_use l - (m - n) /\ length l' = length l /\ n <= m <= n + zlen l.
Proof.
  revert n. induction l as [|x l IH]; intros n Hn Hl; cbn [Pipeline.commit_stations].
  { unfold zlen. cbn. lia. }
  rewrite zlen_cons in *. pose proof (zlen_nonneg l).
  destruct (occupied x && _) eqn:E.
  - apply andb_true_iff in E as [Eo _]. rewrite (u32_small (n + 1)) by (split; lia).
    destruct (w <=? n + 1).
    + rewrite !in_use_cons, Eo. change (occupied (Pipeline.free_station x)) with false. cbn [Z.b2z length]. lia.
    + specialize (IH (n + 1) ltac:(lia) ltac:(lia)). destruct (Pipeline.commit_stations w c (n + 1) l) as [m l'].
      rewrite !in_use_cons, Eo. change (occupied (Pipeline.free_station x)) with false. cbn [Z.b2z length]. lia.
  - specialize (IH n ltac:(lia) ltac:(lia)). destruct (Pipeline.commit_stations w c n l) as [m l'].
    rewrite !in_use_cons. cbn [length]. lia.
Qed.

Lemma pipe_do_spec o p :
  length p.(rs_) = Pipeline.kRSSize -> p.(pipe_cfg_).(out_of_order) = true ->
  let '(r, p') := pipe_do o p in
  in_use p'.(rs_) = in_use p.(rs_) + net (o, r) /\ length p'.(rs_) = Pipeline.kRSSize /\
  p'.(pipe_cfg_) = p.(pipe_cfg_) /\ u64 p'.(stalls_) = u64 (p.(stalls_) + stalled (o, r)) /\
  match o with Issue _ _ => r = (if in_use p.(rs_) =? 8 then 1 else 0) | Commit _ => 0 <= r <= in_use p.(rs_) end.
Proof.
  destruct p as [cfg l rob h tl st mi bp]. cbn [rs_ pipe_cfg_ stalls_]. intros Hl Ho.
  pose proof (in_use_range l) as Hr. unfold zlen in Hr. rewrite Hl in Hr.
  destruct o as [i c|c]; cbn [pipe_do].
  - unfold Pipeline.try_issue. cbn [pipe_cfg_ rs_]. rewrite Ho. cbn [negb].
    pose proof (fill_station_spec i c l) as Hs.
    destruct (Pipeline.fill_station i c l) as [l'|]; cbn.
    + destruct Hs as [H1 H2]. rewrite Hl in H2. split_and!; [lia|done|done|by rewrite Z.add_0_r|].
      pose proof (in_use_range l') as Hr'. unfold zlen in Hr'. rewrite H2 in Hr'.
      change (Z.of_nat Pipeline.kRSSize) with 8 in Hr'. destruct (Z.eqb_spec (in_use l) 8); lia.
    + unfold zlen in Hs. rewrite Hl in Hs. change (Z.of_nat Pipeline.kRSSize) with 8 in Hs.
      split_and!; [lia|done|done| |by rewrite Hs]. unfold u64. by rewrite Z.mod_mod.
  - unfold Pipeline.commit. cbn [pipe_cfg_ rs_]. pose proof (commit_stations_spec cfg.(issue_width) c 0 l) as Hs.
    unfold zlen in Hs. rewrite Hl in Hs. specialize (Hs ltac:(lia) ltac:(done)).
    destruct (Pipeline.commit_stations _ c 0 l) as [m l']. cbn.
    pose proof (in_use_range l'). rewrite Z.add_0_r. split_and!; try done; lia.
Qed.

(** C32: the eight reservation stations are accounted for exactly. In
    out-of-order mode, from an empty pipeline and over any sequence of issues
    and commits, the stations in use are the issues that did not stall minus
    the instructions committed, never more than eight; the stall counter is
    the number of stalled issues modulo [2 ^ 64]; and one more issue stalls, by
    one cycle, exactly when all eight are in use. *)
Theorem pipeline_accounting cfg os i cycle :
  cfg.(out_of_order) = true ->
  let '(rs, p) := pipe_run os (Pipeline.make cfg) in
  in_use p.(rs_) = sumz (map net rs) /\ 0 <= sumz (map net rs) <= 8 /\
  u64 p.(stalls_) = u64 (sumz (map stalled rs)) /\
  (Pipeline.try_issue i cycle p).1 = if sumz (map net rs) =? 8 then 1 else 0.
Proof.
  intros Ho.
  assert (Hgen : forall os p, length p.(rs_) = Pipeline.kRSSize -> p.(pipe_cfg_) = cfg ->
    let '(rs, p') := pipe_run os p in
    in_use p'.(rs_) = in_use p.(rs_) + sumz (map net rs) /\ length p'.(rs_) = Pipeline.kRSSize /\
    p'.(pipe_cfg_) = cfg /\ u64 p'.(stalls_) = u64 (p.(stalls_) + sumz (map stalled rs))).
  { clear os. induction os as [|o os IH]; intros p Hl Hc; cbn [pipe_run].
    { cbn. rewrite !Z.add_0_r. done. }
    pose proof (pipe_do_spec o p Hl ltac:(by rewrite Hc)) as Hd. destruct (pipe_do o p) as [r p1].
    destruct Hd as (H1 & H2 & H3 & H4 & _). specialize (IH p1 H2 ltac:(by rewrite H3)).
    destruct (pipe_run os p1) as [rs p']. destruct IH as (I1 & I2 & I3 & I4). cbn [map sumz fold_right].
    fold (sumz (map net rs)). fold (sumz (map stalled rs)). split_and!; [lia|done|done|].
    rewrite I4, <- u64_add_l, H4, u64_add_l. f_equal. lia. }
  specialize (Hgen os (Pipeline.make cfg) eq_refl eq_refl).
  destruct (pipe_run os (Pipeline.make cfg)) as [rs p]. destruct Hgen as (H1 & H2 & H3 & H4).
  change (in_use (rs_ (Pipeline.make cfg))) with 0 in H1. change (stalls_ (Pipeline.make cfg)) with 0 in H4.
  rewrite !Z.add_0_l in *. pose proof (in_use_range (rs_ p)) as Hr. unfold zlen in Hr. rewrite H2 in Hr.
  change (Z.of_nat Pipeline.kRSSize) with 8 in Hr. split_and!; [done|lia|lia|done|].
  pose proof (pipe_do_spec (Issue i cycle) p H2 ltac:(by rewrite H3)) as Hd. cbn [pipe_do] in Hd.
  destruct (Pipeline.try_issue i cycle p) as [r p1]. destruct Hd as (_ & _ & _ & _ & Hr'). by rewrite H1 in Hr'.
Qed.
Lemma pipeline_accounting_witness :
  let cfg := mkPipelineConfig true false true 1 2 in
  let nop := mkInstruction 0 in
  let '(rs, p) := pipe_run [Issue nop 0; Issue nop 0; Issue nop 1; Commit 1; Issue nop 2] (Pipeline.make cfg) in
  in_use p.(rs_) = 2 /\ (Pipeline.try_issue nop 3 p).1 = 0.
Proof.
  pose proof (pipeline_accounting (mkPipelineConfig true false true 1 2)
    [Issue (mkInstruction 0) 0; Issue (mkInstruction 0) 0; Issue (mkInstruction 0) 1; Commit 1; Issue (mkInstruction 0) 2]
    (mkInstruction 0) 3 eq_refl) as H.
  cbn zeta. revert H. destruct (pipe_run _ _) as [rs p] eqn:E. intros (H1 & _ & _ & H4).
  assert (sumz (map net rs) = 2) as Hs by (apply (f_equal (fun x => sumz (map net x.1))) in E; symmetry; exact E).
  rewrite Hs in H1, H4. split; [exact H1|exact H4].
Defined.

(** ** The branch predictor *)
Definition predictor_ok (p : Pipeline) : Prop :=
  zlen p.(bpred_) = 256 /\ Forall (fun c => 0 <= c <= 3) p.(bpred_).
(** The two-bit automaton: one step towards the outcome. *)
Definition saturate (c : Z) (taken : bool) : Z := if taken then Z.min 3 (c + 1) else Z.max 0 (c - 1).

Lemma update_counter pc taken mis p q :
  predictor_ok p ->
  predictor_ok (Pipeline.update_predictor pc taken mis p) /\
  Pipeline.counter (Pipeline.update_predictor pc taken mis p) q
  = if Pipeline.slot pc =? Pipeline.slot q then saturate (Pipeline.counter p q) taken else Pipeline.counter p q.
Proof.
  unfold predictor_ok. intros [Hl Hf].
  assert (Hs : forall a, 0 <= Pipeline.slot a < 256) by (intros a; by apply Z.mod_pos_bound).
  destruct (zget_lt (bpred_ p) (Pipeline.slot pc)) as [c Hc]; [by rewrite Hl|].
  pose proof (Forall_zget _ _ _ _ Hf Hc) as Hr. cbn beta in Hr.
  assert (Hcp : Pipeline.counter p pc = c) by (unfold Pipeline.counter; by rewrite Hc).
  assert (Hsat : (if taken then if c <? 3 then u8 (c + 1) else 3 else if 0 <? c then u8 (c - 1) else 0) = saturate c taken).
  { unfold saturate. destruct taken; [destruct (Z.ltb_spec c 3)|destruct (Z.ltb_spec 0 c)];
      unfold u8; rewrite ?Z.mod_small by lia; lia. }
  assert (Hv : 0 <= saturate c taken <= 3) by (unfold saturate; destruct taken; lia).
  assert (Hb : bpred_ (Pipeline.update_predictor pc taken mis p) = zset (bpred_ p) (Pipeline.slot pc) (saturate c taken)).
  { rewrite <- Hsat, <- Hcp. by destruct p. }
  rewrite Hb. split; [split; [by rewrite zlen_zset|by apply Forall_zset]|].
  unfold Pipeline.counter. rewrite Hb. destruct (Z.eqb_spec (Pipeline.slot pc) (Pipeline.slot q)) as [E|E].
  - rewrite <- E, Hc, zget_zset_eq by (rewrite Hl; apply Hs). done.
  - rewrite zget_zset_ne by (done || apply Hs). done.
Qed.

(** After a run of [k] equal outcomes of one branch the counter has moved [k]
    steps; two of them fix the prediction, whatever it was. *)
Theorem predictor_learns pc taken p :
  predictor_ok p -> p.(pipe_cfg_).(branch_prediction) = true ->
  let twice := Pipeline.update_predictor pc taken false (Pipeline.update_predictor pc taken false p) in
  Pipeline.predict_taken pc twice = taken /\
  Pipeline.predict_taken pc (Pipeline.update_predictor pc (negb taken) true
    (Pipeline.update_predictor pc taken false twice)) = taken.
Proof.
  intros Hp Hb twice.
  destruct (update_counter pc taken false p pc Hp) as [H1 C1].
  destruct (update_counter pc taken false _ pc H1) as [H2 C2]. fold twice in H2, C2.
  destruct (update_counter pc taken false _ pc H2) as [H3 C3].
  destruct (update_counter pc (negb taken) true _ pc H3) as [_ C4].
  rewrite !Z.eqb_refl in *. unfold Pipeline.predict_taken.
  assert (Hr : 0 <= Pipeline.counter p pc <= 3).
  { destruct Hp as [Hl Hf]. unfold Pipeline.counter.
    destruct (zget_lt (bpred_ p) (Pipeline.slot pc)) as [c Hc].
    { rewrite Hl. unfold Pipeline.slot. by apply Z.mod_pos_bound. }
    rewrite Hc. exact (Forall_zget _ _ _ _ Hf Hc). }
  change (branch_prediction (pipe_cfg_ twice)) with (branch_prediction (pipe_cfg_ p)).
  change (branch_prediction (pipe_cfg_ (Pipeline.update_predictor pc (negb taken) true
    (Pipeline.update_predictor pc taken false twice)))) with (branch_prediction (pipe_cfg_ p)).
  rewrite Hb, C4, C3, C2, C1. cbn [negb]. unfold saturate.
  assert (exists m, (m <= 3)%nat /\ Pipeline.counter p pc = Z.of_nat m) as (m & Hm & ->)
    by (exists (Z.to_nat (Pipeline.counter p pc)); lia).
  do 4 (destruct m as [|m]; [by destruct taken|]). lia.
Qed.

(** ** The systolic array *)
Fixpoint enqueue_n (k : nat) : M SystolicArray unit :=
  match k with O => ret tt | S k => let! _ := SystolicArray.enqueue_tile 4 in enqueue_n k end.

(** The first [rows] tiles pay the fill, the rest overlap. *)
Theorem systolic_total cfg k :
  cfg.(macs_per_cycle) <> 0 -> fits 32 cfg.(rows) ->
  forall a, a.(sys_cfg_) = cfg -> 0 <= a.(pipeline_depth_) <= cfg.(rows) -> fits 64 a.(total_cycles_) ->
  exists a', enqueue_n k a = (Ok tt, a') /\
    let fill := Z.min (Z.of_nat k) (cfg.(rows) - a.(pipeline_depth_)) in
    a'.(total_cycles_) = u64 (a.(total_cycles_) + fill * SystolicArray.tile_cycles cfg + (Z.of_nat k - fill)).
Proof.
  intros Hm Hr. induction k as [|k IH]; intros [c t tot d] Hc Hd Ht; cbn [sys_cfg_ pipeline_depth_ total_cycles_] in *.
  { eexists. split; [reflexivity|]. cbn [total_cycles_]. rewrite Z.min_l by lia. rewrite Z.mul_0_l, !Z.add_0_r.
    by rewrite u64_small. }
  subst c. cbn [enqueue_n]. unfold bind, SystolicArray.enqueue_tile. cbn.
  rewrite (proj2 (Z.eqb_neq _ _) Hm). destruct (Z.ltb_spec d (rows cfg)).
  - destruct (IH (mkSystolic cfg (u64 (t + 1)) (u64 (tot + SystolicArray.tile_cycles cfg)) (u32 (d + 1))))
      as (a' & E & Ha); [done| |apply u64_fits|].
    { cbn [pipeline_depth_]. rewrite u32_small by (unfold fits in *; lia). lia. }
    exists a'. split; [exact E|]. cbn [total_cycles_ pipeline_depth_] in Ha. rewrite u32_small in Ha by (unfold fits in *; lia).
    rewrite Ha, <- Z.add_assoc, u64_add_l. f_equal. destruct (Z.min_spec (Z.of_nat k) (rows cfg - (d + 1))) as [[? ->]|[? ->]].
    + rewrite Z.min_l by lia. lia.
    + rewrite Z.min_r by lia. lia.
  - destruct (IH (mkSystolic cfg (u64 (t + 1)) (u64 (tot + 1)) d)) as (a' & E & Ha); [done|done|apply u64_fits|].
    exists a'. split; [exact E|]. cbn [total_cycles_ pipeline_depth_] in Ha.
    rewrite Ha, <- Z.add_assoc, u64_add_l. f_equal. rewrite !Z.min_r by lia. lia.
Qed.
