(* ===== verification/Frontend.v ===== *)
(** * Source front end: frontend.h, frontend.cpp

    The C++, SystemVerilog, Chisel and guest-assembly loaders.  The regular
    expressions of the source are terms of [re], matched by backtracking with
    the priorities of ECMAScript (the grammar [std::regex] defaults to); the
    [sscanf] formats are scanners.  [std::stoi] throws on a number outside
    [int], [sscanf] leaves it undefined: both are results of a load. *)

From Stdlib Require Import Ascii String.
From S2P Require Import Prelude Text Isa Memory Registers Interrupt Devices Bus Float Profiler Interconnect Target Host Mmu Translate Emulator EmulatorWf Execute Decoder.
#[local] Open Scope Z_scope.

Inductive SourceKind : Type := UnknownSource | Cpp | SystemVerilog | Chisel | GuestAsm.

#[export] Instance SourceKind_eq_dec : EqDecision SourceKind.
Proof. solve_decision. Defined.

#[local] Set Primitive Projections.
Record LoadResult : Type := mkLoadResult {
  program : list Z; target : TargetProfile; diag : string; source_kind : SourceKind; ok : bool }.
#[local] Unset Primitive Projections.
Definition default_result : LoadResult := mkLoadResult [] make_asic_profile "" UnknownSource false.

(** A load returns, throws [std::out_of_range], or meets the undefined case of
    [sscanf]. *)
Inductive load (A : Type) : Type := Loaded (a : A) | OutOfRange | ScanUndefined.
Arguments Loaded {A} _.
Arguments OutOfRange {A}.
Arguments ScanUndefined {A}.
Definition load_bind {A B} (m : load A) (k : A -> load B) : load B :=
  match m with Loaded a => k a | OutOfRange => OutOfRange | ScanUndefined => ScanUndefined end.

(** ** Regular expressions *)
Inductive re : Type :=
  | Cls (p : ascii -> bool)
  | Star (p : ascii -> bool)
  | Seq (a b : re)
  | Alt (a b : re)
  | Group (a : re)
  | Empty.

(** Greedy repetition of a class. *)
Fixpoint star {A} (p : ascii -> bool) (s : string) (k : string -> option A) : option A :=
  match s with
  | String c s' => if p c then match star p s' k with Some x => Some x | None => k s end else k s
  | EmptyString => k s
  end.
(** The captured groups, in order. *)
Fixpoint rmatch (r : re) (s : string) (caps : list string)
    (k : string -> list string -> option (list string)) : option (list string) :=
  match r with
  | Empty => k s caps
  | Cls p => match s with String c s' => if p c then k s' caps else None | EmptyString => None end
  | Star p => star p s (fun s' => k s' caps)
  | Seq a b => rmatch a s caps (fun s' caps' => rmatch b s' caps' k)
  | Alt a b => match rmatch a s caps k with Some x => Some x | None => rmatch b s caps k end
  | Group a =>
      rmatch a s caps (fun s' caps' =>
        k s' (caps' ++ [String.substring 0 (String.length s - String.length s') s]))
  end.
(** [std::regex_search]: the leftmost match. *)
Fixpoint regex_search (r : re) (s : string) : option (list string) :=
  match rmatch r s [] (fun _ caps => Some caps) with
  | Some caps => Some caps
  | None => match s with String _ s' => regex_search r s' | EmptyString => None end
  end.

Definition ch (n : nat) (c : ascii) : bool := (nat_of_ascii c =? n)%nat.
Definition in_range (a b : nat) (c : ascii) : bool := (a <=? nat_of_ascii c)%nat && (nat_of_ascii c <=? b)%nat.
Definition is_space (c : ascii) : bool := in_range 9 13 c || ch 32 c.
Definition is_digit : ascii -> bool := in_range 48 57.
Definition is_word (c : ascii) : bool := is_digit c || in_range 65 90 c || in_range 97 122 c || ch 95 c.
(** The dot: not a line terminator. *)
Definition is_dot (c : ascii) : bool := negb (ch 10 c || ch 13 c).
Definition plus (p : ascii -> bool) : re := Seq (Cls p) (Star p).
(** A literal, [icase] or not. *)
Fixpoint lit (icase : bool) (s : string) : re :=
  match s with
  | EmptyString => Empty
  | String a s =>
      Seq (Cls (fun c => if icase then Ascii.eqb (tolower c) (tolower a) else Ascii.eqb c a)) (lit icase s)
  end.

Module Regex.
Definition annotation : re :=
  Seq (lit true "//") (Seq (Star is_space) (Seq (lit true "novium:") (Seq (Star is_space) (Group (plus is_dot))))).
Definition parameter (name : string) : re :=
  Seq (lit true "parameter") (Seq (plus is_space) (Seq (lit true name)
    (Seq (Star is_space) (Seq (lit true "=") (Seq (Star is_space) (Group (plus is_digit))))))).
Definition sv_module : re := Seq (lit false "module") (Seq (plus is_space) (Group (plus is_word))).
Definition chisel_class : re :=
  Seq (lit false "class") (Seq (plus is_space) (Seq (Group (plus is_word))
    (Seq (plus is_space) (Seq (lit false "extends") (Seq (plus is_space) (lit false "Module")))))).
Definition chisel_parameter (a b : string) : re :=
  Seq (Group (Alt (lit false a) (lit false b)))
    (Seq (Star is_space) (Seq (lit false "=") (Seq (Star is_space) (Group (plus is_digit))))).
End Regex.

(** [find] of a literal. *)
Fixpoint contains (sub s : string) : bool :=
  String.prefix sub s || match s with String _ s' => contains sub s' | EmptyString => false end.

(** [std::getline] *)
Fixpoint lines (s : string) : list string :=
  match s with
  | EmptyString => []
  | String c s' =>
      if ch 10 c then EmptyString :: lines s'
      else match lines s' with
           | [] => [String c EmptyString]
           | l :: ls => String c l :: ls
           end
  end.

(** [std::stoi] on a string of digits. *)
Definition stoi (s : string) : load Z :=
  let n := (scan_digits s 0).1 in if n <? 2 ^ 31 then Loaded n else OutOfRange.

Module Frontend.
Definition kind_name (k : SourceKind) : string :=
  match k with
  | Cpp => "C++" | SystemVerilog => "SystemVerilog" | Chisel => "Chisel"
  | GuestAsm => "GuestAsm" | UnknownSource => "Unknown"
  end%string.

(** [std::filesystem::path::extension]: from the last dot of the file name,
    unless the name starts with its only dot. *)
Fixpoint filename (s : string) (acc : string) : string :=
  match s with
  | EmptyString => acc
  | String c s => if ch 47 c then filename s EmptyString else filename s (acc +:+ String c EmptyString)
  end.
Fixpoint last_dot (s : string) : option string :=
  match s with
  | EmptyString => None
  | String c s' =>
      match last_dot s' with
      | Some e => Some e
      | None => if ch 46 c then Some s else None
      end
  end.
Definition extension (path : string) : string :=
  let f := filename path EmptyString in
  if (f =? "..")%string then EmptyString
  else match f with
       | EmptyString => EmptyString
       | String _ f' => match last_dot f' with Some e => e | None => EmptyString end
       end.
Definition one_of (s : string) (l : list string) : bool := existsb (String.eqb s) l.
Definition kind_from_extension (path : string) : SourceKind :=
  let ext := lower (extension path) in
  if one_of ext [".cpp"; ".cc"; ".c"; ".hpp"; ".h"]%string then Cpp
  else if one_of ext [".sv"; ".v"; ".svh"]%string then SystemVerilog
  else if one_of ext [".scala"; ".sc"]%string then Chisel
  else if one_of ext [".asm"; ".s"]%string then GuestAsm
  else UnknownSource.

Definition ends_in_halt : list Z -> bool := TranslationEngine.ends_in_halt.
Definition terminated (p : list Z) : list Z := if ends_in_halt p then p else p ++ [enc.halt].
Definition count (p : list Z) : string := (" (" +:+ udec (zlen p) +:+ " instrs)")%string.

(** *** C++ *)

(** What a [// novium:] line adds. *)
Definition annotation_word (line : string) : option Z :=
  match regex_search Regex.annotation line with
  | Some (cmd :: _) =>
      let low := lower cmd in
      if contains "vec_add" low then Some (enc.vec_add 2 0 1)
      else if contains "matmul" low then Some (enc.matmul_tile 3 0 1 4)
      else if contains "dma_load" low then Some (enc.dma_load 5 7 64)
      else if contains "dma_store" low then Some (enc.dma_store 9 5 64)
      else if contains "halt" low then Some enc.halt
      else None
  | _ => None
  end.
Definition kernel_program : list Z :=
  [enc.load_vr 0 5 0; enc.load_vr 1 6 0; enc.vec_add 2 0 1; enc.matmul_tile 3 0 1 4; enc.store_vr 3 5 0; enc.halt].
Definition demo_program : list Z :=
  [enc.movi 1 0; enc.movi 2 5; enc.movi 4 1; enc.movi 3 0;
   enc.add 1 1 4; enc.add 3 3 1; enc.bne 1 2 (s16 (u16 (-12)));
   enc.movi 5 0x1000; enc.movi 6 0x1040; enc.movi 7 0; enc.movi 8 64;
   enc.dma_load 5 7 64; enc.dma_load 6 8 64;
   enc.load_vr 0 5 0; enc.load_vr 1 6 0; enc.vec_add 2 0 1; enc.matmul_tile 3 0 1 4; enc.store_vr 3 5 0;
   enc.halt].
Definition load_cpp (src name : string) : LoadResult :=
  let t : TargetProfile := { make_cpu_profile with Target.name := "cpp->cpu"%string } in
  let p := omap annotation_word (lines src) in
  let found := negb (zlen p =? 0) in
  if (contains "novium::kernel" src || contains "novium kernel" src) && negb found then
    mkLoadResult kernel_program t (name +:+ ": C++ kernel pragma → vec_add+matmul lowered")%string Cpp true
  else if found then
    let p := terminated p in
    mkLoadResult p t (name +:+ ": C++ novium: annotations lowered" +:+ count p)%string Cpp true
  else mkLoadResult demo_program t (name +:+ ": C++ (no novium: annotations) → demo program emitted")%string Cpp true.

(** *** SystemVerilog and Chisel *)
Definition sv_default : list Z :=
  [enc.movi 5 0x1000; enc.movi 7 0; enc.dma_load 5 7 64; enc.load_vr 0 5 0; enc.load_vr 1 5 0;
   enc.vec_add 2 0 1; enc.matmul_tile 3 0 1 4; enc.store_vr 3 5 0; enc.halt].
Definition chisel_default : list Z :=
  [enc.load_vr 0 5 0; enc.load_vr 1 6 0; enc.matmul_tile 3 0 1 4; enc.halt].
(** The annotations of the body, or a default program. *)
Definition lower_body (src name : string) (fallback : list Z) : list Z :=
  let p := (load_cpp src name).(program) in if 1 <? zlen p then p else fallback.

(** A numeric parameter: [k] receives its digits and value. *)
Definition with_parameter {A} (m : option string) (absent : load A) (k : string -> Z -> load A) : load A :=
  match m with
  | None => absent
  | Some s => load_bind (stoi s) (k s)
  end.
Definition group (n : nat) (m : option (list string)) : option string := m ≫= (fun caps => caps !! n).

Definition load_systemverilog (src name : string) : load LoadResult :=
  let t : TargetProfile := { make_asic_profile with Target.name := "sv->asic"%string } in
  let tile := group 0 (regex_search (Regex.parameter "TILE") src) in
  let lanes := group 0 (regex_search (Regex.parameter "LANES") src) in
  let bw := group 0 (regex_search (Regex.parameter "BW") src) in
  load_bind (with_parameter tile (Loaded EmptyString) (fun s _ => Loaded (" TILE=" +:+ s)%string)) (fun d1 =>
  load_bind (with_parameter lanes (Loaded (t, EmptyString))
    (fun s n => Loaded ({ t with vector_lanes := n } : TargetProfile, (" LANES=" +:+ s)%string))) (fun r2 =>
  load_bind (with_parameter bw (Loaded (r2.1, EmptyString))
    (fun s n => Loaded ({ r2.1 with dma_bandwidth := n } : TargetProfile, (" BW=" +:+ s)%string))) (fun r3 =>
  let t : TargetProfile :=
    match group 0 (regex_search Regex.sv_module src) with
    | Some m => { r3.1 with Target.name := ("sv:" +:+ m)%string }
    | None => r3.1
    end in
  let p := lower_body src name sv_default in
  Loaded (mkLoadResult p t
    (name +:+ ": SystemVerilog → " +:+ Target.name t +:+ d1 +:+ r2.2 +:+ r3.2 +:+ count p)%string
    SystemVerilog true)))).

Definition load_chisel (src name : string) : load LoadResult :=
  let t : TargetProfile :=
    match group 0 (regex_search Regex.chisel_class src) with
    | Some m => { make_asic_profile with Target.name := ("chisel:" +:+ m)%string }
    | None => { make_asic_profile with Target.name := "chisel->asic"%string }
    end in
  let d1 := match group 1 (regex_search (Regex.chisel_parameter "tileSize" "TILE") src) with
            | Some s => (" tile=" +:+ s)%string | None => EmptyString end in
  let lanes := group 1 (regex_search (Regex.chisel_parameter "lanes" "LANES") src) in
  load_bind (with_parameter lanes (Loaded (t, EmptyString))
    (fun s n => Loaded ({ t with vector_lanes := n } : TargetProfile, (" lanes=" +:+ s)%string))) (fun r2 =>
  let p := lower_body src name chisel_default in
  Loaded (mkLoadResult p r2.1
    (name +:+ ": Chisel → " +:+ Target.name r2.1 +:+ d1 +:+ r2.2 +:+ count p)%string Chisel true)).

(** *** Guest assembly *)

(** [sscanf] formats. *)
Inductive fmt : Type := FChar (c : ascii) | FSpace | FInt.
Fixpoint parse_fmt (s : string) : list fmt :=
  match s with
  | EmptyString => []
  | String a s' =>
      if ch 32 a then FSpace :: parse_fmt s'
      else match s' with
           | String b s'' => if ch 37 a && ch 100 b then FInt :: parse_fmt s'' else FChar a :: parse_fmt s'
           | EmptyString => [FChar a]
           end
  end.
Fixpoint skip_space (s : string) : string :=
  match s with String c s' => if is_space c then skip_space s' else s | EmptyString => s end.
(** A signed decimal number and what follows it. *)
Definition scan_int (s : string) : option (Z * string) :=
  let unsigned (s : string) : option (Z * string) :=
    match s with
    | String c _ => if is_digit c then Some (scan_digits s 0) else None
    | EmptyString => None
    end in
  match s with
  | String c s' =>
      if ch 45 c then option_map (fun p : Z * string => (- p.1, p.2)) (unsigned s')
      else if ch 43 c then unsigned s' else unsigned s
  | EmptyString => None
  end.
(** The numbers converted before the first mismatch. *)
Fixpoint sscanf (f : list fmt) (s : string) : load (list Z) :=
  match f with
  | [] => Loaded []
  | FSpace :: f => sscanf f (skip_space s)
  | FChar c :: f =>
      match s with
      | String c' s' => if Ascii.eqb c c' then sscanf f s' else Loaded []
      | EmptyString => Loaded []
      end
  | FInt :: f =>
      match scan_int (skip_space s) with
      | None => Loaded []
      | Some (z, s') =>
          if (- 2 ^ 31 <=? z) && (z <? 2 ^ 31) then
            load_bind (sscanf f s') (fun zs => Loaded (z :: zs))
          else ScanUndefined
      end
  end.

(** [line.substr(0, line.find('#'))] *)
Fixpoint strip_hash (s : string) : string :=
  match s with
  | EmptyString => s
  | String c s' => if ch 35 c then EmptyString else String c (strip_hash s')
  end.
Definition clean (line : string) : string :=
  TranslationEngine.trim_right (TranslationEngine.trim_left (strip_hash (TranslationEngine.strip_comment line))).

Definition movi_format1 : list fmt := parse_fmt "movi r%d , #%d".
Definition movi_format2 : list fmt := parse_fmt "movi r%d, #%d".
Definition vec_add_format : list fmt := parse_fmt "vec_add v%d , v%d , v%d".

(** What one line adds to the program. *)
Definition asm_line (raw : string) : load (list Z) :=
  let line := clean raw in
  let low := lower line in
  let starts (p : string) := String.prefix p low in
  if (line =? "")%string then Loaded []
  else if starts "halt"%string then Loaded [enc.halt]
  else if starts "nop"%string then Loaded [enc.nop]
  else if starts "movi"%string then
    load_bind (sscanf movi_format1 (c_str line)) (fun zs =>
      match zs with
      | [rd; imm] => Loaded [enc.movi (u8 rd) (u16 imm)]
      | _ =>
          load_bind (sscanf movi_format2 (c_str line)) (fun zs =>
            match zs with
            | [rd; imm] => Loaded [enc.movi (u8 rd) (u16 imm)]
            | _ => Loaded []
            end)
      end)
  else if starts "vec_add"%string then
    load_bind (sscanf vec_add_format (c_str line)) (fun zs =>
      match zs with
      | [d; a; b] => Loaded [enc.vec_add (u8 d) (u8 a) (u8 b)]
      | _ => Loaded []
      end)
  else if starts "matmul"%string then Loaded [enc.matmul_tile 3 0 1 4]
  else Loaded [].
Fixpoint asm_lines (ls : list string) : load (list Z) :=
  match ls with
  | [] => Loaded []
  | l :: ls =>
      load_bind (asm_line l) (fun ws =>
      load_bind (asm_lines ls) (fun p => Loaded (ws ++ p)))
  end.
Definition load_guest_asm (src name : string) : load LoadResult :=
  load_bind (asm_lines (lines src)) (fun p =>
  let p := terminated p in
  Loaded (mkLoadResult p make_asic_profile (name +:+ ": guest asm" +:+ count p)%string GuestAsm true)).

Definition load_string (src : string) (kind : SourceKind) (name : string) : load LoadResult :=
  match kind with
  | Cpp => Loaded (load_cpp src name)
  | SystemVerilog => load_systemverilog src name
  | Chisel => load_chisel src name
  | GuestAsm => load_guest_asm src name
  | UnknownSource =>
      Loaded { default_result with
        diag := (name +:+ ": unknown extension, expected .cpp/.sv/.scala/.asm")%string }
  end.
(** [read path] is the file's contents, [None] when it cannot be opened. *)
Definition load_file (read : string -> option string) (path : string) : load LoadResult :=
  match read path with
  | None => Loaded { default_result with diag := ("cannot open " +:+ path)%string }
  | Some src => load_string src (kind_from_extension path) path
  end.
End Frontend.

Import Frontend.
Example cpp_annotations :
  (load_cpp ("// Novium: VEC_ADD v2" +:+ String (ascii_of_nat 10) "  //novium:matmul") "k.cpp").(program)
  = [enc.vec_add 2 0 1; enc.matmul_tile 3 0 1 4; enc.halt].
Proof. vm_compute. reflexivity. Qed.
Example sv_parameters :
  match load_systemverilog "module npu #(parameter LANES = 32, Parameter BW=128) (); endmodule" "x.sv" with
  | Loaded r => (Target.name r.(target), r.(target).(vector_lanes), r.(target).(dma_bandwidth), zlen r.(program))
                = ("sv:npu"%string, 32, 128, 19)
  | _ => False
  end.
Proof. vm_compute. reflexivity. Qed.
Example kinds : map kind_from_extension ["a/b.CPP"; "x.sv"; "T.scala"; ".asm"; "dir.s/f"; "k.s"]%string
  = [Cpp; SystemVerilog; Chisel; UnknownSource; UnknownSource; GuestAsm].
Proof. vm_compute. reflexivity. Qed.

(** ** Every program loaded can be run *)

(** A program of 32-bit words whose last word is a HALT. *)
Definition runnable (p : list Z) : Prop := ends_in_halt p = true /\ Forall (fits 32) p.

Lemma vec_add_fits d a b : fits 32 (enc.vec_add d a b).
Proof. exact (rtype_fits VEC_ADD d a b 0). Qed.
Lemma movi_fits d imm : fits 32 (enc.movi d imm).
Proof. exact (itype_fits MOVI d 0 imm). Qed.
Lemma halt_fits : fits 32 enc.halt.
Proof. split; vm_compute; congruence. Qed.

Lemma terminated_runnable p : Forall (fits 32) p -> runnable (terminated p).
Proof.
  intros Hp. unfold terminated. destruct (ends_in_halt p) eqn:E; [done|]. split.
  - unfold ends_in_halt, TranslationEngine.ends_in_halt. by rewrite last_snoc.
  - apply Forall_app. split; [done|]. apply Forall_singleton, halt_fits.
Qed.
Lemma annotation_cases l w :
  annotation_word l = Some w ->
  w = enc.vec_add 2 0 1 \/ w = enc.matmul_tile 3 0 1 4 \/ w = enc.dma_load 5 7 64 \/
  w = enc.dma_store 9 5 64 \/ w = enc.halt.
Proof.
  unfold annotation_word. destruct (regex_search _ l) as [[|cmd caps]|]; [done| |done].
  generalize (lower cmd). generalize (enc.vec_add 2 0 1) (enc.matmul_tile 3 0 1 4) (enc.dma_load 5 7 64)
    (enc.dma_store 9 5 64) enc.halt. intros a b c d e low.
  do 5 (case_match; [intros [= <-]; tauto|]). done.
Qed.
Lemma annotation_fits l w : annotation_word l = Some w -> fits 32 w.
Proof.
  intros [->|[->|[->|[->| ->]]]]%annotation_cases; apply (bool_decide_unpack _); vm_compute; exact I.
Qed.
(** The fixed programs are closed terms. *)
#[local] Ltac fixed := split; [reflexivity|apply (bool_decide_unpack _); vm_compute; exact I].
Lemma load_cpp_runnable src name : runnable (load_cpp src name).(program).
Proof.
  unfold load_cpp. case_match; [fixed|]. case_match; [|fixed]. apply terminated_runnable.
  clear. induction (lines src) as [|l ls IH]; cbn [omap list_omap]; [constructor|].
  destruct (annotation_word l) eqn:E; [|done]. constructor; [by eapply annotation_fits|done].
Qed.
Lemma lower_body_runnable src name p : runnable p -> runnable (lower_body src name p).
Proof. intros Hp. unfold lower_body. case_match; [apply load_cpp_runnable|done]. Qed.
Lemma sv_default_runnable : runnable sv_default.
Proof. fixed. Qed.
Lemma chisel_default_runnable : runnable chisel_default.
Proof. fixed. Qed.

(** *** The loads that fail *)

(** The digits a load hands to [stoi], and the lines whose scan meets a number
    outside [int]: a MOVI line is scanned again, with the second format, when
    the first does not convert two numbers. *)
Definition stoi_arguments (kind : SourceKind) (src : string) : list (option string) :=
  match kind with
  | SystemVerilog =>
      [group 0 (regex_search (Regex.parameter "TILE") src);
       group 0 (regex_search (Regex.parameter "LANES") src);
       group 0 (regex_search (Regex.parameter "BW") src)]
  | Chisel => [group 1 (regex_search (Regex.chisel_parameter "lanes" "LANES") src)]
  | _ => []
  end.
Definition too_big (m : option string) : bool :=
  match m with Some s => 2 ^ 31 <=? (scan_digits s 0).1 | None => false end.
Definition scan_overflows (f : list fmt) (line : string) : bool :=
  match sscanf f (c_str line) with ScanUndefined => true | _ => false end.
Definition converts_two (f : list fmt) (line : string) : bool :=
  match sscanf f (c_str line) with Loaded [_; _] => true | _ => false end.
Definition line_overflows (raw : string) : bool :=
  let line := clean raw in
  (String.prefix "movi" (lower line) &&
     (scan_overflows movi_format1 line ||
      (negb (converts_two movi_format1 line) && scan_overflows movi_format2 line))) ||
  (String.prefix "vec_add" (lower line) && scan_overflows vec_add_format line).

Lemma sscanf_total f s : sscanf f s <> OutOfRange.
Proof.
  revert s. induction f as [|[c| |] f IH]; intros s; cbn [sscanf]; [done| |apply IH|].
  - destruct s; [done|]. case_match; [apply IH|done].
  - destruct (scan_int _) as [[z s']|]; [|done]. destruct (_ && _); [|done].
    specialize (IH s'). by destruct (sscanf f s').
Qed.
Lemma prefix_same_head a b s s' t :
  String.prefix (String a s) t = true -> String.prefix (String b s') t = true -> a = b.
Proof. destruct t as [|c t]; [done|]. cbn. by repeat destruct (ascii_dec _ _); subst. Qed.

(** What a line or a listing gives: words, or the undefined case, never an
    exception. *)
Definition asm_outcome (overflows : bool) (m : load (list Z)) : Prop :=
  match m with
  | Loaded p => Forall (fits 32) p /\ overflows = false
  | OutOfRange => False
  | ScanUndefined => overflows = true
  end.
Lemma movi_outcome line :
  asm_outcome (scan_overflows movi_format1 line ||
      (negb (converts_two movi_format1 line) && scan_overflows movi_format2 line))
    (load_bind (sscanf movi_format1 (c_str line)) (fun zs =>
       match zs with
       | [rd; imm] => Loaded [enc.movi (u8 rd) (u16 imm)]
       | _ => load_bind (sscanf movi_format2 (c_str line)) (fun zs =>
           match zs with [rd; imm] => Loaded [enc.movi (u8 rd) (u16 imm)] | _ => Loaded [] end)
       end)).
Proof.
  assert (Hm : forall zs, asm_outcome false
    match zs with [rd; imm] => Loaded [enc.movi (u8 rd) (u16 imm)] | _ => Loaded [] end).
  { intros [|x [|y [|z zs]]]; (split; [|done]); try done. apply Forall_singleton, movi_fits. }
  unfold scan_overflows, converts_two.
  pose proof (sscanf_total movi_format1 (c_str line)). pose proof (sscanf_total movi_format2 (c_str line)).
  destruct (sscanf movi_format1 _) as [zs| |], (sscanf movi_format2 _) as [ys| |]; try done;
    destruct zs as [|x [|y [|z zs]]]; cbn [load_bind orb andb negb]; try apply Hm; try done.
  all: split; [apply Forall_singleton, movi_fits|done].
Qed.
Lemma asm_line_outcome l : asm_outcome (line_overflows l) (asm_line l).
Proof.
  assert (H1 : forall w, fits 32 w -> asm_outcome false (Loaded [w])) by (split; [by apply Forall_singleton|done]).
  assert (H0 : asm_outcome false (Loaded [])) by by split.
  unfold asm_line, line_overflows. generalize (clean l). intros line.
  destruct (String.eqb_spec line "") as [->|_]; [exact H0|].
  set (low := lower line). clearbody low. pose proof (fun a b s s' => prefix_same_head a b s s' low) as Hd.
  destruct (String.prefix "movi" low) eqn:Em.
  { destruct (String.prefix "halt" low) eqn:Eh; [by pose proof (Hd _ _ _ _ Em Eh)|].
    destruct (String.prefix "nop" low) eqn:En; [by pose proof (Hd _ _ _ _ Em En)|].
    destruct (String.prefix "vec_add" low) eqn:Ev; [by pose proof (Hd _ _ _ _ Em Ev)|].
    cbn [andb]. rewrite orb_false_r. apply movi_outcome. }
  destruct (String.prefix "vec_add" low) eqn:Ev; cbn [andb orb].
  { destruct (String.prefix "halt" low) eqn:Eh; [by pose proof (Hd _ _ _ _ Ev Eh)|].
    destruct (String.prefix "nop" low) eqn:En; [by pose proof (Hd _ _ _ _ Ev En)|].
    unfold scan_overflows. pose proof (sscanf_total vec_add_format (c_str line)).
    destruct (sscanf vec_add_format _) as [zs| |]; [|done..]. cbn [load_bind].
    destruct zs as [|d [|a [|b [|c zs]]]]; try exact H0. apply H1, vec_add_fits. }
  destruct (String.prefix "halt" low); [apply H1, halt_fits|].
  destruct (String.prefix "nop" low); [apply H1; split; vm_compute; congruence|].
  destruct (String.prefix "matmul" low); [|exact H0].
  apply H1. apply (bool_decide_unpack _). vm_compute. exact I.
Qed.
Lemma asm_lines_outcome ls : asm_outcome (existsb line_overflows ls) (asm_lines ls).
Proof.
  induction ls as [|l ls IH]; cbn [asm_lines existsb]; [by split|].
  pose proof (asm_line_outcome l) as Hl. destruct (asm_line l) as [ws| |]; cbn [load_bind asm_outcome] in *;
    [|done|by rewrite Hl].
  destruct Hl as [Hw ->]. destruct (asm_lines ls) as [p| |]; cbn [load_bind asm_outcome orb] in *; [|done..].
  destruct IH as [Hp He]. split; [by apply Forall_app|done].
Qed.

(** A numeric parameter throws when its number is too big. *)
Lemma parameter_cases {A} m (absent : load A) k :
  with_parameter m absent k =
    match m with
    | None => absent
    | Some s => if too_big m then OutOfRange else k s (scan_digits s 0).1
    end.
Proof.
  destruct m as [s|]; [|done]. unfold with_parameter, stoi, too_big.
  destruct (Z.leb_spec (2 ^ 31) (scan_digits s 0).1), (Z.ltb_spec (scan_digits s 0).1 (2 ^ 31)); (lia || done).
Qed.
Lemma load_bind_inv {A B} (m : load A) (k : A -> load B) b :
  load_bind m k = Loaded b -> exists a, m = Loaded a /\ k a = Loaded b.
Proof. destruct m; cbn; [eauto|done|done]. Qed.
Lemma load_cpp_ok src name : ok (load_cpp src name) = true /\ source_kind (load_cpp src name) = Cpp.
Proof. unfold load_cpp. by repeat case_match. Qed.

(** C33: every load of a source text, whatever the text and its kind. It
    throws std::out_of_range exactly when stoi is handed a number of 2^31 or
    more (the TILE, LANES or BW of a SystemVerilog module, the lanes of a Chisel
    module), and meets sscanf's undefined case exactly when a MOVI or VEC_ADD
    line of a guest assembly text holds a number outside int where a format
    converts one. In every other case it returns: it reports success exactly
    for the four known kinds, and then its program consists of 32-bit words and
    ends in a HALT, so that the emulator, which stops only at a HALT, is never
    handed a program without one. *)
Theorem frontend_runnable src kind name :
  match load_string src kind name with
  | Loaded r =>
      existsb too_big (stoi_arguments kind src) = false /\
      (kind = GuestAsm -> existsb line_overflows (lines src) = false) /\
      r.(ok) = negb (bool_decide (kind = UnknownSource)) /\
      (r.(ok) = true -> runnable r.(program) /\ r.(source_kind) = kind)
  | OutOfRange => existsb too_big (stoi_arguments kind src) = true
  | ScanUndefined => kind = GuestAsm /\ existsb line_overflows (lines src) = true
  end.
Proof.
  destruct kind; cbn [load_string stoi_arguments existsb].
  - done.
  - pose proof (load_cpp_ok src name) as [-> ->]. split_and!; try done. intros _.
    split; [apply load_cpp_runnable|done].
  - pose proof (lower_body_runnable src name _ sv_default_runnable).
    unfold load_systemverilog. rewrite parameter_cases.
    destruct (group 0 (regex_search (Regex.parameter "TILE") src)) as [s1|];
      [destruct (too_big (Some s1)); [done|]|]; cbn [load_bind orb]; rewrite parameter_cases.
    all: destruct (group 0 (regex_search (Regex.parameter "LANES") src)) as [s2|];
      [destruct (too_big (Some s2)); [done|]|]; cbn [load_bind orb]; rewrite parameter_cases.
    all: destruct (group 0 (regex_search (Regex.parameter "BW") src)) as [s3|];
      [destruct (too_big (Some s3)); [done|]|]; cbn [load_bind orb too_big ok program source_kind]; split_and!; done.
  - pose proof (lower_body_runnable src name _ chisel_default_runnable).
    unfold load_chisel. rewrite parameter_cases.
    destruct (group 1 (regex_search (Regex.chisel_parameter "lanes" "LANES") src)) as [s1|];
      [destruct (too_big (Some s1)); [done|]|]; cbn [load_bind orb too_big ok program source_kind]; split_and!; done.
  - unfold load_guest_asm. pose proof (asm_lines_outcome (lines src)) as Ha.
    destruct (asm_lines (lines src)) as [p| |]; cbn [load_bind asm_outcome ok program source_kind] in *; [|done..].
    destruct Ha as [Hp ->]. split_and!; try done. intros _. split; [by apply terminated_runnable|done].
Qed.

Lemma frontend_runnable_witness :
  exists r, load_string "vec_add v2, v0, v1" GuestAsm "k.s" = Loaded r /\ runnable r.(program).
Proof.
  pose proof (frontend_runnable "vec_add v2, v0, v1" GuestAsm "k.s") as H.
  destruct (load_string "vec_add v2, v0, v1" GuestAsm "k.s") as [r| |] eqn:E; [|discriminate E|discriminate E].
  destruct H as (_ & _ & Ho & H). exists r. split; [done|]. by apply (H Ho).
Defined.

(** The loads of the three outcomes. *)
Example frontend_outcomes :
  load_string "module m #(parameter LANES = 4294967296)" SystemVerilog "m.sv" = OutOfRange /\
  load_string "vec_add v2, v0, v9999999999" GuestAsm "k.s" = ScanUndefined /\
  match load_string "vec_add v2, v0, v1" GuestAsm "k.s" with
  | Loaded r => r.(program) = [enc.vec_add 2 0 1; enc.halt]
  | _ => False
  end.
Proof. vm_compute. done. Qed.

(** ** Assembling a listing *)

(** Every character of a string satisfies [P]. *)
Fixpoint chars (P : ascii -> Prop) (s : string) : Prop :=
  match s with EmptyString => True | String c s => P c /\ chars P s end.

Section Chars.
Context (P : ascii -> Prop).
Lemma chars_app a b : chars P (a +:+ b) <-> chars P a /\ chars P b.
Proof.
  induction a as [|c a IH]; [cbn; tauto|]. rewrite string_app_cons. cbn [chars]. rewrite IH. tauto.
Qed.
Lemma chars_impl (Q : ascii -> Prop) s : (forall c, P c -> Q c) -> chars P s -> chars Q s.
Proof. intros H. induction s; cbn; naive_solver. Qed.
Lemma chars_trim_left s : chars P s -> chars P (TranslationEngine.trim_left s).
Proof. induction s as [|c s IH]; cbn; [done|]. intros [Hc Hs]. destruct (TranslationEngine.blank c); cbn; auto. Qed.
Lemma chars_trim_right s : chars P s -> chars P (TranslationEngine.trim_right s).
Proof.
  induction s as [|c s IH]; cbn; [done|]. intros [Hc Hs]. specialize (IH Hs).
  destruct (TranslationEngine.trim_right s); [|by split].
  destruct (TranslationEngine.blank c); by cbn.
Qed.
Lemma chars_strip s : chars P s -> chars P (TranslationEngine.strip_comment s).
Proof.
  induction s as [|c s IH]; [done|]. intros [Hc Hs]. cbn [TranslationEngine.strip_comment].
  destruct (String.prefix "//" _); [done|]. split; auto.
Qed.
Lemma chars_hash s : chars P s -> chars P (strip_hash s).
Proof. induction s as [|c s IH]; cbn; [done|]. intros [Hc Hs]. destruct (ch 35 c); cbn; auto. Qed.
Lemma chars_c_str s : chars P s -> chars P (c_str s).
Proof. induction s as [|c s IH]; cbn; [done|]. intros [Hc Hs]. destruct (Ascii.eqb c "000"); cbn; auto. Qed.
Lemma chars_skip s : chars P s -> chars P (skip_space s).
Proof. induction s as [|c s IH]; cbn; [done|]. intros [Hc Hs]. destruct (is_space c); cbn; auto. Qed.
Lemma chars_digits s : forall acc, chars P s -> chars P (scan_digits s acc).2.
Proof.
  induction s as [|c s IH]; intros acc; cbn; [done|]. intros [Hc Hs].
  destruct (digit_val c); [by apply IH|]. by split.
Qed.
Lemma chars_scan_int s z s' : chars P s -> scan_int s = Some (z, s') -> chars P s'.
Proof.
  assert (Hu : forall s z s', chars P s ->
    match s with String c _ => if is_digit c then Some (scan_digits s 0) else None | EmptyString => None end
      = Some (z, s') -> chars P s').
  { intros [|c t] z0 s0 Hs; [done|]. destruct (is_digit c); [|done]. intros E. apply (inj Some) in E.
    pose proof (chars_digits (String c t) 0 Hs) as H. revert H.
    change (scan_digits (String c t) 0 = (z0, s0)) in E. by rewrite E. }
  unfold scan_int. destruct s as [|c s]; [done|]. intros Hs. pose proof Hs as [_ Hs'].
  destruct (ch 45 c).
  - destruct (match s with String c _ => _ | EmptyString => _ end) as [[z0 s0]|] eqn:E; [|done].
    cbn. intros [= <- <-]. by eapply Hu.
  - destruct (ch 43 c); [by apply Hu|]. exact (Hu (String c s) z s' Hs).
Qed.
End Chars.

Definition not_hash (c : ascii) : Prop := ch 35 c = false.
Lemma strip_hash_none s : chars not_hash (strip_hash s).
Proof. induction s as [|c s IH]; cbn; [done|]. destruct (ch 35 c) eqn:E; cbn; auto. Qed.

(** A number after a '#' is never found in a line that has none. *)
Fixpoint needs_hash (f : list fmt) : bool :=
  match f with
  | [] => false
  | FChar c :: f => ch 35 c || needs_hash f
  | FSpace :: f => needs_hash f
  | FInt :: _ => false
  end.
Lemma sscanf_hash f s zs :
  chars not_hash s -> needs_hash f = true -> sscanf f s = Loaded zs -> zs = [].
Proof.
  revert s. induction f as [|[c| |] f IH]; intros s Hs Hf; cbn [needs_hash sscanf] in *; [done| | |done].
  - destruct s as [|c' s]; [by intros [= <-]|]. destruct Hs as [Hc Hs].
    destruct (Ascii.eqb_spec c c') as [<-|]; [|by intros [= <-]].
    rewrite Hc in Hf. by apply IH.
  - apply IH; [by apply chars_skip|done].
Qed.
(** Both MOVI formats stop before their second number. *)
Lemma sscanf_movi f s zs :
  (forall s, chars not_hash s -> forall zs, sscanf f s = Loaded zs -> zs = []) ->
  chars not_hash s -> sscanf (FInt :: f) s = Loaded zs -> (length zs <= 1)%nat.
Proof.
  intros Hf Hs. cbn [sscanf]. destruct (scan_int (skip_space s)) as [[z s']|] eqn:E; [|by intros [= <-]; cbn; lia].
  destruct (_ && _); [|done]. intros (zs' & H & [= <-])%load_bind_inv.
  rewrite (Hf s' (chars_scan_int _ _ _ _ (chars_skip _ _ Hs) E) zs' H). done.
Qed.
Fixpoint before_int (f : list fmt) : option (list fmt) :=
  match f with [] => None | FInt :: f => Some f | _ :: f => before_int f end.
Lemma sscanf_one f g s zs :
  before_int f = Some g -> needs_hash g = true -> chars not_hash s ->
  sscanf f s = Loaded zs -> (length zs <= 1)%nat.
Proof.
  intros Hb Hg. revert s. induction f as [|[c| |] f IH]; intros s Hs; cbn [before_int] in Hb; [done| | |].
  - cbn [sscanf]. destruct s as [|c' s]; [by intros [= <-]; cbn; lia|]. destruct Hs as [_ Hs].
    destruct (Ascii.eqb c c'); [by apply IH|by intros [= <-]; cbn; lia].
  - cbn [sscanf]. apply IH; [done|by apply chars_skip].
  - injection Hb as ->. apply sscanf_movi; [|done]. intros s' Hs' zs'. by apply sscanf_hash.
Qed.
Lemma clean_no_hash raw : chars not_hash (c_str (clean raw)).
Proof. apply chars_c_str, chars_trim_right, chars_trim_left, strip_hash_none. Qed.

Lemma prefix_head a p s : String.prefix (String a p) s = true -> exists s', s = String a s'.
Proof. destruct s as [|c s]; cbn; [done|]. destruct (ascii_dec a c) as [<-|]; [eauto|done]. Qed.
Lemma prefix_other a b p s s' :
  String.prefix (String a p) s = true -> bool_decide (a = b) = false -> String.prefix (String b s') s = false.
Proof.
  intros (t & ->)%prefix_head Hab%bool_decide_eq_false. cbn. by destruct (ascii_dec b a) as [->|].
Qed.

(** A line that starts with "movi" adds nothing. *)
Lemma movi_line raw p :
  asm_line raw = Loaded p -> String.prefix "movi" (lower (clean raw)) = true -> p = [].
Proof.
  pose proof (clean_no_hash raw) as Hc. unfold asm_line. generalize dependent (clean raw). intros line Hc Hp Hm.
  revert Hp. rewrite (prefix_other _ "h" _ _ "alt" Hm), (prefix_other _ "n" _ _ "op" Hm), Hm by reflexivity.
  destruct (line =? "")%string; [by intros [= <-]|]. cbv beta iota zeta.
  intros (zs & Hz & Hp)%load_bind_inv.
  apply (sscanf_one movi_format1 _ _ _ eq_refl eq_refl Hc) in Hz.
  assert (Hp' : load_bind (sscanf movi_format2 (c_str line)) (fun zs =>
     match zs with [rd; imm] => Loaded [enc.movi (u8 rd) (u16 imm)] | _ => Loaded [] end) = Loaded p).
  { destruct zs as [|a [|b zs]]; [done|done|cbn in Hz; lia]. }
  apply load_bind_inv in Hp' as (zs' & Hz' & Hp').
  apply (sscanf_one movi_format2 _ _ _ eq_refl eq_refl Hc) in Hz'.
  destruct zs' as [|a [|b zs']]; cbn in Hp'; [by injection Hp' as <-|by injection Hp' as <-|cbn in Hz'; lia].
Qed.

(** *** Numbers in a listing *)
Definition digit_char (c : ascii) : Prop := is_digit c = true.

Lemma digit_is_digit d : 0 <= d < 10 -> digit_char (digit d).
Proof.
  intros Hd. assert (exists k, (k < 10)%nat /\ d = Z.of_nat k) as (k & Hk & ->) by (exists (Z.to_nat d); lia).
  by do 10 (destruct k as [|k]; [done|]); lia.
Qed.
Lemma digits_go_chars fuel n acc :
  chars digit_char acc -> chars digit_char (digits_go fuel 10 n acc).
Proof.
  revert n acc. induction fuel as [|fuel IH]; intros n acc Ha; cbn [digits_go]; [done|].
  assert (chars digit_char (String (digit (n mod 10)) acc)).
  { split; [|done]. apply digit_is_digit. by apply Z.mod_pos_bound. }
  destruct (n / 10 =? 0); [done|by apply IH].
Qed.
Lemma digits_go_cons fuel n c acc :
  (0 < fuel)%nat \/ digit_char c -> chars digit_char (String c acc) ->
  exists c' s, digits_go fuel 10 n (String c acc) = String c' s.
Proof.
  revert n c acc. induction fuel as [|fuel IH]; intros n c acc Hf Ha; cbn [digits_go]; [by eauto|].
  destruct (n / 10 =? 0); [by eauto|]. apply IH; [right|split; [|done]]; apply digit_is_digit; by apply Z.mod_pos_bound.
Qed.
Lemma udec_chars n : chars digit_char (udec n).
Proof. by apply digits_go_chars. Qed.
Lemma udec_cons n : exists c s, udec n = String c s.
Proof.
  unfold udec, digits. cbn [digits_go]. destruct (n / 10 =? 0); [by eauto|].
  assert (digit_char (digit (n mod 10))) by (apply digit_is_digit; by apply Z.mod_pos_bound).
  apply digits_go_cons; [by right|by split].
Qed.

(** What stops the scan of a number. *)
Definition stops (s : string) : Prop := match s with EmptyString => True | String c _ => is_digit c = false end.
Lemma digit_val_none c : is_digit c = false -> digit_val c = None.
Proof.
  unfold is_digit, in_range, digit_val, byte_of. intros H.
  destruct (Z.leb_spec 48 (Z.of_nat (nat_of_ascii c))); [|done].
  destruct (Z.leb_spec (Z.of_nat (nat_of_ascii c)) 57); [|done]. cbn.
  destruct (Nat.leb_spec 48 (nat_of_ascii c)); [|lia]. destruct (Nat.leb_spec (nat_of_ascii c) 57); [done|lia].
Qed.
Lemma scan_stop s n : stops s -> scan_digits s n = (n, s).
Proof. destruct s as [|c s]; cbn; [done|]. intros H. by rewrite digit_val_none. Qed.

Lemma digit_not c : digit_char c -> is_space c = false /\ ch 45 c = false /\ ch 43 c = false.
Proof.
  unfold digit_char, is_digit, is_space, in_range, ch. intros [H1%Nat.leb_le H2%Nat.leb_le]%andb_true_iff.
  rewrite !(proj2 (Nat.eqb_neq _ _)) by lia. split_and!; try done.
  rewrite orb_false_r. apply andb_false_iff. right. apply Nat.leb_gt. lia.
Qed.
Lemma sscanf_udec f n rest :
  0 <= n < 2 ^ 31 -> stops rest ->
  sscanf (FInt :: f) (udec n +:+ rest) = load_bind (sscanf f rest) (fun zs => Loaded (n :: zs)).
Proof.
  intros Hn Hr. pose proof (scan_udec n rest ltac:(lia)) as Hs. rewrite (scan_stop rest) in Hs by done.
  pose proof (udec_chars n) as Hd. destruct (udec_cons n) as (c & s & E).
  rewrite E in Hd, Hs |- *. destruct Hd as [Hc _]. destruct (digit_not c Hc) as (H1 & H2 & H3).
  cbn [sscanf]. change ((String c s) +:+ rest) with (String c (s +:+ rest)) in *.
  cbn [skip_space]. rewrite H1. unfold scan_int. rewrite H2, H3, Hc, Hs.
  destruct (Z.leb_spec (- 2 ^ 31) n); [|lia]. destruct (Z.ltb_spec n (2 ^ 31)); [done|lia].
Qed.

(** *** Lines that cleaning leaves alone *)
Definition plain (c : ascii) : Prop := ch 47 c = false /\ ch 35 c = false /\ ch 10 c = false /\ ch 0 c = false.
Lemma digit_plain c : digit_char c -> plain c /\ TranslationEngine.blank c = false.
Proof.
  unfold digit_char, is_digit, plain, in_range, ch, TranslationEngine.blank.
  intros [H1%Nat.leb_le H2%Nat.leb_le]%andb_true_iff. rewrite !(proj2 (Nat.eqb_neq _ _)) by lia. done.
Qed.
Lemma strip_comment_none s : chars (fun c => ch 47 c = false) s -> TranslationEngine.strip_comment s = s.
Proof.
  induction s as [|c s IH]; [done|]. intros [Hc Hs]. cbn [TranslationEngine.strip_comment].
  destruct (String.prefix "//" (String c s)) eqn:E.
  - apply prefix_head in E as (s' & [= -> _]). done.
  - by rewrite IH.
Qed.
Lemma strip_comment_plain s : chars plain s -> TranslationEngine.strip_comment s = s.
Proof. intros Hs. apply strip_comment_none. eapply chars_impl; [|exact Hs]. by intros c [H _]. Qed.
Lemma strip_hash_app a rest : chars plain a -> strip_hash (a +:+ String "#"%char rest) = a.
Proof.
  induction a as [|c a IH]; [done|]. intros [(_ & Hc & _) Ha]. rewrite string_app_cons. cbn [strip_hash].
  by rewrite Hc, IH.
Qed.
Lemma strip_hash_plain s : chars plain s -> strip_hash s = s.
Proof. induction s as [|c s IH]; [done|]. intros [(_ & Hc & _) Hs]. cbn. by rewrite Hc, IH. Qed.
Lemma c_str_plain s : chars plain s -> c_str s = s.
Proof.
  induction s as [|c s IH]; [done|]. intros [(_ & _ & _ & Hc) Hs]. cbn.
  destruct (Ascii.eqb_spec c "000") as [->|]; [done|]. by rewrite IH.
Qed.
Lemma trim_right_solid s : chars (fun c => TranslationEngine.blank c = false) s -> TranslationEngine.trim_right s = s.
Proof.
  induction s as [|c s IH]; [done|]. intros [Hc Hs]. cbn. rewrite IH by done. rewrite Hc. by destruct s.
Qed.
Lemma trim_right_app a b c s :
  TranslationEngine.trim_right b = String c s ->
  TranslationEngine.trim_right (a +:+ b) = a +:+ String c s.
Proof.
  intros H. induction a as [|x a IH]; [done|]. rewrite string_app_cons. cbn [TranslationEngine.trim_right].
  rewrite IH. by destruct a.
Qed.
Lemma lines_cons l rest :
  chars (fun c => ch 10 c = false) l -> lines (l +:+ String (ascii_of_nat 10) rest) = l :: lines rest.
Proof.
  induction l as [|c l IH]; intros H; [done|]. destruct H as [Hc Hl].
  rewrite string_app_cons. cbn [lines]. by rewrite Hc, IH.
Qed.

(** A line ending in a number, not starting with a blank. *)
Lemma clean_number a n c s :
  a = String c s -> TranslationEngine.blank c = false -> chars plain a ->
  clean (a +:+ udec n) = a +:+ udec n.
Proof.
  intros -> Hb Ha. assert (Hp : chars plain (String c s +:+ udec n)).
  { apply chars_app. split; [done|]. eapply chars_impl; [|apply udec_chars]. intros x Hx. apply (digit_plain x Hx). }
  unfold clean. rewrite strip_comment_plain, strip_hash_plain by done.
  change (String c s +:+ udec n) with (String c (s +:+ udec n)). cbn [TranslationEngine.trim_left]. rewrite Hb.
  change (String c (s +:+ udec n)) with (String c s +:+ udec n).
  destruct (udec_cons n) as (d & t & E). rewrite E. apply trim_right_app. rewrite <- E. apply trim_right_solid.
  eapply chars_impl; [|apply udec_chars]. intros x Hx. apply (digit_plain x Hx).
Qed.

(** *** The listing *)
Inductive asm_item : Type :=
  | AsmHalt | AsmNop | AsmMovi (d imm : Z) | AsmVecAdd (d a b : Z) | AsmMatmul.
Definition newline : ascii := ascii_of_nat 10.
Definition print_item (i : asm_item) : string :=
  match i with
  | AsmHalt => "halt"
  | AsmNop => "nop"
  | AsmMovi d imm => "movi r" +:+ udec d +:+ ", #" +:+ udec imm
  | AsmVecAdd d a b => "vec_add v" +:+ udec d +:+ ", v" +:+ udec a +:+ ", v" +:+ udec b
  | AsmMatmul => "matmul_tile"
  end%string.
Fixpoint listing (items : list asm_item) : string :=
  match items with [] => EmptyString | i :: items => (print_item i +:+ String newline (listing items))%string end.
(** What each line becomes: a MOVI disappears. *)
Definition item_words (i : asm_item) : list Z :=
  match i with
  | AsmHalt => [enc.halt]
  | AsmNop => [enc.nop]
  | AsmMovi _ _ => []
  | AsmVecAdd d a b => [enc.vec_add d a b]
  | AsmMatmul => [enc.matmul_tile 3 0 1 4]
  end.
Definition item_ok (i : asm_item) : Prop :=
  match i with
  | AsmMovi d imm => 0 <= d < 2 ^ 31 /\ 0 <= imm < 2 ^ 16
  | AsmVecAdd d a b => 0 <= d < 32 /\ 0 <= a < 32 /\ 0 <= b < 32
  | _ => True
  end.

Lemma plain_number n : chars plain (udec n).
Proof. eapply chars_impl; [|apply udec_chars]. intros x Hx. apply (digit_plain x Hx). Qed.
Lemma sscanf_vec_add d a b :
  0 <= d < 2 ^ 31 -> 0 <= a < 2 ^ 31 -> 0 <= b < 2 ^ 31 ->
  sscanf vec_add_format ("vec_add v" +:+ udec d +:+ ", v" +:+ udec a +:+ ", v" +:+ udec b) = Loaded [d; a; b].
Proof.
  intros Hd Ha Hb.
  set (next := [FSpace; FChar ","; FSpace; FChar "v"]%char).
  assert (H1 : forall x, sscanf vec_add_format ("vec_add v" +:+ x)
                 = sscanf (FInt :: next ++ FInt :: next ++ [FInt]) x) by reflexivity.
  assert (H2 : forall f x, sscanf (next ++ f) (", v" +:+ x) = sscanf f x) by reflexivity.
  rewrite H1, sscanf_udec, H2, sscanf_udec, H2 by done.
  rewrite <- (string_app_nil (udec b)), sscanf_udec by done. done.
Qed.
Definition vec_add_words (zs : list Z) : load (list Z) :=
  match zs with [d; a; b] => Loaded [enc.vec_add (u8 d) (u8 a) (u8 b)] | _ => Loaded [] end.
Lemma asm_line_vec raw x :
  clean raw = ("vec_add v" +:+ x)%string ->
  asm_line raw = load_bind (sscanf vec_add_format (c_str ("vec_add v" +:+ x))) vec_add_words.
Proof. intros H. unfold asm_line. rewrite H. reflexivity. Qed.
Lemma asm_line_vec_add d a b :
  0 <= d < 32 -> 0 <= a < 32 -> 0 <= b < 32 ->
  asm_line (print_item (AsmVecAdd d a b)) = Loaded [enc.vec_add d a b].
Proof.
  intros Hd Ha Hb. cbn [print_item]. set (line := ("vec_add v" +:+ _)%string).
  set (pre := ("vec_add v" +:+ udec d +:+ ", v" +:+ udec a +:+ ", v")%string).
  assert (El : line = (pre +:+ udec b)%string).
  { unfold line, pre. by rewrite <- !string_app_assoc. }
  assert (Hpre : chars plain pre).
  { unfold pre. repeat (apply chars_app; split); auto using plain_number; by vm_compute. }
  assert (Hclean : clean line = line).
  { rewrite El. eapply (clean_number pre); [reflexivity|done|done]. }
  assert (Hplain : chars plain line) by (rewrite El; apply chars_app; split; [done|apply plain_number]).
  set (x := (udec d +:+ ", v" +:+ udec a +:+ ", v" +:+ udec b)%string) in *.
  rewrite (asm_line_vec line x Hclean). change ("vec_add v" +:+ x)%string with line.
  rewrite c_str_plain by done. unfold line, x. rewrite sscanf_vec_add by lia.
  cbn [load_bind vec_add_words]. unfold u8. by rewrite !Z.mod_small by lia.
Qed.

Definition movi_words (zs : list Z) (other : load (list Z)) : load (list Z) :=
  match zs with [rd; imm] => Loaded [enc.movi (u8 rd) (u16 imm)] | _ => other end.
Lemma asm_line_movi raw x :
  clean raw = ("movi r" +:+ x)%string ->
  asm_line raw = load_bind (sscanf movi_format1 (c_str ("movi r" +:+ x))) (fun zs => movi_words zs
    (load_bind (sscanf movi_format2 (c_str ("movi r" +:+ x))) (fun zs => movi_words zs (Loaded [])))).
Proof. intros H. unfold asm_line. rewrite H. reflexivity. Qed.
Lemma asm_line_movi_lost d imm :
  0 <= d < 2 ^ 31 -> asm_line (print_item (AsmMovi d imm)) = Loaded [].
Proof.
  intros Hd. set (x := (udec d +:+ ",")%string).
  assert (Hp1 : chars plain ("movi r" +:+ udec d)) by (apply chars_app; split; [by vm_compute|apply plain_number]).
  assert (Hpre : chars plain (("movi r" +:+ udec d) +:+ ", ")) by (apply chars_app; split; [done|by vm_compute]).
  assert (Hclean : clean (print_item (AsmMovi d imm)) = ("movi r" +:+ x)%string).
  { assert (E : print_item (AsmMovi d imm) = ((("movi r" +:+ udec d) +:+ ", ") +:+ String "#" (udec imm))%string).
    { cbn [print_item]. by rewrite <- !string_app_assoc. }
    rewrite E. unfold clean. rewrite strip_comment_none, strip_hash_app; [|done|].
    - change (TranslationEngine.trim_left (("movi r" +:+ udec d) +:+ ", ")) with (("movi r" +:+ udec d) +:+ ", ")%string.
      rewrite (trim_right_app _ ", " "," "") by reflexivity. unfold x. by rewrite <- string_app_assoc.
    - apply chars_app. split; [|split; [done|]]; (eapply chars_impl; [|first [exact Hpre|apply plain_number]]); by intros c [H _]. }
  rewrite (asm_line_movi _ x Hclean).
  rewrite c_str_plain by (unfold x; rewrite string_app_assoc; apply chars_app; split; [done|by vm_compute]).
  assert (H1 : sscanf movi_format1 ("movi r" +:+ x) = Loaded [d]).
  { change (sscanf (FInt :: [FSpace; FChar ","; FSpace; FChar "#"; FInt]%char) x = Loaded [d]).
    unfold x. by rewrite sscanf_udec by done. }
  assert (H2 : sscanf movi_format2 ("movi r" +:+ x) = Loaded [d]).
  { change (sscanf (FInt :: [FChar ","; FSpace; FChar "#"; FInt]%char) x = Loaded [d]).
    unfold x. by rewrite sscanf_udec by done. }
  rewrite H1. cbn [load_bind movi_words]. by rewrite H2.
Qed.

(** C34: what the guest assembler accepts. A listing of HALT, NOP, MOVI,
    VEC_ADD and MATMUL_TILE lines assembles to its instructions, the register
    numbers as printed, with a HALT added when the last line is not one;
    except that every MOVI line disappears: the '#' that introduces its
    immediate has already been cut off as a comment, so neither [sscanf]
    format can match. *)
Theorem guest_asm_listing items name :
  Forall item_ok items ->
  exists r, load_guest_asm (listing items) name = Loaded r /\
    r.(program) = terminated (concat (map item_words items)) /\ r.(ok) = true.
Proof.
  intros Hok. assert (Hl : asm_lines (lines (listing items)) = Loaded (concat (map item_words items))).
  { induction Hok as [|i items Hi _ IH]; [done|]. cbn [listing].
    assert (Hn : chars (fun c => ch 10 c = false) (print_item i)).
    { assert (Hd : forall n, chars (fun c => ch 10 c = false) (udec n)).
      { intros n. eapply chars_impl; [|apply plain_number]. by intros c (_ & _ & H & _). }
      destruct i; cbn [print_item]; [done|done| | |done]; repeat (apply chars_app; split); auto; done. }
    change newline with (ascii_of_nat 10). rewrite lines_cons by done. cbn [asm_lines map concat].
    assert (Hli : asm_line (print_item i) = Loaded (item_words i)).
    { destruct i as [| |d imm|d a b|]; [by vm_compute|by vm_compute| | |by vm_compute].
      - apply asm_line_movi_lost, Hi.
      - apply asm_line_vec_add; apply Hi. }
    rewrite Hli, IH. done. }
  unfold load_guest_asm. rewrite Hl. eexists. split; [reflexivity|]. done.
Qed.
Lemma guest_asm_listing_witness :
  exists r, load_guest_asm (listing [AsmMovi 1 5; AsmVecAdd 2 0 1]) "k.s" = Loaded r /\
    r.(program) = [enc.vec_add 2 0 1; enc.halt].
Proof.
  destruct (guest_asm_listing [AsmMovi 1 5; AsmVecAdd 2 0 1] "k.s") as (r & E & Hp & _).
  - repeat constructor; lia.
  - exists r. split; [exact E|]. rewrite Hp. reflexivity.
Defined.
