(* ===== verification/Tlm.v ===== *)
(** * Transaction-level sockets: tlm.h, tlm.cpp

    A payload's data pointer is [None] (null) or the caller's array.  A
    transport function is a computation on the machine the target is bound to,
    generic in the state [S] as the bus is.  [bind] copies the target's
    transport function of that moment. *)

From S2P Require Import Prelude Text Isa Memory Bus.
#[local] Open Scope Z_scope.

Inductive TLMCommand : Type := TlmRead | TlmWrite | TlmIgnore.
Inductive TLMResponse : Type := TlmOK | AddressError | GenericError.

#[local] Set Primitive Projections.
Record TLMPayload : Type := mkPayload {
  command : TLMCommand; address : Z; data : option (list Z); length : Z;
  streaming_width : Z; response : TLMResponse; tlm_delay_cycles : Z }.
#[local] Unset Primitive Projections.

(** [set_transport] and [bind] store functions. *)
Definition Transport (S : Type) : Type := TLMPayload -> M S TLMPayload.
Record TLMSocket (S : Type) : Type := mkSocket {
  socket_name : string; socket_target : option string; transport : option (Transport S) }.
Arguments mkSocket {S} _ _ _.
Arguments socket_name {S} _.
Arguments socket_target {S} _.
Arguments transport {S} _.
Record TLMAdapter (S : Type) : Type := mkAdapter { initiator : TLMSocket S; target : TLMSocket S }.
Arguments mkAdapter {S} _ _.
Arguments initiator {S} _.
Arguments target {S} _.

Module TLMSocket.
Section Socket.
Context {S : Type}.
Definition make (name : string) : TLMSocket S := mkSocket name None None.
(** The target is known by its name. *)
Definition bind (t s : TLMSocket S) : TLMSocket S :=
  mkSocket (socket_name s) (Some (socket_name t)) (transport t).
Definition set_transport (f : Transport S) (s : TLMSocket S) : TLMSocket S :=
  mkSocket (socket_name s) (socket_target s) (Some f).
Definition is_bound (s : TLMSocket S) : bool :=
  match socket_target s with Some _ => true | None => false end.
(** The payload and the delay counter afterwards. *)
Definition b_transport (s : TLMSocket S) (p : TLMPayload) (delay_cycles : Z) : M S (TLMPayload * Z) :=
  match transport s with
  | Some f =>
      let! p := f p in
      ret (p, u32 (delay_cycles + p.(tlm_delay_cycles)))
  | None => ret ({ p with response := AddressError } : TLMPayload, delay_cycles)
  end.
End Socket.
End TLMSocket.

(** Memcpy between the payload's array and the machine: a null pointer or an
    array that is too short is undefined behaviour. *)
Definition payload_get {S} (p : TLMPayload) (n : nat) : M S (list Z) :=
  match p.(data) with
  | None => undef NullDeref
  | Some l => if (n <=? List.length l)%nat then ret (take n l) else undef (BufferOverrun 0 (Z.of_nat n))
  end.
Definition payload_put {S} (p : TLMPayload) (bytes : list Z) : M S TLMPayload :=
  match p.(data) with
  | None => undef NullDeref
  | Some l =>
      if (List.length bytes <=? List.length l)%nat
      then ret ({ p with data := Some (bytes ++ drop (List.length bytes) l) } : TLMPayload)
      else undef (BufferOverrun 0 (zlen bytes))
  end.
Definition is_read (p : TLMPayload) : bool := match p.(command) with TlmRead => true | _ => false end.
Definition is_write (p : TLMPayload) : bool := match p.(command) with TlmWrite => true | _ => false end.
Definition done_with (delay : Z) (p : TLMPayload) : TLMPayload :=
  { p with response := TlmOK; tlm_delay_cycles := delay }.

Module TLMAdapter.
Section Adapter.
Context {S : Type}.
Definition make : TLMAdapter S :=
  mkAdapter (TLMSocket.make "novium.initiator") (TLMSocket.make "novium.target").
Definition report (a : TLMAdapter S) : string :=
  ("TLM bound=" +:+ (if TLMSocket.is_bound (initiator a) then "yes" else "no"))%string.

(** Set the target's transport, then bind the initiator. *)
Definition bind_with (f : Transport S) (a : TLMAdapter S) : TLMAdapter S :=
  let t := TLMSocket.set_transport f (target a) in
  mkAdapter (TLMSocket.bind t (initiator a)) t.

Section BusTarget.
Context (ram : S -> VirtualSRAM) (set_ram : VirtualSRAM -> S -> S) (devices : list (Device S)).
Definition bus_transport : Transport S := fun p =>
  let! p := (if is_read p then payload_put p [0] else ret p) in
  if is_write p && (p.(length) =? 4) then
    let! bytes := payload_get p 4 in
    do! Bus.write32 ram set_ram devices (u32 p.(address)) (le_val bytes) in
    ret (done_with 2 p)
  else if is_read p && (p.(length) =? 4) then
    let! v := Bus.read32 ram devices (u32 p.(address)) in
    let! p := payload_put p (le_bytes 4 v) in
    ret (done_with 2 p)
  else ret (done_with 2 p).
Definition bind_bus : TLMAdapter S -> TLMAdapter S := bind_with bus_transport.
End BusTarget.
End Adapter.

(** The lambda over the memory: the bound is checked on the sum modulo
    [2 ^ 64], the access made at the address modulo [2 ^ 32]. *)
Definition memory_transport : Transport VirtualSRAM := fun p =>
  let! ram := get in
  if ram.(blen) <? u64 (p.(address) + p.(length)) then ret ({ p with response := AddressError } : TLMPayload)
  else
    let a := u32 p.(address) in
    let n := Z.to_nat p.(length) in
    if is_write p then
      let! bytes := payload_get p n in
      if Buffer.in_range ram a p.(length) then
        do! modify (fun m => Buffer.poke m a bytes) in ret (done_with 1 p)
      else undef (BufferOverrun a p.(length))
    else if is_read p then
      if Buffer.in_range ram a p.(length) then
        let! p := payload_put p (Buffer.peek ram a n) in ret (done_with 1 p)
      else undef (BufferOverrun a p.(length))
    else ret (done_with 1 p).
Definition bind_memory : TLMAdapter VirtualSRAM -> TLMAdapter VirtualSRAM := bind_with memory_transport.
End TLMAdapter.

(** ** Theorems *)

(** Sending a payload through a freshly bound adapter. *)
Definition send {S} (a : TLMAdapter S) (p : TLMPayload) (d : Z) : M S (TLMPayload * Z) :=
  TLMSocket.b_transport (initiator a) p d.
Definition request (c : TLMCommand) (addr : Z) (bytes : list Z) : TLMPayload :=
  mkPayload c addr (Some bytes) (zlen bytes) 0 TlmOK 0.

Lemma send_memory p d m :
  send (TLMAdapter.bind_memory TLMAdapter.make) p d m
  = (let! p := TLMAdapter.memory_transport p in ret (p, u32 (d + p.(tlm_delay_cycles)))) m.
Proof. done. Qed.

(** a memory behind a TLM socket. For a block of bytes whose end is
    inside the 64-bit address space: when it fits in the memory, writing it
    answers OK with one cycle of delay and changes exactly those bytes, and a
    read of the same range then returns the block; when it does not fit, both
    answer an address error, leave the memory and the caller's array alone and
    add no delay. *)
Theorem tlm_memory m addr bytes other d :
  fits 64 (m.(blen)) -> m.(blen) <= 2 ^ 32 -> Forall is_byte bytes ->
  0 <= addr -> addr + zlen bytes < 2 ^ 64 -> List.length other = List.length bytes -> bytes <> [] ->
  let send := send (TLMAdapter.bind_memory TLMAdapter.make) in
  let wr := request TlmWrite addr bytes in
  let rd := request TlmRead addr other in
  if addr + zlen bytes <=? m.(blen) then
    send wr d m = (Ok (done_with 1 wr, u32 (d + 1)), Buffer.poke m addr bytes) /\
    send rd d (Buffer.poke m addr bytes)
      = (Ok (done_with 1 (request TlmRead addr bytes), u32 (d + 1)), Buffer.poke m addr bytes) /\
    (forall k, k < addr \/ addr + zlen bytes <= k ->
       Buffer.byte_at (Buffer.poke m addr bytes) k = Buffer.byte_at m k)
  else
    send wr d m = (Ok ({ wr with response := AddressError }, u32 (d + 0)), m) /\
    send rd d m = (Ok ({ rd with response := AddressError }, u32 (d + 0)), m).
Proof.
  intros Hm H32 Hb Ha Hend Hlen Hne send' wr rd.
  assert (Hz : zlen other = zlen bytes) by (unfold zlen; by rewrite Hlen).
  assert (Hpos : 0 < zlen bytes) by (destruct bytes; [done|unfold zlen; cbn; lia]).
  assert (Hu : u64 (addr + zlen bytes) = addr + zlen bytes) by (apply u64_small; split; lia).
  assert (Hn : Z.to_nat (zlen bytes) = List.length bytes) by (unfold zlen; lia).
  destruct (Z.leb_spec (addr + zlen bytes) (blen m)) as [Hin|Hout].
  - assert (H32a : u32 addr = addr) by (apply u32_small; split; lia).
    assert (Hr : forall b, blen b = blen m -> Buffer.in_range b addr (zlen bytes) = true).
    { intros b Hbl. unfold Buffer.in_range. rewrite Hbl. apply andb_true_iff. split; apply Z.leb_le; lia. }
    split; [|split].
    + unfold send'. rewrite send_memory. unfold TLMAdapter.memory_transport, bind, get. cbn [address length wr request].
      rewrite Hu, (proj2 (Z.ltb_ge _ _)) by lia. change (is_write wr) with true. cbv iota.
      unfold payload_get. change (data wr) with (Some bytes). cbv iota.
      rewrite Hn, Nat.leb_refl, take_ge by lia. rewrite H32a. unfold ret. rewrite Hr by done. done.
    + unfold send'. rewrite send_memory. unfold TLMAdapter.memory_transport, bind, get. cbn [address length rd request].
      rewrite Hz, Hu, Buffer.blen_poke, (proj2 (Z.ltb_ge _ _)) by lia.
      change (is_write rd) with false. change (is_read rd) with true. cbv iota. rewrite H32a, Hr by done. rewrite Hn, Buffer.peek_poke. unfold payload_put.
      change (data rd) with (Some other). cbv iota.
      rewrite Hlen, Nat.leb_refl. unfold ret. rewrite drop_ge, app_nil_r by lia.
      unfold rd, request. rewrite <- Hz. done.
    + intros k Hk. by apply Buffer.byte_at_poke_out.
  - unfold send'. rewrite !send_memory. unfold TLMAdapter.memory_transport, bind, get. cbn [address length wr rd request].
    rewrite Hz, Hu, (proj2 (Z.ltb_lt _ _)) by lia. done.
Qed.
Lemma tlm_memory_witness :
  send (TLMAdapter.bind_memory TLMAdapter.make) (request TlmWrite 8 [1; 2]) 5 (Buffer.make 16)
  = (Ok (done_with 1 (request TlmWrite 8 [1; 2]), 6), Buffer.poke (Buffer.make 16) 8 [1; 2]).
Proof.
  destruct (tlm_memory (Buffer.make 16) 8 [1; 2] [0; 0] 5) as (H & _);
    [split; vm_compute; congruence|vm_compute; congruence|repeat constructor; unfold is_byte; lia|lia|
     unfold zlen; cbn; lia|done|done|exact H].
Defined.

(** The sum in the bounds check wraps: an address near [2 ^ 64] passes it and
    the copy is made outside the memory. *)
Example tlm_wraps :
  (send (TLMAdapter.bind_memory TLMAdapter.make) (request TlmWrite (2 ^ 64 - 2) [1; 2; 3]) 0 (Buffer.make 16)).1
  = Undefined (BufferOverrun (2 ^ 32 - 2) 3).
Proof. vm_compute. reflexivity. Qed.
(** A bus target answers OK, with a zero in the first byte, to a read that is
    not of four bytes. *)
Example tlm_bus_short_read :
  (send (TLMAdapter.bind_bus (fun m => m) (fun m _ => m) [] TLMAdapter.make)
     (request TlmRead 0 [7; 7]) 0 (Buffer.poke (Buffer.make 16) 0 [9; 9; 9; 9])).1
  = Ok (done_with 2 (request TlmRead 0 [0; 7]), 2).
Proof. vm_compute. reflexivity. Qed.
(** A transport installed on the target after the binding is not used. *)
Example tlm_bind_copies :
  let t := TLMSocket.make (S := unit) "t" in
  let i := TLMSocket.bind t (TLMSocket.make "i") in
  let t' := TLMSocket.set_transport (fun p => ret (done_with 1 p)) t in
  TLMSocket.is_bound i = true /\ transport t' <> None /\ transport i = None.
Proof. done. Qed.
