(* ===== verification/Snapshot.v ===== *)
(** * Checkpoints, traces and FPGA offload: checkpoint.h, checkpoint.cpp,
    trace.h, trace.cpp, fpga.h, fpga.cpp

    The checkpoint history and the instruction trace are bounded queues; the
    VCD writer is a file state and the text written; the FPGA path is the
    simulated back end over the host kernels. *)

From Stdlib Require Import Ascii String.
From S2P Require Import Prelude Text Isa Memory Registers Interrupt Devices Bus Float Profiler Interconnect Target Host.
#[local] Open Scope Z_scope.

#[local] Set Primitive Projections.
Record Checkpoint : Type := mkCheckpoint {
  regs : RegisterFile; csr : CSRFile; profiler : Profiler.State; tick_accum : Z; global_clock : Z;
  seq : Z; scratch_snapshot : list Z; has_memory : bool }.
Record CheckpointManager : Type := mkManager { history_ : list Checkpoint; max_history_ : Z }.
Record TraceEntry : Type := mkEntry {
  cycle : Z; pc : Z; instr : Instruction; result : Z; is_branch_taken : bool; mem_addr : Z }.
Record InstructionTrace : Type := mkTrace { entries_ : list TraceEntry; max_ : Z }.
Record VCDWriter : Type := mkVcd {
  is_open : bool; fail_ : bool; text_ : string; signals_ : list string; header_written_ : bool;
  files_ : list string }.
Record GDBStub : Type := mkGdb { running_ : bool; port_ : Z }.
#[local] Unset Primitive Projections.

(** push_back, then pop_front when there are more than [n]. *)
Definition push_bounded {A} (n : Z) (x : A) (l : list A) : list A :=
  let l := l ++ [x] in if n <? zlen l then tail l else l.

(** ** Checkpoints *)
Module CheckpointManager.
Definition make (n : Z) : CheckpointManager := mkManager [] n.
Definition set_max_history (n : Z) (m : CheckpointManager) : CheckpointManager := { m with max_history_ := n }.
Definition size (m : CheckpointManager) : Z := zlen m.(history_).
Definition append (cp : Checkpoint) (m : CheckpointManager) : CheckpointManager :=
  { m with history_ := push_bounded m.(max_history_) cp m.(history_) }.
Definition push (r : RegisterFile) (c : CSRFile) (p : Profiler.State) (tick clock s : Z) (m : CheckpointManager) : CheckpointManager :=
  append (mkCheckpoint r c p tick clock s [] false) m.
Definition push_full (cp : Checkpoint) (mem : list Z) (m : CheckpointManager) : CheckpointManager :=
  append { cp with scratch_snapshot := mem; has_memory := true } m.
Definition can_reverse (m : CheckpointManager) : bool := match m.(history_) with [] => false | _ => true end.
Definition pop (m : CheckpointManager) : option Checkpoint * CheckpointManager :=
  match last m.(history_) with
  | None => (None, m)
  | Some cp => (Some cp, { m with history_ := take (List.length m.(history_) - 1) m.(history_) })
  end.
Definition clear (m : CheckpointManager) : CheckpointManager := { m with history_ := [] }.
Definition stats (m : CheckpointManager) : string :=
  snprintf 128 ("checkpoint history " +:+ udec (size m) +:+ "/" +:+ udec m.(max_history_))%string.

Section Blob.
(** The object representation of a register file, and the two sizes. *)
Context (rep : RegisterFile -> list Z) (unrep : list Z -> RegisterFile) (regs_size csr_size : nat).
Definition save_blob (cp : Checkpoint) : list Z := rep cp.(regs) ++ replicate (csr_size + 64) 0.
Definition restore_blob (blob : list Z) (out : Checkpoint) : bool * Checkpoint :=
  if (List.length blob <? regs_size)%nat then (false, out)
  else (true, { out with regs := unrep (take regs_size blob) }).

Context (rep_size : forall r, List.length (rep r) = regs_size) (rep_back : forall r, unrep (rep r) = r).
(** A blob brings back the registers and nothing else. *)
Lemma blob_registers cp out : restore_blob (save_blob cp) out = (true, { out with regs := cp.(regs) }).
Proof using rep_size rep_back.
  unfold restore_blob, save_blob. rewrite length_app, rep_size, length_replicate.
  destruct (Nat.ltb_spec (regs_size + (csr_size + 64)) regs_size); [lia|].
  by rewrite <- (rep_size (regs cp)), take_app_length, rep_back.
Qed.
End Blob.
End CheckpointManager.

(** ** Instruction trace *)
Module InstructionTrace.
Definition make : InstructionTrace := mkTrace [] 8192.
Definition push (e : TraceEntry) (t : InstructionTrace) : InstructionTrace :=
  { t with entries_ := push_bounded t.(max_) e t.(entries_) }.
Definition set_max (n : Z) (t : InstructionTrace) : InstructionTrace := { t with max_ := n }.
Definition size (t : InstructionTrace) : Z := zlen t.(entries_).
Definition clear (t : InstructionTrace) : InstructionTrace := { t with entries_ := [] }.
Definition newline : string := String (ascii_of_nat 10) "".
Definition csv_line (e : TraceEntry) : string :=
  (udec e.(cycle) +:+ ",0x" +:+ hex08 e.(pc) +:+ ",0x" +:+ hex08 e.(instr).(raw) +:+ "," +:+ udec e.(result)
   +:+ ",0x" +:+ hex08 e.(mem_addr) +:+ newline)%string.
(** The file written, [None] when it cannot be opened. *)
Definition export_csv (can_open : bool) (t : InstructionTrace) : option string :=
  if can_open then
    Some (fold_left String.append (map csv_line t.(entries_)) ("cycle,pc,raw,result,mem_addr" +:+ newline)%string)
  else None.
End InstructionTrace.

(** ** VCD *)
Module VCDWriter.
Definition make : VCDWriter := mkVcd false false "" [] false [].
(** [std::ofstream]: opening an open stream fails and leaves it open; a failed
    stream ignores output. *)
Definition open (can_open : bool) (v : VCDWriter) : bool * VCDWriter :=
  let v : VCDWriter :=
    if v.(is_open) then { v with fail_ := true }
    else if can_open then { v with is_open := true; fail_ := false; text_ := EmptyString }
    else { v with fail_ := true } in
  (v.(is_open), v).
Definition close (v : VCDWriter) : VCDWriter :=
  if v.(is_open) then { v with is_open := false; files_ := v.(files_) ++ [v.(text_)] } else v.
Definition put (s : string) (v : VCDWriter) : VCDWriter :=
  if v.(fail_) then v else { v with text_ := (v.(text_) +:+ s)%string }.
Fixpoint var_lines (i : Z) (names : list string) : string :=
  match names with
  | [] => EmptyString
  | n :: names =>
      ("$var wire 32 s" +:+ udec i +:+ " " +:+ n +:+ " $end" +:+ InstructionTrace.newline +:+ var_lines (i + 1) names)%string
  end.
Definition header (timescale : string) (v : VCDWriter) : VCDWriter :=
  if negb v.(is_open) then v
  else
    let v := put ("$timescale " +:+ timescale +:+ " $end" +:+ InstructionTrace.newline
                  +:+ "$scope module novium $end" +:+ InstructionTrace.newline)%string v in
    let v := put (var_lines 0 v.(signals_)) v in
    let v := put ("$upscope $end" +:+ InstructionTrace.newline +:+ "$enddefinitions $end" +:+ InstructionTrace.newline)%string v in
    { v with header_written_ := true }.
Definition add_signal (name : string) (width : Z) (v : VCDWriter) : VCDWriter :=
  { v with signals_ := v.(signals_) ++ [name] }.
(** [std::bitset<32>::to_string] *)
Fixpoint bitset (n : nat) (z : Z) : string :=
  match n with
  | O => EmptyString
  | S n => String (if Z.testbit z (Z.of_nat n) then "1" else "0")%char (bitset n z)
  end.
Definition dump (cycle pc : Z) (i : Instruction) (gpr0 : Z) (v : VCDWriter) : VCDWriter :=
  if negb v.(is_open) then v
  else
    let v := if v.(header_written_) then v else header "1ns" v in
    put ("#" +:+ udec cycle +:+ InstructionTrace.newline
         +:+ "b" +:+ bitset 32 pc +:+ " s0" +:+ InstructionTrace.newline
         +:+ "b" +:+ bitset 32 i.(raw) +:+ " s1" +:+ InstructionTrace.newline
         +:+ "b" +:+ bitset 32 gpr0 +:+ " s2" +:+ InstructionTrace.newline)%string v.
End VCDWriter.

Module GDBStub.
Definition start (port : Z) (g : GDBStub) : bool * GDBStub := (true, { g with port_ := port; running_ := true }).
Definition stop (g : GDBStub) : GDBStub := { g with running_ := false }.
Definition poll (pc : Z) (g : GDBStub) : GDBStub := g.
End GDBStub.

(** ** FPGA *)
Inductive FPGABackend : Type := NoBackend | PCIe | USB | Simulated.
#[local] Set Primitive Projections.
Record FPGAConfig : Type := mkFpgaConfig {
  backend : FPGABackend; bitstream : string; device_id : Z; fallback_to_sim : bool }.
Record FPGACoEmulator : Type := mkFpga { fpga_cfg_ : FPGAConfig; connected_ : bool; offloaded_ : Z; fallback_ : Z }.
#[local] Unset Primitive Projections.

Module FPGACoEmulator.
Definition default_config : FPGAConfig := mkFpgaConfig NoBackend "" 0 true.
Definition make (cfg : FPGAConfig) : FPGACoEmulator := mkFpga cfg false 0 0.
Definition configure (cfg : FPGAConfig) (f : FPGACoEmulator) : FPGACoEmulator := { f with fpga_cfg_ := cfg }.
Definition available (f : FPGACoEmulator) : bool :=
  match f.(fpga_cfg_).(backend) with Simulated => true | _ => false end.
Definition connect (f : FPGACoEmulator) : bool * FPGACoEmulator :=
  if negb (available f) then (false, f) else (true, { f with connected_ := true }).
Definition disconnect (f : FPGACoEmulator) : FPGACoEmulator := { f with connected_ := false }.
Definition count_offload (f : FPGACoEmulator) : FPGACoEmulator := { f with offloaded_ := u64 (f.(offloaded_) + 1) }.
Definition count_fallback (f : FPGACoEmulator) : FPGACoEmulator := { f with fallback_ := u64 (f.(fallback_) + 1) }.

(** [rows] are the three arrays, [d], [a] and [b] their indices, as for the
    host kernel. *)
Definition offload_matmul `{FloatOps} (arrays : list (list Z)) (a b d n : Z)
    : M FPGACoEmulator (option (list (list Z))) := fun f =>
  if negb f.(connected_) || negb (available f) then (Ok None, count_fallback f)
  else match Host.matmul_tile_host arrays d a b (u8 n) with
       | None => (Undefined (BufferOverrun 0 0), f)
       | Some arrays => (Ok (Some arrays), count_offload f)
       end.
(** The destination after the copy. *)
Definition offload_dma (src dst : list Z) (bytes : Z) (is_write : bool) : M FPGACoEmulator (option (list Z)) := fun f =>
  if negb f.(connected_) || negb (available f) then (Ok None, count_fallback f)
  else if (zlen src <? bytes) || (zlen dst <? bytes) then (Undefined (BufferOverrun 0 bytes), f)
  else (Ok (Some (take (Z.to_nat bytes) src ++ drop (Z.to_nat bytes) dst)), count_offload f).
Definition report (f : FPGACoEmulator) : string :=
  snprintf 256 ("FPGA backend="
    +:+ (match f.(fpga_cfg_).(backend) with PCIe => "PCIe" | Simulated => "sim" | NoBackend => "none" | USB => "usb" end)
    +:+ " available=" +:+ (if available f then "yes" else "no")
    +:+ " offloaded=" +:+ udec f.(offloaded_) +:+ " fallback=" +:+ udec f.(fallback_)
    +:+ " bitstream=" +:+ (if (f.(fpga_cfg_).(bitstream) =? "")%string then "<none>" else c_str f.(fpga_cfg_).(bitstream)))%string.
End FPGACoEmulator.

(** ** A bounded queue keeps the newest *)
Definition lastn {A} (n : nat) (l : list A) : list A := drop (List.length l - n) l.

Lemma lastn_length {A} n (l : list A) : (List.length (lastn n l) <= n)%nat.
Proof. unfold lastn. rewrite length_drop. lia. Qed.
Lemma push_lastn {A} n (x : A) l :
  0 <= n -> push_bounded n x (lastn (Z.to_nat n) l) = lastn (Z.to_nat n) (l ++ [x]).
Proof.
  intros Hn. unfold push_bounded, lastn, zlen. rewrite !length_app, length_drop. cbn [List.length].
  destruct (decide (List.length l < Z.to_nat n)%nat) as [H|H].
  - replace (List.length l - Z.to_nat n)%nat with 0%nat by lia.
    replace (List.length l + 1 - Z.to_nat n)%nat with 0%nat by lia.
    rewrite !drop_0. destruct (Z.ltb_spec n (Z.of_nat (List.length l - 0 + 1))); [lia|done].
  - destruct (Z.ltb_spec n (Z.of_nat (List.length l - (List.length l - Z.to_nat n) + 1))); [|lia].
    replace (List.length l + 1 - Z.to_nat n)%nat with (S (List.length l - Z.to_nat n)) by lia.
    assert (Hk : (List.length l - Z.to_nat n <= List.length l)%nat) by lia. revert Hk.
    generalize (List.length l - Z.to_nat n)%nat. clear. induction l as [|y l IH]; intros [|k] Hk; cbn [drop app List.length] in *; try done; try lia. apply IH. lia.
Qed.

(** What a checkpoint request stores: the states of the moment, with or
    without the memory. *)
Definition stored (i : Checkpoint * option (list Z)) : Checkpoint :=
  match i.2 with
  | None => mkCheckpoint i.1.(regs) i.1.(csr) i.1.(profiler) i.1.(tick_accum) i.1.(global_clock) i.1.(seq) [] false
  | Some mem => { i.1 with scratch_snapshot := mem; has_memory := true }
  end.
Definition store (m : CheckpointManager) (i : Checkpoint * option (list Z)) : CheckpointManager :=
  match i.2 with
  | None => CheckpointManager.push i.1.(regs) i.1.(csr) i.1.(profiler) i.1.(tick_accum) i.1.(global_clock) i.1.(seq) m
  | Some mem => CheckpointManager.push_full i.1 mem m
  end.
Fixpoint pop_n (k : nat) (m : CheckpointManager) : list (option Checkpoint) * CheckpointManager :=
  match k with
  | O => ([], m)
  | S k => let '(o, m) := CheckpointManager.pop m in let '(os, m) := pop_n k m in (o :: os, m)
  end.

Lemma store_all n items l :
  0 <= n ->
  fold_left store items (mkManager (lastn (Z.to_nat n) l) n) = mkManager (lastn (Z.to_nat n) (l ++ map stored items)) n.
Proof.
  intros Hn. revert l. induction items as [|i items IH]; intros l; cbn [fold_left map].
  { by rewrite app_nil_r. }
  assert (E : store (mkManager (lastn (Z.to_nat n) l) n) i = mkManager (lastn (Z.to_nat n) (l ++ [stored i])) n).
  { destruct i as [cp [mem|]]; unfold store, CheckpointManager.push, CheckpointManager.push_full,
      CheckpointManager.append; cbn [fst snd]; by rewrite <- push_lastn. }
  rewrite E, IH. by rewrite <- app_assoc.
Qed.
Lemma exists_last_or_nil {A} (l : list A) : l = [] \/ exists l' x, l = l' ++ [x].
Proof. destruct l as [|y l] using rev_ind; eauto. Qed.
(** The j-th pop returns the j-th newest checkpoint. *)
Lemma pop_n_spec k l n : (pop_n k (mkManager l n)).1 = map (fun j => rev l !! j) (List.seq 0 k).
Proof.
  revert l. induction k as [|k IH]; intros l; [done|]. cbn [pop_n List.seq map]. rewrite <- seq_shift, map_map.
  unfold CheckpointManager.pop. cbn [history_].
  destruct (exists_last_or_nil l) as [->|(l' & x & ->)].
  - cbn [last]. specialize (IH []). destruct (pop_n k (mkManager [] n)) as [os m]. cbn [fst] in *. rewrite IH. done.
  - rewrite last_snoc, length_app. cbn [List.length].
    replace (List.length l' + 1 - 1)%nat with (List.length l') by lia. rewrite take_app_length.
    specialize (IH l'). cbn. destruct (pop_n k _) as [os m]. rewrite rev_app_distr. cbn [fst] in IH |- *. by rewrite IH.
Qed.

(** C35: the checkpoint history is the last [max_history] checkpoints. After
    any sequence of light and full checkpoints from an empty history, it holds
    exactly the newest [max_history] of them in order, and stepping back
    returns them newest first, each with the registers, CSRs, profiler,
    counters and (for a full one) memory it was taken with, then nothing. *)
Theorem checkpoint_history n items k :
  0 <= n ->
  let m := fold_left store items (CheckpointManager.make n) in
  let kept := lastn (Z.to_nat n) (map stored items) in
  m.(history_) = kept /\ CheckpointManager.size m <= n /\
  (pop_n k m).1 = map (fun j => rev kept !! j) (List.seq 0 k).
Proof.
  intros Hn m kept. assert (Hm : m = mkManager kept n).
  { pose proof (store_all n items [] Hn) as H. unfold lastn in H at 1. cbn in H. exact H. }
  rewrite Hm. split; [done|]. split; [|apply pop_n_spec].
  unfold CheckpointManager.size, zlen. cbn [history_]. pose proof (lastn_length (Z.to_nat n) (map stored items)) as Hk.
  fold kept in Hk. lia.
Qed.
Lemma checkpoint_history_witness :
  let cp k := mkCheckpoint RegisterFile.init CSRFile.init (Profiler.save Profiler.init) 0 0 k [] false in
  map (option_map seq) (pop_n 3 (fold_left store [(cp 1, None); (cp 2, Some [7]); (cp 3, None)] (CheckpointManager.make 2))).1
  = [Some 3; Some 2; None].
Proof.
  intros cp. destruct (checkpoint_history 2 [(cp 1, None); (cp 2, Some [7]); (cp 3, None)] 3 ltac:(lia)) as (_ & _ & H).
  exact (f_equal (map (option_map seq)) H).
Defined.

(** The instruction trace is the same queue. *)
Lemma trace_keeps_newest n es :
  0 <= n ->
  (fold_left (fun t e => InstructionTrace.push e t) es (InstructionTrace.set_max n InstructionTrace.make)).(entries_)
  = lastn (Z.to_nat n) es.
Proof.
  intros Hn. assert (H : forall l, fold_left (fun t e => InstructionTrace.push e t) es (mkTrace (lastn (Z.to_nat n) l) n)
                       = mkTrace (lastn (Z.to_nat n) (l ++ es)) n).
  { induction es as [|e es IH]; intros l; cbn [fold_left]; [by rewrite app_nil_r|].
    assert (E : InstructionTrace.push e (mkTrace (lastn (Z.to_nat n) l) n) = mkTrace (lastn (Z.to_nat n) (l ++ [e])) n)
      by (unfold InstructionTrace.push; cbn; by rewrite <- push_lastn).
    rewrite E, IH. by rewrite <- app_assoc. }
  exact (f_equal entries_ (H [])).
Qed.

(** The simulated back end gives the host kernel's result, or counts a
    fallback and does nothing. *)
Lemma fpga_matmul `{FloatOps} arrays a b d n f :
  FPGACoEmulator.offload_matmul arrays a b d n f =
    if f.(connected_) && FPGACoEmulator.available f then
      match Host.matmul_tile_host arrays d a b (u8 n) with
      | None => (Undefined (BufferOverrun 0 0), f)
      | Some r => (Ok (Some r), FPGACoEmulator.count_offload f)
      end
    else (Ok None, FPGACoEmulator.count_fallback f).
Proof.
  unfold FPGACoEmulator.offload_matmul. rewrite <- negb_andb. by destruct (_ && _).
Qed.
(** A writer opened again writes no second header. *)
Example vcd_second_file :
  let i := mkInstruction 0 in
  let v := VCDWriter.dump 0 0 i 0 (VCDWriter.open true VCDWriter.make).2 in
  let v := VCDWriter.dump 1 0 i 0 (VCDWriter.open true (VCDWriter.close v)).2 in
  String.prefix "#1" v.(text_) = true.
Proof. vm_compute. reflexivity. Qed.
