(* ===== verification/Cluster.v ===== *)
(** * Several cores: cluster.h, cluster.cpp

    The cores of [class Cluster] are emulators whose buses have one more
    window, behind which lies the memory they share; [run] gives each core in
    turn a quantum of steps.  A core's [shared_] is refreshed from the
    cluster's memory before each of its operations and read back after it, so
    that the memory is one object.  Each core keeps its own list of printed
    lines; the order in which the lines of several cores mix is not kept.

    The theorems: cores whose programs never use the window run as if they
    were alone, whatever the quantum; what one core stores behind the window
    every core loads. *)

From Stdlib Require Import Ascii String.
From S2P Require Import Prelude Text Isa Memory Registers Interrupt Devices Bus Float Profiler Interconnect Target Host Mmu Translate Emulator EmulatorWf Interface Execute Cache Microarch.
#[local] Open Scope Z_scope.

#[local] Set Primitive Projections.
Record ClusterConfig : Type := mkClusterConfig {
  num_cores : Z;
  scratchpad_per_core : Z;
  shared_bytes : Z;
  cl_quantum : Z }.
Record Cluster : Type := mkCluster {
  cl_cfg_ : ClusterConfig;
  cores_ : list Emulator;
  shared_ram_ : MainRAM;
  shared_l2_ : Cache;
  cluster_bus_ : Interconnect;
  deterministic_ : DeterministicEngine }.
#[local] Unset Primitive Projections.

Module Cluster.
Definition default_config : ClusterConfig := mkClusterConfig 2 SCRATCHPAD_SIZE MAIN_RAM_SIZE 1000.
Definition shared_l2_config : CacheConfig := mkCacheConfig (512 * 1024) 64 16 MESI 4 20.
Definition cluster_bus_config : InterconnectConfig := mkConfig AXI4 64 2 16 16.

(** Each core is an emulator with the window added to its bus. *)
Definition make_core (cfg : ClusterConfig) (shared : MainRAM) : Emulator :=
  Emulator.put_shared (Some shared) (Emulator.create cfg.(scratchpad_per_core) cfg.(shared_bytes)).
Definition create (cfg : ClusterConfig) : outcome Cluster :=
  match Cache.configure shared_l2_config with
  | Ok l2 =>
      let shared := Buffer.make cfg.(shared_bytes) in
      Ok {| cl_cfg_ := cfg;
            cores_ := replicate (Z.to_nat cfg.(num_cores)) (make_core cfg shared);
            shared_ram_ := shared; shared_l2_ := l2;
            cluster_bus_ := Interconnect.make cluster_bus_config;
            deterministic_ := DeterministicEngine.make cfg.(cl_quantum) |}
  | Throw e => Throw e
  | Undefined u => Undefined u
  end.

(** [*cores_[i]], unchecked, with the memory every core shares. *)
Definition core (i : nat) (c : Cluster) : option Emulator :=
  option_map (Emulator.put_shared (Some c.(shared_ram_))) (c.(cores_) !! i).
Definition put_core (i : nat) (e : Emulator) (c : Cluster) : Cluster :=
  { c with cores_ := <[i := e]> c.(cores_);
           shared_ram_ := default c.(shared_ram_) e.(shared_) }.
Definition on_core {A} (i : nat) (m : M Emulator A) : M Cluster A := fun c =>
  match core i c with
  | None => (Undefined (BufferOverrun (Z.of_nat i) 1), c)
  | Some e => let '(r, e') := m e in (r, put_core i e' c)
  end.
Definition put_deterministic (d : DeterministicEngine) (c : Cluster) : Cluster :=
  { c with deterministic_ := d }.
Definition det_tick (i : nat) (cycles : Z) : M Cluster unit :=
  do! zoom deterministic_ put_deterministic (DeterministicEngine.tick (u32 (Z.of_nat i)) cycles) in
  ret tt.

Definition all_halted (c : Cluster) : bool := forallb Emulator.halted c.(cores_).
Definition core_halted (i : nat) (c : Cluster) : bool :=
  match c.(cores_) !! i with Some e => Emulator.halted e | None => false end.
Definition core_cycles (i : nat) (c : Cluster) : Z :=
  match c.(cores_) !! i with Some e => Profiler.cycles e.(profiler_) | None => 0 end.
Definition total_cycles (c : Cluster) : Z :=
  fold_left (fun s e => u64 (s + Profiler.cycles e.(profiler_))) c.(cores_) 0.
Definition total_instructions (c : Cluster) : Z :=
  fold_left (fun s e => u64 (s + Profiler.instructions e.(profiler_))) c.(cores_) 0.

(** A loop over the cores. *)
Fixpoint for_cores (f : nat -> M Cluster unit) (l : list nat) : M Cluster unit :=
  match l with
  | [] => ret tt
  | i :: l => do! f i in for_cores f l
  end.
Definition each_core (f : nat -> M Cluster unit) : M Cluster unit :=
  let! c := get in for_cores f (seq 0 (length c.(cores_))).

Definition load_program_all (prog : list Z) : M Cluster unit :=
  each_core (fun i => on_core i (Emulator.load_program prog)).

Section Execution.
Context `{FloatOps} (path : HostPath).

(** [for (q = 0; q < quantum && !halted(); ++q) step();] *)
Fixpoint quantum_steps (n : nat) : M Emulator unit :=
  match n with
  | O => ret tt
  | S n =>
      let! s := get in
      if Emulator.halted s then ret tt else do! Emulator.step path in quantum_steps n
  end.

Definition run_core (i : nat) : M Cluster unit :=
  let! c := get in
  if core_halted i c then ret tt
  else
    let before := core_cycles i c in
    do! on_core i (quantum_steps (Z.to_nat c.(cl_cfg_).(cl_quantum))) in
    let! c := get in
    det_tick i (u64 (core_cycles i c - before)).
Definition round : M Cluster unit := each_core run_core.

Definition elapsed (start : Z) (c : Cluster) : Z := u64 (c.(deterministic_).(global_clock_) - start).

(** [false] when the fuel ran out first. *)
Fixpoint run_loop (fuel : nat) (start max_cycles : Z) : M Cluster bool :=
  let! c := get in
  if negb (all_halted c) && (elapsed start c <? max_cycles) then
    match fuel with
    | O => ret false
    | S fuel =>
        do! round in
        let! c := get in
        if all_halted c then ret true else run_loop fuel start max_cycles
    end
  else ret true.
Definition run (fuel : nat) (max_cycles : Z) : M Cluster bool :=
  let! c := get in run_loop fuel c.(deterministic_).(global_clock_) max_cycles.

(** [run_fast] lets every core run to its end; [false] when the fuel of a core
    or of the loop ran out. *)
Fixpoint fast_cores (fuel : nat) (l : list nat) : M Cluster bool :=
  match l with
  | [] => ret true
  | i :: l =>
      let! c := get in
      if core_halted i c then fast_cores fuel l
      else
        let! ended := on_core i (Emulator.run_fast path fuel) in
        if ended then fast_cores fuel l else ret false
  end.
Fixpoint run_fast_loop (fuel : nat) (start max_cycles : Z) : M Cluster bool :=
  let! c := get in
  if negb (all_halted c) && (elapsed start c <? max_cycles) then
    match fuel with
    | O => ret false
    | S fuel' =>
        let! ended := fast_cores fuel (seq 0 (length c.(cores_))) in
        if ended then
          do! det_tick 0 c.(cl_cfg_).(cl_quantum) in
          let! c := get in
          if all_halted c then ret true else run_fast_loop fuel' start max_cycles
        else ret false
    end
  else ret true.
Definition run_fast (fuel : nat) (max_cycles : Z) : M Cluster bool :=
  let! c := get in run_fast_loop fuel c.(deterministic_).(global_clock_) max_cycles.

Definition step_all : M Cluster unit :=
  each_core (fun i =>
    let! c := get in
    if core_halted i c then ret tt else on_core i (Emulator.step path)).
End Execution.

(** The TLB entries of an address, on every core but one. *)
Definition flush_va (va : Z) (e : Emulator) : Emulator :=
  Emulator.put_mmu (MMU.tlb_flush_va va e.(mmu_)) e.
Definition flush_others (va : Z) (but : nat) (c : Cluster) : Cluster :=
  { c with cores_ := imap (fun i e => if (i =? but)%nat then e else flush_va va e) c.(cores_) }.
Definition snoop_invalidate (addr : Z) (core_writer : nat) : Cluster -> Cluster :=
  flush_others addr core_writer.
Definition tlb_shootdown (va : Z) (initiator : nat) : Cluster -> Cluster := flush_others va initiator.

Definition send_ipi (target_core : nat) (c : Cluster) : Cluster :=
  { c with cores_ := alter (fun e : Emulator =>
      { e with intc_ := InterruptController.raise_soft e.(intc_) }) target_core c.(cores_) }.

Definition report (c : Cluster) : string :=
  snprintf 512 ("Cluster " +:+ udec (zlen c.(cores_)) +:+ " cores shared_ram="
    +:+ udec (c.(shared_ram_).(blen) / 1024) +:+ "KB det_clock="
    +:+ udec c.(deterministic_).(global_clock_) +:+ " total_cyc=" +:+ udec (total_cycles c)
    +:+ " total_instr=" +:+ udec (total_instructions c))%string.
End Cluster.

(** ** Computations that run the same behind a window they do not use *)

(** A machine of its own, whose scratchpad ends before the window. *)
Definition private (s : Emulator) : Prop :=
  s.(shared_) = None /\ s.(scratchpad_).(blen) <= Emulator.WINDOW_BASE.

(** Whatever ends normally on a machine of its own, where the addresses of the
    window fault, ends in the same way on a core of a cluster, and leaves the
    shared memory alone. *)
Definition alone {A} (m : M Emulator A) : Prop := forall s a s' sh,
  private s -> m s = (Ok a, s') ->
  private s' /\ m (Emulator.put_shared (Some sh) s) = (Ok a, Emulator.put_shared (Some sh) s').

Lemma alone_ret {A} (a : A) : alone (ret a).
Proof. by intros s a' s' sh Hs [= <- <-]. Qed.
Lemma alone_throw {A} e : alone (A := A) (throw e).
Proof. by intros s a' s' sh Hs. Qed.
Lemma alone_undef {A} u : alone (A := A) (undef u).
Proof. by intros s a' s' sh Hs. Qed.
Lemma alone_lift {A} (o : outcome A) : alone (lift o).
Proof. intros s a' s' sh Hs. unfold lift. by intros [= -> <-]. Qed.
Lemma alone_opt {A} u (o : option A) : alone (opt u o).
Proof. destruct o; [apply alone_ret|apply alone_undef]. Qed.
Lemma alone_modify f :
  (forall s, private s -> private (f s)) ->
  (forall o s, f (Emulator.put_shared o s) = Emulator.put_shared o (f s)) -> alone (modify f).
Proof.
  intros H1 H2 s a s' sh Hs. unfold modify. intros [= <- <-]. split; [by apply H1|].
  by rewrite H2.
Qed.
Lemma alone_gets {A} (f : Emulator -> A) :
  (forall o s, f (Emulator.put_shared o s) = f s) -> alone (gets f).
Proof. intros Hf s a s' sh Hs. unfold gets. intros [= <- <-]. by rewrite Hf. Qed.
Lemma alone_bind {A B} (m : M Emulator A) (k : A -> M Emulator B) :
  alone m -> (forall a, alone (k a)) -> alone (bind m k).
Proof.
  intros Hm Hk s b s' sh Hs. unfold bind. destruct (m s) as [[a| |] s1] eqn:E; [|done|done].
  intros Hb. destruct (Hm _ _ _ sh Hs E) as [H1 ->]. exact (Hk _ _ _ _ sh H1 Hb).
Qed.
Lemma alone_get {B} (k : Emulator -> M Emulator B) :
  (forall o s, k (Emulator.put_shared o s) = k s) -> (forall s, alone (k s)) -> alone (bind get k).
Proof. intros Hg Hk s a s' sh Hs. rewrite !get_run, Hg. by apply Hk. Qed.
Lemma alone_zoom {T A} (pi : Emulator -> T) put (m : M T A) :
  (forall o s, pi (Emulator.put_shared o s) = pi s) ->
  (forall s, private s -> private (put (m (pi s)).2 s)) ->
  (forall o t s, put t (Emulator.put_shared o s) = Emulator.put_shared o (put t s)) ->
  alone (zoom pi put m).
Proof.
  intros Hp H1 H2 s a s' sh Hs. unfold zoom. rewrite Hp. specialize (H1 s Hs).
  destruct (m (pi s)) as [r t]. intros [= -> <-]. split; [done|]. by rewrite H2.
Qed.

Create HintDb alone.
Ltac alone_step :=
  lazymatch goal with
  | |- alone (bind get _) => first [apply alone_get; [reflexivity|intros] | solve [auto with alone]]
  | |- alone (bind _ _) => apply alone_bind; [|intros]
  | |- alone (ret _) => apply alone_ret
  | |- alone (throw _) => apply alone_throw
  | |- alone (undef _) => apply alone_undef
  | |- alone (lift _) => apply alone_lift
  | |- alone (opt _ _) => apply alone_opt
  | |- alone (modify _) => apply alone_modify; [by intros ? []|reflexivity]
  | |- alone (gets _) => apply alone_gets; reflexivity
  | |- alone (zoom _ _ _) => first [solve [auto with alone] | apply alone_zoom; [reflexivity|by intros ? []|reflexivity]]
  | |- alone (let '(_, _) := _ in _) => first [progress cbv beta iota zeta | case_match]
  | |- alone (match _ with _ => _ end) => case_match
  | |- alone _ => solve [auto with alone]
  end.
Ltac alone_tac := repeat alone_step.

(** Outside the window the two buses are the same; inside it the bus of a
    machine of its own goes to the scratchpad, and past its end. *)
Lemma bus_far o a :
  in_window a = false ->
  Bus.read32 scratchpad_ (Emulator.bus_devices o) a = Bus.read32 scratchpad_ Emulator.devices_ a /\
  Bus.write32 scratchpad_ Emulator.put_scratchpad (Emulator.bus_devices o) a =
  Bus.write32 scratchpad_ Emulator.put_scratchpad Emulator.devices_ a.
Proof.
  intros Ha. destruct o as [m|]; [|done].
  unfold Bus.read32, Bus.write32, Bus.route, Emulator.bus_devices, Emulator.devices_, Bus.add_device.
  destruct (Bus.is_mmio a); [|done]. cbn [List.find app].
  destruct (Bus.holds a _); [done|]. destruct (Bus.holds a _); [done|].
  destruct (Bus.holds a _) eqn:E; [|done]. unfold in_window in Ha.
  unfold Bus.holds in E. cbn [base size] in E.
  change (u32 _) with (Emulator.WINDOW_BASE + Emulator.WINDOW_SIZE) in E. congruence.
Qed.

Lemma in_window_range a :
  in_window a = true <-> Emulator.WINDOW_BASE <= a < Emulator.WINDOW_BASE + Emulator.WINDOW_SIZE.
Proof. unfold in_window. rewrite andb_true_iff, Z.leb_le, Z.ltb_lt. done. Qed.

Lemma find_app {A} f (l l' : list A) :
  List.find f (l ++ l') = match List.find f l with Some x => Some x | None => List.find f l' end.
Proof. induction l as [|x l IH]; [done|]. cbn. by destruct (f x). Qed.

Lemma window_route a : in_window a = true -> Bus.route Emulator.devices_ a = None.
Proof.
  intros Hw%in_window_range. unfold Emulator.WINDOW_BASE in Hw.
  unfold Bus.route. destruct (Bus.is_mmio a); [|done]. apply Bus.find_none.
  intros d Hd. unfold Bus.holds. apply andb_false_iff. right. apply Z.ltb_ge.
  unfold Emulator.devices_, Bus.add_device in Hd. cbn [app] in Hd.
  apply elem_of_cons in Hd as [->|[->|Hd%elem_of_nil]%elem_of_cons]; [..|done];
    cbn [base size]; [change (u32 _) with 0x3F01000|change (u32 _) with 0x3F02000]; lia.
Qed.

Lemma private_window_faults a v s : private s -> in_window a = true ->
  (forall b s', Emulator.bus_read32 a s <> (Ok b, s')) /\
  (forall b s', Emulator.bus_write32 a v s <> (Ok b, s')).
Proof.
  intros [Hn Hl] Hw. pose proof (proj1 (in_window_range a) Hw) as Hr.
  unfold Emulator.WINDOW_BASE, Emulator.WINDOW_SIZE in *.
  assert (Hin : forall m, blen m <= 0x80000000 -> Buffer.in_range m a 4 = false).
  { intros m Hm. unfold Buffer.in_range. apply andb_false_iff. right. apply Z.leb_gt. lia. }
  unfold Emulator.bus_read32, Emulator.bus_write32. split; intros b s'; rewrite get_run, Hn;
    unfold Bus.read32, Bus.write32; cbn [Emulator.bus_devices]; rewrite window_route by done; intros E.
  - apply (f_equal fst) in E. cbv [bind get lift fst] in E. revert E.
    unfold VirtualSRAM.read32, VirtualSRAM.read_bytes.
    rewrite VirtualSRAM.check_bounds_small, Hin by (done || lia). done.
  - apply (f_equal fst) in E. revert E. unfold zoom, VirtualSRAM.write32, VirtualSRAM.write_bytes.
    change (zlen (le_bytes 4 v)) with 4.
    rewrite VirtualSRAM.check_bounds_small, Hin by (done || lia). done.
Qed.

Lemma private_scratchpad m s :
  private s -> blen m = blen s.(scratchpad_) -> private (Emulator.put_scratchpad m s).
Proof. intros [H1 H2] Hm. split; [done|]. cbn. by rewrite Hm. Qed.

Section Alone.
Context `{FloatOps} (path : HostPath).

(** A bus access that ends on a machine of its own is outside the window. *)
Lemma alone_bus_read32 a : alone (Emulator.bus_read32 a).
Proof.
  intros s b s' sh Hs Hb. destruct (in_window a) eqn:Hw.
  { by destruct (proj1 (private_window_faults a 0 s Hs Hw) b s'). }
  revert Hb. unfold Emulator.bus_read32. rewrite !get_run.
  rewrite (proj1 (bus_far (shared_ s) a Hw)), (proj1 (bus_far _ a Hw)).
  change Emulator.devices_ with (Emulator.bus_devices None).
  destruct (bus_cases None a) as [[-> _]|[[-> _]|[(m & ? & _)|[-> _]]]]; [..|done|].
  - unfold Emulator.timer_read. change (timer_ (Emulator.put_shared _ s)) with (timer_ s).
    destruct (TimerDevice.read_reg _ _) as [v t]. intros [= <- <-]. by destruct Hs.
  - revert s b s' sh Hs. change (alone (Emulator.uart_read a)). unfold Emulator.uart_read. alone_tac.
  - intros Hb. eapply (alone_get (fun s => lift (VirtualSRAM.read32 s.(scratchpad_) a)));
      [reflexivity|intros; apply alone_lift|done..].
Qed.
Lemma alone_bus_write32 a v : alone (Emulator.bus_write32 a v).
Proof.
  intros s b s' sh Hs Hb. destruct (in_window a) eqn:Hw.
  { by destruct (proj2 (private_window_faults a v s Hs Hw) b s'). }
  revert Hb. unfold Emulator.bus_write32. rewrite !get_run.
  rewrite (proj2 (bus_far (shared_ s) a Hw)), (proj2 (bus_far _ a Hw)).
  change Emulator.devices_ with (Emulator.bus_devices None).
  destruct (bus_cases None a) as [[_ ->]|[[_ ->]|[(m & ? & _)|[_ ->]]]]; [..|done|].
  - revert s b s' sh Hs. change (alone (Emulator.timer_write a v)). unfold Emulator.timer_write. alone_tac.
  - unfold Emulator.uart_write. change (uart_ (Emulator.put_shared _ s)) with (uart_ s).
    destruct (UartDevice.write_reg _ _ _) as [u l]. intros [= <- <-]. by destruct Hs.
  - intros Hb. eapply alone_zoom; [reflexivity| |reflexivity|done..].
    intros t Ht. apply private_scratchpad; [done|]. apply VirtualSRAM.write_bytes_blen.
Qed.
Lemma alone_take_trap t : alone (Emulator.take_trap t).
Proof.
  intros s b s' sh Hs. unfold Emulator.take_trap, modify.
  change (csr_ (Emulator.put_shared _ s)) with (csr_ s).
  change (intc_ (Emulator.put_shared _ s)) with (intc_ s).
  destruct (InterruptController.take_trap t _ _) as [[? ?] ?]. intros [= <- <-]. by destruct Hs.
Qed.
Lemma alone_write_scratchpad a l :
  alone (zoom scratchpad_ Emulator.put_scratchpad (VirtualSRAM.write_bytes a l)).
Proof.
  apply alone_zoom; [reflexivity| |reflexivity].
  intros s Hs. apply private_scratchpad; [done|]. apply VirtualSRAM.write_bytes_blen.
Qed.
Lemma alone_copy_to_scratchpad d sr n : alone (Emulator.copy_to_scratchpad d sr n).
Proof.
  intros s b s' sh Hs. unfold Emulator.copy_to_scratchpad. rewrite !get_run.
  change (scratchpad_ (Emulator.put_shared _ s)) with (scratchpad_ s).
  change (main_ram_ (Emulator.put_shared _ s)) with (main_ram_ s).
  case_match; [|done]. unfold modify. intros [= <- <-].
  split; [|done]. apply private_scratchpad; [done|]. apply Buffer.blen_poke.
Qed.
#[local] Hint Resolve alone_bus_read32 alone_bus_write32 alone_take_trap alone_write_scratchpad
  alone_copy_to_scratchpad : alone.

Lemma alone_read_gpr i : alone (Emulator.read_gpr i).
Proof. unfold Emulator.read_gpr. alone_tac. Qed.
Lemma alone_write_gpr i v : alone (Emulator.write_gpr i v).
Proof. unfold Emulator.write_gpr. alone_tac. Qed.
Lemma alone_vr_data i : alone (Emulator.vr_data i).
Proof. unfold Emulator.vr_data. alone_tac. Qed.
Lemma alone_set_pc p : alone (Emulator.set_pc p).
Proof. unfold Emulator.set_pc. alone_tac. Qed.
Lemma alone_advance_pc : alone Emulator.advance_pc.
Proof. unfold Emulator.advance_pc. alone_tac. Qed.
Lemma alone_prev_pc : alone Emulator.prev_pc.
Proof. unfold Emulator.prev_pc. alone_tac. Qed.
Lemma alone_mmu_translate va w f : alone (Emulator.mmu_translate va w f).
Proof. unfold Emulator.mmu_translate. alone_tac. Qed.
Lemma alone_axi_issue a n w : alone (Emulator.axi_issue a n w).
Proof. unfold Emulator.axi_issue. alone_tac. Qed.
#[local] Hint Resolve alone_read_gpr alone_write_gpr alone_vr_data alone_set_pc alone_advance_pc
  alone_prev_pc alone_mmu_translate alone_axi_issue : alone.
Lemma alone_trap_to_mtvec t : alone (Emulator.trap_to_mtvec t).
Proof. unfold Emulator.trap_to_mtvec. alone_tac. Qed.
Lemma alone_effective_address i : alone (Emulator.effective_address i).
Proof. unfold Emulator.effective_address. alone_tac. Qed.
#[local] Hint Resolve alone_trap_to_mtvec alone_effective_address : alone.
Lemma alone_dma_addresses d sr k : alone (Emulator.dma_addresses d sr k).
Proof. unfold Emulator.dma_addresses. alone_tac. Qed.
Lemma alone_branch_if b i c : alone (Emulator.branch_if b i c).
Proof. unfold Emulator.branch_if. alone_tac. Qed.
#[local] Hint Resolve alone_dma_addresses alone_branch_if : alone.

Lemma alone_dispatch op h i : Emulator.dispatch_table_ path op = Some h -> alone (h i).
Proof.
  unfold Emulator.dispatch_table_. intros Hh. destruct (opcode_of op) as [[]|]; [..|done];
    injection Hh as <-;
    unfold Emulator.op_nop, Emulator.op_halt, Emulator.op_jmp, Emulator.op_beq, Emulator.op_bne,
      Emulator.op_add, Emulator.op_sub, Emulator.op_mul, Emulator.op_load, Emulator.op_store,
      Emulator.op_mov, Emulator.op_movi, Emulator.op_load_vr, Emulator.op_store_vr,
      Emulator.op_vec_add, Emulator.op_matmul_tile, Emulator.op_dma_load, Emulator.op_dma_store,
      Emulator.set_overflow, Emulator.update_flags, Emulator.copy_to_main_ram; alone_tac.
Qed.
Lemma alone_execute i : alone (Emulator.execute path i).
Proof.
  unfold Emulator.execute. destruct (Emulator.dispatch_table_ _ _) as [h|] eqn:Hd; [|alone_tac].
  alone_step; [by eapply alone_dispatch|alone_tac].
Qed.
Lemma alone_fetch : alone Emulator.fetch.
Proof. unfold Emulator.fetch. alone_tac. Qed.
Lemma alone_service_interrupt : alone Emulator.service_interrupt.
Proof. unfold Emulator.service_interrupt. alone_tac. Qed.

Lemma alone_ticks n s :
  (forall o, Emulator.tick_loop n (Emulator.put_shared o s) = Emulator.put_shared o (Emulator.tick_loop n s)) /\
  (private s -> private (Emulator.tick_loop n s)).
Proof.
  revert s. induction n as [|n IH]; intros s; [done|]. cbn [Emulator.tick_loop].
  destruct (IH (Emulator.tick_once s)) as [IH1 IH2]. split.
  - intros o. change (tick_accum_ (Emulator.put_shared o s)) with (tick_accum_ s).
    case_match; [|done]. apply IH1.
  - intros Hs. case_match; [|done]. by apply IH2.
Qed.
#[local] Hint Resolve alone_execute alone_fetch alone_service_interrupt : alone.
Lemma alone_step_ok : alone (Emulator.step path).
Proof.
  unfold Emulator.step, Emulator.remember, Emulator.log_step, Emulator.print.
  repeat lazymatch goal with
  | |- alone (modify Emulator.tick_peripherals) =>
      apply alone_modify; [intros ?; apply alone_ticks|intros ? ?; apply alone_ticks]
  | |- _ => alone_step
  end.
Qed.

Lemma alone_quantum n : alone (Cluster.quantum_steps path n).
Proof.
  induction n as [|n IH]; [apply alone_ret|]. cbn [Cluster.quantum_steps].
  apply alone_get; [reflexivity|intros s]. case_match; [apply alone_ret|].
  apply alone_bind; [apply alone_step_ok|done].
Qed.
End Alone.

(** ** Steps and halting *)
Section Steps.
Context `{FloatOps} (path : HostPath).

Lemma quantum_halted n s : Emulator.halted s = true -> Cluster.quantum_steps path n s = (Ok tt, s).
Proof. intros Hh. destruct n; [done|]. cbn [Cluster.quantum_steps]. by rewrite get_run, Hh. Qed.
Lemma quantum_add n m s :
  Cluster.quantum_steps path (n + m) s =
  bind (Cluster.quantum_steps path n) (fun _ => Cluster.quantum_steps path m) s.
Proof.
  revert s. induction n as [|n IH]; intros s; [done|]. cbn [Nat.add Cluster.quantum_steps].
  rewrite bind_assoc, !get_run. destruct (Emulator.halted s) eqn:Hh.
  - by rewrite (bind_ok (ret tt) _ s tt s eq_refl), quantum_halted.
  - rewrite bind_assoc. unfold bind at 1 2. destruct (Emulator.step path s) as [[[]| |] s1]; [apply IH|done..].
Qed.

(** A run that reaches step [n] reached every step before it. *)
Lemma quantum_prefix n m s s' :
  (m <= n)%nat -> Cluster.quantum_steps path n s = (Ok tt, s') ->
  exists s1, Cluster.quantum_steps path m s = (Ok tt, s1) /\
    Cluster.quantum_steps path (n - m) s1 = (Ok tt, s').
Proof.
  intros Hm Hn. replace n with (m + (n - m))%nat in Hn by lia. rewrite quantum_add in Hn.
  unfold bind in Hn. destruct (Cluster.quantum_steps path m s) as [[[]| |] s1]; [by exists s1|done..].
Qed.
(** A run that has halted is over. *)
Lemma quantum_final n m s e :
  (m <= n)%nat -> Cluster.quantum_steps path m s = (Ok tt, e) -> Emulator.halted e = true ->
  Cluster.quantum_steps path n s = (Ok tt, e).
Proof.
  intros Hm He Hh. replace n with (m + (n - m))%nat by lia. rewrite quantum_add.
  by rewrite (bind_ok _ _ _ _ _ He), quantum_halted.
Qed.

(** A loop over the cores, by an invariant of the cores done. *)
Lemma for_cores_rule (P : nat -> Cluster -> Prop) f n :
  (forall i c, (i < n)%nat -> P i c -> exists c', f i c = (Ok tt, c') /\ P (S i) c') ->
  forall m i c, (i + m = n)%nat -> P i c ->
  exists c', Cluster.for_cores f (seq i m) c = (Ok tt, c') /\ P n c'.
Proof.
  intros Hf m. induction m as [|m IH]; intros i c Hi HP.
  - exists c. split; [done|]. by replace n with i by lia.
  - cbn [seq Cluster.for_cores]. destruct (Hf i c ltac:(lia) HP) as (c1 & H1 & HP1).
    rewrite (bind_ok _ _ _ _ _ H1). apply IH; [lia|done].
Qed.
End Steps.

(** The sum of the cores' cycle counters. *)
Definition cycle_sum (l : list Emulator) : Z :=
  foldr (fun e z => Profiler.cycles e.(profiler_) + z) 0 l.
Lemma total_cycles_sum c : Cluster.total_cycles c = u64 (cycle_sum c.(cores_)).
Proof.
  unfold Cluster.total_cycles. assert (Hgo : forall l z,
    fold_left (fun s e => u64 (s + Profiler.cycles e.(profiler_))) l (u64 z) = u64 (z + cycle_sum l)).
  { induction l as [|e l IH]; intros z; cbn [fold_left cycle_sum foldr]; [f_equal; lia|].
    rewrite u64_add_l, IH. f_equal. fold (cycle_sum l). lia. }
  exact (Hgo _ 0).
Qed.
Lemma cycle_sum_insert l i e e' :
  l !! i = Some e -> cycle_sum (<[i := e']> l) =
  cycle_sum l + Profiler.cycles e'.(profiler_) - Profiler.cycles e.(profiler_).
Proof.
  revert i. induction l as [|x l IH]; intros [|i] Hl; [done..| |].
  - injection Hl as ->. change (<[0%nat := e']> (e :: l)) with (e' :: l). cbn [cycle_sum foldr]. lia.
  - change (<[S i := e']> (x :: l)) with (x :: <[i := e']> l). cbn [cycle_sum foldr].
    fold (cycle_sum l) (cycle_sum (<[i := e']> l)). rewrite (IH i Hl). lia.
Qed.

(** ** Cores that do not use the window *)
Definition unshare (e : Emulator) : Emulator := Emulator.put_shared None e.

Section Isolated.
Context `{FloatOps} (path : HostPath) (c0 : Cluster) (K : nat).
Let q : nat := Z.to_nat c0.(cl_cfg_).(cl_quantum).
Hypothesis tick_ok : c0.(deterministic_).(quantum_) <> 0.
Hypothesis halts_alone : forall i s, c0.(cores_) !! i = Some s ->
  s.(scratchpad_).(blen) <= Emulator.WINDOW_BASE /\
  exists s', Cluster.quantum_steps path (K * q) (unshare s) = (Ok tt, s') /\ Emulator.halted s' = true.

(** The cluster in which [k] rounds are over on the first [i] cores, [k - 1]
    on the others. *)
Definition rounds (k i : nat) (c : Cluster) : Prop :=
  c.(cl_cfg_) = c0.(cl_cfg_) /\ c.(shared_ram_) = c0.(shared_ram_) /\
  length c.(cores_) = length c0.(cores_) /\
  c.(deterministic_).(quantum_) = c0.(deterministic_).(quantum_) /\
  u64 c.(deterministic_).(global_clock_) =
    u64 (c0.(deterministic_).(global_clock_) + cycle_sum c.(cores_) - cycle_sum c0.(cores_)) /\
  forall j s, c0.(cores_) !! j = Some s -> exists e, c.(cores_) !! j = Some e /\
    private (unshare e) /\
    Cluster.quantum_steps path ((if decide (j < i)%nat then S k else k) * q) (unshare s)
      = (Ok tt, unshare e).

Lemma rounds_next k c : rounds k (length c0.(cores_)) c -> rounds (S k) 0 c.
Proof using Type.
  intros (H1 & H2 & H3 & H4 & H5 & H6). repeat split; try done. intros j s Hj.
  destruct (H6 j s Hj) as (e & He & Hp & Hq). exists e. repeat split; [done|apply Hp..|].
  apply lookup_lt_Some in Hj. rewrite decide_True in Hq by lia. by rewrite decide_False by lia.
Qed.

(** One more quantum of the solo run of core [i]. *)
Lemma next_quantum k i s e :
  (S k <= K)%nat -> c0.(cores_) !! i = Some s ->
  Cluster.quantum_steps path (k * q) (unshare s) = (Ok tt, unshare e) ->
  exists e', Cluster.quantum_steps path q (unshare e) = (Ok tt, e') /\
    Cluster.quantum_steps path (S k * q) (unshare s) = (Ok tt, e').
Proof using halts_alone.
  intros Hk Hs He. destruct (halts_alone i s Hs) as (_ & s' & Hs' & _).
  destruct (quantum_prefix path (K * q) (S k * q) _ _ ltac:(nia) Hs') as (e' & He' & _).
  exists e'. split; [|done]. replace (S k * q)%nat with (k * q + q)%nat in He' by lia.
  rewrite quantum_add in He'. by rewrite (bind_ok _ _ _ _ _ He) in He'.
Qed.

Lemma det_tick_run i n c :
  c.(deterministic_).(quantum_) <> 0 ->
  exists d, Cluster.det_tick i n c = (Ok tt, Cluster.put_deterministic d c) /\
    d.(quantum_) = c.(deterministic_).(quantum_) /\
    d.(global_clock_) = u64 (c.(deterministic_).(global_clock_) + n).
Proof using Type.
  intros Hq. assert (Ht : exists b d,
    DeterministicEngine.tick (u32 (Z.of_nat i)) n c.(deterministic_) = (Ok b, d) /\
    d.(quantum_) = c.(deterministic_).(quantum_) /\
    d.(global_clock_) = u64 (c.(deterministic_).(global_clock_) + n)).
  { destruct (deterministic_ c) as [qu g sq cl]. unfold DeterministicEngine.tick. cbn in Hq |- *.
    destruct (Z.eqb_spec qu 0) as [|_]; [done|]. by do 2 eexists. }
  destruct Ht as (b & d & Ht & Hd). exists d. split; [|done].
  exact (f_equal (fun x : outcome bool * DeterministicEngine =>
    bind (fun _ => let '(r, t) := x in (r, Cluster.put_deterministic t c)) (fun _ => ret tt) c) Ht).
Qed.

(** Core [i] finishes its quantum: its new state [x] is that of the solo run,
    and the clock moves with its cycles. *)
Lemma rounds_update k i c c' s e x :
  rounds k i c -> c0.(cores_) !! i = Some s -> c.(cores_) !! i = Some e ->
  c'.(cl_cfg_) = c.(cl_cfg_) -> c'.(shared_ram_) = c.(shared_ram_) ->
  c'.(cores_) = <[i := x]> c.(cores_) ->
  c'.(deterministic_).(quantum_) = c.(deterministic_).(quantum_) ->
  u64 c'.(deterministic_).(global_clock_) = u64 (u64 c.(deterministic_).(global_clock_)
    + (Profiler.cycles x.(profiler_) - Profiler.cycles e.(profiler_))) ->
  private (unshare x) ->
  Cluster.quantum_steps path (S k * q) (unshare s) = (Ok tt, unshare x) ->
  rounds k (S i) c'.
Proof using Type.
  intros (H1 & H2 & H3 & H4 & H5 & H6) Hs He Hcfg Hsh Hco Hqu Hcl Hp Hq.
  split; [congruence|]. split; [congruence|].
  split; [by rewrite Hco, length_insert|]. split; [congruence|]. split.
  - rewrite Hcl, H5, u64_add_l, Hco, (cycle_sum_insert _ _ _ _ He). f_equal. lia.
  - intros j t Hj. rewrite Hco. destruct (decide (j = i)) as [->|Hji].
    + exists x. rewrite list_lookup_insert_eq by (by apply lookup_lt_Some in He).
      rewrite decide_True by lia. split; [done|]. split; [done|]. congruence.
    + destruct (H6 j t Hj) as (y & Hy & Hpy & Hqy). exists y. rewrite list_lookup_insert_ne by done.
      split; [done|]. split; [done|]. destruct (decide (j < S i)%nat), (decide (j < i)%nat); (done || lia).
Qed.

(** The quantum of a core, run behind the window. *)
Lemma on_core_alone c i e e' n :
  c.(cores_) !! i = Some e -> private (unshare e) ->
  Cluster.quantum_steps path n (unshare e) = (Ok tt, e') ->
  private e' /\
  Cluster.on_core i (Cluster.quantum_steps path n) c =
    (Ok tt, Cluster.put_core i (Emulator.put_shared (Some c.(shared_ram_)) e') c).
Proof using Type.
  intros He Hp Hq. destruct (alone_quantum path n _ _ _ (shared_ram_ c) Hp Hq) as [Hp' Hrun].
  split; [done|]. unfold Cluster.on_core, Cluster.core. rewrite He. cbn [option_map].
  change (Emulator.put_shared (Some (shared_ram_ c)) (unshare e))
    with (Emulator.put_shared (Some (shared_ram_ c)) e) in Hrun. by rewrite Hrun.
Qed.

Lemma run_core_round k i c :
  (i < length c0.(cores_))%nat -> (S k <= K)%nat -> rounds k i c ->
  exists c', Cluster.run_core path i c = (Ok tt, c') /\ rounds k (S i) c'.
Proof using tick_ok halts_alone.
  intros Hi Hk Hc. pose proof Hc as (H1 & H2 & H3 & H4 & H5 & H6).
  destruct (lookup_lt_is_Some_2 _ _ Hi) as [s Hs].
  destruct (H6 i s Hs) as (e & He & Hp & Hq). rewrite decide_False in Hq by lia.
  destruct (next_quantum k i s e Hk Hs Hq) as (e' & Hq' & HSk).
  unfold Cluster.run_core. rewrite get_run. unfold Cluster.core_halted, Cluster.core_cycles. rewrite He.
  destruct (Emulator.halted e) eqn:Hh.
  - exists c. split; [done|]. rewrite quantum_halted in Hq' by done. injection Hq' as <-.
    eapply rounds_update with (x := e); try done; [by rewrite list_insert_id|].
    rewrite u64_add_l. f_equal. lia.
  - destruct (on_core_alone c i e e' q He Hp Hq') as [[Hn Hl] Hon].
    set (x := Emulator.put_shared (Some (shared_ram_ c)) e') in *.
    assert (Hx : unshare x = e') by (unfold unshare; change (Emulator.put_shared None e' = e'); by rewrite <- Hn).
    set (c1 := Cluster.put_core i x c) in *.
    rewrite H1. fold q. rewrite (bind_ok _ _ _ _ _ Hon), get_run.
    assert (Hc1 : c1.(cores_) !! i = Some x)
      by (apply list_lookup_insert_eq; by apply lookup_lt_Some in He).
    rewrite Hc1.
    destruct (det_tick_run i (u64 (Profiler.cycles x.(profiler_) - Profiler.cycles e.(profiler_))) c1)
      as (d & Hd & Hd1 & Hd2); [intros E; apply tick_ok; by rewrite <- H4|].
    exists (Cluster.put_deterministic d c1). split; [exact Hd|].
    eapply rounds_update with (x := x); try done; [|by rewrite Hx..].
    refine (eq_trans (f_equal u64 Hd2) _).
    by rewrite u64_add_r, (u64_small (u64 _)), u64_add_l by apply u64_fits.
Qed.

Lemma round_ok k c :
  (S k <= K)%nat -> rounds k 0 c ->
  exists c', Cluster.round path c = (Ok tt, c') /\ rounds (S k) 0 c'.
Proof using tick_ok halts_alone.
  intros Hk Hc. unfold Cluster.round, Cluster.each_core. rewrite get_run.
  destruct Hc as (H1 & H2 & H3 & H4).
  destruct (for_cores_rule (rounds k) (Cluster.run_core path) (length c0.(cores_))) with
    (m := length c.(cores_)) (i := 0%nat) (c := c) as (c' & Hr & Hc'); [|lia|by repeat split; try apply H4|].
  - intros i x Hi Hx. by apply run_core_round.
  - exists c'. split; [exact Hr|]. by apply rounds_next.
Qed.

Lemma rounds_start : rounds 0 0 c0.
Proof using halts_alone.
  repeat split; try done; [f_equal; lia|]. intros j s Hs. exists s. split; [done|].
  destruct (halts_alone j s Hs) as [Hl _]. by rewrite decide_False by lia.
Qed.

(** After [K] rounds every core has halted. *)
Lemma rounds_halted c : rounds K 0 c -> Cluster.all_halted c = true.
Proof using halts_alone.
  intros (_ & _ & Hl & _ & _ & Hc). apply forallb_forall. intros e He%list_elem_of_In.
  apply list_elem_of_lookup in He as [j Hj].
  destruct (lookup_lt_is_Some_2 c0.(cores_) j) as [s Hs].
  { rewrite <- Hl. by apply lookup_lt_Some in Hj. }
  destruct (Hc j s Hs) as (e' & He' & _ & Hq). rewrite decide_False in Hq by lia.
  destruct (halts_alone j s Hs) as (_ & s' & Hs' & Hh). rewrite Hs' in Hq. injection Hq as ->.
  rewrite He' in Hj. injection Hj as <-. exact Hh.
Qed.

(** The loop ends after [k] rounds, all cores halted or the budget spent. *)
Lemma run_loop_ok start max fuel k c :
  (k <= K)%nat -> (K - k <= fuel)%nat -> rounds k 0 c ->
  exists k' c', (k' <= K)%nat /\ Cluster.run_loop path fuel start max c = (Ok true, c') /\
    rounds k' 0 c' /\
    (Cluster.all_halted c' = true \/ max <= Cluster.elapsed start c').
Proof using tick_ok halts_alone.
  revert k c. induction fuel as [|fuel IH]; intros k c Hk Hf Hc; cbn [Cluster.run_loop]; rewrite get_run;
    destruct (Cluster.all_halted c) eqn:Hh; cbn [negb andb];
    try (exists k, c; split; [done|]; split; [done|]; split; [done|by left]).
  - assert (k = K) as -> by lia. rewrite rounds_halted in Hh by done. done.
  - destruct (Z.ltb_spec (Cluster.elapsed start c) max) as [Hm|Hm];
      [|exists k, c; split; [done|]; split; [done|]; split; [done|by right]].
    destruct (decide (k = K)) as [->|]; [rewrite rounds_halted in Hh by done; done|].
    destruct (round_ok k c ltac:(lia) Hc) as (c1 & H1 & Hc1).
    rewrite (bind_ok _ _ _ _ _ H1), get_run. destruct (Cluster.all_halted c1) eqn:Hh1.
    + exists (S k), c1. split; [lia|]. split; [done|]. split; [done|by left].
    + apply IH with (S k); [lia..|done].
Qed.
End Isolated.

(** ** Theorems *)

(** C38: cores that do not use the shared window are isolated. The clock's
    quantum is not zero (tick divides by it) and no scratchpad reaches the
    window at 0x80000000. If every core, run on a machine of its own with the
    same steps and no window, halts within [K] quanta without an exception,
    then the cluster's run returns (given [K] rounds of fuel): after some number
    [k <= K] of rounds all cores have halted or the cycle budget is spent, the
    shared memory is untouched, every core is in the state of [k] quanta of its
    own run, whatever the other cores do, which is its final state once all have
    halted, and the deterministic clock has advanced by the cycles the cores
    have counted. *)
Theorem cluster_isolated `{FloatOps} path c K max fuel :
  let q := Z.to_nat c.(cl_cfg_).(cl_quantum) in
  c.(deterministic_).(quantum_) <> 0 ->
  (forall i s, c.(cores_) !! i = Some s -> s.(scratchpad_).(blen) <= Emulator.WINDOW_BASE /\
    exists s', Cluster.quantum_steps path (K * q) (unshare s) = (Ok tt, s') /\
      Emulator.halted s' = true) ->
  (K <= fuel)%nat ->
  exists k c', (k <= K)%nat /\ Cluster.run path fuel max c = (Ok true, c') /\
    c'.(shared_ram_) = c.(shared_ram_) /\ length c'.(cores_) = length c.(cores_) /\
    u64 c'.(deterministic_).(global_clock_) =
      u64 (c.(deterministic_).(global_clock_) + Cluster.total_cycles c' - Cluster.total_cycles c) /\
    (Cluster.all_halted c' = true \/ max <= Cluster.elapsed c.(deterministic_).(global_clock_) c') /\
    forall i s, c.(cores_) !! i = Some s -> exists e, c'.(cores_) !! i = Some e /\
      Cluster.quantum_steps path (k * q) (unshare s) = (Ok tt, unshare e) /\
      (Cluster.all_halted c' = true ->
       Cluster.quantum_steps path (K * q) (unshare s) = (Ok tt, unshare e)).
Proof.
  intros q Hq Ha Hf.
  destruct (run_loop_ok path c K Hq Ha c.(deterministic_).(global_clock_) max fuel 0 c)
    as (k & c' & Hk & Hr & (H1 & H2 & H3 & H4 & H5 & H6) & Hend); [lia..|by eapply rounds_start|].
  exists k, c'. split; [done|]. split; [unfold Cluster.run; by rewrite get_run|].
  split; [done|]. split; [done|]. split.
  - rewrite H5, !total_cycles_sum. 
    rewrite u64_sub_r. replace (_ + u64 (cycle_sum (cores_ c')) - _) with
      (c.(deterministic_).(global_clock_) - cycle_sum (cores_ c) + u64 (cycle_sum (cores_ c'))) by lia.
    rewrite u64_add_r. f_equal. lia.
  - split; [done|]. intros i s Hs. destruct (H6 i s Hs) as (e & He & _ & Hqe).
    rewrite decide_False in Hqe by lia. exists e. split; [done|]. split; [done|].
    intros Hall. apply quantum_final with (k * q)%nat; [unfold q; nia|done|].
    change (Emulator.halted (unshare e)) with (Emulator.halted e).
    unfold Cluster.all_halted in Hall. rewrite forallb_forall in Hall.
    apply Hall, list_elem_of_In. by apply list_elem_of_lookup_2 with i.
Qed.

(** Deciding that the cores halt within [n] steps of their own. *)
Definition solo_halts `{FloatOps} (path : HostPath) (n : nat) (s : Emulator) : bool :=
  (s.(scratchpad_).(blen) <=? Emulator.WINDOW_BASE) &&
  match Cluster.quantum_steps path n (unshare s) with
  | (Ok _, s') => Emulator.halted s'
  | _ => false
  end.
Lemma solo_halts_ok `{FloatOps} path n (l : list Emulator) :
  forallb (solo_halts path n) l = true ->
  forall i s, l !! i = Some s -> s.(scratchpad_).(blen) <= Emulator.WINDOW_BASE /\
    exists s', Cluster.quantum_steps path n (unshare s) = (Ok tt, s') /\ Emulator.halted s' = true.
Proof.
  rewrite forallb_forall. intros Hl i s Hs.
  specialize (Hl s (proj1 (list_elem_of_In _ _) (list_elem_of_lookup_2 _ _ _ Hs))).
  apply andb_prop in Hl as [H1%Z.leb_le H2]. split; [done|].
  destruct (Cluster.quantum_steps path n (unshare s)) as [[[]| |] s']; [by exists s'|done..].
Qed.

(** Two cores with different programs, interleaved in quanta of two steps. *)
Definition countdown : list Z :=
  [enc.movi 1 3; enc.movi 2 1; enc.sub 1 1 2; enc.bne 1 0 (-8); enc.halt].
Definition two_cores : Cluster :=
  match Cluster.create (mkClusterConfig 2 256 64 2) with
  | Ok c => (bind (Cluster.on_core 0 (Emulator.load_program countdown))
              (fun _ => Cluster.on_core 1 (Emulator.load_program [enc.movi 1 9; enc.halt])) c).2
  | _ => mkCluster (mkClusterConfig 0 0 0 0) [] (Buffer.make 0)
           (mkCache (mkCacheConfig 0 0 0 MESI 0 0) [] 0 Cache.no_stats)
           (Interconnect.make Cluster.cluster_bus_config) (DeterministicEngine.make 1)
  end.

Lemma cluster_isolated_witness :
  exists k c', (k <= 10)%nat /\ Cluster.run PathScalar 20 1000 two_cores = (Ok true, c') /\
    c'.(shared_ram_) = Buffer.make 64 /\ length c'.(cores_) = 2%nat.
Proof.
  destruct (cluster_isolated PathScalar two_cores 10 1000 20) as (k & c' & H1 & H2 & H3 & H4 & _).
  - vm_compute. congruence.
  - apply solo_halts_ok. vm_compute. reflexivity.
  - lia.
  - exists k, c'. split; [done|]. split; [done|]. split; [rewrite H3|rewrite H4]; vm_compute; reflexivity.
Defined.

(** Run to the end, the two programs are finished and the shared memory is as
    before. *)
Example two_cores_run :
  let c := (Cluster.run PathScalar 20 1000 two_cores).2 in
  Cluster.all_halted c = true /\ map (fun e => (RegisterFile.read_gpr e.(regs_) 1)) c.(cores_) = [Some 0; Some 9] /\
  Cluster.report c = "Cluster 2 cores shared_ram=0KB det_clock=14 total_cyc=14 total_instr=11"%string.
Proof. vm_compute. done. Qed.

(** ** The invariant of a cluster *)

(** Every core, with the memory behind its window, is well formed, and the
    shared memory covers the window. *)
Definition cluster_wf (c : Cluster) : Prop :=
  window_ok (Some c.(shared_ram_)) /\
  forall i e, Cluster.core i c = Some e -> emu_wf e.
Notation keepsC := (keeps cluster_wf).

Lemma core_lookup i e c :
  Cluster.core i c = Some e <->
  exists e0, c.(cores_) !! i = Some e0 /\ e = Emulator.put_shared (Some c.(shared_ram_)) e0.
Proof.
  unfold Cluster.core. destruct (cores_ c !! i) as [e0|]; cbn; split.
  - intros [= <-]. by exists e0.
  - by intros (x & [= <-] & ->).
  - done.
  - by intros (x & ? & _).
Qed.

Lemma put_core_wf i e c : cluster_wf c -> emu_wf e -> cluster_wf (Cluster.put_core i e c).
Proof.
  intros [Hw Hc] He. set (m := default (shared_ram_ c) (shared_ e)).
  assert (Hm : window_ok (Some m)).
  { pose proof (wf_shared e He) as H. subst m. by destruct (shared_ e). }
  split; [exact Hm|]. intros j x (e0 & Hj & ->)%core_lookup.
  change (cores_ (Cluster.put_core i e c)) with (<[i := e]> (cores_ c)) in Hj.
  change (shared_ram_ (Cluster.put_core i e c)) with m.
  apply list_lookup_insert_Some in Hj as [(<- & <- & _)|[_ Hj]].
  - by apply put_shared_wf.
  - apply (put_shared_wf (Emulator.put_shared (Some (shared_ram_ c)) e0)); [|done].
    apply Hc with j. apply core_lookup. by exists e0.
Qed.
Lemma on_core_keeps {A} i (m : M Emulator A) (Q : A -> Prop) :
  keepsE m Q -> keepsC (Cluster.on_core i m) Q.
Proof.
  intros Hm c Hc. unfold Cluster.on_core. destruct (Cluster.core i c) as [e|] eqn:He; [|done].
  destruct (Hm e (proj2 Hc i e He)) as [H1 H2]. destruct (m e) as [r e']. cbn in *.
  split; [by apply put_core_wf|done].
Qed.
Lemma for_cores_keeps f l : (forall i, keepsC (f i) (fun _ => True)) -> keepsC (Cluster.for_cores f l) (fun _ => True).
Proof.
  intros Hf. induction l as [|i l IH]; cbn [Cluster.for_cores]; [by apply keeps_ret|].
  eapply keeps_bind; [apply Hf|done].
Qed.
Lemma each_core_keeps f : (forall i, keepsC (f i) (fun _ => True)) -> keepsC (Cluster.each_core f) (fun _ => True).
Proof. intros Hf. eapply keeps_bind; [apply keeps_get|]. intros c _. by apply for_cores_keeps. Qed.
Lemma det_tick_keeps i n : keepsC (Cluster.det_tick i n) (fun _ => True).
Proof.
  apply (keeps_bind _ _ _ (fun _ => True)); [|intros; by apply keeps_ret].
  intros c Hc. unfold zoom. destruct (DeterministicEngine.tick _ _ _) as [r d].
  split; [exact Hc|done].
Qed.

Section Invariant.
Context `{FloatOps} (path : HostPath).

Lemma quantum_keeps n : keepsE (Cluster.quantum_steps path n) (fun _ => True).
Proof.
  induction n as [|n IH]; [by apply keeps_ret|]. cbn [Cluster.quantum_steps].
  eapply keeps_bind; [apply keeps_get|]. intros s _. case_match; [by apply keeps_ret|].
  eapply keeps_bind; [apply step_keeps|done].
Qed.
Lemma run_core_keeps i : keepsC (Cluster.run_core path i) (fun _ => True).
Proof.
  eapply keeps_bind; [apply keeps_get|]. intros c _. case_match; [by apply keeps_ret|].
  eapply keeps_bind; [apply on_core_keeps, quantum_keeps|]. intros _ _.
  eapply keeps_bind; [apply keeps_get|]. intros; apply det_tick_keeps.
Qed.
Lemma cluster_run_keeps fuel max : keepsC (Cluster.run path fuel max) (fun _ => True).
Proof.
  eapply keeps_bind; [apply keeps_get|]. intros c0 _.
  induction fuel as [|fuel IH]; cbn [Cluster.run_loop];
    (eapply keeps_bind; [apply keeps_get|]); intros c _; (case_match; [|by apply keeps_ret]);
    [by apply keeps_ret|].
  eapply keeps_bind; [apply each_core_keeps; intros; apply run_core_keeps|]. intros _ _.
  eapply keeps_bind; [apply keeps_get|]. intros c1 _. case_match; [by apply keeps_ret|exact IH].
Qed.
Lemma fast_cores_keeps fuel l : keepsC (Cluster.fast_cores path fuel l) (fun _ => True).
Proof.
  induction l as [|i l IH]; cbn [Cluster.fast_cores]; [by apply keeps_ret|].
  eapply keeps_bind; [apply keeps_get|]. intros c _. case_match; [done|].
  eapply keeps_bind; [apply on_core_keeps, run_fast_keeps|]. intros b _.
  case_match; [done|by apply keeps_ret].
Qed.
Lemma cluster_run_fast_keeps fuel max : keepsC (Cluster.run_fast path fuel max) (fun _ => True).
Proof.
  eapply keeps_bind; [apply keeps_get|]. intros c0 _. 
  induction fuel as [|fuel IH]; cbn [Cluster.run_fast_loop];
    (eapply keeps_bind; [apply keeps_get|]); intros c _; (case_match; [|by apply keeps_ret]);
    [by apply keeps_ret|].
  eapply keeps_bind; [apply fast_cores_keeps|]. intros b _. case_match; [|by apply keeps_ret].
  eapply keeps_bind; [apply det_tick_keeps|]. intros _ _.
  eapply keeps_bind; [apply keeps_get|]. intros c1 _. case_match; [by apply keeps_ret|exact IH].
Qed.
Lemma step_all_keeps : keepsC (Cluster.step_all path) (fun _ => True).
Proof.
  apply each_core_keeps. intros i. eapply keeps_bind; [apply keeps_get|]. intros c _.
  case_match; [by apply keeps_ret|]. apply on_core_keeps, step_keeps.
Qed.
End Invariant.

(** ** The other public operations *)

(** An operation that changes some of the cores by [g]. *)
Lemma cores_wf (g : Emulator -> Emulator) c c' :
  (forall o x, Emulator.put_shared o (g x) = g (Emulator.put_shared o x)) ->
  (forall x, emu_wf x -> emu_wf (g x)) ->
  c'.(shared_ram_) = c.(shared_ram_) ->
  (forall j e, c'.(cores_) !! j = Some e -> exists x, c.(cores_) !! j = Some x /\ (e = x \/ e = g x)) ->
  cluster_wf c -> cluster_wf c'.
Proof.
  intros Hput Hg Hs Hl [Hw Hc]. split; [by rewrite Hs|]. intros j e (e0 & Hj & ->)%core_lookup.
  destruct (Hl j e0 Hj) as (x & Hx & He0).
  assert (He : emu_wf (Emulator.put_shared (Some (shared_ram_ c)) x)).
  { apply Hc with j. apply core_lookup. by exists x. }
  rewrite Hs. destruct He0 as [->| ->]; [done|]. rewrite Hput. by apply Hg.
Qed.

Lemma flush_others_lookup va k c j :
  (Cluster.flush_others va k c).(cores_) !! j =
  (fun e => if (j =? k)%nat then e else Cluster.flush_va va e) <$> c.(cores_) !! j.
Proof. apply list_lookup_imap. Qed.
Lemma flush_others_wf va k c : cluster_wf c -> cluster_wf (Cluster.flush_others va k c).
Proof.
  apply (cores_wf (Cluster.flush_va va)); [done| |done|].
  - intros x Hx. apply put_mmu_wf; [done|]. destruct (wf_mmu x Hx) as [H1 H2].
    split; [exact (eq_trans (length_map _ _) H1)|exact H2].
  - intros j e Hj. rewrite flush_others_lookup in Hj.
    destruct (cores_ c !! j) as [x|]; [|done]. injection Hj as <-. exists x. split; [done|].
    destruct (j =? k)%nat; [by left|by right].
Qed.

Definition raise_soft (e : Emulator) : Emulator :=
  { e with intc_ := InterruptController.raise_soft e.(intc_) }.
Lemma send_ipi_lookup i c j :
  (Cluster.send_ipi i c).(cores_) !! j =
  (fun e => if decide (j = i) then raise_soft e else e) <$> c.(cores_) !! j.
Proof.
  change (alter raise_soft i c.(cores_) !! j =
    (fun e => if decide (j = i) then raise_soft e else e) <$> c.(cores_) !! j).
  destruct (decide (j = i)) as [->|Hj].
  - apply list_lookup_alter_eq.
  - rewrite list_lookup_alter_ne by done. by destruct (cores_ c !! j).
Qed.
Lemma send_ipi_wf i c : cluster_wf c -> cluster_wf (Cluster.send_ipi i c).
Proof.
  apply (cores_wf raise_soft); [done| |done|].
  - intros x []. split; cbn; auto. destruct wf_intc. split; cbn; auto with novium.
  - intros j e Hj. rewrite send_ipi_lookup in Hj.
    destruct (cores_ c !! j) as [x|]; [|done]. injection Hj as <-. exists x. split; [done|].
    destruct (decide (j = i)); [by right|by left].
Qed.

(** What a client of the class can do.  The cores are reached through
    [core(i)], so every call of [api_step] on one of them is a call here, and
    the memory through [shared_ram()].  The second-level cache, the fabric and
    the clock are handed out by reference and hold nothing the cores read: a
    client leaves them in any state. *)
Inductive cluster_api `{FloatOps} (path : HostPath) : Cluster -> Cluster -> Prop :=
  | cl_run n m c : cluster_api path c (Cluster.run path n m c).2
  | cl_run_fast n m c : cluster_api path c (Cluster.run_fast path n m c).2
  | cl_step_all c : cluster_api path c (Cluster.step_all path c).2
  | cl_load ws c : cluster_api path c (Cluster.load_program_all ws c).2
  | cl_core i e e' c : Cluster.core i c = Some e -> api_step path e e' ->
      cluster_api path c (Cluster.put_core i e' c)
  | cl_snoop a k c : cluster_api path c (Cluster.snoop_invalidate a k c)
  | cl_shootdown a k c : cluster_api path c (Cluster.tlb_shootdown a k c)
  | cl_ipi i c : cluster_api path c (Cluster.send_ipi i c)
  | cl_shared_ram m c : ram_call c.(shared_ram_) m -> cluster_api path c { c with shared_ram_ := m }
  | cl_shared_l2 l2 c : cluster_api path c { c with shared_l2_ := l2 }
  | cl_interconnect f c : cluster_api path c { c with cluster_bus_ := f }
  | cl_clock d c : cluster_api path c (Cluster.put_deterministic d c).

(** A write to the shared memory from outside. *)
Lemma shared_ram_wf m c :
  cluster_wf c -> ram_call c.(shared_ram_) m -> cluster_wf { c with shared_ram_ := m }.
Proof.
  intros [Hw Hc] Hm. assert (Hm' : window_ok (Some m)).
  { intros ? [= <-]. destruct (Hw _ eq_refl) as [H1 H2].
    split; [by eapply component_keeps|]. by rewrite (ram_call_blen _ _ Hm). }
  split; [exact Hm'|]. intros i e (e0 & Hi & ->)%core_lookup.
  assert (He : emu_wf (Emulator.put_shared (Some (shared_ram_ c)) e0)).
  { apply Hc with i. apply core_lookup. by exists e0. }
  exact (put_shared_wf _ (Some m) He Hm').
Qed.

Lemma cluster_api_wf `{FloatOps} path c c' : cluster_wf c -> cluster_api path c c' -> cluster_wf c'.
Proof.
  intros Hc Hst. destruct Hst.
  - by apply cluster_run_keeps.
  - by apply cluster_run_fast_keeps.
  - by apply step_all_keeps.
  - apply each_core_keeps; [|done]. intros i. apply on_core_keeps, load_program_keeps.
  - apply put_core_wf; [done|]. eapply component_keeps; [|done]. by eapply Hc.
  - by apply flush_others_wf.
  - by apply flush_others_wf.
  - by apply send_ipi_wf.
  - by apply shared_ram_wf.
  - exact Hc.
  - exact Hc.
  - exact Hc.
Qed.

Lemma cluster_create_wf cfg c :
  fits 64 cfg.(scratchpad_per_core) -> fits 64 cfg.(shared_bytes) ->
  Emulator.WINDOW_SIZE + 3 <= cfg.(shared_bytes) ->
  Cluster.create cfg = Ok c -> cluster_wf c.
Proof.
  intros H1 H2 H3. unfold Cluster.create. destruct (Cache.configure _) as [l2| |]; [|done..].
  intros <-%Ok_inj.
  assert (Hw : window_ok (Some (Buffer.make cfg.(shared_bytes)))).
  { intros ? [= <-]. split; [by apply Buffer.wf_make|done]. }
  split; [exact Hw|]. intros i e (e0 & Hi & ->)%core_lookup.
  apply lookup_replicate in Hi as [-> _]. apply put_shared_wf; [|exact Hw].
  apply put_shared_wf; [|exact Hw]. by apply create_wf.
Qed.

Lemma unshare_insert l i e x :
  l !! i = Some e -> unshare x = unshare e -> map unshare (<[i := x]> l) = map unshare l.
Proof.
  intros Hl Hx. change (unshare <$> <[i := x]> l = unshare <$> l).
  rewrite list_fmap_insert, Hx. apply list_insert_id. by rewrite list_lookup_fmap, Hl.
Qed.

(** An address of the window goes to the shared memory. *)
Lemma bus_window m a :
  in_window a = true ->
  Bus.route (Emulator.bus_devices (Some m)) a =
    Some (mkDevice Emulator.WINDOW_BASE Emulator.WINDOW_SIZE
            (Some (Emulator.window_read m)) (Some (Emulator.window_write m))).
Proof.
  intros Hw. pose proof (window_route a Hw) as Hr. unfold Bus.route in *.
  assert (Hm : Bus.is_mmio a = true).
  { apply Z.leb_le. apply in_window_range in Hw. unfold Emulator.WINDOW_BASE, MMIO_BASE in *. lia. }
  rewrite Hm in *. cbn [Emulator.bus_devices]. unfold Bus.add_device at 1. rewrite find_app, Hr.
  cbn [List.find]. assert (Hh : forall rd wr, Bus.holds a (mkDevice (S := Emulator) Emulator.WINDOW_BASE Emulator.WINDOW_SIZE rd wr) = true).
  { intros. exact Hw. }
  by rewrite Hh.
Qed.

(** C39: every state of a cluster that its public operations reach is well
    formed. From a new cluster whose shared memory covers the window and the
    three bytes after it, by any sequence of quantum runs, fast runs, single
    steps, loads, shootdowns, snoops, software interrupts, writes to the shared
    memory, changes of the shared cache, the fabric and the clock, and calls on
    single cores (every call of the emulator's interface as in C1, paging,
    traps and fabric configuration included, and under the same exceptions),
    whichever of them throw, every core with the shared memory behind its
    window satisfies the emulator's invariant, and the shared memory still
    covers the window. *)
Theorem cluster_reachable_wf `{FloatOps} path cfg c c' :
  fits 64 cfg.(scratchpad_per_core) -> fits 64 cfg.(shared_bytes) ->
  Emulator.WINDOW_SIZE + 3 <= cfg.(shared_bytes) ->
  Cluster.create cfg = Ok c -> rtc (cluster_api path) c c' ->
  forall i e, Cluster.core i c' = Some e ->
    emu_wf e /\ e.(shared_) = Some c'.(shared_ram_) /\ Emulator.WINDOW_SIZE + 3 <= c'.(shared_ram_).(blen).
Proof.
  intros H1 H2 H3 Hc Hr. assert (Hw : cluster_wf c').
  { apply (cluster_create_wf cfg c H1 H2 H3) in Hc. induction Hr as [|x y z Hxy _ IH]; [done|].
    apply IH. by eapply cluster_api_wf. }
  intros i e He. split; [by eapply Hw|]. apply core_lookup in He as (e0 & _ & ->). split; [done|].
  apply (proj1 Hw _ eq_refl).
Qed.

(** the window is one memory. In a well-formed cluster a store by any
    core to any address of the window succeeds, and every core, that one
    included, then loads the stored word from that address; the other bytes of
    the shared memory and everything else in every core stay as they were. *)
Theorem cluster_shared c i j a v :
  cluster_wf c -> (i < length c.(cores_))%nat -> (j < length c.(cores_))%nat ->
  fits 32 v -> in_window a = true ->
  exists c1 c2, Cluster.on_core i (Emulator.bus_write32 a v) c = (Ok tt, c1) /\
    Cluster.on_core j (Emulator.bus_read32 a) c1 = (Ok v, c2) /\
    c2.(shared_ram_) = c1.(shared_ram_) /\
    (forall k, k < a - Emulator.WINDOW_BASE \/ a - Emulator.WINDOW_BASE + 4 <= k ->
       Buffer.byte_at c1.(shared_ram_) k = Buffer.byte_at c.(shared_ram_) k) /\
    map unshare c2.(cores_) = map unshare c.(cores_).
Proof.
  intros [Hw Hc] Hi Hj Hv Ha. set (off := u32 (a - Emulator.WINDOW_BASE)).
  assert (Hoff : off = a - Emulator.WINDOW_BASE).
  { apply in_window_range in Ha. unfold off, Emulator.WINDOW_BASE, Emulator.WINDOW_SIZE in *.
    apply u32_small. unfold fits. lia. }
  destruct (lookup_lt_is_Some_2 _ _ Hi) as [e He].
  set (sh := shared_ram_ c) in *. set (sh' := Buffer.poke sh off (le_bytes 4 v)).
  set (c1 := Cluster.put_core i (Emulator.put_shared (Some sh') e) c).
  assert (Hst : Cluster.on_core i (Emulator.bus_write32 a v) c = (Ok tt, c1)).
  { unfold Cluster.on_core, Cluster.core. rewrite He. cbn [option_map].
    unfold Emulator.bus_write32. rewrite get_run.
    change (shared_ (Emulator.put_shared (Some (shared_ram_ c)) e)) with (Some sh).
    unfold Bus.write32. rewrite bus_window by done. cbn [write].
    rewrite (window_write_run (Some sh) sh a v _ Hw eq_refl Ha). reflexivity. }
  destruct (lookup_lt_is_Some_2 c1.(cores_) j) as [ej Hej].
  { change (cores_ c1) with (<[i := Emulator.put_shared (Some sh') e]> (cores_ c)). by rewrite length_insert. }
  assert (Hw' : window_ok (Some sh')).
  { intros ? [= <-]. destruct (Hw sh eq_refl). split; [|done].
    apply Buffer.wf_poke; [done|exact (le_bytes_bytes 4 v)]. }
  assert (Hld : Cluster.on_core j (Emulator.bus_read32 a) c1 =
    (Ok v, Cluster.put_core j (Emulator.put_shared (Some sh') ej) c1)).
  { unfold Cluster.on_core, Cluster.core. rewrite Hej. cbn [option_map].
    change (shared_ram_ c1) with sh'. unfold Emulator.bus_read32. rewrite get_run.
    change (shared_ (Emulator.put_shared (Some sh') ej)) with (Some sh').
    unfold Bus.read32. rewrite bus_window by done. cbn [read].
    rewrite (window_read_run (Some sh') sh' a _ Hw' eq_refl Ha). fold off.
    assert (Hpk : Buffer.peek sh' off 4 = le_bytes 4 v) by exact (Buffer.peek_poke sh off (le_bytes 4 v)).
    rewrite Hpk, le_val_bytes. by rewrite (Z.mod_small v). }
  exists c1, (Cluster.put_core j (Emulator.put_shared (Some sh') ej) c1).
  split; [exact Hst|]. split; [exact Hld|]. split; [done|]. split.
  - intros k Hk. apply Buffer.byte_at_poke_out. change (zlen (le_bytes 4 v)) with 4. lia.
  - exact (eq_trans (unshare_insert _ _ _ (Emulator.put_shared (Some sh') ej) Hej eq_refl)
      (unshare_insert _ _ _ (Emulator.put_shared (Some sh') e) He eq_refl)).
Qed.

(** Core 1 loads what core 0 stores at the last address of the window. *)
Definition window_cluster : Cluster :=
  match Cluster.create (mkClusterConfig 2 256 0x01000003 100) with Ok c => c | _ => two_cores end.
Lemma window_cluster_wf : cluster_wf window_cluster.
Proof.
  apply (cluster_create_wf (mkClusterConfig 2 256 0x01000003 100));
    [vm_compute; split; congruence|vm_compute; split; congruence|vm_compute; congruence|].
  reflexivity.
Qed.
Lemma cluster_shared_witness : exists c1 c2,
  Cluster.on_core 0 (Emulator.bus_write32 0x80FFFFFF 0xDEADBEEF) window_cluster = (Ok tt, c1) /\
  Cluster.on_core 1 (Emulator.bus_read32 0x80FFFFFF) c1 = (Ok 0xDEADBEEF, c2) /\
  Buffer.byte_at c1.(shared_ram_) 0xFFFFFE = Buffer.byte_at window_cluster.(shared_ram_) 0xFFFFFE.
Proof.
  destruct (cluster_shared window_cluster 0 1 0x80FFFFFF 0xDEADBEEF window_cluster_wf)
    as (c1 & c2 & H1 & H2 & _ & H3 & _); [vm_compute; lia|vm_compute; lia|vm_compute; split; congruence|done|].
  exists c1, c2. split; [exact H1|]. split; [exact H2|]. apply H3. left. vm_compute. done.
Defined.
Lemma cluster_reachable_wf_witness :
  emu_wf (Emulator.put_shared (Some (Cluster.run PathScalar 3 50 window_cluster).2.(shared_ram_))
           (default (Emulator.create 0 0) ((Cluster.run PathScalar 3 50 window_cluster).2.(cores_) !! 1%nat))).
Proof.
  destruct (cluster_reachable_wf PathScalar (mkClusterConfig 2 256 0x01000003 100) window_cluster
    (Cluster.run PathScalar 3 50 window_cluster).2) with (i := 1%nat)
    (e := Emulator.put_shared (Some (Cluster.run PathScalar 3 50 window_cluster).2.(shared_ram_))
           (default (Emulator.create 0 0) ((Cluster.run PathScalar 3 50 window_cluster).2.(cores_) !! 1%nat)))
    as [H _]; [vm_compute; split; congruence|vm_compute; split; congruence|vm_compute; congruence|reflexivity
      |apply rtc_once, cl_run| |exact H].
  vm_compute. reflexivity.
Defined.
