(* ===== verification/Interleave.v ===== *)
(** * The cluster as an interleaving of its cores

    The architecture of a core with the shared memory behind its window, the
    machine of several cores whose steps interleave, and the theorem that a
    run of the cluster is such an interleaving: every access of the shared
    memory takes effect at once and in the order of the schedule. *)

From S2P Require Import Prelude Text Isa Memory Registers Interrupt Devices Bus Float Profiler Interconnect Target Host Mmu Translate Emulator EmulatorWf Execute Dma Traps Frame Safety Fast Arch Cache Microarch Cluster.
#[local] Open Scope Z_scope.
Import ISA.

(** ** One core *)

(** A scalar access of the window: the register and the address. *)
Inductive Access : Type := WLoad (d ea : Z) | WStore (r ea : Z).
Definition window_access (a : Arch) : option Access :=
  match current a with
  | Some (ILoad d b off) => let ea := u32 (reg a b + off) in if in_window ea then Some (WLoad d ea) else None
  | Some (IStore r b off) => let ea := u32 (reg a b + off) in if in_window ea then Some (WStore r ea) else None
  | _ => None
  end.

Section Core.
Context `{FloatOps}.
(** A step with the shared memory [sh]. *)
Definition sstep (a : Arch) (sh : buffer) : Outcome * buffer :=
  match window_access a with
  | Some (WLoad d ea) =>
      (Next (set_reg d (le_val (Buffer.peek sh (ea - Emulator.WINDOW_BASE) 4)) (advance a)), sh)
  | Some (WStore r ea) =>
      (Next (advance a), Buffer.poke sh (ea - Emulator.WINDOW_BASE) (le_bytes 4 (reg a r)))
  | None => (istep a, sh)
  end.
Definition core_step (x y : Arch * buffer) : Prop := sstep x.1 x.2 = (Next y.1, y.2).

(** Steps keep the size of the scratchpad. *)
Lemma sstep_blen a sh a' sh' : sstep a sh = (Next a', sh') -> a'.(a_mem).(blen) = a.(a_mem).(blen).
Proof.
  unfold sstep. destruct (window_access a) as [[d ea|r ea]|].
  - intros [= <- <-]. unfold set_reg. by case_match.
  - by intros [= <- <-].
  - intros [= Hi <-]. revert Hi. unfold istep. repeat case_match; try done. intros Hx. exact (proj1 (exec_blen _ (advance a) a' Hx)).
Qed.
End Core.

(** *** [step] implements it *)

(** A well-formed core, nothing interfering, its scratchpad below the window. *)
Record steady (s : Emulator) (sh : buffer) : Prop := {
  steady_wf : emu_wf s;
  steady_bare : bare s;
  steady_below : s.(scratchpad_).(blen) <= Emulator.WINDOW_BASE;
  steady_shared : s.(shared_) = Some sh }.

Section Step.
Context `{FloatOps} (path : HostPath) (s : Emulator) (sh : buffer) (Hst : steady s sh).

Lemma bus_read_window ea t :
  in_window ea = true -> shared_ t = Some sh ->
  Emulator.bus_read32 ea t = (Ok (le_val (Buffer.peek sh (ea - Emulator.WINDOW_BASE) 4)), t).
Proof using Hst.
  intros Hw Ht. unfold Emulator.bus_read32. rewrite get_run, Ht. unfold Bus.read32. rewrite bus_window by done.
  cbn [read]. rewrite (window_read_run (Some sh) sh ea t) by (rewrite <- ?(steady_shared _ _ Hst); done || apply Hst).
  apply in_window_range in Hw. rewrite u32_small; [done|].
  unfold fits, Emulator.WINDOW_BASE, Emulator.WINDOW_SIZE in *. lia.
Qed.
Lemma bus_write_window ea v t :
  in_window ea = true -> shared_ t = Some sh ->
  Emulator.bus_write32 ea v t =
  (Ok tt, Emulator.put_shared (Some (Buffer.poke sh (ea - Emulator.WINDOW_BASE) (le_bytes 4 v))) t).
Proof using Hst.
  intros Hw Ht. unfold Emulator.bus_write32. rewrite get_run, Ht. unfold Bus.write32. rewrite bus_window by done.
  cbn [write]. rewrite (window_write_run (Some sh) sh ea v t) by (rewrite <- ?(steady_shared _ _ Hst); done || apply Hst).
  apply in_window_range in Hw. rewrite u32_small; [done|].
  unfold fits, Emulator.WINDOW_BASE, Emulator.WINDOW_SIZE in *. lia.
Qed.

(** The handler of an access of the window, on the machine that executes it. *)
Section Access.
Context (i : Instruction) (t : Emulator) (Ht : emu_wf t) (Hb : bare t) (Hsh : shared_ t = Some sh).
Context (Hd : scalar (Instruction.rd i) = true) (Ha : scalar (Instruction.ra i) = true).
Let ea := u32 (reg (abs t) (Instruction.ra i) + Instruction.simm16 i).
Context (Hw : in_window ea = true).

Lemma op_load_window :
  exists c t', Emulator.op_load i t = (Ok c, t') /\ bare t' /\ shared_ t' = Some sh /\
    abs t' = set_reg (Instruction.rd i) (le_val (Buffer.peek sh (ea - Emulator.WINDOW_BASE) 4)) (abs t).
Proof using All.
  destruct (axi_issue_run t ea 4 false Ht) as (b & f & Hi & _).
  destruct (reg_write t (Instruction.rd i) (le_val (Buffer.peek sh (ea - Emulator.WINDOW_BASE) 4)) Ht)
    as (r & Hr & <-); [apply Instruction.rd_range|done|].
  exists (cycle_weight (code LOAD) 0), (Emulator.put_regs r (Emulator.put_axi f t)).
  split; [|split; [by apply (bare_eq t)|done]].
  unfold Emulator.op_load. rewrite (bind_ok _ _ _ _ _ (address_run t i Ht Ha)), get_run, (bare_mmu t Hb).
  fold ea. cbv zeta. change (load_at i ea t = (Ok (cycle_weight (code LOAD) 0), Emulator.put_regs r (Emulator.put_axi f t))).
  unfold load_at. rewrite (bind_ok _ _ _ _ _ Hi).
  rewrite (bind_ok _ _ _ _ _ (bus_read_window ea (Emulator.put_axi f t) Hw Hsh)).
  by rewrite (bind_ok _ _ _ _ _ (write_gpr_run (Emulator.put_axi f t) _ _ r Hr)).
Qed.
Lemma op_store_window :
  exists c t', Emulator.op_store i t = (Ok c, t') /\ bare t' /\ abs t' = abs t /\
    shared_ t' = Some (Buffer.poke sh (ea - Emulator.WINDOW_BASE) (le_bytes 4 (reg (abs t) (Instruction.rd i)))).
Proof using All.
  destruct (axi_issue_run t ea 4 true Ht) as (b & f & Hi & _).
  destruct (reg_value t (Instruction.rd i) Ht) as [Hv _]; [apply Instruction.rd_range|done|].
  set (v := reg (abs t) (Instruction.rd i)) in *.
  eexists (cycle_weight (code STORE) 0), (Emulator.put_shared _ (Emulator.put_axi f t)).
  split; [|split; [by apply (bare_eq t)|by split]].
  unfold Emulator.op_store. rewrite (bind_ok _ _ _ _ _ (address_run t i Ht Ha)), get_run, (bare_mmu t Hb).
  fold ea. cbv zeta. change (store_at i ea t = (Ok (cycle_weight (code STORE) 0),
    Emulator.put_shared (Some (Buffer.poke sh (ea - Emulator.WINDOW_BASE) (le_bytes 4 v))) (Emulator.put_axi f t))).
  unfold store_at. rewrite (bind_ok _ _ _ _ _ (read_gpr_run _ _ _ Hv)), (bind_ok _ _ _ _ _ Hi).
  by rewrite (bind_ok _ _ _ _ _ (bus_write_window ea v (Emulator.put_axi f t) Hw Hsh)).
Qed.
End Access.

(** The step of an instruction whose handler completes. *)
Lemma step_handler raw h c t' sh' :
  s.(regs_).(halt) = false -> s.(regs_).(pc) < MMIO_BASE -> s.(regs_).(pc) + 4 <= s.(scratchpad_).(blen) ->
  raw = le_val (Buffer.peek s.(scratchpad_) s.(regs_).(pc) 4) ->
  Emulator.dispatch_table_ path (Instruction.opcode (mkInstruction raw)) = Some h ->
  h (mkInstruction raw) (fetched s) = (Ok c, t') -> bare t' -> shared_ t' = Some sh' ->
  (abs t').(a_mem).(blen) = s.(scratchpad_).(blen) ->
  exists s', Emulator.step path s = (Ok tt, s') /\ abs s' = abs t' /\ steady s' sh'.
Proof using Hst.
  intros Hh Hlow Hin -> Hd Ht Hb Hsh Hlen. destruct Hst as [Hs Hbs Hbelow _].
  destruct (step_completes path s _ _ Hs Hbs Hh Hlow Hin (execute_run _ _ _ _ _ _ Hd Ht))
    as (s' & H1 & H2 & H3 & H4 & _ & H5).
  exists s'. split; [done|]. split; [done|]. split; [done|apply H4; by apply (bare_eq t')| |exact (eq_trans H5 Hsh)].
  replace (blen (scratchpad_ s')) with (blen (a_mem (abs t'))); [by rewrite Hlen|].
  exact (f_equal (fun a => blen (a_mem a)) (eq_sym H2)).
Qed.
Lemma step_window x :
  window_access (abs s) = Some x ->
  exists s' a sh', sstep (abs s) sh = (Next a, sh') /\ Emulator.step path s = (Ok tt, s') /\ abs s' = a /\ steady s' sh'.
Proof using Hst.
  unfold sstep. intros Hx. rewrite Hx. unfold window_access in Hx.
  destruct (current (abs s)) as [ins|] eqn:Hc; [|done]. apply current_word in Hc as (Hh & Hlow & Hin & Hdec).
  set (raw := le_val _) in Hdec. destruct (fetched_same s (steady_wf _ _ Hst) (steady_bare _ _ Hst)) as (Hf1 & Hf2 & Hf3 & _ & Hf4).
  rewrite (steady_shared _ _ Hst) in Hf4.
  assert (Hreg : forall r, reg (abs (fetched s)) r = reg (abs s) r) by (intros r; by rewrite Hf3).
  destruct ins; try done; cbv zeta in Hx.
  - destruct (decode_scalar _ true _ _ _ Hdec) as (Ho & -> & -> & -> & Hd & Ha). rewrite <- Hreg in Hx.
    destruct (in_window _) eqn:Hw in Hx; [|done]. injection Hx as <-.
    destruct (op_load_window (mkInstruction raw) (fetched s) Hf1 Hf2 Hf4 Hd Ha Hw) as (c & t' & H1 & H2 & H3 & H4).
    destruct (step_handler raw Emulator.op_load c t' sh Hh Hlow Hin eq_refl) as (s' & G1 & G2 & G3); try done.
    { unfold Emulator.dispatch_table_. by rewrite Ho. }
    { rewrite H4, Hf3. unfold set_reg. by case_match. }
    exists s'. do 2 eexists. split; [reflexivity|]. split; [done|]. split; [by rewrite G2, H4, Hf3|done].
  - destruct (decode_scalar _ false _ _ _ Hdec) as (Ho & -> & -> & -> & Hd & Ha). rewrite <- Hreg in Hx.
    destruct (in_window _) eqn:Hw in Hx; [|done]. injection Hx as <-.
    destruct (op_store_window (mkInstruction raw) (fetched s) Hf1 Hf2 Hf4 Hd Ha Hw) as (c & t' & H1 & H2 & H3 & H4).
    rewrite Hf3 in H3. rewrite (Hreg (Instruction.rd _)) in H4.
    destruct (step_handler raw Emulator.op_store c t'
      (Buffer.poke sh (u32 (reg (abs (fetched s)) (Instruction.ra (mkInstruction raw)) + Instruction.simm16 (mkInstruction raw))
        - Emulator.WINDOW_BASE) (le_bytes 4 (reg (abs s) (Instruction.rd (mkInstruction raw))))) Hh Hlow Hin eq_refl) as (s' & G1 & G2 & G3); try done.
    { unfold Emulator.dispatch_table_. by rewrite Ho. }
    { by rewrite H3. }
    exists s'. do 2 eexists. split; [reflexivity|]. split; [done|]. split; [by rewrite G2, H3|done].
Qed.

(** One step of a core, in all cases. *)
Lemma step_sstep :
  match sstep (abs s) sh with
  | (Next a, sh') => exists s', Emulator.step path s = (Ok tt, s') /\ abs s' = a /\ steady s' sh'
  | (Fault e a, _) => exists s', Emulator.step path s = (Throw e, s') /\ abs s' = a
  | (Halted, _) => Emulator.step path s = (Ok tt, s)
  | (Outside, _) => True
  end.
Proof using Hst.
  destruct (window_access (abs s)) as [x|] eqn:Hx.
  { destruct (step_window x Hx) as (s' & a & sh' & -> & H1 & H2 & H3). by exists s'. }
  pose proof (steady_wf _ _ Hst) as Hs. pose proof (steady_bare _ _ Hst) as Hb.
  pose proof (step_implements path s Hs Hb) as Hall.
  unfold sstep. rewrite Hx. destruct (istep (abs s)) as [a|e a| |] eqn:Hi; try exact Hall.
  set (s0 := unshare s). pose proof (step_implements path s0) as H0. change (abs s0) with (abs s) in H0. rewrite Hi in H0.
  destruct H0 as (s1 & H1 & H2 & H3 & [H4 _]); [by apply put_shared_wf|by apply (bare_eq s)|].
  assert (Hp : private s0) by (split; [done|apply (steady_below _ _ Hst)]).
  destruct (alone_step_ok path s0 tt s1 sh Hp H1) as [[Hn Hl] Hgo].
  assert (Heq : Emulator.put_shared (Some sh) s0 = s).
  { pose proof (steady_shared _ _ Hst) as Hsh. clear -Hsh. unfold s0, unshare. destruct s. cbn in *. by subst. }
  rewrite Heq in Hgo. exists (Emulator.put_shared (Some sh) s1). split; [done|]. split; [done|].
  split; [|by apply (bare_eq s1)|done|done].
  apply put_shared_wf; [done|]. rewrite <- (steady_shared _ _ Hst). apply Hs.
Qed.
End Step.

(** ** Several cores *)
Record MArch : Type := mkMArch { m_cores : list Arch; m_mem : buffer }.
Definition mabs (c : Cluster) : MArch := mkMArch (abs <$> c.(cores_)) c.(shared_ram_).

Section Machine.
Context `{FloatOps}.
(** One step of core [i] on the memory all cores share. *)
Inductive mstep (i : nat) : MArch -> MArch -> Prop :=
  | mstep_core cores sh a a' sh' :
      cores !! i = Some a -> sstep a sh = (Next a', sh') ->
      mstep i (mkMArch cores sh) (mkMArch (<[i := a']> cores) sh').
(** Steps in the order of a schedule. *)
Inductive interleaving : list nat -> MArch -> MArch -> Prop :=
  | il_nil x : interleaving [] x x
  | il_cons i l x y z : mstep i x y -> interleaving l y z -> interleaving (i :: l) x z.

Lemma interleaving_app l1 l2 x y z :
  interleaving l1 x y -> interleaving l2 y z -> interleaving (l1 ++ l2) x z.
Proof. induction 1; [done|]. intros. econstructor; eauto. Qed.
Lemma interleaving_length l x y : interleaving l x y -> List.length y.(m_cores) = List.length x.(m_cores).
Proof. induction 1 as [|i l x y z [] _ IH]; [done|]. rewrite IH. apply length_insert. Qed.
(** An invariant of the steps is one of the interleavings. *)
Lemma interleaving_ind' (P : MArch -> Prop) :
  (forall i x y, P x -> mstep i x y -> P y) -> forall l x y, P x -> interleaving l x y -> P y.
Proof. intros Hp l x y Hx Hi. induction Hi; eauto. Qed.

(** The steps of one core, in the machine. *)
Lemma interleaving_core i n x y cores :
  nsteps core_step n x y -> cores !! i = Some x.1 ->
  interleaving (replicate n i) (mkMArch cores x.2) (mkMArch (<[i := y.1]> cores) y.2).
Proof.
  intros Hn. revert cores. induction Hn as [[a sh]|n [a sh] [a1 sh1] z Hs _ IH]; intros cores Hi; cbn [fst snd] in *.
  - rewrite list_insert_id by done. constructor.
  - cbn [replicate]. eapply il_cons; [eapply mstep_core; [exact Hi|exact Hs]|].
    pose proof (lookup_lt_Some _ _ _ Hi) as Hl.
    specialize (IH (<[i := a1]> cores)). cbn [fst snd] in IH.
    rewrite list_insert_insert_eq in IH. apply IH. by apply list_lookup_insert_eq.
Qed.

(** Core [i] is at a point the architecture leaves open (a peripheral, a bad
    register number), or faults there. *)
Definition left_open (x : MArch) : Prop :=
  exists i a, x.(m_cores) !! i = Some a /\ (sstep a x.(m_mem)).1 = Outside.
Definition faulted (e : EmulatorError) (x : MArch) (cores : list Arch) : Prop :=
  exists i a a', x.(m_cores) !! i = Some a /\ (sstep a x.(m_mem)).1 = Fault e a' /\
    cores = <[i := a']> x.(m_cores).

(** *** The quanta of a core *)
Lemma quantum_follows path n : forall s sh,
  steady s sh ->
  exists k y, (k <= n)%nat /\ nsteps core_step k (abs s, sh) y /\
    ((sstep y.1 y.2).1 = Outside \/
     match Cluster.quantum_steps path n s with
     | (Ok _, s') => abs s' = y.1 /\ steady s' y.2
     | (Throw e, s') => (sstep y.1 y.2).1 = Fault e (abs s')
     | (Undefined _, _) => False
     end).
Proof.
  induction n as [|n IH]; intros s sh Hst; cbn [Cluster.quantum_steps].
  - exists 0%nat, (abs s, sh). split; [done|]. split; [constructor|by right].
  - rewrite get_run. destruct (Emulator.halted s) eqn:Hh.
    { exists 0%nat, (abs s, sh). split; [lia|]. split; [apply nsteps_O|by right]. }
    pose proof (step_sstep path s sh Hst) as Hstep. destruct (sstep (abs s) sh) as [o sh'] eqn:E.
    destruct o as [a|e a| |].
    + destruct Hstep as (s1 & H1 & <- & H3). destruct (IH s1 sh' H3) as (k & y & Hk & Hn & Hy).
      exists (S k), y. split; [lia|]. split; [exact (nsteps_l core_step k (abs s, sh) (abs s1, sh') y E Hn)|].
      by rewrite (bind_ok _ _ _ _ _ H1).
    + destruct Hstep as (s1 & H1 & <-). exists 0%nat, (abs s, sh). split; [lia|]. split; [constructor|].
      right. unfold bind. rewrite H1. cbn [fst snd]. by rewrite E.
    + assert (Hhalt : istep (abs s) = Halted).
      { unfold sstep in E. destruct (window_access (abs s)) as [[]|]; congruence. }
      apply halted_iff in Hhalt. unfold Emulator.halted in Hh. cbn in Hhalt. congruence.
    + exists 0%nat, (abs s, sh). split; [lia|]. split; [constructor|]. left. cbn [fst snd]. by rewrite E.
Qed.
End Machine.

(** *** Runs of the cluster *)

(** Every core steady, the clock with a quantum. *)
Record sharing (c : Cluster) : Prop := {
  sharing_cores : forall i e, Cluster.core i c = Some e -> steady e c.(shared_ram_);
  sharing_clock : c.(deterministic_).(quantum_) <> 0 }.

Section Follows.
Context `{FloatOps} (path : HostPath) (N : nat).

(** What a computation on the cluster has done: an interleaving of the cores,
    up to its end, to the fault that ended it or to a point left open. *)
Definition explained {A} (x : MArch) (r : outcome A) (c' : Cluster) : Prop :=
  exists sched y, interleaving sched x y /\
    (left_open y \/
     match r with
     | Ok _ => y = mabs c' /\ sharing c'
     | Throw e => faulted e y (mabs c').(m_cores)
     | Undefined _ => False
     end).
Definition follows {A} (m : M Cluster A) : Prop :=
  forall c, sharing c -> List.length c.(cores_) = N -> explained (mabs c) (m c).1 (m c).2.

Lemma explained_stay {A} (a : A) c c' : sharing c' -> mabs c' = mabs c -> explained (mabs c) (Ok a) c'.
Proof. intros Hc' Hm. exists [], (mabs c). split; [constructor|right]. by split. Qed.
Lemma follows_ret {A} (a : A) : follows (ret a).
Proof. intros c Hc _. by apply explained_stay. Qed.
Lemma follows_bind {A B} (m : M Cluster A) (k : A -> M Cluster B) :
  follows m -> (forall a, follows (k a)) -> follows (bind m k).
Proof.
  intros Hm Hk c Hc HN. destruct (Hm c Hc HN) as (l1 & y & H1 & Hy). unfold bind.
  destruct Hy as [Hy|Hy].
  { exists l1, y. split; [done|by left]. }
  destruct (m c) as [[a|e|u] c1]; cbn [fst snd] in *.
  - destruct Hy as [-> Hc1]. assert (HN1 : List.length (cores_ c1) = N).
    { apply interleaving_length in H1. unfold mabs in H1. cbn [m_cores] in H1. rewrite !length_fmap in H1. congruence. }
    destruct (Hk a c1 Hc1 HN1) as (l2 & z & H2 & Hz).
    exists (l1 ++ l2), z. split; [by eapply interleaving_app|done].
  - exists l1, y. split; [done|by right].
  - done.
Qed.
Lemma follows_get {B} (k : Cluster -> M Cluster B) : (forall c, List.length c.(cores_) = N -> follows (k c)) -> follows (bind get k).
Proof. intros Hk c Hc HN. rewrite get_run. by apply Hk. Qed.

Lemma mabs_put_core i e c : mabs (Cluster.put_core i e c) = mkMArch (<[i := abs e]> (abs <$> c.(cores_))) (default c.(shared_ram_) e.(shared_)).
Proof. unfold mabs. f_equal. exact (list_fmap_insert abs (cores_ c) i e). Qed.
Lemma sharing_put_core i e c : sharing c -> steady e (default c.(shared_ram_) e.(shared_)) -> sharing (Cluster.put_core i e c).
Proof.
  intros [Hc Hq] He. split; [|exact Hq]. intros j x (x0 & Hj & ->)%core_lookup.
  change (shared_ram_ (Cluster.put_core i e c)) with (default c.(shared_ram_) e.(shared_)).
  set (m := default _ _) in *. assert (Hm : window_ok (Some m)).
  { rewrite <- (steady_shared _ _ He). apply He. }
  apply list_lookup_insert_Some in Hj as [(<- & <- & _)|[_ Hj]].
  - destruct He as [H1 H2 H3 H4]. split; [by apply put_shared_wf|by apply (bare_eq e)|done|done].
  - destruct (Hc j (Emulator.put_shared (Some (shared_ram_ c)) x0)) as [H1 H2 H3 H4].
    { apply core_lookup. by exists x0. }
    split; [by apply (put_shared_wf (Emulator.put_shared (Some (shared_ram_ c)) x0))|by apply (bare_eq (Emulator.put_shared (Some (shared_ram_ c)) x0))|done|done].
Qed.

Lemma follows_quantum i n : (i < N)%nat -> follows (Cluster.on_core i (Cluster.quantum_steps path n)).
Proof.
  intros Hlt c Hc <-. destruct (lookup_lt_is_Some_2 _ _ Hlt) as [x Hx].
  assert (exists e, Cluster.core i c = Some e) as [e He] by (unfold Cluster.core; rewrite Hx; by eexists). unfold Cluster.on_core. rewrite He.
  destruct (quantum_follows path n e _ (sharing_cores c Hc i e He)) as (k & y & _ & Hn & Hy).
  apply core_lookup in He as (e0 & Hi & ->).
  assert (Hi' : (abs <$> cores_ c) !! i = Some (abs e0)) by by rewrite list_lookup_fmap, Hi.
  exists (replicate k i), (mkMArch (<[i := y.1]> (abs <$> cores_ c)) y.2).
  split; [exact (interleaving_core i k _ y _ Hn Hi')|].
  assert (Hat : (<[i := y.1]> (abs <$> cores_ c)) !! i = Some y.1).
  { apply list_lookup_insert_eq. by apply lookup_lt_Some in Hi'. }
  destruct Hy as [Hy|Hy]; [left; by exists i, y.1|right].
  destruct (Cluster.quantum_steps path n _) as [[[]|e1|u] e']; cbn [fst snd].
  - destruct Hy as [H1 H2]. pose proof (steady_shared _ _ H2) as Hs. split.
    + by rewrite mabs_put_core, H1, Hs.
    + apply sharing_put_core; [done|]. by rewrite Hs.
  - exists i, y.1, (abs e'). split; [exact Hat|]. split; [exact Hy|].
    rewrite mabs_put_core. cbn [m_cores]. by rewrite list_insert_insert_eq.
  - done.
Qed.

Lemma follows_tick i n : follows (Cluster.det_tick i n).
Proof.
  intros c Hc _. destruct (det_tick_run i n c (sharing_clock c Hc)) as (d & -> & Hd & _). cbn [fst snd].
  apply explained_stay; [|done]. split; [exact (sharing_cores c Hc)|].
  change (deterministic_ (Cluster.put_deterministic d c)) with d. rewrite Hd. apply Hc.
Qed.
Lemma follows_core i : (i < N)%nat -> follows (Cluster.run_core path i).
Proof.
  intros Hi. apply follows_get. intros c _. destruct (Cluster.core_halted i c); [apply follows_ret|].
  apply follows_bind; [by apply follows_quantum|]. intros _. apply follows_get. intros c' _. apply follows_tick.
Qed.
Lemma follows_cores f l : (forall i, i ∈ l -> follows (f i)) -> follows (Cluster.for_cores f l).
Proof.
  induction l as [|i l IH]; intros Hf; [apply follows_ret|]. cbn [Cluster.for_cores].
  apply follows_bind; [apply Hf; left|]. intros _. apply IH. intros j Hj. apply Hf. by right.
Qed.
Lemma follows_each f : (forall i, (i < N)%nat -> follows (f i)) -> follows (Cluster.each_core f).
Proof.
  intros Hf. apply follows_get. intros c HN. apply follows_cores. intros i Hi%elem_of_seq. apply Hf.
  by destruct Hi as [_ Hi]; cbn in Hi; rewrite <- HN.
Qed.
Lemma follows_run_loop fuel start max : follows (Cluster.run_loop path fuel start max).
Proof.
  induction fuel as [|fuel IH]; cbn [Cluster.run_loop]; apply follows_get; intros c _;
    (case_match; [|apply follows_ret]).
  - apply follows_ret.
  - apply follows_bind; [apply follows_each, follows_core|]. intros _. apply follows_get. intros c' _.
    case_match; [apply follows_ret|apply IH].
Qed.
Lemma follows_run fuel max : follows (Cluster.run path fuel max).
Proof. apply follows_get. intros c _. apply follows_run_loop. Qed.
Lemma follows_step_core i : (i < N)%nat -> follows (Cluster.on_core i (Emulator.step path)).
Proof.
  intros Hi c Hc HN. pose proof (follows_quantum i 1 Hi c Hc HN) as Hq. revert Hq.
  unfold Cluster.on_core. destruct (Cluster.core i c) as [e|] eqn:He; [|done].
  cbn [Cluster.quantum_steps]. rewrite get_run. destruct (Emulator.halted e) eqn:Hh.
  - assert (Emulator.step path e = (Ok tt, e)) as ->; [|done].
    unfold Emulator.step. rewrite get_run. unfold Emulator.halted in Hh. by rewrite Hh.
  - unfold bind. destruct (Emulator.step path e) as [[[]| |] e']; done.
Qed.
Lemma follows_step_all : follows (Cluster.step_all path).
Proof.
  apply follows_each. intros i Hi. apply follows_get. intros c _.
  destruct (Cluster.core_halted i c); [apply follows_ret|by apply follows_step_core].
Qed.
End Follows.

(** A new cluster whose shared memory covers the window shares it. *)
Lemma create_sharing cfg c :
  fits 64 cfg.(scratchpad_per_core) -> fits 64 cfg.(shared_bytes) -> Emulator.WINDOW_SIZE + 3 <= cfg.(shared_bytes) ->
  cfg.(scratchpad_per_core) <= Emulator.WINDOW_BASE -> cfg.(cl_quantum) <> 0 ->
  Cluster.create cfg = Ok c -> sharing c.
Proof.
  intros H1 H2 H3 H4 H5 Hc. pose proof (cluster_create_wf cfg c H1 H2 H3 Hc) as [_ Hw].
  unfold Cluster.create in Hc. destruct (Cache.configure _); [|done..]. apply Ok_inj in Hc as <-.
  split; [|exact H5]. intros i e He. pose proof (Hw i e He) as Hwf. apply core_lookup in He as (e0 & Hi & ->).
  apply lookup_replicate in Hi as [-> _]. split; [exact Hwf|by split; vm_compute|exact H4|done].
Qed.

Lemma window_cluster_sharing : sharing window_cluster.
Proof.
  apply (create_sharing (mkClusterConfig 2 256 0x01000003 100));
    [vm_compute; split; congruence|vm_compute; split; congruence|vm_compute; congruence|vm_compute; congruence|done|].
  reflexivity.
Qed.

(** C36: the cluster is sequentially consistent. Take a cluster of well-formed
    cores without paging, enabled interrupts or trap vectors. A run in quanta
    of any length, with any budget of cycles and any bound on its rounds, and
    [step_all], have executed instructions of the cores one at a time, in the
    order of some schedule, on one shared memory: a load of the window returns
    the bytes last stored there, and at a normal end the registers, memories
    and shared memory of the cluster are those of that interleaving, the
    cluster being as it was required to be. If an exception ends them, the
    interleaving leads to the machine where the instruction that throws it
    faults. Nothing is said past an access of a peripheral, which the
    architecture leaves open. *)
Theorem cluster_interleaves `{FloatOps} path c fuel max :
  sharing c ->
  explained (mabs c) (Cluster.run path fuel max c).1 (Cluster.run path fuel max c).2 /\
  explained (mabs c) (Cluster.step_all path c).1 (Cluster.step_all path c).2.
Proof. intros Hc. split; [by eapply follows_run|by eapply follows_step_all]. Qed.

(** Two cores with blank memories: the first runs off its scratchpad. *)
Lemma cluster_interleaves_witness : exists sched y,
  interleaving sched (mabs window_cluster) y /\
  (left_open y \/ faulted (SramOutOfBounds 256 4) y
     (mabs (Cluster.run PathScalar 3 50 window_cluster).2).(m_cores)).
Proof.
  pose proof window_cluster_sharing as Hs.
  destruct (cluster_interleaves PathScalar window_cluster 3 50 Hs) as [(sched & y & H1 & H2) _].
  assert (Hr : (Cluster.run PathScalar 3 50 window_cluster).1 = Throw (SramOutOfBounds 256 4)) by (vm_compute; reflexivity).
  rewrite Hr in H2. exists sched, y. split; [exact H1|exact H2].
Defined.

(** ** Progress

    A client of the cluster gives an invariant of its machine, a measure, and
    for every machine the core whose next step lowers the measure; the other
    cores' steps may leave the measure and that core as they are.  Then every
    round lowers the measure, whatever the quantum. *)
Class Progress `{FloatOps} (I : MArch -> Prop) := {
  rank : MArch -> nat;
  helper : MArch -> nat;
  progress_safe x i a : I x -> x.(m_cores) !! i = Some a -> a.(a_regs).(halt) = false ->
    exists a' sh', sstep a x.(m_mem) = (Next a', sh');
  progress_step x i y : I x -> mstep i x y ->
    I y /\ (rank y < rank x \/ rank y = rank x /\ helper y = helper x /\ helper x <> i)%nat;
  progress_helper x : I x -> (0 < rank x)%nat ->
    exists a, x.(m_cores) !! helper x = Some a /\ a.(a_regs).(halt) = false;
  progress_end x : I x -> rank x = 0%nat -> Forall (fun a => a.(a_regs).(halt) = true) x.(m_cores) }.

Section Rounds.
Context `{FloatOps} (path : HostPath) {I : MArch -> Prop} `{!Progress I}.

(** The invariant holds and the measure is lower, or the same with the same
    helper. *)
Definition better (x y : MArch) : Prop :=
  I y /\ (rank y < rank x \/ rank y = rank x /\ helper y = helper x)%nat.
Lemma better_refl x : I x -> better x x.
Proof. intros Hx. split; [done|by right]. Qed.
Lemma better_trans x y z : better x y -> better y z -> better x z.
Proof. intros [_ H1] [Hz H2]. split; [done|]. lia. Qed.

Lemma quantum_better n i : forall s sh cores,
  steady s sh -> cores !! i = Some (abs s) -> I (mkMArch cores sh) ->
  exists s' sh', Cluster.quantum_steps path n s = (Ok tt, s') /\ steady s' sh' /\
    better (mkMArch cores sh) (mkMArch (<[i := abs s']> cores) sh') /\
    ((0 < n)%nat -> s.(regs_).(halt) = false -> helper (mkMArch cores sh) = i ->
     (rank (mkMArch (<[i := abs s']> cores) sh') < rank (mkMArch cores sh))%nat).
Proof.
  induction n as [|n IH]; intros s sh cores Hst Hi HI; cbn [Cluster.quantum_steps].
  - exists s, sh. split; [done|]. split; [done|]. rewrite list_insert_id by done. split; [by apply better_refl|lia].
  - rewrite get_run. destruct (Emulator.halted s) eqn:Hh.
    { exists s, sh. split; [done|]. split; [done|]. rewrite list_insert_id by done.
      split; [by apply better_refl|]. intros _ Hn. unfold Emulator.halted in Hh. congruence. }
    destruct (progress_safe (mkMArch cores sh) i (abs s) HI Hi Hh) as (a' & sh' & Hstep). cbn [m_mem] in Hstep.
    pose proof (step_sstep path s sh Hst) as Hs. rewrite Hstep in Hs. destruct Hs as (s1 & H1 & <- & Hst1).
    destruct (progress_step _ i _ HI (mstep_core i cores sh _ _ _ Hi Hstep)) as [HI1 Hlow].
    set (x := mkMArch cores sh) in *. set (y := mkMArch (<[i := abs s1]> cores) sh') in *.
    assert (Hi1 : (<[i := abs s1]> cores) !! i = Some (abs s1)).
    { apply list_lookup_insert_eq. by apply lookup_lt_Some in Hi. }
    destruct (IH s1 sh' _ Hst1 Hi1 HI1) as (s2 & sh2 & H2 & Hst2 & Hb & _).
    rewrite list_insert_insert_eq in Hb. fold y in Hb.
    exists s2, sh2. rewrite (bind_ok _ _ _ _ _ H1). split; [done|]. split; [done|]. destruct Hb as [HI2 Hb].
    split; [split; [done|]; lia|]. intros _ _ Hhelp. destruct Hlow as [Hlow|(_ & _ & Hne)]; [lia|by destruct Hne].
Qed.

(** The quantum of a core leaves the settings of the cluster. *)
Definition settled (c c' : Cluster) : Prop :=
  sharing c' /\ c'.(cl_cfg_) = c.(cl_cfg_) /\ List.length c'.(cores_) = List.length c.(cores_).

Lemma mabs_core i c e : c.(cores_) !! i = Some e -> (mabs c).(m_cores) !! i = Some (abs e).
Proof. intros He. unfold mabs. cbn [m_cores]. by rewrite list_lookup_fmap, He. Qed.

Lemma core_better i c :
  sharing c -> I (mabs c) -> 0 < c.(cl_cfg_).(cl_quantum) -> (i < List.length c.(cores_))%nat ->
  exists c', Cluster.run_core path i c = (Ok tt, c') /\ settled c c' /\ better (mabs c) (mabs c') /\
    (Cluster.core_halted i c = false -> helper (mabs c) = i -> (rank (mabs c') < rank (mabs c))%nat).
Proof.
  intros Hc HI Hq Hlt. unfold Cluster.run_core. rewrite get_run. destruct (Cluster.core_halted i c) eqn:Hh.
  { exists c. split; [done|]. split; [done|]. split; [by apply better_refl|done]. }
  destruct (lookup_lt_is_Some_2 _ _ Hlt) as [e0 Hi].
  set (e := Emulator.put_shared (Some (shared_ram_ c)) e0).
  assert (He : Cluster.core i c = Some e) by (apply core_lookup; by exists e0).
  assert (Hrun : Cluster.on_core i (Cluster.quantum_steps path (Z.to_nat (cl_quantum (cl_cfg_ c)))) c =
    let '(r, e') := Cluster.quantum_steps path (Z.to_nat (cl_quantum (cl_cfg_ c))) e in (r, Cluster.put_core i e' c))
    by (unfold Cluster.on_core; by rewrite He).
  destruct (quantum_better (Z.to_nat (cl_quantum (cl_cfg_ c))) i e _ (abs <$> cores_ c) (sharing_cores c Hc i e He)
    (mabs_core i c e0 Hi) HI) as (e' & sh' & H1 & Hst & Hb & Hlow).
  rewrite H1 in Hrun. rewrite (bind_ok _ _ _ _ _ Hrun), get_run.
  set (c1 := Cluster.put_core i e' c). pose proof (steady_shared _ _ Hst) as Hsh.
  assert (Hm1 : mabs c1 = mkMArch (<[i := abs e']> (abs <$> cores_ c)) sh').
  { unfold c1. rewrite mabs_put_core. by rewrite Hsh. }
  assert (Hs1 : sharing c1) by (apply sharing_put_core; [done|]; by rewrite Hsh).
  destruct (det_tick_run i (u64 (Cluster.core_cycles i c1 - Cluster.core_cycles i c)) c1 (sharing_clock c1 Hs1))
    as (d & Hd & Hdq & _).
  exists (Cluster.put_deterministic d c1). split; [exact Hd|].
  change (mabs (Cluster.put_deterministic d c1)) with (mabs c1). rewrite Hm1.
  split; [|split; [exact Hb|]].
  - split; [|split; [done|exact (length_insert (cores_ c) i e')]]. split; [exact (sharing_cores c1 Hs1)|].
    change (deterministic_ (Cluster.put_deterministic d c1)) with d. rewrite Hdq. apply Hs1.
  - intros _ Hhelp. apply Hlow; [lia| |exact Hhelp]. unfold Cluster.core_halted in Hh. by rewrite Hi in Hh.
Qed.

Lemma mabs_halted i c a :
  (mabs c).(m_cores) !! i = Some a -> (i < List.length c.(cores_))%nat /\ Cluster.core_halted i c = a.(a_regs).(halt).
Proof.
  intros Hi. unfold mabs in Hi. cbn [m_cores] in Hi. apply list_lookup_fmap_Some in Hi as (e & -> & He).
  split; [by apply lookup_lt_Some in He|]. unfold Cluster.core_halted. by rewrite He.
Qed.

Lemma round_better c :
  sharing c -> I (mabs c) -> 0 < c.(cl_cfg_).(cl_quantum) -> (0 < rank (mabs c))%nat ->
  exists c', Cluster.round path c = (Ok tt, c') /\ settled c c' /\ I (mabs c') /\ (rank (mabs c') < rank (mabs c))%nat.
Proof.
  intros Hc HI Hq Hpos. unfold Cluster.round, Cluster.each_core. rewrite get_run.
  destruct (progress_helper (mabs c) HI Hpos) as (a & Ha & _). apply mabs_halted in Ha as [Hlt _].
  destruct (for_cores_rule (fun i x => settled c x /\ better (mabs c) (mabs x) /\
      (rank (mabs x) < rank (mabs c) \/ i <= helper (mabs c))%nat) (Cluster.run_core path) (List.length (cores_ c)))
    with (m := List.length (cores_ c)) (i := 0%nat) (c := c) as (c' & Hr & Hs & Hb & Hlow); [|lia| |].
  - intros i x Hi ((Hx & Hcfg & Hlen) & Hb & Hlow).
    destruct (core_better i x Hx) as (x' & H1 & (Hx' & Hcfg' & Hlen') & Hb' & Hlow'); [apply Hb|by rewrite Hcfg|lia|].
    exists x'. split; [done|]. split; [split; [done|]; split; congruence|].
    split; [by eapply better_trans|].
    destruct Hb as [HIx Hb], Hb' as [_ Hb'], Hb as [Hb|[Hb Hh]], Hlow as [Hlow|Hlow]; try lia.
    destruct (decide (i = helper (mabs x))) as [->|Hne]; [|lia].
    destruct (progress_helper (mabs x) HIx) as (y & Hy & Hrun); [lia|]. apply mabs_halted in Hy as [_ Hy].
    left. rewrite <- Hb. apply Hlow'; [congruence|done].
  - split; [done|]. split; [by apply better_refl|]. right. lia.
  - exists c'. split; [exact Hr|]. split; [done|]. split; [apply Hb|]. lia.
Qed.

Lemma rank_halted c : I (mabs c) -> rank (mabs c) = 0%nat -> Cluster.all_halted c = true.
Proof.
  intros HI H0. pose proof (progress_end (mabs c) HI H0) as Hall. unfold mabs in Hall. cbn [m_cores] in Hall.
  apply Forall_fmap in Hall. unfold Cluster.all_halted. apply forallb_forall. intros e He%list_elem_of_In.
  exact (proj1 (Forall_forall _ _) Hall e He).
Qed.

(** So the measure bounds the rounds of a run. *)
Lemma run_progress fuel start max : forall c,
  sharing c -> I (mabs c) -> 0 < c.(cl_cfg_).(cl_quantum) -> (rank (mabs c) <= fuel)%nat ->
  exists c', Cluster.run_loop path fuel start max c = (Ok true, c') /\ sharing c' /\ I (mabs c') /\
    (Cluster.all_halted c' = true \/ max <= Cluster.elapsed start c').
Proof.
  induction fuel as [|fuel IH]; intros c Hc HI Hq Hf; cbn [Cluster.run_loop]; rewrite get_run.
  - rewrite rank_halted by (done || lia). exists c. rewrite rank_halted by (done || lia).
    split; [done|]. split; [done|]. split; [done|by left].
  - destruct (Cluster.all_halted c) eqn:Hh; cbn [negb andb].
    { exists c. split; [done|]. split; [done|]. split; [done|by left]. }
    destruct (Z.ltb_spec (Cluster.elapsed start c) max) as [_|Hmax].
    2: { exists c. split; [done|]. split; [done|]. split; [done|by right]. }
    destruct (round_better c Hc HI Hq) as (c1 & H1 & (Hc1 & Hcfg & _) & HI1 & Hlow).
    { destruct (rank (mabs c)) eqn:E; [|lia]. by rewrite rank_halted in Hh. }
    rewrite (bind_ok _ _ _ _ _ H1), get_run. destruct (Cluster.all_halted c1) eqn:Hh1.
    { exists c1. split; [done|]. split; [done|]. split; [done|by left]. }
    apply IH; [done|done|by rewrite Hcfg|lia].
Qed.
End Rounds.
