(* ===== verification/Handshake.v ===== *)
(** * Two cores pass a message

    Code for two cores of a cluster, run on the memory they share: one core
    stores a value and then a flag, the other waits for the flag and loads the
    value.  The message arrives, whatever the length of a quantum. *)

From S2P Require Import Prelude Text Isa Memory Registers Interrupt Devices Bus Float Profiler Interconnect Target Host Mmu Translate Emulator EmulatorWf Execute Dma Traps Frame Safety Fast Arch Symbolic Cache Microarch Cluster Interleave.
#[local] Open Scope Z_scope.
Import ISA.

(** ** Instructions of a core, with the shared memory *)

(** The core runs the code [ws] and is at its word [k]. *)
Record at_word (ws : list Z) (k : nat) (a : Arch) : Prop := {
  at_code : code_at ws a.(a_mem);
  at_len : zlen a.(a_regs).(gpr) = 16;
  at_pc : a.(a_regs).(pc) = 4 * Z.of_nat k;
  at_run : a.(a_regs).(halt) = false }.
(** A word of the shared memory. *)
Definition word (sh : buffer) (o : Z) : Z := le_val (Buffer.peek sh o 4).

Section Steps.
Context `{FloatOps} (ws : list Z) (k : nat) (a : Arch) (sh : buffer).
Context (Hat : at_word ws k a) (Hlow : 4 * zlen ws <= MMIO_BASE).
Notation r := (a.(a_regs).(gpr)).

Lemma current_code w ins :
  ws !! k = Some w -> decode (mkInstruction w) = Some ins ->
  current a = Some ins /\ (a_regs (advance a)).(pc) = 4 * Z.of_nat (S k).
Proof using All.
  intros Hk Hd. destruct Hat as [[Hl Hc] _ Hp Hh]. pose proof (lookup_lt_Some _ _ _ Hk) as Hlt. unfold zlen in *.
  split.
  - unfold current. rewrite Hh, Hp. destruct (Z.leb_spec MMIO_BASE (4 * Z.of_nat k)); [lia|].
    destruct (Z.ltb_spec (blen (a_mem a)) (4 * Z.of_nat k + 4)); [lia|]. cbn [orb]. by rewrite (Hc k w Hk).
  - unfold advance, jump. cbn [with_regs a_regs pc]. rewrite Hp, u32_small; [change (4 * Z.of_nat k + 4 = 4 * Z.of_nat (S k)); lia|]. unfold fits, MMIO_BASE in *. lia.
Qed.

(** An instruction that is not an access of the window. *)
Lemma sstep_exec w ins a' :
  ws !! k = Some w -> decode (mkInstruction w) = Some ins -> window_access a = None ->
  exec ins (advance a) = Next a' -> sstep a sh = (Next a', sh).
Proof using All.
  intros Hk Hd Hn He. destruct (current_code w ins Hk Hd) as [Hc _]. unfold sstep. rewrite Hn.
  by rewrite (istep_current a ins Hc), He.
Qed.

(** The register [d] is set and the core goes on at the next word. *)
Definition sets (d x : Z) (a' : Arch) : Prop := at_word ws (S k) a' /\ a'.(a_regs).(gpr) = zset r d x.

Lemma sets_next w ins d x g :
  ws !! k = Some w -> decode (mkInstruction w) = Some ins -> 0 < d ->
  g = a_regs (advance a) \/ (exists n, g = a_regs (set_flags n (advance a))) ->
  sets d x (with_regs {| gpr := zset r d x; vr := g.(vr); pc := g.(pc); halt := g.(halt); status := g.(status) |} a).
Proof using All.
  intros Hk Hd Hpos Hg. destruct (current_code w ins Hk Hd) as [_ Hp]. split; [|done].
  split; [apply Hat|by cbn; rewrite zlen_zset; apply Hat|..]; cbn; destruct Hg as [->|[n ->]]; (exact Hp || apply Hat).
Qed.

Lemma s_movi d imm :
  ws !! k = Some (enc.movi d imm) -> 0 < d < 16 -> 0 <= imm < 2 ^ 16 ->
  exists a', sstep a sh = (Next a', sh) /\ sets d imm a'.
Proof using All.
  intros Hk Hd Hi. assert (Hdec := decode_movi d imm ltac:(lia) Hi).
  destruct (current_code _ _ Hk Hdec) as [Hc _].
  eexists. split; [eapply sstep_exec; [done|done|by unfold window_access; rewrite Hc|reflexivity]|].
  unfold set_reg. destruct (Z.eqb_spec d 0); [lia|]. exact (sets_next _ _ d imm _ Hk Hdec ltac:(lia) (or_introl eq_refl)).
Qed.
Lemma s_alu w op d x y :
  ws !! k = Some w -> decode (mkInstruction w) = Some (IAlu op d x y) -> 0 < d -> 0 < x -> 0 < y ->
  exists a', sstep a sh = (Next a', sh) /\ sets d (alu op (R r x) (R r y)) a'.
Proof using All.
  intros Hk Hdec Hd Hx Hy. destruct (current_code _ _ Hk Hdec) as [Hc _].
  eexists. split; [eapply sstep_exec; [done|done|by unfold window_access; rewrite Hc|reflexivity]|].
  unfold set_reg. destruct (Z.eqb_spec d 0); [lia|].
  assert (Hreg : forall j, 0 < j -> reg (advance a) j = R r j).
  { intros j Hj. unfold reg. by destruct (Z.eqb_spec j 0); [lia|]. }
  rewrite !Hreg by done. exact (sets_next _ _ d _ _ Hk Hdec Hd (or_intror (ex_intro _ _ eq_refl))).
Qed.

(** Accesses of the window, at the address [base] + [o]. *)
Section Window.
Context (b o : Z) (Hb : 0 < b) (Hbase : R r b = Emulator.WINDOW_BASE) (Ho : 0 <= o < 2 ^ 15).

Lemma window_ea : u32 (reg a b + o) = Emulator.WINDOW_BASE + o /\ in_window (Emulator.WINDOW_BASE + o) = true.
Proof using Hb Hbase Ho.
  unfold reg. destruct (Z.eqb_spec b 0); [lia|]. fold (R r b). rewrite Hbase. split.
  - apply u32_small. unfold fits, Emulator.WINDOW_BASE. lia.
  - apply in_window_range. unfold Emulator.WINDOW_SIZE. lia.
Qed.
Lemma s_load w d :
  ws !! k = Some w -> decode (mkInstruction w) = Some (ILoad d b o) -> 0 < d ->
  exists a', sstep a sh = (Next a', sh) /\ sets d (word sh o) a'.
Proof using All.
  intros Hk Hdec Hd. destruct (current_code _ _ Hk Hdec) as [Hc _]. destruct window_ea as [He Hw].
  unfold sstep, window_access. rewrite Hc, He. cbv zeta. rewrite Hw. eexists. split; [reflexivity|].
  replace (Emulator.WINDOW_BASE + o - Emulator.WINDOW_BASE) with o by lia.
  unfold set_reg. destruct (Z.eqb_spec d 0); [lia|]. exact (sets_next _ _ d _ _ Hk Hdec Hd (or_introl eq_refl)).
Qed.
Lemma s_store w x :
  ws !! k = Some w -> decode (mkInstruction w) = Some (IStore x b o) -> 0 < x ->
  exists a', sstep a sh = (Next a', Buffer.poke sh o (le_bytes 4 (R r x))) /\
    at_word ws (S k) a' /\ a'.(a_regs).(gpr) = r.
Proof using All.
  intros Hk Hdec Hx. destruct (current_code _ _ Hk Hdec) as [Hc Hp]. destruct window_ea as [He Hw].
  unfold sstep, window_access. rewrite Hc, He. cbv zeta. rewrite Hw. eexists. split.
  - replace (Emulator.WINDOW_BASE + o - Emulator.WINDOW_BASE) with o by lia.
    unfold reg. destruct (Z.eqb_spec x 0); [lia|]. reflexivity.
  - split; [|done]. split; [apply Hat|apply Hat|exact Hp|apply Hat].
Qed.
End Window.

Lemma s_beq w x off t :
  ws !! k = Some w -> decode (mkInstruction w) = Some (IBranch true x 0 off) -> 0 < x ->
  4 * Z.of_nat (S k) + off = 4 * Z.of_nat t -> (t < k)%nat ->
  exists a', sstep a sh = (Next a', sh) /\ at_word ws (if R r x =? 0 then t else S k) a' /\ a'.(a_regs).(gpr) = r.
Proof using All.
  intros Hk Hdec Hx Ht Hlt. destruct (current_code _ _ Hk Hdec) as [Hc Hp].
  eexists. split; [eapply sstep_exec; [done|done|by unfold window_access; rewrite Hc|reflexivity]|].
  assert (Hreg : reg (advance a) x = R r x) by (unfold reg; by destruct (Z.eqb_spec x 0); [lia|]).
  rewrite Hreg. change (reg (advance a) 0) with 0. destruct (R r x =? 0); cbn [Bool.eqb].
  - split; [|done]. split; [apply Hat|apply Hat| |apply Hat]. unfold jump. cbn [with_regs a_regs pc].
    rewrite Hp, Ht. apply u32_small. pose proof (at_code _ _ _ Hat) as [_ _]. pose proof (lookup_lt_Some _ _ _ Hk) as Hl.
    unfold fits, MMIO_BASE, zlen in *. lia.
  - split; [|done]. split; [apply Hat|apply Hat|exact Hp|apply Hat].
Qed.
Lemma s_halt :
  ws !! k = Some enc.halt ->
  exists a', sstep a sh = (Next a', sh) /\ a'.(a_regs).(gpr) = r /\ a'.(a_regs).(pc) = 4 * Z.of_nat (S k) /\
    a'.(a_regs).(halt) = true.
Proof using All.
  intros Hk. destruct (current_code _ IHalt Hk eq_refl) as [Hc Hp].
  eexists. split; [eapply sstep_exec; [done|reflexivity|by unfold window_access; rewrite Hc|reflexivity]|].
  split; [done|]. split; [exact Hp|done].
Qed.
End Steps.

(** ** The programs *)

(** Register 1 becomes the first address of the window, in three steps. *)
Definition window_in_r1 : list Z := [enc.movi 1 0x8000; enc.mul 1 1 1; enc.add 1 1 1].
Definition sender (v : Z) : list Z :=
  window_in_r1 ++ [enc.movi 2 v; enc.store 2 1 0; enc.movi 3 1; enc.store 3 1 4; enc.halt].
Definition receiver : list Z :=
  window_in_r1 ++ [enc.load 2 1 4; enc.beq 2 0 (-8); enc.load 3 1 0; enc.halt].

Definition base_at (k : nat) (r : list Z) : Prop :=
  match k with
  | O => True
  | 1%nat => R r 1 = 0x8000
  | 2%nat => R r 1 = 0x40000000
  | _ => R r 1 = Emulator.WINDOW_BASE
  end.
(** At the word [k] of the code, past its last word when it has halted. *)
Inductive task (ws : list Z) : nat -> Arch -> Prop :=
  | task_at k a : at_word ws k a -> (k < List.length ws)%nat -> task ws k a
  | task_end a :
      a.(a_regs).(pc) = 4 * zlen ws -> a.(a_regs).(halt) = true -> task ws (List.length ws) a.
Definition position (a : Arch) : nat := Z.to_nat (a.(a_regs).(pc) / 4).
Lemma task_position ws k a :
  task ws k a -> position a = k /\ (k <= List.length ws)%nat /\
    a.(a_regs).(halt) = (List.length ws <=? k)%nat.
Proof.
  intros [j a0 Ha Hj|a0 Hp Hh]; unfold position; [rewrite (at_pc _ _ _ Ha), (at_run _ _ _ Ha)|rewrite Hp, Hh; unfold zlen];
    rewrite Z.mul_comm, Z.div_mul by done; rewrite Nat2Z.id; repeat split; try lia; symmetry;
    [apply Nat.leb_gt|apply Nat.leb_le]; lia.
Qed.
Lemma task_running ws k a : task ws k a -> (k < List.length ws)%nat -> at_word ws k a.
Proof. intros [] Hk; [done|lia]. Qed.

Section Programs.
Context `{FloatOps} (v : Z) (Hv : 0 <= v < 2 ^ 16).

Ltac regs := rewrite ?R_zset_eq by lia; rewrite ?R_zset_ne by lia; try done; try lia.

(** The first three words, in both programs. *)
Lemma base_step ws k a sh :
  at_word ws k a -> 4 * zlen ws <= MMIO_BASE -> take 3 ws = window_in_r1 -> (k < 3)%nat -> base_at k a.(a_regs).(gpr) ->
  exists a' x, sstep a sh = (Next a', sh) /\ at_word ws (S k) a' /\
    a'.(a_regs).(gpr) = zset a.(a_regs).(gpr) 1 x /\ base_at (S k) a'.(a_regs).(gpr).
Proof using Type.
  intros Ha Hlow Hpre Hk Hb. pose proof (at_len _ _ _ Ha) as Hlen.
  assert (Hw : ws !! k = window_in_r1 !! k) by (by rewrite <- Hpre, lookup_take_lt).
  destruct k as [|[|[|k]]]; [..|lia]; cbn [base_at] in *.
  - destruct (s_movi ws 0 a sh Ha Hlow 1 0x8000 Hw) as (a' & H1 & H2 & H3); [lia..|].
    exists a', 0x8000. rewrite H3. by regs.
  - destruct (s_alu ws 1 a sh Ha Hlow _ MUL 1 1 1 Hw eq_refl) as (a' & H1 & H2 & H3); [lia..|].
    rewrite Hb in H3. eexists a', _. split; [done|]. split; [done|]. split; [done|]. rewrite H3. by regs.
  - destruct (s_alu ws 2 a sh Ha Hlow _ ADD 1 1 1 Hw eq_refl) as (a' & H1 & H2 & H3); [lia..|].
    rewrite Hb in H3. eexists a', _. split; [done|]. split; [done|]. split; [done|]. rewrite H3. by regs.
Qed.

(** *** The sender *)
Definition sent (k : nat) (sh : buffer) : buffer :=
  match k with
  | 4%nat => Buffer.poke sh 0 (le_bytes 4 v)
  | 6%nat => Buffer.poke sh 4 (le_bytes 4 1)
  | _ => sh
  end.
Definition sender_regs (k : nat) (r : list Z) : Prop :=
  base_at k r /\ ((4 <= k)%nat -> R r 2 = v) /\ ((6 <= k)%nat -> R r 3 = 1).

Lemma sender_step k a sh :
  task (sender v) k a -> (k < 8)%nat -> sender_regs k a.(a_regs).(gpr) ->
  exists a', sstep a sh = (Next a', sent k sh) /\ task (sender v) (S k) a' /\ sender_regs (S k) a'.(a_regs).(gpr).
Proof using Hv.
  intros Ht Hk (Hb & H2 & H3). apply task_running in Ht; [|done]. pose proof (at_len _ _ _ Ht) as Hlen.
  assert (Hlow : 4 * zlen (sender v) <= MMIO_BASE) by (vm_compute; congruence).
  assert (Hnext : forall a', at_word (sender v) (S k) a' -> (S k < 8)%nat -> task (sender v) (S k) a') by (by constructor).
  destruct (decide (k < 3)%nat) as [H3k|H3k].
  { destruct (base_step _ k a sh Ht Hlow eq_refl H3k Hb) as (a' & x & G1 & G2 & G3 & G4). exists a'.
    split; [by destruct k as [|[|[|]]]; [..|lia]|]. split; [apply Hnext; [done|lia]|]. split; [done|lia]. }
  destruct k as [|[|[|[|[|[|[|[|k]]]]]]]]; try lia; cbn [base_at sent] in *.
  - destruct (s_movi _ 3 a sh Ht Hlow 2 v eq_refl) as (a' & G1 & G2 & G3); [lia|done|]. exists a'. rewrite G3.
    split; [done|]. split; [apply Hnext; [done|lia]|]. split; [by cbn [base_at]; regs|]. by split; [regs|lia].
  - destruct (s_store _ 4 a sh Ht Hlow 1 0 ltac:(lia) Hb ltac:(lia) _ 2 eq_refl eq_refl) as (a' & G1 & G2 & G3); [lia|].
    rewrite H2 in G1 by lia. exists a'. rewrite G3.
    split; [done|]. split; [apply Hnext; [done|lia]|]. split; [done|]. split; [intros _; apply H2; lia|lia].
  - destruct (s_movi _ 5 a sh Ht Hlow 3 1 eq_refl) as (a' & G1 & G2 & G3); [lia|done|]. exists a'. rewrite G3.
    split; [done|]. split; [apply Hnext; [done|lia]|]. split; [by cbn [base_at]; regs|].
    split; intros _; regs.
  - destruct (s_store _ 6 a sh Ht Hlow 1 4 ltac:(lia) Hb ltac:(lia) _ 3 eq_refl eq_refl) as (a' & G1 & G2 & G3); [lia|].
    rewrite H3 in G1 by lia. exists a'. rewrite G3.
    split; [done|]. split; [apply Hnext; [done|lia]|]. by split; [|split; [intros _; apply H2; lia|intros _; apply H3; lia]].
  - destruct (s_halt _ 7 a sh Ht Hlow eq_refl) as (a' & G1 & G2 & G3 & G4). exists a'. rewrite G2.
    split; [done|]. split; [by apply task_end|]. by split; [|split; [intros _; apply H2; lia|intros _; apply H3; lia]].
Qed.

(** *** The receiver *)
Definition received (k : nat) (r : list Z) : nat :=
  match k with 4%nat => if R r 2 =? 0 then 3 else 5 | _ => S k end.
Lemma receiver_step k a sh (r := a.(a_regs).(gpr)) (k' := received k r) :
  task receiver k a -> (k < 7)%nat -> base_at k r ->
  exists a', sstep a sh = (Next a', sh) /\ task receiver k' a' /\ base_at k' a'.(a_regs).(gpr) /\
    R a'.(a_regs).(gpr) 2 = (if (k =? 3)%nat then word sh 4 else R r 2) /\
    R a'.(a_regs).(gpr) 3 = (if (k =? 5)%nat then word sh 0 else R r 3).
Proof using Type.
  intros Ht Hk Hb. apply task_running in Ht; [|done]. pose proof (at_len _ _ _ Ht) as Hlen. fold r in Hlen.
  assert (Hlow : 4 * zlen receiver <= MMIO_BASE) by (vm_compute; congruence).
  assert (Hnext : forall j a', at_word receiver j a' -> (j < 7)%nat -> task receiver j a') by (by constructor).
  destruct (decide (k < 3)%nat) as [H3k|H3k].
  { destruct (base_step _ k a sh Ht Hlow eq_refl H3k Hb) as (a' & x & G1 & G2 & G3 & G4). exists a'.
    assert (k' = S k) as -> by (by subst k'; destruct k as [|[|[|]]]; [..|lia]).
    split; [done|]. split; [apply Hnext; [done|lia]|]. split; [done|]. rewrite G3. fold r.
    by destruct k as [|[|[|]]]; [..|lia]; split; cbn [Nat.eqb]; regs. }
  destruct k as [|[|[|[|[|[|[|k]]]]]]]; try lia; subst k'; cbn [base_at] in Hb; cbn [Nat.eqb received].
  - destruct (s_load _ 3 a sh Ht Hlow 1 4 ltac:(lia) Hb ltac:(lia) _ 2 eq_refl eq_refl) as (a' & G1 & G2 & G3); [lia|].
    exists a'. rewrite G3. fold r. split; [done|]. split; [apply Hnext; [done|lia]|]. by cbn [base_at]; regs.
  - destruct (s_beq _ 4 a sh Ht Hlow _ 2 (-8) 3 eq_refl eq_refl) as (a' & G1 & G2 & G3); [lia..|].
    exists a'. rewrite G3. split; [done|]. fold r in G2 |- *.
    split; [apply Hnext; [done|by destruct (R r 2 =? 0); lia]|]. by destruct (R r 2 =? 0).
  - destruct (s_load _ 5 a sh Ht Hlow 1 0 ltac:(lia) Hb ltac:(lia) _ 3 eq_refl eq_refl) as (a' & G1 & G2 & G3); [lia|].
    exists a'. rewrite G3. fold r. split; [done|]. split; [apply Hnext; [done|lia]|]. by cbn [base_at]; regs.
  - destruct (s_halt _ 6 a sh Ht Hlow eq_refl) as (a' & G1 & G2 & G3 & G4). exists a'. rewrite G2.
    split; [done|]. by split; [apply task_end|].
Qed.
End Programs.

(** ** The two of them on one memory *)
Section Passing.
Context `{FloatOps} (v : Z) (Hv : 0 <= v < 2 ^ 16).

(** The data word and the flag, when the sender is at [k]. *)
Definition mem_at (k : nat) (sh : buffer) : Prop :=
  word sh 4 = (if (7 <=? k)%nat then 1 else 0) /\ ((5 <= k)%nat -> word sh 0 = v).
Lemma mem_sent k sh : mem_at k sh -> mem_at (S k) (sent v k sh).
Proof using Hv.
  assert (Hget : forall o x, 0 <= x < 2 ^ 16 -> word (Buffer.poke sh o (le_bytes 4 x)) o = x).
  { intros o x Hx. unfold word. pose proof (Buffer.peek_poke sh o (le_bytes 4 x)) as Hp.
    rewrite le_bytes_length in Hp. rewrite Hp, le_val_bytes. apply Z.mod_small. lia. }
  assert (Hother : forall o o' x, o' + 4 <= o \/ o + 4 <= o' ->
    word (Buffer.poke sh o (le_bytes 4 x)) o' = word sh o').
  { intros o o' x Ho. unfold word. rewrite Buffer.peek_poke_disjoint; [done|].
    unfold zlen. rewrite le_bytes_length. lia. }
  intros [Hf Hd]. unfold mem_at. destruct k as [|[|[|[|[|[|[|k]]]]]]]; cbn [sent Nat.leb] in *; try (split; [done|lia]).
  - rewrite Hget, Hother by lia. by split.
  - rewrite Hget, Hother by lia. split; [done|]. intros _. apply Hd. lia.
Qed.

(** The receiver passes the loop after the flag is set. *)
Record passed (k0 k1 : nat) (r : list Z) : Prop := {
  passed_flag : k1 = 4%nat -> R r 2 <> 0 -> (7 <= k0)%nat;
  passed_loop : (5 <= k1)%nat -> (7 <= k0)%nat;
  passed_data : (6 <= k1)%nat -> R r 3 = v }.
Inductive passing : MArch -> Prop :=
  | passing_at a0 a1 sh k0 k1 :
      task (sender v) k0 a0 -> sender_regs v k0 a0.(a_regs).(gpr) ->
      task receiver k1 a1 -> base_at k1 a1.(a_regs).(gpr) ->
      mem_at k0 sh -> passed k0 k1 a1.(a_regs).(gpr) ->
      passing (mkMArch [a0; a1] sh).

(** What the receiver has still to do once the flag is set. *)
Definition left_to_do (k : nat) (r : list Z) : nat :=
  match k with
  | 0 => 8 | 1 => 7 | 2 => 6 | 3 => 4 | 4 => if (R r 2 =? 0)%Z then 5 else 3 | 5 => 2 | 6 => 1 | _ => 0
  end%nat.
Definition passing_rank (x : MArch) : nat :=
  match x.(m_cores) with
  | [a0; a1] =>
      let k := position a0 in
      if (k <? 8)%nat then (8 - k + 9)%nat else left_to_do (position a1) a1.(a_regs).(gpr)
  | _ => 0%nat
  end.
Definition passing_helper (x : MArch) : nat :=
  match x.(m_cores) with a0 :: _ => if (position a0 <? 8)%nat then 0 else 1 | [] => 0 end%nat.

(** The end of a task is a halted core. *)
Lemma task_halted ws a sh : task ws (List.length ws) a -> (sstep a sh).1 = Halted.
Proof using Type.
  intros (_ & _ & Hh)%task_position. rewrite Nat.leb_refl in Hh.
  unfold sstep, window_access, current, istep. by rewrite Hh.
Qed.

(** A step of the receiver. *)
Lemma receiver_passes k0 k1 a sh :
  task receiver k1 a -> (k1 < 7)%nat -> base_at k1 a.(a_regs).(gpr) -> mem_at k0 sh -> passed k0 k1 a.(a_regs).(gpr) ->
  exists a' k', sstep a sh = (Next a', sh) /\ task receiver k' a' /\ base_at k' a'.(a_regs).(gpr) /\
    passed k0 k' a'.(a_regs).(gpr) /\
    (k0 = 8%nat -> (left_to_do k' a'.(a_regs).(gpr) < left_to_do k1 a.(a_regs).(gpr))%nat).
Proof using Type.
  intros Ht Hk Hb [Hf Hd] [P1 P2 P3]. destruct (receiver_step k1 a sh Ht Hk Hb) as (a' & G1 & G2 & G3 & G4 & G5).
  exists a', (received k1 a.(a_regs).(gpr)). split; [done|]. split; [done|]. split; [done|].
  destruct k1 as [|[|[|[|[|[|[|k1]]]]]]]; try lia; cbn [Nat.eqb received left_to_do] in *; try (split; [split; lia|lia]).
  - split; [|intros ->; rewrite G4, Hf; cbn; lia].
    split; [|lia..]. intros _. rewrite G4, Hf. by destruct (7 <=? k0)%nat eqn:E; [apply Nat.leb_le in E|].
  - destruct (Z.eqb_spec (R (gpr (a_regs a)) 2) 0) as [E|E]; (split; [|cbn; lia]).
    + split; lia.
    + split; [lia| |lia]. intros _. by apply P1.
Qed.

(** The steps of both. *)
Lemma passing_safe x i a :
  passing x -> x.(m_cores) !! i = Some a -> a.(a_regs).(halt) = false ->
  exists a' sh', sstep a x.(m_mem) = (Next a', sh').
Proof using Hv.
  intros [a0 a1 sh k0 k1 T0 S0 T1 B1 Hm Hp] Hi Hrun. cbn [m_cores m_mem] in *.
  destruct (task_position _ _ _ T0) as (_ & L0 & E0). destruct (task_position _ _ _ T1) as (_ & L1 & E1).
  cbn [List.length sender receiver window_in_r1 app] in *.
  destruct i as [|[|i]]; [| |done]; injection Hi as ->.
  - rewrite Hrun in E0. symmetry in E0. apply Nat.leb_gt in E0. destruct (sender_step v Hv k0 a sh T0 E0 S0) as (a' & G & _). by eexists a', _.
  - rewrite Hrun in E1. symmetry in E1. apply Nat.leb_gt in E1. destruct (receiver_step k1 a sh T1 E1 B1) as (a' & G & _). by eexists a', _.
Qed.

Lemma passing_step x i y :
  passing x -> mstep i x y -> passing y /\
    (passing_rank y < passing_rank x \/
     passing_rank y = passing_rank x /\ passing_helper y = passing_helper x /\ passing_helper x <> i)%nat.
Proof using Hv.
  intros [a0 a1 sh k0 k1 T0 S0 T1 B1 Hm Hp] Hs. inversion Hs as [cores sh1 a a' sh' Hi Hst]; subst; clear Hs.
  destruct (task_position _ _ _ T0) as (P0 & L0 & E0). destruct (task_position _ _ _ T1) as (P1 & L1 & E1).
  change (List.length (sender v)) with 8%nat in *. change (List.length receiver) with 7%nat in *.
  unfold passing_rank, passing_helper. cbn [m_cores].
  destruct i as [|[|i]]; [| |done]; injection Hi as <-; cbn [insert list_insert m_cores].
  - destruct (decide (k0 = 8%nat)) as [->|Hk].
    { pose proof (task_halted (sender v) a0 sh T0) as Hh. by rewrite Hst in Hh. }
    destruct (sender_step v Hv k0 a0 sh T0 ltac:(lia) S0) as (b & G1 & G2 & G3).
    rewrite G1 in Hst. injection Hst as -> <-. destruct (task_position _ _ _ G2) as (P2 & _ & _).
    split; [apply (passing_at _ _ _ (S k0) k1); try done; [by apply mem_sent|by destruct Hp; split; lia]|].
    left. rewrite P0, P1, P2. destruct (Nat.ltb_spec k0 8); [|lia].
    destruct (Nat.ltb_spec (S k0) 8); [lia|].
    by destruct k1 as [|[|[|[|[|[|[|k1]]]]]]]; cbn [left_to_do]; try case_match; lia.
  - destruct (decide (k1 = 7%nat)) as [->|Hk].
    { pose proof (task_halted receiver a1 sh T1) as Hh. by rewrite Hst in Hh. }
    destruct (receiver_passes k0 k1 a1 sh T1 ltac:(lia) B1 Hm Hp) as (b & k' & G1 & G2 & G3 & G4 & G5).
    rewrite G1 in Hst. injection Hst as -> <-. destruct (task_position _ _ _ G2) as (P2 & _ & _).
    split; [by apply (passing_at _ _ _ k0 k')|]. rewrite P0, P1, P2.
    destruct (Nat.ltb_spec k0 8); [right; by repeat split|]. left. apply G5. lia.
Qed.

Lemma passing_bound x : passing x -> (passing_rank x <= 17)%nat.
Proof using Type.
  intros [a0 a1 sh k0 k1 _ _ _ _ _ _]. unfold passing_rank. cbn [m_cores]. destruct (Nat.ltb_spec (position a0) 8); [lia|].
  destruct (position a1) as [|[|[|[|[|[|[|k]]]]]]]; cbn [left_to_do]; try case_match; lia.
Qed.
(** A receiver that has halted holds the value. *)
Lemma passing_received x a :
  passing x -> x.(m_cores) !! 1%nat = Some a -> a.(a_regs).(halt) = true -> reg a 3 = v.
Proof using Type.
  intros [a0 a1 sh k0 k1 _ _ T1 _ _ [_ _ P]] [= ->] Hh. destruct (task_position _ _ _ T1) as (_ & _ & E).
  rewrite Hh in E. symmetry in E. apply Nat.leb_le in E. cbn in E. apply P. lia.
Qed.

#[export] Program Instance passing_progress : Progress passing := {
  rank := passing_rank; helper := passing_helper;
  progress_safe := passing_safe; progress_step := passing_step }.
Next Obligation.
  intros x [a0 a1 sh k0 k1 T0 S0 T1 B1 Hm Hp]. unfold passing_rank, passing_helper. cbn [m_cores].
  destruct (task_position _ _ _ T0) as (P0 & L0 & E0). destruct (task_position _ _ _ T1) as (P1 & L1 & E1).
  rewrite P0, P1. destruct (Nat.ltb_spec k0 8); intros Hr.
  - exists a0. split; [done|]. rewrite E0. by apply Nat.leb_gt.
  - exists a1. split; [done|]. rewrite E1. apply Nat.leb_gt. cbn.
    destruct k1 as [|[|[|[|[|[|[|k1]]]]]]]; cbn [left_to_do] in Hr; lia.
Qed.
Next Obligation.
  intros x [a0 a1 sh k0 k1 T0 S0 T1 B1 Hm Hp]. unfold passing_rank. cbn [m_cores].
  destruct (task_position _ _ _ T0) as (P0 & L0 & E0). destruct (task_position _ _ _ T1) as (P1 & L1 & E1).
  rewrite P0, P1. destruct (Nat.ltb_spec k0 8) as [|Hk]; [lia|]. intros Hr.
  assert (7 <= k1)%nat.
  { destruct k1 as [|[|[|[|[|[|[|k1]]]]]]]; cbn [left_to_do] in Hr; try case_match; lia. }
  repeat apply Forall_cons_2; [rewrite E0|rewrite E1|done]; by apply Nat.leb_le.
Qed.
End Passing.

(** ** Loading the cores *)
Lemma load_core i ws c e :
  sharing c -> c.(cores_) !! i = Some e ->
  Forall (fits 32) ws -> 4 * zlen ws <= e.(scratchpad_).(blen) -> 4 * zlen ws <= TEXT_SIZE ->
  exists e' c', Cluster.on_core i (Emulator.load_program ws) c = (Ok tt, c') /\ sharing c' /\
    c'.(cores_) = <[i := e']> c.(cores_) /\ c'.(shared_ram_) = c.(shared_ram_) /\ c'.(cl_cfg_) = c.(cl_cfg_) /\
    c'.(deterministic_) = c.(deterministic_) /\ code_at ws e'.(scratchpad_) /\ e'.(regs_) = e.(regs_).
Proof.
  intros Hc Hi Hf Hl Ht. set (x := Emulator.put_shared (Some (shared_ram_ c)) e).
  assert (Hx : Cluster.core i c = Some x) by (apply core_lookup; by exists e).
  destruct (sharing_cores c Hc i x Hx) as [Hw Hb Hbelow Hsh]. destruct (wf_scratchpad x Hw) as [[_ H64] _].
  destruct (load_program_code ws x) as (y & Hload & Hcode & Hm & _ & Hregs & Hmmu & Hcsr & _ & Hs); [done..|].
  assert (Hy : steady y (shared_ram_ c)).
  { split; [|by apply (bare_eq x)|by rewrite Hm|by rewrite Hs].
    pose proof (load_program_keeps ws x Hw) as [Hk _]. by rewrite Hload in Hk. }
  exists y, (Cluster.put_core i y c). unfold Cluster.on_core. rewrite Hx, Hload. split; [done|].
  pose proof (steady_shared _ _ Hy) as Hys.
  assert (Hd : default (shared_ram_ c) (shared_ y) = shared_ram_ c) by by rewrite Hys.
  split; [apply sharing_put_core; [done|by rewrite Hd]|].
  split; [done|]. split; [exact Hd|]. by split; [|split].
Qed.

(** A core at the start of its code. *)
Record at_reset (e : Emulator) : Prop := {
  reset_pc : e.(regs_).(pc) = 0; reset_run : e.(regs_).(halt) = false; reset_room : 32 <= e.(scratchpad_).(blen) }.
Lemma reset_task ws e c i x :
  sharing c -> c.(cores_) !! i = Some x -> at_reset e -> code_at ws x.(scratchpad_) -> x.(regs_) = e.(regs_) -> ws <> [] ->
  task ws 0 (abs x).
Proof.
  intros Hs Hx [Hp Hh _] Hc Hr Hl. apply task_at; [|by destruct ws; [|cbn; lia]]. split; cbn [abs a_regs a_mem]; rewrite ?Hr; try done.
  rewrite <- Hr. unfold zlen.
  destruct (sharing_cores c Hs i (Emulator.put_shared (Some (shared_ram_ c)) x)) as [Hw _ _ _].
  { apply core_lookup. by exists x. }
  change (regs_ x) with (regs_ (Emulator.put_shared (Some (shared_ram_ c)) x)).
  by rewrite RegisterFile.wf_gpr_len by apply Hw.
Qed.

Lemma sender_fits v : Forall (fits 32) (sender v).
Proof. unfold sender, window_in_r1. cbn [app]. fits_words. Qed.
Lemma receiver_fits : Forall (fits 32) receiver.
Proof. unfold receiver, window_in_r1. cbn [app]. fits_words. Qed.

(** C37: message passing between two cores of a cluster. One core runs
    the eight words that store a value and then a flag in the shared memory,
    the other the seven words that wait for the flag and load the value; the
    flag is 0 before. Loaded and run with any quantum of at least one step,
    any 16-bit value and any budget of cycles, the cluster ends within 17
    rounds, without an error and without a deadlock: the loop of the receiver
    ends, because every round lets the sender take a step. If the receiver has
    halted, and it has unless the budget ended the run first, its r3 holds the
    value. *)
Theorem message_passing `{FloatOps} path v c e0 e1 fuel max :
  0 <= v < 2 ^ 16 -> sharing c -> 0 < c.(cl_cfg_).(cl_quantum) ->
  c.(cores_) = [e0; e1] -> at_reset e0 -> at_reset e1 -> word c.(shared_ram_) 4 = 0 -> (17 <= fuel)%nat ->
  exists c' e', (do! Cluster.on_core 0 (Emulator.load_program (sender v)) in
      do! Cluster.on_core 1 (Emulator.load_program receiver) in Cluster.run path fuel max) c = (Ok true, c') /\
    Cluster.core 1 c' = Some e' /\
    (e'.(regs_).(halt) = true -> RegisterFile.read_gpr e'.(regs_) 3 = Some v) /\
    (Cluster.all_halted c' = true \/ max <= Cluster.elapsed c.(deterministic_).(global_clock_) c').
Proof.
  intros Hv Hc Hq Hcores H0 H1 Hflag Hfuel.
  destruct (load_core 0 (sender v) c e0) as (a & c1 & E1 & Hc1 & L1 & M1 & Q1 & D1 & A1 & R1);
    [done|by rewrite Hcores|apply sender_fits|apply H0|vm_compute; congruence|].
  rewrite Hcores in L1. cbn [insert list_insert] in L1.
  destruct (load_core 1 receiver c1 e1) as (b & c2 & E2 & Hc2 & L2 & M2 & Q2 & D2 & A2 & R2);
    [done|by rewrite L1|apply receiver_fits|change (28 <= blen (scratchpad_ e1)); pose proof (reset_room _ H1); lia
    |vm_compute; congruence|].
  rewrite L1 in L2. cbn [insert list_insert] in L2.
  assert (HI : passing v (mabs c2)).
  { unfold mabs. rewrite L2. apply (passing_at v _ _ _ 0 0); try by split.
    - apply (reset_task _ e0 c2 0); by rewrite ?L2.
    - by split; [|lia].
    - apply (reset_task _ e1 c2 1); by rewrite ?L2.
    - split; [by rewrite M2, M1|lia].
    - split; lia. }
  rewrite (bind_ok _ _ _ _ _ E1), (bind_ok _ _ _ _ _ E2).
  unfold Cluster.run. rewrite get_run, D2, D1.
  destruct (run_progress path (I := passing v) (Progress0 := passing_progress v Hv) fuel c.(deterministic_).(global_clock_) max c2)
    as (c' & E & Hc' & HI' & Hend); [done|done|by rewrite Q2, Q1|pose proof (passing_bound v _ HI); cbn [rank passing_progress]; lia|].
  assert (exists x, c'.(cores_) !! 1%nat = Some x) as [x Hx].
  { destruct (cores_ c') as [|x [|y l]] eqn:El; [..|by exists y];
      exfalso; unfold mabs in HI'; rewrite El in HI'; inversion HI'. }
  exists c', (Emulator.put_shared (Some (shared_ram_ c')) x). split; [exact E|].
  assert (Hcore : Cluster.core 1 c' = Some (Emulator.put_shared (Some (shared_ram_ c')) x)).
  { apply core_lookup. by exists x. }
  split; [done|]. split; [|done]. intros Hh.
  destruct (reg_value _ 3 (steady_wf _ _ (sharing_cores c' Hc' 1 _ Hcore)) ltac:(lia) eq_refl) as [-> _].
  f_equal. exact (passing_received v (mabs c') (abs x) HI' (mabs_core 1 c' x Hx) Hh).
Qed.

(** The value 0xBEEF, with quanta of 100 steps. *)
Definition exchange (v : Z) : M Cluster bool :=
  do! Cluster.on_core 0 (Emulator.load_program (sender v)) in
  do! Cluster.on_core 1 (Emulator.load_program receiver) in Cluster.run PathScalar 17 100000.
Lemma message_passing_witness : exists c' e',
  exchange 0xBEEF window_cluster = (Ok true, c') /\ Cluster.core 1 c' = Some e' /\
  RegisterFile.read_gpr e'.(regs_) 3 = Some 0xBEEF.
Proof.
  pose (e := Emulator.put_shared (Some (shared_ram_ window_cluster)) (Emulator.create 256 0x01000003)).
  destruct (message_passing PathScalar 0xBEEF window_cluster e e 17 100000) as (c' & e' & Hr & Hc & Hv & _);
    [lia|exact window_cluster_sharing|done|reflexivity|by split; vm_compute|by split; vm_compute|by vm_compute|lia|].
  exists c', e'. split; [exact Hr|]. split; [exact Hc|]. apply Hv.
  assert (Hh : Cluster.core_halted 1 (exchange 0xBEEF window_cluster).2 = true) by (vm_compute; reflexivity).
  unfold exchange in Hh. rewrite Hr in Hh. cbn [snd] in Hh. apply core_lookup in Hc as (x & Hx & ->).
  unfold Cluster.core_halted in Hh. by rewrite Hx in Hh.
Defined.
