(* ===== verification/Demo.v ===== *)
(** * The benchmark and the demonstration program: coremark.h, coremark.cpp,
    main.cpp

    [coremark::run] over the emulator, and the sections of [main] as
    computations that print their text and return the values they compare; the
    wall clock is an argument.  Every check [main] reports is
    evaluated here. *)

From Stdlib Require Import Ascii String SpecFloat.
From S2P Require Import Prelude Text Isa Memory Registers Interrupt Devices Bus Float Profiler Interconnect Target Host Mmu Translate Emulator EmulatorWf Execute Decoder.
#[local] Open Scope Z_scope.

(** ** CoreMark *)
Module Coremark.
#[local] Set Primitive Projections.
Record Result : Type := mkResult {
  iterations : Z; total_cycles : Z; total_instrs : Z; wall_us : Z; coremark_per_mhz : spec_float;
  iterations_per_sec : spec_float; crc_ok : bool; list_ok : bool; matrix_ok : bool;
  target_name : string; host_info : string }.
#[local] Unset Primitive Projections.

Definition build_iteration (scratch_a scratch_b : Z) : list Z :=
  [enc.movi 1 0; enc.movi 2 5; enc.movi 4 1; enc.movi 3 0;
   enc.add 1 1 4; enc.add 3 3 1; enc.bne 1 2 (s16 (u16 (-12)));
   enc.movi 5 (u16 scratch_a); enc.movi 6 (u16 scratch_b);
   enc.movi 7 0; enc.movi 8 64;
   enc.dma_load 5 7 64; enc.dma_load 6 8 64;
   enc.load_vr 0 5 0; enc.load_vr 1 6 0;
   enc.vec_add 2 0 1;
   enc.matmul_tile 3 0 1 4;
   enc.store_vr 3 5 0;
   enc.movi 10 0x5A5A; enc.add 11 10 3; enc.mul 12 11 3;
   enc.halt].

(** A matrix argument is null or sixteen floats. *)
Definition matrix : Type := option (list Z).
Definition matrix_bytes (m : list Z) : list Z := concat (map (le_bytes 4) m).
Definition load_matrix (addr : Z) (m : matrix) : M Emulator unit :=
  match m with None => ret tt | Some l => Emulator.load_main_ram addr (matrix_bytes l) end.
(** The copy into the scratchpad is not guarded: a null matrix is read. *)
Definition copy_matrix (addr : Z) (m : matrix) : M Emulator unit :=
  match m with
  | Some l => zoom scratchpad_ Emulator.put_scratchpad (VirtualSRAM.write_bytes addr (matrix_bytes l))
  | None =>
      let! s := get in
      if VirtualSRAM.check_bounds s.(scratchpad_) addr 64 then undef NullDeref
      else throw (SramOutOfBounds addr 64)
  end.

Section Run.
Context `{FloatOps} (path : HostPath) (fuel : nat) (mat_a mat_b : matrix).

(** One iteration: cycles, instructions, whether r3 is 15, whether it halted;
    [None] when [fuel] is too small. *)
Definition iteration (use_fast : bool) : M Emulator (option (Z * Z * bool * bool)) :=
  do! Emulator.load_program (build_iteration 0x1000 0x1040) in
  do! load_matrix 0x0000 mat_a in
  do! load_matrix 0x0040 mat_b in
  do! copy_matrix 0x1000 mat_a in
  do! copy_matrix 0x1040 mat_b in
  let! finished := (if use_fast then Emulator.run_fast path fuel else Emulator.run path fuel) in
  if negb finished then ret None
  else
    let! s := get in
    let! r3 := Emulator.read_gpr 3 in
    let! _ := lift (VirtualSRAM.read_bytes s.(scratchpad_) 0x1000 64) in
    do! modify Emulator.reset in
    ret (Some (Profiler.cycles s.(profiler_), Profiler.instructions s.(profiler_), r3 =? 15, Emulator.halted s)).
Fixpoint iterate (use_fast : bool) (n : nat) (cyc ins : Z) (lok cok : bool)
    : M Emulator (option (Z * Z * bool * bool)) :=
  match n with
  | O => ret (Some (cyc, ins, lok, cok))
  | S n =>
      let! r := iteration use_fast in
      match r with
      | None => ret None
      | Some (c, i, l, h) => iterate use_fast n (u64 (cyc + c)) (u64 (ins + i)) (lok && l) (cok && h)
      end
  end.
(** What is reported of [n] iterations; [wall] is the time measured around the
    loop, in microseconds. *)
Definition make_result (n cyc ins : Z) (lok cok : bool) (wall : Z) (target host : string) : Result :=
  let million := f64_of_Z 1000000 in
  let mhz_cycles := f64_div (f64_of_Z cyc) million in
  {| iterations := n; total_cycles := cyc; total_instrs := ins; wall_us := wall;
     coremark_per_mhz := if 0 <? cyc then f64_div (f64_of_Z n) mhz_cycles else f64_of_Z 0;
     iterations_per_sec :=
       if 0 <? wall then f64_div (f64_mul (f64_of_Z n) million) (f64_of_Z wall) else f64_of_Z 0;
     crc_ok := cok; list_ok := lok; matrix_ok := true; target_name := target; host_info := host |}.
Definition run (features : Host.features) (wall : Z) (n : Z) (use_fast : bool) : M Emulator (option Result) :=
  let! s := get in
  do! (match mat_a, mat_b with
       | Some _, Some _ => do! load_matrix 0x0000 mat_a in load_matrix 0x0040 mat_b
       | _, _ => ret tt
       end) in
  let! r := iterate use_fast (Z.to_nat n) 0 0 true true in
  match r with
  | None => ret None
  | Some (cyc, ins, lok, cok) =>
      ret (Some (make_result n cyc ins lok cok wall (Target.name s.(target_)) (Host.host_feature_string features)))
  end.
End Run.

Definition nl : string := String (ascii_of_nat 10) "".
Definition pass (b : bool) : string := (if b then "PASS" else "FAIL")%string.
Definition report (r : Result) : string :=
  snprintf 1024 ("CoreMark [" +:+ c_str r.(target_name) +:+ " on " +:+ c_str r.(host_info) +:+ "]" +:+ nl
    +:+ "  iterations      : " +:+ udec r.(iterations) +:+ nl
    +:+ "  total_cycles    : " +:+ udec r.(total_cycles) +:+ nl
    +:+ "  total_instrs    : " +:+ udec r.(total_instrs) +:+ nl
    +:+ "  wall_time       : " +:+ fixed 1 (f64_of_Z r.(wall_us)) +:+ " us" +:+ nl
    +:+ "  iter/sec        : " +:+ fixed 1 r.(iterations_per_sec) +:+ nl
    +:+ "  CoreMark/MHz    : " +:+ fixed 3 r.(coremark_per_mhz) +:+ nl
    +:+ "  checks: list=" +:+ pass r.(list_ok) +:+ " matrix=" +:+ pass r.(matrix_ok)
    +:+ " crc=" +:+ pass r.(crc_ok) +:+ "  "
    +:+ (if r.(list_ok) && r.(matrix_ok) && r.(crc_ok) then "OVERALL PASS" else "OVERALL FAIL") +:+ nl)%string.
End Coremark.

(** ** main *)
Module Demo.
Definition SCRATCH_A : Z := 0x1000.
Definition SCRATCH_B : Z := 0x1040.
Definition MAIN_A : Z := 0x0000.
Definition MAIN_B : Z := 0x0040.
Definition MAIN_RESULT : Z := 0x2000.

(** The patterns of 0.0f to 16.0f. *)
Definition small_floats : list Z :=
  [0; 0x3F800000; 0x40000000; 0x40400000; 0x40800000; 0x40A00000; 0x40C00000; 0x40E00000; 0x41000000;
   0x41100000; 0x41200000; 0x41300000; 0x41400000; 0x41500000; 0x41600000; 0x41700000; 0x41800000].
Definition float (n : Z) : Z := default 0 (zget small_floats n).
Definition matrix_a : list Z := map float [1; 0; 0; 0; 0; 1; 0; 0; 0; 0; 1; 0; 0; 0; 0; 1].
Definition matrix_b : list Z := map float [1; 2; 3; 4; 5; 6; 7; 8; 9; 10; 11; 12; 13; 14; 15; 16].

Definition program : list Z :=
  [enc.movi 1 0; enc.movi 2 5; enc.movi 4 1; enc.movi 3 0;
   enc.add 1 1 4; enc.add 3 3 1; enc.bne 1 2 (-12);
   enc.movi 5 (u16 SCRATCH_A); enc.movi 6 (u16 SCRATCH_B); enc.movi 7 (u16 MAIN_A); enc.movi 8 (u16 MAIN_B);
   enc.dma_load 5 7 64; enc.dma_load 6 8 64; enc.load_vr 0 5 0; enc.load_vr 1 6 0;
   enc.vec_add 2 0 1; enc.matmul_tile 3 0 1 4; enc.store_vr 3 5 0;
   enc.movi 9 (u16 MAIN_RESULT); enc.dma_store 9 5 64;
   enc.halt].

Definition new_emulator : Emulator := Emulator.create SCRATCHPAD_SIZE MAIN_RAM_SIZE.
Definition load : M Emulator unit :=
  do! Emulator.load_program program in
  do! Emulator.load_main_ram MAIN_A (Coremark.matrix_bytes matrix_a) in
  Emulator.load_main_ram MAIN_B (Coremark.matrix_bytes matrix_b).
(** The sixteen floats at [MAIN_RESULT]. *)
Definition result : M Emulator (list Z) :=
  let! s := get in
  let! bytes := lift (MainRAM.read s.(main_ram_) MAIN_RESULT 64) in
  ret (TranslationEngine.words bytes).

(** [std::printf] while a machine is alive: its output is one stream. *)
Definition print (text : string) : M Emulator unit := modify (fun s => { s with stdout := (s.(stdout) ++ [text])%list }).
Notation nl := Coremark.nl.

(** [std::abs(x - y) > 1e-3f] *)
Definition far (x y : Z) : bool :=
  SFltb (of_bits 0x3A83126F) (SFabs (SFsub 24 128 (of_bits x) (of_bits y))).
Definition all_close (xs ys : list Z) : bool := forallb (fun p => negb (far p.1 p.2)) (zip xs ys).
(** A float is promoted to double: %6.1f *)
Definition cell (x : Z) : string := ("  " +:+ pad_left " "%char 6 (fixed_float 1 x))%string.
Definition row_text (xs : list Z) : string := (fold_right (fun x t => cell x +:+ t) "" xs +:+ nl)%string.
Fixpoint rows_text (n : nat) (xs : list Z) : string :=
  match n with O => ""%string | S n => (row_text (take 4 xs) +:+ rows_text n (drop 4 xs))%string end.

Section Main.
Context `{FloatOps} (path : HostPath) (fuel : nat).

(** The first section: disassembly, run, verification, report.  Every run
    says whether it ended within [fuel]. *)
Definition run_silent : M Emulator (bool * Z * Z * list Z) :=
  do! load in
  let! s := get in
  do! print ("=== Program Disassembly (" +:+ udec (zlen program) +:+ " instructions) ===" +:+ nl)%string in
  let! text := lift (Debugger.disassemble_range s.(scratchpad_) 0 (List.length program)) in
  do! print (text +:+ nl)%string in
  do! print ("=== Running (silent) ===" +:+ nl)%string in
  let! finished := Emulator.run path fuel in
  let! s := get in
  do! print ("Execution halted at PC=0x" +:+ hex08 (Emulator.pc s) +:+ nl +:+ nl)%string in
  do! print ("=== Verification ===" +:+ nl)%string in
  let! r3 := Emulator.read_gpr 3 in
  do! print ("r3 (scalar sum) = " +:+ udec r3 +:+ "  (expected 15)  " +:+ Coremark.pass (r3 =? 15)%Z +:+ nl)%string in
  let! res := result in
  do! print ("Matmul result (identity * B = B):" +:+ nl +:+ rows_text 4 res)%string in
  do! print ("MATMUL correct: " +:+ Coremark.pass (all_close res matrix_b) +:+ nl)%string in
  let! _ := lift (VirtualSRAM.read_bytes s.(scratchpad_) SCRATCH_A 64) in
  do! print (nl +:+ Profiler.report s.(profiler_))%string in
  ret (finished, Emulator.pc s, r3, res).

(** Steps until the breakpoint is reached, then to the end. *)
Fixpoint step_to_breakpoint (n : nat) : M Emulator (option Z) :=
  let! s := get in
  if Emulator.halted s then ret None
  else
    match n with
    | O => ret None
    | S n =>
        do! Emulator.step path in
        let! s := get in
        if Debugger.has_breakpoint s.(debugger_) (Emulator.pc s) then
          do! print ("*** Breakpoint hit at 0x" +:+ hex08 (Emulator.pc s) +:+ " ***" +:+ nl)%string in
          do! modify (Emulator.remove_breakpoint 0x10) in ret (Some (Emulator.pc s))
        else step_to_breakpoint n
    end.
Definition run_verbose : M Emulator (option Z * bool * Z) :=
  do! print ("=== Verbose trace with breakpoint at 0x10 (loop entry) ===" +:+ nl)%string in
  do! load in
  do! modify (Emulator.set_verbose true) in
  do! modify (Emulator.add_breakpoint 0x10) in
  let! hit := step_to_breakpoint fuel in
  let! finished := Emulator.run path fuel in
  let! r3 := Emulator.read_gpr 3 in
  do! print ("Verbose run complete. r3=" +:+ udec r3 +:+ nl)%string in
  ret (hit, finished, r3).

(** Whether the runs ended; saved pc and r3; then pc, r3, halted and the
    printed match. *)
Definition run_saved : M Emulator (bool * Z * Z * Z * Z * bool * bool) :=
  do! print (nl +:+ "=== State Serialization Test ===" +:+ nl)%string in
  do! load in
  do! modify (Emulator.add_breakpoint 0x2C) in
  let! fin1 := Emulator.run path fuel in
  let! s := get in
  let saved := Emulator.save_state s in
  let saved_pc := Emulator.pc s in
  let! saved_r3 := Emulator.read_gpr 3 in
  do! print ("State saved: PC=0x" +:+ hex08 saved_pc +:+ ", r3=" +:+ udec saved_r3 +:+ ", cycles="
               +:+ udec (Profiler.cycles s.(profiler_)) +:+ nl)%string in
  do! modify (Emulator.restore_state saved) in
  do! modify (Emulator.remove_breakpoint 0x2C) in
  let! fin2 := Emulator.run path fuel in
  let! s := get in
  let! r3 := Emulator.read_gpr 3 in
  let halted := Emulator.halted s in
  do! print ("After restore + continue: PC=0x" +:+ hex08 (Emulator.pc s) +:+ ", r3=" +:+ udec r3 +:+ ", halted="
               +:+ (if halted then "1" else "0") +:+ nl)%string in
  let ok := ((Emulator.pc s =? saved_pc) || halted)%Z && (r3 =? saved_r3)%Z in
  do! print ("Match: " +:+ (if ok then "YES" else "NO") +:+ nl)%string in
  ret (fin1 && fin2, saved_pc, saved_r3, Emulator.pc s, r3, halted, ok).

(** The program under a target: whether it ended and the result; then the line
    printed for [us] microseconds. *)
Definition bench_run (prof : TargetProfile) : M Emulator (bool * list Z) :=
  do! modify (Emulator.set_target prof) in
  do! load in
  let! finished := Emulator.run_fast path fuel in
  let! res := result in ret (finished, res).
Definition bench_text (label : string) (cycles us : Z) (rate : spec_float) (ok : bool) : string :=
  (pad_right 14 label +:+ " cycles=" +:+ pad_right 4 (udec cycles) +:+ "  wall=" +:+ pad_left " "%char 4 (dec us)
   +:+ " us  hit_rate=" +:+ fixed 1 (f64_mul rate (f64_of_Z 100)) +:+ "%  "
   +:+ (if ok then "PASS (bit-identical)" else "FAIL") +:+ nl)%string.
Definition bench_target (label : string) (us : Z) (prof : TargetProfile) : M Emulator (bool * Z * list Z) :=
  let! ' (finished, res) := bench_run prof in
  let! s := get in
  let cycles := Profiler.cycles s.(profiler_) in
  do! print (bench_text label cycles us (BlockCache.hit_rate s.(block_cache_)) (all_close res matrix_b)) in
  ret (finished, cycles, res).
(** Scalar run, accelerated fast run. *)
Definition accuracy_ref : M Emulator (bool * list Z) :=
  do! modify (Emulator.set_acceleration false) in
  do! load in
  let! finished := Emulator.run path fuel in
  let! res := result in ret (finished, res).
Definition accuracy_fast : M Emulator (bool * list Z) :=
  do! modify (Emulator.set_acceleration true) in
  do! load in
  let! finished := Emulator.run_fast path fuel in
  let! res := result in ret (finished, res).
(** No pair of floats differs: [!=] is true of a NaN. *)
Definition identical (xs ys : list Z) : bool := forallb (fun p => SFeqb (of_bits p.1) (of_bits p.2)) (zip xs ys).
Definition accuracy_text (xs ys : list Z) : string :=
  ("Host accel vs scalar: " +:+ Coremark.pass (identical xs ys) +:+ " (FP32 bit-identical)" +:+ nl)%string.
(** [emu] is the machine of the first section. *)
Definition host_text (features : Host.features) (emu : Emulator) : string :=
  (nl +:+ "=== Host Translation Layer ===" +:+ nl
   +:+ "Host ISA: " +:+ Host.host_feature_string features +:+ nl
   +:+ "Acceleration: " +:+ (if SFleb (S754_zero false) (BlockCache.hit_rate emu.(block_cache_))
                             then "enabled (host SIMD)" else "enabled") +:+ nl)%string.
End Main.

(** UART and timer through the bus: what the UART printed, limit and control
    read back. *)
Definition uart_send (c : Z) : M Emulator unit := Emulator.bus_write32 (MMIO_BASE + UART_BASE + UART_TX) c.
Definition mmio : M Emulator (Z * Z) :=
  do! print (nl +:+ "=== MMIO Test (UART + Timer) ===" +:+ nl)%string in
  do! uart_send 78 in do! uart_send 111 in do! uart_send 118 in
  do! uart_send 105 in do! uart_send 117 in do! uart_send 109 in
  do! uart_send 10 in
  do! Emulator.bus_write32 (MMIO_BASE + TIMER_LIMIT) 500 in
  do! Emulator.bus_write32 (MMIO_BASE + TIMER_CTRL) 1 in
  do! print ("Timer configured: limit=500, running" +:+ nl)%string in
  let! limit := Emulator.bus_read32 (MMIO_BASE + TIMER_LIMIT) in
  let! ctrl := Emulator.bus_read32 (MMIO_BASE + TIMER_CTRL) in
  do! print ("Timer readback: limit=" +:+ udec limit +:+ ", ctrl=" +:+ udec ctrl +:+ nl)%string in
  ret (limit, ctrl).
End Demo.

(** ** What they print *)
Import Demo.

(** The checks of [main] pass on every host path. The program halts at
    0x54 with r3 = 15 and the product identity * B = B in main memory; stopped
    at the breakpoint and continued, or saved before the DMA phase, restored
    and continued, it ends the same way; under the CPU, GPU and ASIC profiles
    the result is the same bits and only the cycle count differs; the scalar
    run and the accelerated fast run agree bit for bit; and the UART and timer
    read back what was written. *)
Theorem demo_passes path :
  (run_silent path 60 new_emulator).1 = Ok (true, 0x54, 15, matrix_b) /\
  (run_verbose path 60 new_emulator).1 = Ok (Some 0x10, true, 15) /\
  (run_saved path 60 new_emulator).1 = Ok (true, 0x2C, 15, 0x54, 15, true, true) /\
  map (fun p => (bench_target path 60 "" 0 p new_emulator).1) [make_cpu_profile; make_gpu_profile; make_asic_profile]
    = [Ok (true, 83, matrix_b); Ok (true, 56, matrix_b); Ok (true, 77, matrix_b)] /\
  (accuracy_ref path 60 new_emulator).1 = (accuracy_fast path 60 new_emulator).1 /\
  ((mmio new_emulator).1, stdout (mmio new_emulator).2)
    = (Ok (500, 1), [nl +:+ "=== MMIO Test (UART + Timer) ===" +:+ nl; "[UART TX] Novium" +:+ nl +:+ nl;
                     "Timer configured: limit=500, running" +:+ nl;
                     "Timer readback: limit=500, ctrl=1" +:+ nl]%string).
Proof. split_and!; destruct path; vm_compute; reflexivity. Qed.

(** ** CoreMark totals *)
Definition preload : M Emulator unit :=
  do! Coremark.load_matrix 0x0000 (Some matrix_a) in Coremark.load_matrix 0x0040 (Some matrix_b).
Section Iterations.
Context (path : HostPath) (use_fast : bool) (s0 : Emulator) (cost : Z).
Definition one_iteration : M Emulator (option (Z * Z * bool * bool)) :=
  Coremark.iteration path 60 (Some matrix_a) (Some matrix_b) use_fast.
Definition preloaded : Emulator := (preload s0).2.

(** The state after an iteration and its reset is the same after every one. *)
Record periodic : Prop := {
  iteration_preload : (preload s0).1 = Ok tt;
  iteration_first : (one_iteration preloaded).1 = Ok (Some (cost, 34, true, true));
  iteration_again : one_iteration (one_iteration preloaded).2
                    = (Ok (Some (cost, 34, true, true)), (one_iteration preloaded).2);
  iteration_quiet : stdout preloaded = stdout s0 /\ stdout (one_iteration preloaded).2 = stdout s0 }.
Context (Hp : periodic).

Lemma iterate_totals n c i :
  Coremark.iterate path 60 (Some matrix_a) (Some matrix_b) use_fast n c i true true (one_iteration preloaded).2
  = (Ok (Some (Nat.iter n (fun c => u64 (c + cost)) c, Nat.iter n (fun i => u64 (i + 34)) i, true, true)), (one_iteration preloaded).2).
Proof using Hp.
  revert c i. induction n as [|n IH]; intros c i; [done|]. cbn [Coremark.iterate].
  fold one_iteration. rewrite (bind_ok _ _ _ _ _ (iteration_again Hp)). cbn [andb]. rewrite IH.
  by rewrite !Nat.iter_succ_r.
Qed.
Lemma iter_add n k c : 0 <= c -> 0 <= k -> c + Z.of_nat n * k < 2 ^ 64 ->
  Nat.iter n (fun c => u64 (c + k)) c = c + Z.of_nat n * k.
Proof using Type.
  intros Hc Hk Hn. induction n as [|n IH]; [cbn; lia|]. cbn [Nat.iter nat_rect].
  change (nat_rect _ c _ n) with (Nat.iter n (fun c => u64 (c + k)) c). rewrite IH by nia.
  rewrite u64_small; [|split]; nia.
Qed.

Lemma coremark_run features wall n :
  0 <= cost < 2 ^ 32 -> 0 <= n < 2 ^ 32 ->
  exists s, Coremark.run path 60 (Some matrix_a) (Some matrix_b) features wall n use_fast s0
            = (Ok (Some (Coremark.make_result n (cost * n) (34 * n) true true wall (Target.name s0.(target_))
                 (Host.host_feature_string features))), s) /\ stdout s = stdout s0.
Proof using Hp.
  intros Hc Hn. unfold Coremark.run. rewrite get_run. fold preload.
  rewrite (bind_ok _ _ _ tt preloaded); [|unfold preloaded; rewrite <- (iteration_preload Hp); by destruct (preload s0)].
  assert (Hit : exists s, Coremark.iterate path 60 (Some matrix_a) (Some matrix_b) use_fast (Z.to_nat n) 0 0 true true preloaded
                = (Ok (Some (cost * n, 34 * n, true, true)), s) /\ stdout s = stdout s0).
  { destruct (Z.to_nat n) as [|m] eqn:Em.
    - exists preloaded. assert (n = 0) as -> by lia. rewrite Z.mul_0_r. split; [done|apply iteration_quiet, Hp].
    - exists (one_iteration preloaded).2. split; [|apply iteration_quiet, Hp]. cbn [Coremark.iterate]. fold one_iteration.
      rewrite (bind_ok _ _ _ (Some (cost, 34, true, true)) (one_iteration preloaded).2)
        by (rewrite <- (iteration_first Hp); by destruct (one_iteration preloaded)).
      cbn [andb]. rewrite iterate_totals, !Z.add_0_l, !u64_small by (unfold fits; lia).
      rewrite !iter_add by nia. repeat f_equal; lia. }
  destruct Hit as (s & Hit & Hq). rewrite (bind_ok _ _ _ _ _ Hit). by exists s.
Qed.
End Iterations.

(** The machines [main] measures, and the others of its profiles. *)
Definition measured : list (Emulator * Z) :=
  [(new_emulator, 78); (Emulator.set_target make_cpu_profile new_emulator, 84);
   (Emulator.set_target make_gpu_profile new_emulator, 59); (Emulator.set_target make_asic_profile new_emulator, 78)].
Lemma measured_periodic path use_fast : Forall (fun p => periodic path use_fast p.1 p.2) measured.
Proof.
  repeat apply Forall_cons_2; try apply Forall_nil_2;
    split; destruct path, use_fast; vm_compute; repeat split; reflexivity.
Qed.

Lemma measured_cost s0 cost : (s0, cost) ∈ measured -> 0 <= cost < 2 ^ 32.
Proof.
  assert (Hc : Forall (fun p => 0 <= p.2 < 2 ^ 32) measured) by (repeat constructor; cbn; lia).
  rewrite Forall_forall in Hc. exact (Hc (s0, cost)).
Qed.

(** CoreMark scales exactly. On a new emulator under the native, CPU, GPU or
    ASIC weights with the matrices of [main], for every host path, with [run]
    or [run_fast], any number [n] of iterations reports 78 n, 84 n, 59 n or
    78 n cycles and 34 n instructions with the list and halt checks passing:
    every iteration does the same work, because the reset that ends it leaves
    the machine as the previous one did. *)
Theorem coremark_scales path use_fast features wall n s0 cost :
  (s0, cost) ∈ measured -> 0 <= n < 2 ^ 32 ->
  exists r s, Coremark.run path 60 (Some matrix_a) (Some matrix_b) features wall n use_fast s0
              = (Ok (Some r), s) /\
    r.(Coremark.iterations) = n /\ r.(Coremark.total_cycles) = cost * n /\ r.(Coremark.total_instrs) = 34 * n /\
    r.(Coremark.list_ok) = true /\ r.(Coremark.crc_ok) = true.
Proof.
  intros Hin Hn. pose proof (measured_periodic path use_fast) as Hp. rewrite Forall_forall in Hp.
  destruct (coremark_run path use_fast s0 cost (Hp _ Hin) features wall n (measured_cost _ _ Hin) Hn) as (s & Hs & _).
  by eexists _, s.
Qed.
Lemma coremark_scales_witness :
  exists r s, Coremark.run PathScalar 60 (Some matrix_a) (Some matrix_b)
                (Host.mkFeatures Host.X86_64 true false false false) 10 100 true new_emulator = (Ok (Some r), s) /\
    r.(Coremark.total_cycles) = 7800.
Proof.
  destruct (coremark_scales PathScalar true (Host.mkFeatures Host.X86_64 true false false false) 10 100 new_emulator 78
    ltac:(left) ltac:(lia))
    as (r & s & E & _ & H & _).
  exists r, s. split; [exact E|exact H].
Defined.

(** Null matrices: [main] never passes them, [run] reads through them. *)
Example coremark_null :
  (Coremark.run PathScalar 60 None None (Host.mkFeatures Host.X86_64 false false false false) 10 1 false new_emulator).1
  = Undefined NullDeref.
Proof. vm_compute. reflexivity. Qed.
