(* ===== verification/Programs.v ===== *)
(** * The demonstration program

    The program of main.cpp, proved on the instruction set of [Arch] for every
    operand, and carried to the emulator by the refinement: the sum loop by an
    invariant, the matrix phase by symbolic execution. *)

From S2P Require Import Prelude Text Isa Memory Registers Interrupt Devices Bus Float Profiler Interconnect Target Host Mmu Translate Emulator EmulatorWf Execute Dma Traps Frame Safety Fast Arch Symbolic Decoder Demo.
#[local] Open Scope Z_scope.
Import ISA.

(** ** The demonstration program *)

(** [Demo.program] with its loop bound as an argument. *)
Definition program (n : Z) : list Z :=
  [enc.movi 1 0; enc.movi 2 n; enc.movi 4 1; enc.movi 3 0;
   enc.add 1 1 4; enc.add 3 3 1; enc.bne 1 2 (-12);
   enc.movi 5 0x1000; enc.movi 6 0x1040; enc.movi 7 0; enc.movi 8 64;
   enc.dma_load 5 7 64; enc.dma_load 6 8 64; enc.load_vr 0 5 0; enc.load_vr 1 6 0;
   enc.vec_add 2 0 1; enc.matmul_tile 3 0 1 4; enc.store_vr 3 5 0;
   enc.movi 9 0x2000; enc.dma_store 9 5 64;
   enc.halt].
Lemma demo_program : Demo.program = program 5.
Proof. done. Qed.

(** Sixteen floats in a memory. *)
Definition floats_at (m : buffer) (a : Z) : list Z := Emulator.bytes_vr 16 (Buffer.peek m a 64).

Section Program.
Context `{FloatOps} (n : Z) (Hn : 1 <= n < 2 ^ 16).
Context (v : list (list Z)) (ram : buffer).
Notation ws := (program n).

(** The registers during the sum: [i] rounds done. *)
Record summing (i : Z) (r : list Z) : Prop := {
  sum_len : zlen r = 16; sum_i : R r 1 = i; sum_n : R r 2 = n;
  sum_acc : R r 3 = u32 (i * (i + 1) / 2); sum_one : R r 4 = 1 }.

#[local] Ltac regs := rewrite ?zlen_zset; rewrite ?R_zset_ne by lia; rewrite ?R_zset_eq by (rewrite ?zlen_zset; lia).

Lemma sum_round i r fl m :
  code_at ws m -> summing i r -> 0 <= i < n ->
  exists r' fl', nsteps steps_to 3 (st r v 16 fl m ram)
    (st r' v (if i + 1 =? n then 28 else 16) fl' m ram) /\ summing (i + 1) r'.
Proof using Hn.
  intros Hc [Hl H1 H2 H3 H4] Hi. assert (Hlow : 4 * zlen ws <= MMIO_BASE) by done.
  destruct (x_alu ws r v 4 fl m ram Hc Hlow ADD 1 1 4) as [fl1 S1]; [by left|done|lia..|].
  set (r1 := zset r 1 _) in *.
  destruct (x_alu ws r1 v 5 fl1 m ram Hc Hlow ADD 3 3 1) as [fl2 S2]; [by left|done|lia..|].
  set (r2 := zset r1 3 _) in *.
  pose proof (x_bne ws r2 v 6 fl2 m ram Hc Hlow 1 2 (-12) eq_refl ltac:(lia) ltac:(lia) ltac:(lia)) as S3.
  assert (L1 : zlen r1 = 16) by (subst r1; by regs).
  assert (E0 : R r1 1 = i + 1).
  { subst r1. regs. cbn [alu]. rewrite H1, H4. apply u32_small. unfold fits. lia. }
  assert (E1 : R r2 1 = i + 1) by (subst r2; by regs).
  assert (E2 : R r2 2 = n) by (subst r2 r1; by regs).
  rewrite E1, E2 in S3. exists r2, fl2. split.
  - eapply nsteps_l; [exact S1|]. eapply nsteps_l; [exact S2|]. eapply nsteps_l; [|apply nsteps_O].
    by destruct (i + 1 =? n).
  - split; [subst r2 r1; by regs|done|done| |subst r2 r1; by regs].
    subst r2. regs. rewrite E0. subst r1. regs. cbn [alu]. rewrite H3, u32_add_l. f_equal.
    replace ((i + 1) * (i + 1 + 1)) with (i * (i + 1) + (i + 1) * 2) by lia.
    by rewrite Z.div_add by lia.
Qed.

Lemma sum_loop k i r fl m :
  code_at ws m -> summing i r -> 0 <= i -> i + Z.of_nat k = n -> (k <> 0)%nat ->
  exists r' fl', nsteps steps_to (3 * k) (st r v 16 fl m ram) (st r' v 28 fl' m ram) /\ summing n r'.
Proof using Hn.
  revert i r fl. induction k as [|k IH]; intros i r fl Hc Hs Hi Hk Hk0; [done|].
  destruct (sum_round i r fl m Hc Hs ltac:(lia)) as (r1 & fl1 & H1 & Hs1).
  replace (3 * S k)%nat with (3 + 3 * k)%nat by lia.
  destruct (Z.eqb_spec (i + 1) n) as [He|He].
  - exists r1, fl1. assert (k = 0)%nat as -> by lia. by rewrite <- He.
  - destruct (IH (i + 1) r1 fl1 Hc Hs1 ltac:(lia) ltac:(lia) ltac:(lia)) as (r' & fl' & H2 & Hs').
    exists r', fl'. split; [by eapply nsteps_trans|done].
Qed.

(** Copied from main memory, then read from the scratchpad. *)
Lemma floats_copied m d (a : Z) :
  floats_at (Buffer.poke m d (Buffer.peek ram a 64)) d = floats_at ram a.
Proof using Type.
  unfold floats_at. f_equal. pose proof (Buffer.peek_poke m d (Buffer.peek ram a 64)) as Hp.
  by rewrite Buffer.peek_length in Hp.
Qed.
Lemma row_zget (w : list (list Z)) j x : zget w j = Some x -> Host.row w j = x.
Proof using Type. unfold Host.row. by intros ->. Qed.

(** The vector registers after the loads, the sum and the product. *)
Lemma vector_phase A B :
  vrs_ok v -> RegisterFile.vec_ok A -> RegisterFile.vec_ok B ->
  let w := zset (zset v 0 A) 1 B in
  let w' := zset w 2 (zip_with fadd (Host.row w 0) (Host.row w 1)) in
  exists C, Host.matmul_loop w' 3 0 1 4 = Some (zset w' 3 C) /\ RegisterFile.vec_ok C /\
    Host.row (zset w' 3 C) 3 = C /\
    forall i j, 0 <= i < 4 -> 0 <= j < 4 -> zget C (i * 4 + j) = Some (Host.dot_ref A B 4 i j).
Proof using Type.
  intros Hv HA HB w w'. assert (Hlen : zlen v = 8) by (unfold zlen; by rewrite (proj1 Hv)).
  assert (Hw : vrs_ok w) by (by repeat apply vrs_ok_set).
  assert (Hw' : vrs_ok w') by (apply vrs_ok_set; [done|]; apply vec_sums_ok; [done|lia|lia]).
  assert (Hlw : zlen w' = 8) by (subst w' w; by rewrite !zlen_zset).
  assert (H0 : zget w' 0 = Some A).
  { subst w' w. rewrite !zget_zset_ne by lia. apply zget_zset_eq. lia. }
  assert (H1 : zget w' 1 = Some B).
  { subst w' w. rewrite zget_zset_ne by lia. apply zget_zset_eq. rewrite zlen_zset. lia. }
  destruct (zget_lt w' 3) as [D HD]; [lia|].
  pose proof (Forall_zget _ _ _ _ (proj2 Hw') HD) as [HDl _].
  destruct (matmul_lanes w' 3 0 1 4 D A B HD H0 H1 HDl (proj1 HA) (proj1 HB) ltac:(lia) ltac:(lia) ltac:(lia))
    as (C & HC & HCl & Hlanes & _).
  destruct (matmul_loop_ok w' 3 0 1 4 Hw' ltac:(lia) ltac:(lia) ltac:(lia) ltac:(lia)) as (w2 & Hw2 & Hok).
  assert (w2 = zset w' 3 C) as -> by congruence.
  assert (HC3 : zget (zset w' 3 C) 3 = Some C) by (apply zget_zset_eq; lia).
  exists C. split; [done|]. split; [exact (Forall_zget _ _ _ _ (proj2 Hok) HC3)|].
  split; [by apply row_zget|exact Hlanes].
Qed.

(** The product of the two matrices in main memory. *)
Record product (C : list Z) : Prop := {
  prod_ok : RegisterFile.vec_ok C;
  prod_lanes : forall i j, 0 <= i < 4 -> 0 <= j < 4 ->
    zget C (i * 4 + j) = Some (Host.dot_ref (floats_at ram 0) (floats_at ram 64) 4 i j) }.

#[local] Ltac side := cbv beta iota zeta; first [lia|assumption|unfold fits; lia].
Lemma matrix_phase r fl m :
  code_at ws m -> zlen r = 16 -> vrs_ok v -> Buffer.wf ram ->
  0x1080 <= m.(blen) -> 0x2040 <= ram.(blen) ->
  exists C r' v' m', nsteps steps_to 14 (st r v 28 fl m ram)
    (stop (st r' v' 84 fl m' (Buffer.poke ram 0x2000 (Emulator.vr_bytes C)))) /\
    product C /\ R r' 3 = R r 3.
Proof using Type.
  intros Hc Hl Hv Hram Hm Hr. assert (Hlow : 4 * zlen ws <= MMIO_BASE) by done.
  set (r4 := zset (zset (zset (zset r 5 0x1000) 6 0x1040) 7 0) 8 64).
  assert (Hl4 : zlen r4 = 16) by (subst r4; by rewrite !zlen_zset).
  assert (E5 : R r4 5 = 0x1000) by (subst r4; by regs).
  assert (E6 : R r4 6 = 0x1040) by (subst r4; by regs).
  assert (E7 : R r4 7 = 0) by (subst r4; by regs).
  assert (E8 : R r4 8 = 64) by (subst r4; by regs).
  set (m1 := Buffer.poke m 0x1000 (Buffer.peek ram 0 64)).
  set (m2 := Buffer.poke m1 0x1040 (Buffer.peek ram 64 64)).
  assert (Hc1 : code_at ws m1) by (by apply code_at_poke).
  assert (Hc2 : code_at ws m2) by (by apply code_at_poke).
  assert (HA : floats_at m2 0x1000 = floats_at ram 0).
  { rewrite <- (floats_copied m 0x1000 0). unfold floats_at. f_equal.
    apply Buffer.peek_poke_disjoint. lia. }
  assert (HB : floats_at m2 0x1040 = floats_at ram 64) by apply floats_copied.
  assert (HokA : RegisterFile.vec_ok (floats_at ram 0)) by (by apply bytes_vr_ok, Buffer.peek_wf).
  assert (HokB : RegisterFile.vec_ok (floats_at ram 64)) by (by apply bytes_vr_ok, Buffer.peek_wf).
  destruct (vector_phase _ _ Hv HokA HokB) as (C & HC & HCok & HC3 & Hlanes).
  set (m3 := Buffer.poke m2 0x1000 (Emulator.vr_bytes C)).
  assert (Hc3 : code_at ws m3) by (by apply code_at_poke).
  assert (Hback : Buffer.peek m3 0x1000 (Z.to_nat 64) = Emulator.vr_bytes C).
  { pose proof (Buffer.peek_poke m2 0x1000 (Emulator.vr_bytes C)) as Hp.
    pose proof (vr_bytes_length C HCok) as Hz. unfold zlen in Hz.
    by replace (List.length (Emulator.vr_bytes C)) with (Z.to_nat 64) in Hp by lia. }
  set (r5 := zset r4 9 0x2000).
  assert (Hl5 : zlen r5 = 16) by (subst r5; by rewrite zlen_zset).
  assert (F9 : R r5 9 = 0x2000) by (subst r5; by regs).
  assert (F5 : R r5 5 = 0x1000) by (subst r5; by regs).
  assert (B1 : m1.(blen) = m.(blen)) by done. assert (B2 : m2.(blen) = m.(blen)) by done.
  assert (B3 : m3.(blen) = m.(blen)) by done.
  exists C, r5. do 2 eexists. split; [|split; [by split|subst r5 r4; by regs]].
  eapply nsteps_l; [apply (x_movi ws _ v 7 fl m ram Hc Hlow 5 0x1000 eq_refl); side|].
  eapply nsteps_l; [apply (x_movi ws _ v 8 fl m ram Hc Hlow 6 0x1040 eq_refl); side|].
  eapply nsteps_l; [apply (x_movi ws _ v 9 fl m ram Hc Hlow 7 0 eq_refl); side|].
  eapply nsteps_l; [apply (x_movi ws _ v 10 fl m ram Hc Hlow 8 64 eq_refl); side|]. fold r4.
  eapply nsteps_l; [apply (x_dma ws r4 v 11 fl m ram Hc Hlow true 5 7 64 0x1000 0 eq_refl); side|].
  change (Z.to_nat 64) with 64%nat. fold m1.
  eapply nsteps_l; [apply (x_dma ws r4 v 12 fl m1 ram Hc1 Hlow true 6 8 64 0x1040 64 eq_refl); side|].
  change (Z.to_nat 64) with 64%nat. fold m2.
  eapply nsteps_l; [apply (x_load_vr ws r4 v 13 fl m2 ram Hc2 Hlow 0 5 0x1000 eq_refl); side|].
  fold (floats_at m2 0x1000). rewrite HA.
  eapply nsteps_l; [apply (x_load_vr ws r4 _ 14 fl m2 ram Hc2 Hlow 1 6 0x1040 eq_refl); side|].
  fold (floats_at m2 0x1040). rewrite HB.
  eapply nsteps_l; [apply (x_vec_add ws r4 _ 15 fl m2 ram Hc2 Hlow 2 0 1 eq_refl); side|].
  eapply nsteps_l; [exact (x_matmul ws r4 _ 16 fl m2 ram Hc2 Hlow 3 0 1 _ eq_refl ltac:(lia) ltac:(lia) ltac:(lia) HC)|].
  eapply nsteps_l; [apply (x_store_vr ws r4 _ 17 fl m2 ram Hc2 Hlow 3 5 0x1000 eq_refl); side|].
  rewrite HC3. fold m3.
  eapply nsteps_l; [apply (x_movi ws r4 _ 18 fl m3 ram Hc3 Hlow 9 0x2000 eq_refl); side|]. fold r5.
  eapply nsteps_l; [apply (x_dma ws r5 _ 19 fl m3 ram Hc3 Hlow false 9 5 64 0x2000 0x1000 eq_refl); side|].
  rewrite Hback.
  eapply nsteps_l; [exact (x_halt ws r5 _ 20 fl m3 _ Hc3 Hlow eq_refl)|]. apply nsteps_O.
Qed.

(** The whole program: four instructions of set-up, the loop, the matrices. *)
Lemma program_runs r fl m :
  code_at ws m -> zlen r = 16 -> vrs_ok v -> Buffer.wf ram ->
  0x1080 <= m.(blen) -> 0x2040 <= ram.(blen) ->
  exists C r' fl' v' m', nsteps steps_to (18 + 3 * Z.to_nat n) (st r v 0 fl m ram)
    (stop (st r' v' 84 fl' m' (Buffer.poke ram 0x2000 (Emulator.vr_bytes C)))) /\
    product C /\ R r' 3 = u32 (n * (n + 1) / 2).
Proof using Hn.
  intros Hc Hl Hv Hram Hm Hr. assert (Hlow : 4 * zlen ws <= MMIO_BASE) by done.
  set (r4 := zset (zset (zset (zset r 1 0) 2 n) 4 1) 3 0).
  assert (Hs0 : summing 0 r4).
  { split; subst r4; [by rewrite !zlen_zset|by regs..]. }
  destruct (sum_loop (Z.to_nat n) 0 r4 fl m Hc Hs0) as (r' & fl' & Hloop & Hs'); [lia..|].
  destruct (matrix_phase r' fl' m Hc (sum_len _ _ Hs') Hv Hram Hm Hr) as (C & r2 & v' & m' & Hmat & HC & H3).
  exists C, r2, fl', v', m'. split; [|split; [done|by rewrite H3, (sum_acc _ _ Hs')]].
  replace (18 + 3 * Z.to_nat n)%nat with (4 + (3 * Z.to_nat n + 14))%nat by lia.
  eapply nsteps_trans; [|eapply nsteps_trans; [exact Hloop|exact Hmat]].
  eapply nsteps_l; [apply (x_movi ws _ v 0 fl m ram Hc Hlow 1 0 eq_refl); side|].
  eapply nsteps_l; [apply (x_movi ws _ v 1 fl m ram Hc Hlow 2 n eq_refl); side|].
  eapply nsteps_l; [apply (x_movi ws _ v 2 fl m ram Hc Hlow 4 1 eq_refl); side|].
  eapply nsteps_l; [apply (x_movi ws _ v 3 fl m ram Hc Hlow 3 0 eq_refl); side|]. apply nsteps_O.
Qed.
End Program.

(** A stored vector register reads back. *)
Lemma bytes_vr_vr_bytes v :
  Forall (fits 32) v -> Emulator.bytes_vr (List.length v) (Emulator.vr_bytes v) = v.
Proof.
  induction 1 as [|x v Hx Hv IH]; [done|]. unfold Emulator.vr_bytes in *. cbn [map concat List.length Emulator.bytes_vr].
  change (take 4 (le_bytes 4 x ++ concat (map (le_bytes 4) v))) with (le_bytes 4 x).
  change (drop 4 (le_bytes 4 x ++ concat (map (le_bytes 4) v))) with (concat (map (le_bytes 4) v)).
  rewrite IH, le_val_bytes. f_equal. by apply Z.mod_small.
Qed.
Lemma floats_stored m a C :
  RegisterFile.vec_ok C -> floats_at (Buffer.poke m a (Emulator.vr_bytes C)) a = C.
Proof.
  intros [Hl Hf]. unfold floats_at. pose proof (Buffer.peek_poke m a (Emulator.vr_bytes C)) as Hp.
  pose proof (vr_bytes_length C (conj Hl Hf)) as Hz. unfold zlen in Hz.
  replace (List.length (Emulator.vr_bytes C)) with 64%nat in Hp by lia. rewrite Hp, <- Hl.
  by apply bytes_vr_vr_bytes.
Qed.

(** ** Theorems *)
Lemma program_fits n : 1 <= n < 2 ^ 16 -> Forall (fits 32) (program n).
Proof. intros Hn. unfold program. fits_words. Qed.

(** C5: the demonstration program of main.cpp, for every bound of its loop
    and every pair of matrices. Loaded into a machine at address 0 without
    paging, enabled interrupts, trap vector or breakpoints, with memories large
    enough for its buffers, the program ends within 18 + 3 n instructions, on
    any host kernel, target profile and with or without acceleration: r3 holds
    the sum 1 + ... + n modulo 2^32, and the sixteen floats at 0x2000 of main
    memory are the 4 x 4 product of the two matrices that were at 0 and 0x40
    (row by column, accumulated in the order of k by the multiply-add of the
    build); the rest of main memory is unchanged. *)
Theorem demo_program_correct `{FloatOps} path n s fuel :
  1 <= n < 2 ^ 16 -> ready s -> s.(regs_).(pc) = 0 -> s.(regs_).(halt) = false ->
  0x1080 <= s.(scratchpad_).(blen) -> 0x2040 <= s.(main_ram_).(blen) ->
  (18 + 3 * Z.to_nat n <= fuel)%nat ->
  exists s', (do! Emulator.load_program (program n) in Emulator.run path fuel) s = (Ok true, s') /\
    s'.(regs_).(halt) = true /\ s'.(regs_).(pc) = 0x54 /\
    RegisterFile.read_gpr s'.(regs_) 3 = Some (u32 (n * (n + 1) / 2)) /\
    (forall i j, 0 <= i < 4 -> 0 <= j < 4 ->
       zget (floats_at s'.(main_ram_) 0x2000) (i * 4 + j)
       = Some (Host.dot_ref (floats_at s.(main_ram_) 0) (floats_at s.(main_ram_) 64) 4 i j)) /\
    (forall k, k < 0x2000 \/ 0x2040 <= k ->
       Buffer.byte_at s'.(main_ram_) k = Buffer.byte_at s.(main_ram_) k).
Proof.
  intros Hn Hrdy Hpc Hh Hm Hr Hfuel. pose proof (ready_wf s Hrdy) as Hs. destruct (wf_scratchpad s Hs) as [Hsp _].
  pose (Post := fun a : Arch => pc (a_regs a) = 0x54 /\ reg a 3 = u32 (n * (n + 1) / 2) /\
    exists C, a_ram a = Buffer.poke (main_ram_ s) 0x2000 (Emulator.vr_bytes C) /\ RegisterFile.vec_ok C /\
      forall i j, 0 <= i < 4 -> 0 <= j < 4 -> zget C (i * 4 + j) =
        Some (Host.dot_ref (floats_at s.(main_ram_) 0) (floats_at s.(main_ram_) 64) 4 i j)).
  destruct (load_and_run path (program n) s) with (n := (18 + 3 * Z.to_nat n)%nat) (fuel := fuel) (Post := Post)
    as (s' & Hrun & Hs' & Hh' & Hpc' & H3 & C & Hres & HC & Hlanes); try done.
  { by apply program_fits. }
  { change (4 * zlen (program n)) with 84. lia. }
  { intros m -> Hc.
    destruct (program_runs n Hn (vr (regs_ s)) (main_ram_ s) (gpr (regs_ s)) (status (regs_ s))
                (Buffer.poke (scratchpad_ s) 0 (VirtualSRAM.words_bytes (program n))))
      as (C & r' & fl' & v' & m' & Hsteps & [HC Hlanes] & H3); try done.
    { unfold zlen. by rewrite RegisterFile.wf_gpr_len by apply Hs. }
    { split; apply Hs. }
    { apply Hs. }
    exists (stop (st r' v' 84 fl' m' (Buffer.poke (main_ram_ s) 0x2000 (Emulator.vr_bytes C)))).
    split; [done|]. split; [done|]. split; [done|]. split; [exact H3|]. by exists C.
  }
  exists s'. split; [exact Hrun|]. split; [done|]. split; [done|]. split.
  - destruct (reg_value s' 3 Hs' ltac:(lia) eq_refl) as [-> _]. exact (f_equal Some H3).
  - assert (Hram : main_ram_ s' = _) by exact Hres. rewrite Hram. split.
    + rewrite floats_stored by done. exact Hlanes.
    + intros k Hk'. apply Buffer.byte_at_poke_out. rewrite vr_bytes_length by done. lia.
Qed.

(** The machine of the first section of [main]: the identity and 1 .. 16. *)
Lemma demo_program_correct_witness :
  exists s', (do! Emulator.load_program Demo.program in Emulator.run PathAVX2 33) (Demo.load Demo.new_emulator).2
    = (Ok true, s') /\
    RegisterFile.read_gpr s'.(regs_) 3 = Some 15 /\
    zget (floats_at s'.(main_ram_) 0x2000) 6 = Some (Demo.float 7).
Proof.
  assert (Hr : ready (Demo.load Demo.new_emulator).2).
  { split; [|by split; vm_compute|done].
    apply (keeps_bind emu_wf (Emulator.load_program Demo.program) _ (fun _ => True) (fun _ => True)).
    - apply load_program_keeps.
    - intros _ _. apply (keeps_bind emu_wf _ _ (fun _ => True) (fun _ => True)).
      + apply load_main_ram_keeps, words_bytes_bytes.
      + intros _ _. apply load_main_ram_keeps, words_bytes_bytes.
    - apply create_wf; vm_compute; split; congruence. }
  destruct (demo_program_correct PathAVX2 5 _ 33 ltac:(lia) Hr eq_refl eq_refl) as (s' & H1 & _ & _ & H2 & H3 & _);
    [vm_compute; congruence|vm_compute; congruence|vm_compute; lia|].
  exists s'. split; [exact H1|]. split; [exact H2|].
  etransitivity; [exact (H3 1 2 ltac:(lia) ltac:(lia))|]. by vm_compute.
Defined.
