(* ===== verification/Showcase.v ===== *)
(** * The rest of the demonstration program: main.cpp

    The sections of [main] on the architectural state, the timing and hardware
    models and the tools, as the lines they print (without the newline), and
    the contents of the three sources under examples/. *)

From Stdlib Require Import Ascii String SpecFloat.
From S2P Require Import Prelude Text Isa Memory Registers Interrupt Devices Bus Float Profiler Interconnect Target Host Mmu Translate Emulator EmulatorWf Execute Cache Decoder Microarch Frontend Tlm Snapshot Demo.
#[local] Open Scope Z_scope.

Module Showcase.
#[local] Open Scope string_scope.

(** A local object of a block: the value computed on it and the object after. *)
Definition on {S A} (m : M S A) (s : S) : M unit (A * S) := fun u =>
  let '(r, s') := m s in
  (match r with Ok a => Ok (a, s') | Throw e => Throw e | Undefined v => Undefined v end, u).
Definition pass (b : bool) : string := if b then "PASS" else "FAIL".
Definition pct (x : spec_float) : spec_float := f64_mul x (f64_of_Z 100).
Definition bool01 (b : bool) : string := if b then "1" else "0".
Definition first_text (out : list Z) (none : string) : string :=
  match out with w :: _ => disassemble (mkInstruction w) | [] => none end.
Definition is_empty {A} (l : list A) : bool := match l with [] => true | _ => false end.

(** ** Architectural state *)
Definition decoder_lines : list string :=
  let r := TranslationEngine.translate_one_riscv 0x003100B3 in
  let out := default [] r in
  let arm := default [] (TranslationEngine.translate_one_arm64 0x8B030021) in
  let ptx := default [] (TranslationEngine.translate_one_ptx "add.f32 %f3, %f1, %f2;") in
  ["Decoder RISCV add x1,x2,x3 → " +:+ first_text out "" +:+ " (" +:+ udec (zlen out) +:+ " op) "
     +:+ pass (match r with Some _ => true | None => false end);
   "Decoder ARM64 → " +:+ udec (zlen arm) +:+ " op " +:+ pass (negb (is_empty arm));
   "Decoder PTX add.f32 → " +:+ first_text ptx "FAIL" +:+ " PASS"].

Definition with_csrs (l : list (Z * Z)) (s : Emulator) : Emulator :=
  { s with csr_ := fold_left (fun c '(a, v) => CSRFile.write c a v) l s.(csr_) }.
Definition trap_emu : Emulator := with_csrs [(CSR_MTVEC, 0x1000); (CSR_MSTATUS, 8)] Demo.new_emulator.
Definition csr_lines : list string :=
  let c := trap_emu.(csr_) in
  ["CSR mtvec=0x" +:+ hex (CSRFile.read c CSR_MTVEC) +:+ " priv=" +:+ udec c.(priv) +:+ " " +:+ CSRFile.dump c].

(** [mmu().translate(va, false, false)] of an emulator; no cause pointer. *)
Definition mmu_translate (s : Emulator) (va : Z) : M MMU (option Z) :=
  let! r := MMU.translate (Some s.(scratchpad_)) (Some s.(csr_)) false va false false in ret r.1.
Definition mmu_lines : M unit (list string) :=
  let s := Demo.new_emulator in
  let m := MMU.identity_map 0x1000 0x1000 4 7 (MMU.set_enabled true s.(mmu_)) in
  let! ' (pa, m1) := on (mmu_translate s 0x1004) m in
  let! ' (_, m2) := on (mmu_translate s 0x1004) m1 in
  ret ["MMU VA 0x1004 → PA 0x" +:+ hex08 (default 0 pa) +:+ " TLB hits=" +:+ udec m1.(Mmu.hits_)
         +:+ " miss=" +:+ udec m1.(Mmu.misses_) +:+ " rate=" +:+ fixed 0 (pct (MMU.tlb_hit_rate m1)) +:+ "% "
         +:+ pass (match pa with Some p => (p =? 0x1004)%Z | None => false end);
       "MMU 2nd lookup hit_rate=" +:+ fixed 0 (pct (MMU.tlb_hit_rate m2)) +:+ "%"].

Definition interconnect_lines : M unit (list string) :=
  let s := trap_emu in
  let! a := lift (Interconnect.latency_for s.(axi_) 64) in
  let! p := lift (Interconnect.latency_for s.(pcie_) 64) in
  let! c := lift (Interconnect.latency_for s.(cxi_) 128) in
  let! ' (issued, f) := on (Interconnect.issue (mkTransaction 1 0x2000 64 false 0 0 AXI4) 0) s.(axi_) in
  ret ["Interconnect AXI latency 64B=" +:+ udec a +:+ " PCIe 64B=" +:+ udec p +:+ " CXI 128B=" +:+ udec c;
       "AXI issue " +:+ pass issued +:+ " outstanding=" +:+ udec (Interconnect.outstanding f);
       "AXI after tick completed=" +:+ udec (Interconnect.completed (Interconnect.tick 10 f))].

(** Interrupt and trap; then an environment call from user mode. *)
Definition trap_lines : list string :=
  let s := with_csrs [(CSR_MTVEC, 0x2000); (CSR_MIE, 128); (CSR_MSTATUS, 8)] Demo.new_emulator in
  let ic := InterruptController.raise_timer s.(intc_) in
  let pend := InterruptController.interrupt_pending (Some s.(csr_)) ic in
  let '(lines, csr, ic) :=
    match InterruptController.pending_interrupt (Some s.(csr_)) ic with
    | Some irq =>
        let '(_, csr, ic) := InterruptController.take_trap irq (Some s.(csr_)) ic in
        let csr := default s.(csr_) csr in
        (["Trap taken mtvec=0x" +:+ hex (CSRFile.read csr CSR_MTVEC) +:+ " mepc=0x"
            +:+ hex (CSRFile.read csr CSR_MEPC) +:+ " PASS"], csr, ic)
    | None => ([], s.(csr_), ic)
    end in
  let csr : CSRFile := { csr with priv := User } in
  let '(_, csr', _) := InterruptController.take_trap
    (InterruptController.ecall_trap (Some csr) (Emulator.pc s)) (Some csr) ic in
  let csr := default csr csr' in
  (["Interrupt pending=" +:+ bool01 pend +:+ " " +:+ pass pend] ++ lines ++
   ["Ecall U→M priv=" +:+ udec csr.(priv) +:+ " mcause=0x" +:+ hex (CSRFile.read csr CSR_MCAUSE) +:+ " "
      +:+ pass (csr.(priv) =? Machine)%Z])%list.

Definition architectural : M unit (list string) :=
  let! m := mmu_lines in
  let! i := interconnect_lines in
  ret (["=== Architectural State Demo ==="] ++ decoder_lines ++ csr_lines ++ m ++ i ++ trap_lines)%list.

(** ** Timing, clock and checkpoints *)
Definition timing : M unit (list string) :=
  let tc := TimingController.default_config in
  let func := TimingController.adjust (TimingController.set_mode Functional tc) 10 false false false false in
  let approx := TimingController.adjust (TimingController.set_mode CycleApproximate tc) 10 true true false true in
  let tc := TimingController.set_mode CycleAccurate tc in
  let acc := TimingController.adjust tc 10 true true true true in
  let! ' (_, de) := on (DeterministicEngine.tick 0 100) (DeterministicEngine.make 1000) in
  let! ' (_, de) := on (DeterministicEngine.tick 1 200) de in
  let pr := Profiler.record (code ADD) 1 0 Profiler.init in
  let cm := CheckpointManager.push RegisterFile.init CSRFile.init (Profiler.save pr) 0
              de.(global_clock_) 0 (CheckpointManager.make 4) in
  let '(rev, _) := CheckpointManager.pop cm in
  ret ["=== Timing Accuracy Controls (standalone) ===";
       "Timing " +:+ TimingController.describe tc +:+ " functional=" +:+ udec func +:+ " approx="
         +:+ udec approx +:+ " accurate=" +:+ udec acc +:+ " PASS";
       "Deterministic " +:+ DeterministicEngine.report de +:+ " PASS";
       "Checkpoint " +:+ CheckpointManager.stats cm +:+ " entries=" +:+ udec (CheckpointManager.size cm) +:+ " PASS";
       "Checkpoint reverse " +:+ pass (match rev with Some _ => true | None => false end)].

(** ** Microarchitectural models *)
Definition models : M unit (list string) :=
  let pl := Pipeline.configure (mkPipelineConfig true true true 1 1) (Pipeline.make Pipeline.default_config) in
  let '(_, pl) := Pipeline.try_issue (mkInstruction (enc.add 1 2 3)) 0 pl in
  let '(_, pl) := Pipeline.commit 1 pl in
  let! ch := lift CacheHierarchy.make in
  let! l1 := lift (Cache.configure (mkCacheConfig (32 * 1024) 64 8 MESI 1 10)) in
  let! ' (r, l1) := on (Cache.access 0x1000 false) l1 in
  let! ' (_, l1) := on (Cache.access 0x1000 false) l1 in
  let ch := CacheHierarchy.put_l1 l1 ch in
  let ws := WarpScheduler.configure (mkWarpConfig 32 32 4) (WarpScheduler.make WarpScheduler.default_config) in
  let '(wid, ws) := WarpScheduler.schedule ws in
  let ws := WarpScheduler.tick 5 (WarpScheduler.mark_stalled wid 5 ws) in
  let sa := SystolicArray.configure (mkSystolicConfig 8 8 64) (SystolicArray.make SystolicArray.default_config) in
  let! ' (_, sa) := on (SystolicArray.enqueue_tile 4) sa in
  ret ["=== Microarchitectural Models (standalone) ===";
       "Pipeline " +:+ Pipeline.report pl 10 +:+ " PASS";
       "Caches " +:+ CacheHierarchy.report ch +:+ " hit=" +:+ bool01 r.1 +:+ " PASS";
       "Parallel " +:+ WarpScheduler.report ws +:+ " | " +:+ SystolicArray.report sa +:+ " PASS"].

(** ** Verification and tooling: the lines, the CSV and the VCD file *)
Definition tooling `{FloatOps} (can_open : bool) : M unit (list string * option string * list string) :=
  let add := mkInstruction (enc.add 1 2 3) in
  let tr := InstructionTrace.push (mkEntry 0 0 add 0 false 0) InstructionTrace.make in
  let '(_, vcd) := VCDWriter.open can_open VCDWriter.make in
  let vcd := VCDWriter.close (VCDWriter.dump 0 0 add 0 (VCDWriter.add_signal "pc" 32 vcd)) in
  let csv := InstructionTrace.export_csv can_open tr in
  let tgt := TLMSocket.set_transport (S := unit) (fun p =>
    ret ({ p with response := TlmOK; tlm_delay_cycles := 2 } : TLMPayload)) (TLMSocket.make "tgt") in
  let init := TLMSocket.bind tgt (TLMSocket.make "init") in
  let! ' (_, d) := TLMSocket.b_transport init (mkPayload TlmWrite 0x1000 None 4 4 TlmOK 0) 0 in
  let '(_, fpga) := FPGACoEmulator.connect
    (FPGACoEmulator.make (mkFpgaConfig Simulated "build/npu.bit" 0 true)) in
  let zeros := replicate 16 0%Z in
  let! ' (_, fpga) := on (FPGACoEmulator.offload_matmul [zeros; zeros; zeros] 0 1 2 4) fpga in
  let pmc := PMC.inc CacheMisses 2 (PMC.on_commit 10 false false PMC.init) in
  let '(_, gdb) := GDBStub.start 1234 (mkGdb false 0) in
  ret (["=== Verification & Tooling (standalone) ===";
        "Trace entries=" +:+ udec (InstructionTrace.size tr) +:+ " vcd=build/trace.vcd csv=build/trace.csv PASS";
        "TLM b_transport delay=" +:+ udec d +:+ " PASS";
        "FPGA " +:+ FPGACoEmulator.report fpga +:+ " PASS";
        "PMCs " +:+ PMC.report 10 2 5 1 pmc +:+ " PASS";
        "GDB stub running=" +:+ bool01 gdb.(running_) +:+ " PASS"], csv, vcd.(files_)).

(** ** The front end on source files *)
Section Sources.
Context `{FloatOps} (path : HostPath) (fuel : nat).

(** A load that throws ends the program. *)
Definition run_loaded (fr : LoadResult) : M Emulator bool :=
  do! modify (Emulator.set_target fr.(Frontend.target)) in
  do! Emulator.load_program fr.(Frontend.program) in
  do! Emulator.load_main_ram 0 (Coremark.matrix_bytes Demo.matrix_a) in
  do! Emulator.load_main_ram 64 (Coremark.matrix_bytes Demo.matrix_b) in
  Emulator.run_fast path fuel.
End Sources.
End Showcase.

(** ** The example sources *)
Module Examples.
#[local] Open Scope string_scope.
Definition dq : string := String (ascii_of_nat 34) EmptyString.
Definition unlines (l : list string) : string :=
  fold_right (fun x r => x +:+ Coremark.nl +:+ r) EmptyString l.
Definition coremark_cpp : string := unlines [
   "// coremark.cpp — C++ CoreMark kernel for Novium";
   "// Input to the C++ frontend: Frontend::load(" +:+ dq +:+ "examples/coremark.cpp" +:+ dq +:+ ")";
   "// The pragma below tells the frontend to lower this kernel to guest VEC/MATMUL.";
   "";
   "#include <cstdint>";
   "";
   "// [[novium::kernel]] marks a function to be lowered to Novium ISA";
   "[[novium::kernel]]";
   "void coremark_kernel(float* dst, const float* a, const float* b) {";
   "    // novium: load_vr v0, r5, 0";
   "    // novium: load_vr v1, r6, 0";
   "    // novium: vec_add v2, v0, v1";
   "    // novium: matmul_tile v3, v0, v1, N=4";
   "    // novium: store_vr v3, r5, 0";
   "    for (int i = 0; i < 4; ++i)";
   "        for (int j = 0; j < 4; ++j) {";
   "            float s = 0;";
   "            for (int k = 0; k < 4; ++k) s += a[i*4+k] * b[k*4+j];";
   "            dst[i*4+j] = s;";
   "        }";
   "}";
   "";
   "// novium: dma_load r5, r7, 64";
   "// novium: dma_store r9, r5, 64";
   "// novium: halt"].
Definition accel_sv : string := unlines [
   "// accel.sv — SystemVerilog NPU tile for Novium SV frontend";
   "// Frontend::load(" +:+ dq +:+ "examples/accel.sv" +:+ dq +:+ ") extracts parameters and lowers to guest ISA.";
   "";
   "module npu_tile #(";
   "    parameter TILE  = 4,";
   "    parameter LANES = 16,";
   "    parameter BW    = 64";
   ")(";
   "    input  logic        clk,";
   "    input  logic        rst_n,";
   "    input  logic [31:0] a_addr,";
   "    input  logic [31:0] b_addr,";
   "    output logic        done";
   ");";
   "    // novium: dma_load r5, r7, 64";
   "    // novium: load_vr v0, r5, 0";
   "    // novium: load_vr v1, r6, 0";
   "    // novium: vec_add v2, v0, v1";
   "    // novium: matmul_tile v3, v0, v1, N=4";
   "    // novium: store_vr v3, r5, 0";
   "    // novium: dma_store r9, r5, 64";
   "    // novium: halt";
   "";
   "    logic [15:0] tile_reg;";
   "    assign tile_reg = TILE;";
   "    assign done = 1'b0;";
   "endmodule"].
Definition npu_tile_scala : string := unlines [
   "// npu_tile.scala — Chisel NPU tile for Novium Chisel frontend";
   "// Frontend::load(" +:+ dq +:+ "examples/npu_tile.scala" +:+ dq +:+ ") extracts Chisel Module params.";
   "";
   "import chisel3._";
   "import chisel3.util._";
   "";
   "class NPUTile(val tileSize: Int = 4, val lanes: Int = 16) extends Module {";
   "  val io = IO(new Bundle {";
   "    val aAddr = Input(UInt(32.W))";
   "    val bAddr = Input(UInt(32.W))";
   "    val done  = Output(Bool())";
   "  })";
   "";
   "  // novium: dma_load r5, r7, 64";
   "  // novium: load_vr v0, r5, 0";
   "  // novium: load_vr v1, r6, 0";
   "  // novium: vec_add v2, v0, v1";
   "  // novium: matmul_tile v3, v0, v1, N=4";
   "  // novium: store_vr v3, r5, 0";
   "  // novium: dma_store r9, r5, 64";
   "  // novium: halt";
   "";
   "  io.done := false.B";
   "}";
   "";
   "object NPUTile extends App {";
   "  emitVerilog(new NPUTile(4, 16))";
   "}"].
Definition files (path : string) : option string :=
  if (path =? "examples/coremark.cpp")%string then Some coremark_cpp
  else if (path =? "examples/accel.sv")%string then Some accel_sv
  else if (path =? "examples/npu_tile.scala")%string then Some npu_tile_scala
  else None.
End Examples.

(** ** What they print *)
Import Showcase Examples.

(** No line of a section says FAIL. *)
Fixpoint contains (p s : string) : bool :=
  String.prefix p s || match s with EmptyString => false | String _ s => contains p s end.
Definition no_fail (l : list string) : bool := forallb (fun s => negb (contains "FAIL" s)) l.
Definition all_pass {A} (lines : A -> list string) (m : M unit A) : bool :=
  match (m tt).1 with Ok a => no_fail (lines a) | _ => false end.

(** The sections of [main] end normally and report no failure; the tools
    section writes one CSV record and one VCD file, and none of either when
    the files cannot be opened. *)
Theorem showcase_passes :
  all_pass (fun l => l) architectural = true /\ all_pass (fun l => l) timing = true /\ all_pass (fun l => l) models = true /\
  (forall can_open, all_pass (fun r => r.1.1) (tooling can_open) = true) /\
  match (tooling true tt).1 with
  | Ok (_, csv, vcd) =>
      csv = Some ("cycle,pc,raw,result,mem_addr" +:+ Coremark.nl +:+ "0,0x00000000,0x14221800,0,0x00000000"
                  +:+ Coremark.nl)%string /\ List.length vcd = 1%nat
  | _ => False
  end /\
  match (tooling false tt).1 with Ok (_, csv, vcd) => csv = None /\ vcd = [] | _ => False end.
Proof.
  split; [vm_compute; reflexivity|]. split; [vm_compute; reflexivity|]. split; [vm_compute; reflexivity|].
  split; [intros []; vm_compute; reflexivity|]. split; vm_compute; done.
Qed.

(** The interrupt of the demonstration leaves MEPC at 0 and the environment
    call enters machine mode with cause 8. *)
Example showcase_traps :
  trap_lines = ["Interrupt pending=1 PASS"; "Trap taken mtvec=0x2000 mepc=0x0 PASS";
                "Ecall U→M priv=3 mcause=0x8 PASS"]%string.
Proof. vm_compute. reflexivity. Qed.
