(* ===== verification/Main.v ===== *)
(** * The whole demonstration program: main.cpp

    [main] as a program that prints: its sections are those of [Demo] and
    [Showcase], in order, and the front-end and benchmark sections.  Reading a
    file, the host's SIMD features, the measured times and whether the tools'
    files can be written are arguments. *)

From Stdlib Require Import Ascii String SpecFloat.
From S2P Require Import Prelude Text Isa Memory Registers Interrupt Devices Bus Float Profiler Interconnect Target Host Mmu Translate Emulator EmulatorWf Execute Cache Decoder Microarch Frontend Tlm Snapshot Demo Showcase.
#[local] Open Scope Z_scope.

(** ** Programs that print *)

(** What ends a program before its [return]: an exception nobody catches,
    undefined behaviour, or a run longer than the fuel of the model. *)
Inductive stop : Type :=
  | Uncaught (e : EmulatorError)
  | UncaughtOutOfRange
  | Broken (u : ub)
  | BrokenScan
  | NoFuel.
(** The text printed so far; a program that stops keeps it. *)
Definition Prog (A : Type) : Type := string -> (A + stop) * string.
#[export] Instance prog_ret : MRet Prog := fun A a out => (inl a, out).
#[export] Instance prog_bind : MBind Prog := fun A B k m out =>
  let '(r, out) := m out in
  match r with inl a => k a out | inr e => (inr e, out) end.

Import Showcase Examples.
Module Main.
#[local] Open Scope string_scope.
Notation nl := Coremark.nl.

Definition printf (text : string) : Prog unit := fun out => (inl tt, out +:+ text).
Definition puts (lines : list string) : Prog unit := printf (fold_right (fun l t => l +:+ nl +:+ t) "" lines).
Definition of_outcome {A} (o : outcome A) : A + stop :=
  match o with Ok a => inl a | Throw e => inr (Uncaught e) | Undefined u => inr (Broken u) end.
(** Code on a machine, which prints as it runs. *)
Definition on_machine {A} (m : M Emulator A) (s : Emulator) : Prog (A * Emulator) := fun out =>
  let '(r, s') := m s in
  let text := fold_right String.append "" (drop (List.length s.(stdout)) s'.(stdout)) in
  (match of_outcome r with inl a => inl (a, s') | inr e => inr e end, out +:+ text).
(** A section that prints its lines at its end. *)
Definition section {A} (m : M unit A) (text : A -> list string) : Prog unit := fun out =>
  match of_outcome (m tt).1 with
  | inl a => puts (text a) (out +:+ nl)
  | inr e => (inr e, out +:+ nl)
  end.
Definition of_load {A} (l : load A) : Prog A := fun out =>
  (match l with Loaded a => inl a | OutOfRange => inr UncaughtOutOfRange | ScanUndefined => inr BrokenScan end, out).
Definition ended (b : bool) : Prog unit := fun out => (if b then inl tt else inr NoFuel, out).

Section Main.
Context `{FloatOps} (path : HostPath) (fuel : nat) (features : Host.features).
(** The [n]-th time measured, in microseconds; the files; the output files. *)
Context (clock : nat -> Z) (read : string -> option string) (can_open : bool).

(** ** The machine's sections *)
Definition silent : Prog Emulator :=
  ' ((fin, _, _, _), emu) ← on_machine (Demo.run_silent path fuel) Demo.new_emulator;
  _ ← ended fin; mret emu.
Definition verbose : Prog unit :=
  ' ((_, fin, _), _) ← on_machine (Demo.run_verbose path fuel) Demo.new_emulator;
  ended fin.
Definition saved : Prog unit :=
  ' ((fin, _, _, _, _, _, _), _) ← on_machine (Demo.run_saved path fuel) Demo.new_emulator;
  ended fin.
Definition mmio : Prog unit := _ ← on_machine Demo.mmio Demo.new_emulator; mret tt.
Definition bench (n : nat) (label : string) (prof : TargetProfile) : Prog unit :=
  ' ((fin, _, _), _) ← on_machine (Demo.bench_target path fuel label (clock n) prof) Demo.new_emulator;
  ended fin.
Definition accuracy : Prog unit :=
  ' ((fin1, ref_res), _) ← on_machine (Demo.accuracy_ref path fuel) Demo.new_emulator;
  _ ← ended fin1;
  ' ((fin2, fast_res), _) ← on_machine (Demo.accuracy_fast path fuel) Demo.new_emulator;
  _ ← ended fin2;
  printf (Demo.accuracy_text ref_res fast_res).
Definition host_layer (emu : Emulator) : Prog unit :=
  _ ← printf (Demo.host_text features emu);
  _ ← bench 0 "CPU (x86/ARM)" make_cpu_profile;
  _ ← bench 1 "GPU (warp32)" make_gpu_profile;
  _ ← bench 2 "ASIC (NPU)" make_asic_profile;
  accuracy.

(** ** The front-end and benchmark sections *)
Definition run_source (fr : LoadResult) : Prog Emulator :=
  ' (fin, fe) ← on_machine (run_loaded path fuel fr) Demo.new_emulator;
  _ ← ended fin; mret fe.
Definition frontend_file (file : string) : Prog unit :=
  fr ← of_load (Frontend.load_file read file);
  _ ← puts ["[" +:+ Frontend.kind_name fr.(source_kind) +:+ "] " +:+ fr.(diag)];
  fe ← run_source fr;
  puts ["  -> target=" +:+ Target.name fe.(target_) +:+ " cycles=" +:+ udec (Profiler.cycles fe.(profiler_))
          +:+ " halted=" +:+ bool01 (Emulator.halted fe)].
Definition frontend_demo : Prog unit :=
  _ ← printf (nl +:+ "=== Frontend Demo (C++ / SystemVerilog / Chisel) ===" +:+ nl);
  _ ← frontend_file "examples/coremark.cpp";
  _ ← frontend_file "examples/accel.sv";
  frontend_file "examples/npu_tile.scala".
Definition coremark (n : nat) (prof : TargetProfile) : Prog unit :=
  ' (r, _) ← on_machine (Coremark.run path fuel (Some Demo.matrix_a) (Some Demo.matrix_b) features (clock n) 100 true)
    (Emulator.set_target prof Demo.new_emulator);
  match r with Some r => printf (Coremark.report r) | None => ended false end.
Definition coremark_suite : Prog unit :=
  _ ← printf (nl +:+ "=== CoreMark Test Suite ===" +:+ nl);
  _ ← coremark 3 make_cpu_profile;
  _ ← coremark 4 make_gpu_profile;
  cpp_src ← of_load (Frontend.load_file read "examples/coremark.cpp");
  _ ← puts ["C++ CoreMark frontend: " +:+ cpp_src.(diag)];
  emu_cpp ← run_source cpp_src;
  puts ["C++ source → cycles=" +:+ udec (Profiler.cycles emu_cpp.(profiler_)) +:+ " instrs="
          +:+ udec (Profiler.instructions emu_cpp.(profiler_)) +:+ " "
          +:+ (if Emulator.halted emu_cpp then "HALT PASS" else "FAIL")].

(** ** The command-line mode *)
Definition cli (file : string) : Prog Z :=
  res ← of_load (Frontend.load_file read file);
  _ ← puts ["Frontend [" +:+ Frontend.kind_name res.(source_kind) +:+ "]: " +:+ res.(diag)];
  if negb res.(Frontend.ok) then mret 1%Z
  else
    ' (_, emu) ← on_machine (do! modify (Emulator.set_target res.(Frontend.target)) in
        do! Emulator.load_program res.(Frontend.program) in
        do! Emulator.load_main_ram 0 (Coremark.matrix_bytes Demo.matrix_a) in
        Emulator.load_main_ram 64 (Coremark.matrix_bytes Demo.matrix_b)) Demo.new_emulator;
    ' (text, _) ← on_machine (lift (Debugger.disassemble_range emu.(scratchpad_) 0 (List.length res.(Frontend.program)))) emu;
    _ ← puts ["Disassembly (" +:+ udec (zlen res.(Frontend.program)) +:+ " instrs, target="
                +:+ Target.name res.(Frontend.target) +:+ "):"; text];
    ' (fin, emu) ← on_machine (Emulator.run_fast path fuel) emu;
    _ ← ended fin;
    _ ← puts [Profiler.report emu.(profiler_)];
    ' (r3, _) ← on_machine (Emulator.read_gpr 3) emu;
    _ ← puts ["Done. r3=" +:+ udec r3 +:+ " halted=" +:+ bool01 (Emulator.halted emu) +:+ " host="
                +:+ Host.host_feature_string features];
    mret 0%Z.

(** The program: its arguments after the name, its exit status. *)
Definition main (args : list string) : Prog Z :=
  match args with
  | file :: _ => cli file
  | [] =>
      emu ← silent;
      _ ← verbose;
      _ ← saved;
      _ ← mmio;
      _ ← host_layer emu;
      _ ← section architectural (fun l => l);
      _ ← section timing (fun l => l);
      _ ← section models (fun l => l);
      _ ← section (tooling can_open) (fun r => r.1.1);
      _ ← frontend_demo;
      _ ← coremark_suite;
      _ ← printf (nl +:+ "=== All tests completed ===" +:+ nl);
      mret 0%Z
  end.
End Main.
End Main.

(** ** The transcript

    What the program prints, line by line; only the host's name and the
    measured times vary. *)
Module Transcript.
#[local] Open Scope string_scope.
Definition silent_lines : list string :=
  ["=== Program Disassembly (21 instructions) ===";
   "00000000: 2C200000  MOVI r1, #0";
   "00000004: 2C400005  MOVI r2, #5";
   "00000008: 2C800001  MOVI r4, #1";
   "0000000C: 2C600000  MOVI r3, #0";
   "00000010: 14212000  ADD  r1, r1, r4";
   "00000014: 14630800  ADD  r3, r3, r1";
   "00000018: 1022FFF4  BNE  r1, r2, -12";
   "0000001C: 2CA01000  MOVI r5, #4096";
   "00000020: 2CC01040  MOVI r6, #4160";
   "00000024: 2CE00000  MOVI r7, #0";
   "00000028: 2D000040  MOVI r8, #64";
   "0000002C: 48A70040  DMA_LOAD  r5, r7, 64 bytes";
   "00000030: 48C80040  DMA_LOAD  r6, r8, 64 bytes";
   "00000034: 30050000  LOAD_VR  v0, r5, 0";
   "00000038: 30260000  LOAD_VR  v1, r6, 0";
   "0000003C: 40400800  VEC_ADD  v2, v0, v1";
   "00000040: 44600804  MATMUL_TILE v3, v0, v1, N=4";
   "00000044: 34650000  STORE_VR v3, r5, 0";
   "00000048: 2D202000  MOVI r9, #8192";
   "0000004C: 4D250040  DMA_STORE r9, r5, 64 bytes";
   "00000050: 04000000  HALT";
   "";
   "=== Running (silent) ===";
   "Execution halted at PC=0x00000054";
   "";
   "=== Verification ===";
   "r3 (scalar sum) = 15  (expected 15)  PASS";
   "Matmul result (identity * B = B):";
   "     1.0     2.0     3.0     4.0";
   "     5.0     6.0     7.0     8.0";
   "     9.0    10.0    11.0    12.0";
   "    13.0    14.0    15.0    16.0";
   "MATMUL correct: PASS";
   "";
   "=== Performance Report ===";
   "Instructions:    33";
   "Total cycles:    77";
   "IPC:             0.4286";
   "DMA bytes:       192";
   "DMA cycles:      9";
   "DMA throughput:  21.33 bytes/cycle";
   "";
   "Opcode histogram:";
   "  [ 1] HALT         1";
   "  [ 4] BNE          5";
   "  [ 5] ADD          10";
   "  [11] MOVI         9";
   "  [12] LOAD_VR      2";
   "  [13] STORE_VR     1";
   "  [16] VEC_ADD      1";
   "  [17] MATMUL_TILE  1";
   "  [18] DMA_LOAD     2";
   "  [19] DMA_STORE    1"].
Definition verbose_lines : list string :=
  ["=== Verbose trace with breakpoint at 0x10 (loop entry) ===";
   "[0x00000000] 0x2C200000  MOVI r1, #0                      1 cy  [Z=0 N=0 V=0]";
   "[0x00000004] 0x2C400005  MOVI r2, #5                      1 cy  r2=0x00000005  [Z=0 N=0 V=0]";
   "[0x00000008] 0x2C800001  MOVI r4, #1                      1 cy  r4=0x00000001  [Z=0 N=0 V=0]";
   "[0x0000000C] 0x2C600000  MOVI r3, #0                      1 cy  [Z=0 N=0 V=0]";
   "*** Breakpoint hit at 0x00000010 ***";
   "[0x00000010] 0x14212000  ADD  r1, r1, r4                  1 cy  r1=0x00000001  [Z=0 N=0 V=0]";
   "[0x00000014] 0x14630800  ADD  r3, r3, r1                  1 cy  r3=0x00000001  [Z=0 N=0 V=0]";
   "[0x00000018] 0x1022FFF4  BNE  r1, r2, -12                 3 cy  ->PC=0x00000010  [Z=0 N=0 V=0]";
   "[0x00000010] 0x14212000  ADD  r1, r1, r4                  1 cy  r1=0x00000002  [Z=0 N=0 V=0]";
   "[0x00000014] 0x14630800  ADD  r3, r3, r1                  1 cy  r3=0x00000003  [Z=0 N=0 V=0]";
   "[0x00000018] 0x1022FFF4  BNE  r1, r2, -12                 3 cy  ->PC=0x00000010  [Z=0 N=0 V=0]";
   "[0x00000010] 0x14212000  ADD  r1, r1, r4                  1 cy  r1=0x00000003  [Z=0 N=0 V=0]";
   "[0x00000014] 0x14630800  ADD  r3, r3, r1                  1 cy  r3=0x00000006  [Z=0 N=0 V=0]";
   "[0x00000018] 0x1022FFF4  BNE  r1, r2, -12                 3 cy  ->PC=0x00000010  [Z=0 N=0 V=0]";
   "[0x00000010] 0x14212000  ADD  r1, r1, r4                  1 cy  r1=0x00000004  [Z=0 N=0 V=0]";
   "[0x00000014] 0x14630800  ADD  r3, r3, r1                  1 cy  r3=0x0000000A  [Z=0 N=0 V=0]";
   "[0x00000018] 0x1022FFF4  BNE  r1, r2, -12                 3 cy  ->PC=0x00000010  [Z=0 N=0 V=0]";
   "[0x00000010] 0x14212000  ADD  r1, r1, r4                  1 cy  r1=0x00000005  [Z=0 N=0 V=0]";
   "[0x00000014] 0x14630800  ADD  r3, r3, r1                  1 cy  r3=0x0000000F  [Z=0 N=0 V=0]";
   "[0x00000018] 0x1022FFF4  BNE  r1, r2, -12                 2 cy  [Z=0 N=0 V=0]";
   "[0x0000001C] 0x2CA01000  MOVI r5, #4096                   1 cy  r5=0x00001000  [Z=0 N=0 V=0]";
   "[0x00000020] 0x2CC01040  MOVI r6, #4160                   1 cy  r6=0x00001040  [Z=0 N=0 V=0]";
   "[0x00000024] 0x2CE00000  MOVI r7, #0                      1 cy  [Z=0 N=0 V=0]";
   "[0x00000028] 0x2D000040  MOVI r8, #64                     1 cy  r8=0x00000040  [Z=0 N=0 V=0]";
   "[0x0000002C] 0x48A70040  DMA_LOAD  r5, r7, 64 bytes       3 cy  DMA=64B  [Z=0 N=0 V=0]";
   "[0x00000030] 0x48C80040  DMA_LOAD  r6, r8, 64 bytes       3 cy  DMA=64B  [Z=0 N=0 V=0]";
   "[0x00000034] 0x30050000  LOAD_VR  v0, r5, 0               5 cy  [Z=0 N=0 V=0]";
   "[0x00000038] 0x30260000  LOAD_VR  v1, r6, 0               5 cy  [Z=0 N=0 V=0]";
   "[0x0000003C] 0x40400800  VEC_ADD  v2, v0, v1              4 cy  [Z=0 N=0 V=0]";
   "[0x00000040] 0x44600804  MATMUL_TILE v3, v0, v1, N=4      16 cy  [Z=0 N=0 V=0]";
   "[0x00000044] 0x34650000  STORE_VR v3, r5, 0               5 cy  [Z=0 N=0 V=0]";
   "[0x00000048] 0x2D202000  MOVI r9, #8192                   1 cy  r9=0x00002000  [Z=0 N=0 V=0]";
   "[0x0000004C] 0x4D250040  DMA_STORE r9, r5, 64 bytes       3 cy  DMA=64B  [Z=0 N=0 V=0]";
   "[0x00000050] 0x04000000  HALT                             0 cy  [Z=0 N=0 V=0]";
   "Verbose run complete. r3=15"].
Definition saved_lines : list string :=
  ["";
   "=== State Serialization Test ===";
   "State saved: PC=0x0000002C, r3=15, cycles=32";
   "After restore + continue: PC=0x00000054, r3=15, halted=1";
   "Match: YES"].
Definition mmio_lines : list string :=
  ["";
   "=== MMIO Test (UART + Timer) ===";
   "[UART TX] Novium";
   "";
   "Timer configured: limit=500, running";
   "Timer readback: limit=500, ctrl=1"].
Definition architectural_lines : list string :=
  ["";
   "=== Architectural State Demo ===";
   "Decoder RISCV add x1,x2,x3 → ADD  r1, r2, r3 (1 op) PASS";
   "Decoder ARM64 → 1 op PASS";
   "Decoder PTX add.f32 → VEC_ADD  v2, v0, v1 PASS";
   "CSR mtvec=0x1000 priv=3 priv=3 mstatus=0x8 mtvec=0x1000 mepc=0x0 mcause=0x0 satp=0x0";
   "MMU VA 0x1004 → PA 0x00001004 TLB hits=0 miss=1 rate=0% PASS";
   "MMU 2nd lookup hit_rate=50%";
   "Interconnect AXI latency 64B=3 PCIe 64B=5 CXI 128B=4";
   "AXI issue PASS outstanding=1";
   "AXI after tick completed=1";
   "Interrupt pending=1 PASS";
   "Trap taken mtvec=0x2000 mepc=0x0 PASS";
   "Ecall U→M priv=3 mcause=0x8 PASS"].
Definition timing_lines : list string :=
  ["";
   "=== Timing Accuracy Controls (standalone) ===";
   "Timing timing=cycle-accurate +branch +cache functional=1 approx=10 accurate=33 PASS";
   "Deterministic deterministic quantum=1000 global_clock=300 seq=2 PASS";
   "Checkpoint checkpoint history 1/4 entries=1 PASS";
   "Checkpoint reverse PASS"].
Definition models_lines : list string :=
  ["";
   "=== Microarchitectural Models (standalone) ===";
   "Pipeline pipeline OoO stalls=0 mispredicts=0 stall_rate=0.0% PASS";
   "Caches L1 32KiB/8-way MESI hit=1 miss=1 rate=50.0% | L2 256KiB/8-way MESI hit=0 miss=0 rate=0.0% | L3 2048KiB/16-way MOESI hit=0 miss=0 rate=0.0% | MC DDR5 banks=16 row_hit=0.0% tCAS=16 hit=0 PASS";
   "Parallel warp scheduler 4x32 active=128 scheduled=1 stalls=1 | systolic 8x8 tiles=1 cycles=1 PASS"].
Definition tooling_lines : list string :=
  ["";
   "=== Verification & Tooling (standalone) ===";
   "Trace entries=1 vcd=build/trace.vcd csv=build/trace.csv PASS";
   "TLM b_transport delay=2 PASS";
   "FPGA FPGA backend=sim available=yes offloaded=1 fallback=0 bitstream=build/npu.bit PASS";
   "PMCs PMCs IPC=0.100 cyc=10 instr=1 br_miss=0 cache_miss_rate=16.7% tlb_miss=0 dma_B=0 warp_stall=0 tiles=0 PASS";
   "GDB stub running=1 PASS"].
Definition frontend_lines : list string :=
  [""; "=== Frontend Demo (C++ / SystemVerilog / Chisel) ===";
   "[C++] examples/coremark.cpp: C++ novium: annotations lowered (5 instrs)";
   "  -> target=cpp->cpu cycles=32 halted=1";
   "[SystemVerilog] examples/accel.sv: SystemVerilog → sv:npu_tile TILE=4 LANES=16 BW=64 (5 instrs)";
   "  -> target=sv:npu_tile cycles=26 halted=1";
   "[Chisel] examples/npu_tile.scala: Chisel → chisel->asic (5 instrs)";
   "  -> target=chisel->asic cycles=26 halted=1"].
Definition cpp_lines : list string :=
  ["C++ CoreMark frontend: examples/coremark.cpp: C++ novium: annotations lowered (5 instrs)";
   "C++ source → cycles=32 instrs=5 HALT PASS"].

Section Text.
Context (features : Host.features) (clock : nat -> Z).
(** Three of the seven blocks executed were in the cache. *)
Definition bench_line (n : nat) (label : string) (cycles : Z) : string :=
  Demo.bench_text label cycles (clock n) (ratio 3 7) true.
Definition coremark_text (n : nat) (target : string) (cycles : Z) : string :=
  Coremark.report (Coremark.make_result 100 (cycles * 100) 3400 true true (clock n) target
    (Host.host_feature_string features)).
Definition host_lines : list string :=
  [""; "=== Host Translation Layer ==="; "Host ISA: " +:+ Host.host_feature_string features;
   "Acceleration: enabled (host SIMD)"].
Definition all : string :=
  unlines silent_lines +:+ unlines verbose_lines +:+ unlines saved_lines +:+ unlines mmio_lines
  +:+ (unlines host_lines
       +:+ bench_line 0 "CPU (x86/ARM)" 83 +:+ bench_line 1 "GPU (warp32)" 56 +:+ bench_line 2 "ASIC (NPU)" 77
       +:+ unlines ["Host accel vs scalar: PASS (FP32 bit-identical)"])
  +:+ unlines architectural_lines +:+ unlines timing_lines +:+ unlines models_lines +:+ unlines tooling_lines
  +:+ unlines frontend_lines
  +:+ (unlines [""; "=== CoreMark Test Suite ==="]
       +:+ coremark_text 3 "cpu-x86-arm" 84 +:+ coremark_text 4 "gpu-warp32" 59 +:+ unlines cpp_lines)
  +:+ unlines [""; "=== All tests completed ==="].
End Text.
End Transcript.

(** ** What a program prints *)
Import Main Transcript.

Lemma append_empty (s : string) : (s +:+ "")%string = s.
Proof. induction s as [|a s IH]; [done|]. change (String a (s +:+ "") = String a s)%string. by rewrite IH. Qed.
Lemma append_assoc (s t u : string) : (s +:+ (t +:+ u) = (s +:+ t) +:+ u)%string.
Proof. induction s as [|a s IH]; [done|]. change (String a (s +:+ (t +:+ u)) = String a ((s +:+ t) +:+ u))%string. by rewrite IH. Qed.

(** [p] goes on with [a] having printed [t], whatever was printed before. *)
Definition prints {A} (p : Prog A) (a : A) (t : string) : Prop := forall out, p out = (inl a, (out +:+ t)%string).

Lemma prints_ret {A} (a : A) : prints (mret a) a "".
Proof. intros out. by rewrite append_empty. Qed.
Lemma prints_bind {A B} (p : Prog A) (k : A -> Prog B) a b t u :
  prints p a t -> prints (k a) b u -> prints (p ≫= k) b (t +:+ u)%string.
Proof.
  intros Hp Hk out. unfold mbind, prog_bind. rewrite Hp, Hk. f_equal. symmetry. apply append_assoc.
Qed.
Lemma prints_last {A B} (p : Prog A) (b : B) a t : prints p a t -> prints (p ≫= fun _ => mret b) b t.
Proof. intros Hp out. unfold mbind, prog_bind. by rewrite Hp. Qed.
Lemma prints_text {A} (p : Prog A) a t u : prints p a t -> t = u -> prints p a u.
Proof. by intros Hp <-. Qed.
Lemma prints_printf t : prints (printf t) tt t.
Proof. done. Qed.
Lemma prints_ended : prints (ended true) tt "".
Proof. intros out. by rewrite append_empty. Qed.
Definition spoken (s s' : Emulator) : string :=
  fold_right String.append ""%string (drop (List.length s.(stdout)) s'.(stdout)).
Lemma prints_machine {A} (m : M Emulator A) s a t :
  (m s).1 = Ok a -> spoken s (m s).2 = t -> prints (on_machine m s) (a, (m s).2) t.
Proof. intros Ha <- out. unfold on_machine. destruct (m s) as [r s']. cbn in Ha. by subst. Qed.
Lemma prints_section {A} (m : M unit A) f t :
  (exists a, (m tt).1 = Ok a /\ unlines (""%string :: f a) = t) -> prints (section m f) tt t.
Proof.
  intros (a & Ha & <-) out. unfold section. rewrite Ha. cbn [of_outcome]. unfold puts, printf.
  f_equal. symmetry. exact (append_assoc out Coremark.nl (unlines (f a))).
Qed.

(** Runs a machine by evaluation, then the rest of the section. *)
#[local] Ltac machine path :=
  eapply prints_bind; [destruct path; (apply prints_machine; [vm_compute; reflexivity|reflexivity])|cbn beta iota].
#[local] Ltac texts path := rewrite ?append_empty; destruct path; vm_compute; reflexivity.

Section Sections.
Context (path : HostPath) (features : Host.features) (clock : nat -> Z).

Lemma silent_prints : prints (silent path 60) (Demo.run_silent path 60 Demo.new_emulator).2 (unlines silent_lines).
Proof.
  eapply prints_text.
  - machine path. eapply prints_bind; [apply prints_ended|apply prints_ret].
  - texts path.
Qed.
Lemma verbose_prints : prints (verbose path 60) tt (unlines verbose_lines).
Proof. eapply prints_text; [machine path; apply prints_ended|texts path]. Qed.
Lemma saved_prints : prints (saved path 60) tt (unlines saved_lines).
Proof. eapply prints_text; [machine path; apply prints_ended|texts path]. Qed.
Lemma mmio_prints : prints mmio tt (unlines mmio_lines).
Proof.
  eapply prints_text; [eapply prints_bind; [apply prints_machine; [vm_compute; reflexivity|reflexivity]|apply prints_ret]|].
  vm_compute. reflexivity.
Qed.
Lemma accuracy_prints : prints (accuracy path 60) tt (unlines ["Host accel vs scalar: PASS (FP32 bit-identical)"]).
Proof.
  eapply prints_text.
  - machine path. eapply prints_bind; [apply prints_ended|]. machine path.
    eapply prints_bind; [apply prints_ended|apply prints_printf].
  - texts path.
Qed.

(** One profile: the run by evaluation, its line for any time. *)
Lemma bench_line_prints n label prof s1 :
  Demo.bench_run path 60 prof Demo.new_emulator = (Ok (true, Demo.matrix_b), s1) -> s1.(stdout) = [] ->
  prints (bench path 60 clock n label prof) tt
    (Demo.bench_text label (Profiler.cycles s1.(profiler_)) (clock n) (BlockCache.hit_rate s1.(block_cache_))
       (Demo.all_close Demo.matrix_b Demo.matrix_b)).
Proof.
  intros Hrun Hout out. unfold bench, mbind, prog_bind, on_machine, Demo.bench_target.
  rewrite (bind_ok _ _ _ _ _ Hrun). cbn -[Demo.bench_text Demo.all_close BlockCache.hit_rate Profiler.cycles].
  rewrite Hout. cbn -[Demo.bench_text Demo.all_close BlockCache.hit_rate Profiler.cycles].
  by rewrite append_empty.
Qed.
Lemma bench_prints n label prof cycles :
  (prof, cycles) ∈ [(make_cpu_profile, 83); (make_gpu_profile, 56); (make_asic_profile, 77)] ->
  prints (bench path 60 clock n label prof) tt (bench_line clock n label cycles).
Proof.
  intros Hin. pose (run := Demo.bench_run path 60 prof Demo.new_emulator).
  assert (Hrun : run.1 = Ok (true, Demo.matrix_b) /\ Profiler.cycles run.2.(profiler_) = cycles /\
                 BlockCache.hit_rate run.2.(block_cache_) = ratio 3 7 /\ run.2.(stdout) = []).
  { subst run. repeat (apply elem_of_cons in Hin as [[= -> ->]|Hin];
      [destruct path; vm_compute; repeat split; reflexivity|]). by apply elem_of_nil in Hin. }
  destruct Hrun as (H1 & H2 & H3 & H4). unfold bench_line. rewrite <- H2, <- H3.
  apply (bench_line_prints n label prof run.2); [|done]. rewrite <- H1. subst run. by destruct (Demo.bench_run _ _ _ _).
Qed.
Lemma host_prints : prints (host_layer path 60 features clock (Demo.run_silent path 60 Demo.new_emulator).2) tt
  (unlines (host_lines features)
   +:+ bench_line clock 0 "CPU (x86/ARM)" 83 +:+ bench_line clock 1 "GPU (warp32)" 56
   +:+ bench_line clock 2 "ASIC (NPU)" 77 +:+ unlines ["Host accel vs scalar: PASS (FP32 bit-identical)"])%string.
Proof.
  unfold host_layer. eapply prints_bind.
  - eapply prints_text; [apply prints_printf|].
    assert (Hr : BlockCache.hit_rate (block_cache_ (Demo.run_silent path 60 Demo.new_emulator).2) = S754_zero false)
      by (destruct path; vm_compute; reflexivity).
    unfold Demo.host_text. rewrite Hr. reflexivity.
  - repeat (eapply prints_bind; [apply bench_prints; repeat constructor|]). apply accuracy_prints.
Qed.
Lemma architectural_prints : prints (section architectural (fun l => l)) tt (unlines architectural_lines).
Proof. apply prints_section. eexists. split; [vm_compute; reflexivity|reflexivity]. Qed.
Lemma timing_prints : prints (section timing (fun l => l)) tt (unlines timing_lines).
Proof. apply prints_section. eexists. split; [vm_compute; reflexivity|reflexivity]. Qed.
Lemma models_prints : prints (section models (fun l => l)) tt (unlines models_lines).
Proof. apply prints_section. eexists. split; [vm_compute; reflexivity|reflexivity]. Qed.
Lemma tooling_prints can_open : prints (section (tooling can_open) (fun r => r.1.1)) tt (unlines tooling_lines).
Proof. apply prints_section. destruct can_open; (eexists; split; [vm_compute; reflexivity|reflexivity]). Qed.

Lemma prints_load {A} (l : load A) a : l = Loaded a -> prints (of_load l) a "".
Proof. intros -> out. by rewrite append_empty. Qed.
(** One source file: loading and running it by evaluation. *)
#[local] Ltac source path :=
  eapply prints_bind;
    [machine path; eapply prints_bind; [apply prints_ended|apply prints_ret]|cbn beta iota].
Lemma file_prints file lines :
  (file, lines) ∈ [("examples/coremark.cpp", take 2 (drop 2 frontend_lines));
                   ("examples/accel.sv", take 2 (drop 4 frontend_lines));
                   ("examples/npu_tile.scala", take 2 (drop 6 frontend_lines))]%string ->
  prints (frontend_file path 60 files file) tt (unlines lines).
Proof.
  intros Hin. repeat (apply elem_of_cons in Hin as [[= -> ->]|Hin];
    [eapply prints_text;
      [eapply prints_bind; [apply prints_load; vm_compute; reflexivity|cbn beta iota];
       eapply prints_bind; [apply prints_printf|]; source path; apply prints_printf
      |texts path]|]).
  by apply elem_of_nil in Hin.
Qed.
Lemma frontend_prints : prints (frontend_demo path 60 files) tt (unlines frontend_lines).
Proof.
  eapply prints_text.
  - eapply prints_bind; [apply prints_printf|]. do 2 (eapply prints_bind; [apply file_prints; repeat constructor|]).
    apply file_prints. repeat constructor.
  - reflexivity.
Qed.
Lemma coremark_prints n prof cost :
  (Emulator.set_target prof Demo.new_emulator, cost) ∈ Demo.measured ->
  prints (coremark path 60 features clock n prof) tt (coremark_text features clock n (Target.name prof) cost).
Proof.
  intros Hin out. pose proof (Demo.measured_periodic path true) as Hp. rewrite Forall_forall in Hp.
  destruct (Demo.coremark_run path true _ _ (Hp _ Hin) features (clock n) 100) as (s & Hs & Hq).
  { by eapply Demo.measured_cost. }
  { lia. }
  cbn [fst] in Hs. unfold coremark, mbind, prog_bind, on_machine. rewrite Hs. unfold coremark_text, printf.
  cbn [of_outcome]. rewrite Hq, drop_all. by rewrite append_empty.
Qed.
Lemma suite_prints : prints (coremark_suite path 60 features clock files) tt
  (unlines [""; "=== CoreMark Test Suite ==="]
   +:+ coremark_text features clock 3 "cpu-x86-arm" 84 +:+ coremark_text features clock 4 "gpu-warp32" 59
   +:+ unlines cpp_lines)%string.
Proof.
  eapply prints_bind; [apply prints_printf|].
  eapply prints_bind; [apply (coremark_prints 3 make_cpu_profile); unfold Demo.measured; set_solver|].
  eapply prints_bind; [apply (coremark_prints 4 make_gpu_profile); unfold Demo.measured; set_solver|].
  eapply prints_text.
  - eapply prints_bind; [apply prints_load; vm_compute; reflexivity|cbn beta iota].
    eapply prints_bind; [apply prints_printf|]. source path. apply prints_printf.
  - texts path.
Qed.
End Sections.

(** C40: the demonstration program. On the example sources of the
    repository, for every host kernel, set of host features, measured times
    and whether the tools' files open, [main] without arguments ends with
    status 0 within 60 instructions per run (no exception escapes, nothing
    undefined is met), having printed exactly the transcript above, in which
    only the host's name and the times vary; no line of it says FAIL (checked
    at times of 12 microseconds). With a file that cannot be read as its
    argument it prints the diagnostic and ends with status 1. *)
Theorem main_prints path features clock can_open :
  main path 60 features clock files can_open [] "" = (inl 0, Transcript.all features clock) /\
  contains "FAIL" (Transcript.all (Host.mkFeatures Host.X86_64 true false false false) (fun _ => 12)) = false /\
  (forall file read, read file = None ->
     main path 60 features clock read can_open [file] ""
     = (inl 1, "Frontend [Unknown]: cannot open " +:+ file +:+ Coremark.nl))%string.
Proof.
  split; [|split].
  - transitivity (inl 0 : Z + stop, ("" +:+ Transcript.all features clock)%string); [|done].
    apply (fun H => H : prints _ _ _). unfold main, Transcript.all.
    eapply prints_bind; [apply silent_prints|]. eapply prints_bind; [apply verbose_prints|].
    eapply prints_bind; [apply saved_prints|]. eapply prints_bind; [apply mmio_prints|].
    eapply prints_bind; [apply host_prints|]. eapply prints_bind; [apply architectural_prints|].
    eapply prints_bind; [apply timing_prints|]. eapply prints_bind; [apply models_prints|].
    eapply prints_bind; [apply tooling_prints|]. eapply prints_bind; [apply frontend_prints|].
    eapply prints_bind; [apply suite_prints|]. eapply prints_last, prints_printf.
  - vm_compute. reflexivity.
  - intros file read Hf. transitivity (inl 1 : Z + stop, ("" +:+ ("Frontend [Unknown]: cannot open " +:+ file +:+ Coremark.nl))%string); [|done].
    apply (fun H => H : prints _ _ _). eapply prints_text.
    + unfold main, cli. eapply prints_bind; [apply prints_load; unfold Frontend.load_file; rewrite Hf; reflexivity|].
      cbv beta. eapply prints_bind; [apply prints_printf|exact (prints_ret 1)].
    + rewrite append_empty. cbn [fold_right]. by rewrite append_empty.
Qed.
